(* ===== verification/_CoqProject ===== *)
-Q . S2P
Prelude.v
Unicode.v
FilterAst.v
FilterLex.v
FilterText.v
FilterTextFacts.v
FilterRoundTrip.v
FilterProps.v
JsNumber.v
Fields.v
FilterSem.v
BoundedFifo.v
RingBuffer.v
TailStore.v
TailSource.v
JsDate.v
TimeRange.v
TimeRangeProps.v
Utf8.v
Base64Url.v
FormUrl.v
UrlState.v
UrlStateProps.v
SourceTemplates.v
SourceForm.v
JsNumberFacts.v
JsExact.v
SourceFormProps.v
SourceClaims.v
Severity.v
ForwardForm.v
ForwardProps.v
ServiceCatalog.v
CatalogProps.v
Format.v
Analytics.v
ServiceTrends.v
AnalyticsProps.v
TrendChart.v
ApiClient.v
HostHistory.v
Hotkeys.v
Retention.v
Session.v
AnalysisViews.v
ServerViews.v
Assistant.v
QueryCache.v
ApiHooks.v
HooksProps.v
Router.v
RouterProps.v
Shell.v
ExplorerPage.v
ExplorerProps.v
QueryEditor.v
QueryEditorProps.v
ExplorerDialogs.v
DialogProps.v
LiveTailPage.v
AdminPages.v
MockLogs.v
MockLogsProps.v
MockAdmin.v
MockTargets.v
MockAdminProps.v
MockTargetProps.v
FormFields.v
SourceEditor.v
SourcePanels.v
SourceEditorProps.v
ForwardPage.v
ForwardPageProps.v
CatalogEditor.v
AnalyticsPage.v
Charts.v
LogTable.v
AssistantPanels.v
DashboardPage.v
SystemPage.v
