(* ===== verification/Prelude.v ===== *)
(** Verification of the Syslogc web console (src/frontend/src).

    Syslogc ingests syslog into VictoriaLogs; this library verifies the logic of
    its browser front end: the query language, the live tail, time ranges, the
    state kept in the address bar, the editors of sources, forward targets and
    the service catalog, the analytics and system pages, keyboard shortcuts,
    retention, preferences and the assistant, and the pages built on them: their
    state, their handlers, the requests they make and what the answers do.  The
    server is on the other side of the API types; the mock server of the
    repository stands for it where a theorem spans both sides.

    * How the language is modelled

    - A string is its list of UTF-16 code units ([jsstr]); [$"..."] writes the
      literal of the source, whatever its characters.
    - [throw] is the [Err] of [result]; [undefined] and [null] are [None];
      optional members are options.
    - A [number] is a binary64 ([Number], Stdlib's SpecFloat) wherever rounding,
      NaN or parsing can matter, and a [Z] or [nat] where it is an index, a
      length or an exact integer; JsNumber.v has parsing, printing, [toFixed]
      and the 32-bit operators.  A [Date] is its time value, [None] when
      invalid (JsDate.v).
    - An object used as a map is the association list of its own properties in
      insertion order, and so is a [Map]; a [Set] that is only queried is a
      list.  Integer-like keys, which engines iterate first, and the names
      every object inherits are not treated, except in Severity.v, where the
      sources use the [in] operator.
    - Module-level counters and closure variables are state passed explicitly;
      callbacks are recorded in a trace.
    - Code outside the repository is a parameter, a class of operations with
      the laws the sources rely on: the regular-expression engine
      ([RegExpEngine], FilterSem.v), time zones ([TimeZones], TimeRange.v),
      number and date formatting ([Locale], Format.v), the collation of
      [localeCompare] (Fields.v).
    - Regular expressions of the sources are written out as recognisers.

    * Parts, and the files that model them

    - Query language: FilterAst.v (AST), FilterLex.v ([tokenize], [quote]),
      FilterText.v ([parseFilter], [formatFilter]), from lib/filter-text.ts.
      FilterTextFacts.v and FilterRoundTrip.v have the lemmas, FilterProps.v the
      claims: text and AST round-trip, and parsing is total.  The descent runs
      on fuel [4 * tokens + 4], shown sufficient for every token list; the
      tokenizer on the length of its input.
    - Meaning and editing of filters: Fields.v (lib/fields.ts), FilterSem.v
      ([matchFilter] of mocks/data.ts, lib/filter-actions.ts, features/explorer):
      printing preserves meaning, negation inverts it, chips and the builder
      select what they say.
    - Live tail: BoundedFifo.v is the interface of a bounded queue with its
      laws; RingBuffer.v (lib/ring-buffer.ts) implements it; TailStore.v
      (features/live-tail/tailStore.ts) is a state machine proved against the
      interface; TailSource.v (tailSource.ts) is the reconnecting connection as
      a transition system with its invariant, finality of [close] and backoff.
    - Time: JsDate.v (the calendar and ISO strings), TimeRange.v
      (lib/time-range.ts, features/time-range), TimeRangeProps.v.
    - Links: Utf8.v, Base64Url.v (lib/base64url.ts), FormUrl.v
      ([URLSearchParams]), UrlState.v (lib/url-state.ts, saved searches),
      UrlStateProps.v: everything put into a URL is read back.
    - Sources: SourceTemplates.v and SourceForm.v
      (features/sources/source-form.ts), SourceFormProps.v (lemmas),
      SourceClaims.v: accepted forms are complete, saving is stable, complaints
      of the server are never lost.
    - Forward targets: Severity.v (lib/severity.ts), ForwardForm.v
      (features/forwarding/forward-form.ts), ForwardProps.v.
    - Service catalog: ServiceCatalog.v (features/analytics/service-catalog.ts,
      lib/country.ts), CatalogProps.v.
    - Analytics: Format.v (lib/format.ts), Analytics.v (analytics-query.ts),
      ServiceTrends.v (service-trends.ts), AnalyticsProps.v.
      TrendChart.v: the rows of a trend chart are the union of the timestamps of
      the series shown, each with the points of its own series.
    - Analysis views: AnalysisViews.v (features/analytics/analyses.ts,
      directory.ts) and ServerViews.v (mssql.ts, iis.ts): the codec, filter,
      explorer link, tiles and sentences of the Active Directory, SQL Server and
      IIS views, with the round trips of their codecs and links.
    - API client: ApiClient.v (api/client.ts), the errors the pages catch and
      the token and handler the client keeps.
    - System page: HostHistory.v (features/system/host.ts, host-history.ts,
      storage.ts, forwarding.ts): what is said about a window that
      is only partly covered.
    - Keyboard shortcuts: Hotkeys.v (lib/hotkeys.ts), a machine of renders,
      effects, presses and the timer: shortcuts only fire when pressed, and
      two-key shortcuts work.
    - Retention: Retention.v (features/settings/retention.ts): periods of whole
      units are read, checked, normalised and compared exactly.
    - Session.v: preferences (lib/preferences.ts), the redirect after login
      (lib/redirect.ts), password rules (features/auth/password.ts), the audit
      query (features/audit/audit-query.ts) and export names.
    - Assistant: Assistant.v (features/assistant/assistant.ts): running a
      proposal runs the filter that was shown.
    - Requests: QueryCache.v (the query cache, a class with its laws) and
      ApiHooks.v (api/hooks/index.ts: every query with its key and request, every
      mutation with what it refreshes), HooksProps.v: a key determines its
      request, a change leaves no wrong answer fresh, and paging is bounded.
    - Routing and shell: Router.v (app/router.tsx, the login and password pages),
      RouterProps.v: who sees which page, and that requests carry the token of the
      session on show, but for an answer that comes late; Shell.v (app/AppShell.tsx, app/CommandPalette.tsx).
    - Explorer: ExplorerPage.v (ExplorerPage.tsx) with ExplorerProps.v,
      QueryEditor.v (QueryBar.tsx, FilterBuilder.tsx, AdvancedEditor.tsx) with QueryEditorProps.v, and
      ExplorerDialogs.v (dialogs.tsx, FieldSidebar.tsx, TimePicker.tsx) with
      DialogProps.v: handlers on the page's state, the keys that filter and move,
      what typed text does to a query.
    - Live tail page: LiveTailPage.v (LiveTailPage.tsx): page,
      store and connection agree, and a render shows what the store has as
      soon as its frame has run.
    - Administration: AdminPages.v (users, API keys, settings, audit log).
    - Mock server (mocks/handlers.ts, mocks/data.ts), against which the console is
      developed and tested: MockLogs.v with MockLogsProps.v (searches, histograms,
      exports), MockAdmin.v and MockTargets.v with MockAdminProps.v and
      MockTargetProps.v (users, saved searches, forward targets, sources, the
      catalog): versions protect against lost updates, every reachable
      state is sound, and a saved search opens as it was saved.
    - Forms: FormFields.v has records edited by key (a class with its laws, which
      the source and the forward form implement), labelled fields with their
      errors (SourceFields.tsx, ChoiceCards.tsx) and rows with counted keys.
    - Source editor: SourceEditor.v (SourceDetailPage.tsx, TlsPanel.tsx) and
      SourcePanels.v (ExtractEditor.tsx, TemplateGuide.tsx, SourcesPage.tsx),
      SourceEditorProps.v: what is refused is explained on the page, rules keep
      their identity, and what the server stored is what the page shows next.
    - Forwarding page: ForwardPage.v (ForwardingPage.tsx,
      ForwardTargetDialog.tsx), ForwardPageProps.v: the page, the server and other
      people as one system, in which a target is started, stopped and deleted
      only by the control that says so.
    - Catalog editor: CatalogEditor.v (ServiceCatalogEditor.tsx):
      rows are never passed off as saved when they are not.
    - Analytics page: AnalyticsPage.v (AnalyticsPage.tsx, AnalyticsHeader.tsx,
      FieldPicker.tsx, ServiceTrendsView.tsx, CountList.tsx and the controls of
      DirectoryView.tsx, MSSQLView.tsx, IISView.tsx): a
      control changes its own setting and nothing else, and a row of the
      breakdown leads to the logs it counts.
    - Shared pieces: Charts.v (components/charts/index.tsx, data/common.tsx,
      lib/clipboard.ts): the bars of a histogram add up to what the
      server counted, a click on one leads to its logs, a highlighted text is
      the text.
    - Table and drawer: LogTable.v (ResultsTable.tsx, DetailDrawer.tsx,
      FilterChips.tsx): the drawer shows every field and its
      buttons filter by what it shows.
    - Assistant panels: AssistantPanels.v (AskPanel.tsx, ExplainFigures.tsx,
      ModelProse.tsx): only the button runs a query, the one
      that was shown; a description stands beside the figures it was written from.
    - Dashboard: DashboardPage.v (DashboardPage.tsx): a figure
      leads to the logs it counts.
    - System page: SystemPage.v (SystemPage.tsx, HostHistoryPanel.tsx).
    JsNumberFacts.v and JsExact.v have the facts on binary64 integers below 2^53:
    reading, printing, comparing, adding, multiplying, exact division and
    remainder are those of [Z].  This file has the notations, tactics and generic lemmas.

    * Interfaces between the parts

    The tail store knows its buffers only through [BoundedFifo] and its laws;
    the source and forward editors share the splitting of complaints; the
    explorer, the sources and the saved searches meet in [ExplorerSearch] and
    in the filter text, whose round trip (FilterRoundTrip.v) every link uses;
    ranges meet the date model through [TimeZones].  The pages know their forms
    through [KeyedForm], the stores of the mock server share [VersionedStore] with its
    laws, and the pages meet the cache through [QueryClient].

    * Not modelled

    What a page looks like (class names, layout, icons, flags, CSS), the HTTP
    transport and the generated types, zod's parsing of raw parameters, and the
    Go server: they draw, fetch or are third-party code.  Of the parts
    that are left out altogether (the highlighting of native queries, components that
    only wrap markup, the start of the mock server) the manifest lists each with
    its reason.  *)
From Stdlib Require Import ZArith NArith Lia.
From stdpp Require Import base list numbers strings gmap.

(** * Notations *)

(** A JavaScript string is its sequence of UTF-16 code units. *)
Abbreviation jsstr := (list N).

Declare Scope js_scope.
Delimit Scope js_scope with js.

(** Code units the sources name by their glyph. *)
Abbreviation TAB := 9%N.
Abbreviation LF := 10%N.
Abbreviation CR := 13%N.
Abbreviation SPACE := 32%N.
Abbreviation BANG := 33%N.
Abbreviation DQUOTE := 34%N.
Abbreviation DOLLAR := 36%N.
Abbreviation PERCENT := 37%N.
Abbreviation AMP := 38%N.
Abbreviation SQUOTE := 39%N.
Abbreviation LPAREN := 40%N.
Abbreviation RPAREN := 41%N.
Abbreviation STAR := 42%N.
Abbreviation PLUS := 43%N.
Abbreviation COMMA := 44%N.
Abbreviation MINUS := 45%N.
Abbreviation DOT := 46%N.
Abbreviation SLASH := 47%N.
Abbreviation COLON := 58%N.
Abbreviation SEMI := 59%N.
Abbreviation LESS := 60%N.
Abbreviation EQUALS := 61%N.
Abbreviation GREATER := 62%N.
Abbreviation QUESTION := 63%N.
Abbreviation LBRACK := 91%N.
Abbreviation BSLASH := 92%N.
Abbreviation RBRACK := 93%N.
Abbreviation CARET := 94%N.
Abbreviation UNDERSCORE := 95%N.
Abbreviation BACKTICK := 96%N.
Abbreviation BAR := 124%N.
Abbreviation TILDE := 126%N.

(** * String literals *)

(** The UTF-8 bytes of a source literal as UTF-16 code units; every literal
    of the sources is well-formed UTF-8, so malformed bytes are not treated. *)
Fixpoint utf16_of_bytes (bs : list N) : jsstr :=
  match bs with
  | [] => []
  | b0 :: r0 =>
      if (b0 <? 128)%N then b0 :: utf16_of_bytes r0
      else match r0 with
      | [] => []
      | b1 :: r1 =>
          if (b0 <? 224)%N then ((b0 - 192) * 64 + (b1 - 128))%N :: utf16_of_bytes r1
          else match r1 with
          | [] => []
          | b2 :: r2 =>
              if (b0 <? 240)%N
              then ((b0 - 224) * 4096 + (b1 - 128) * 64 + (b2 - 128))%N :: utf16_of_bytes r2
              else match r2 with
              | [] => []
              | b3 :: r3 =>
                  let cp := ((b0 - 240) * 262144 + (b1 - 128) * 4096 + (b2 - 128) * 64 + (b3 - 128) - 65536)%N in
                  (55296 + cp / 1024)%N :: (56320 + cp mod 1024)%N :: utf16_of_bytes r3
              end
          end
      end
  end.

Fixpoint bytes_of_string (s : string) : list N :=
  match s with
  | EmptyString => []
  | String a r => Ascii.N_of_ascii a :: bytes_of_string r
  end.

Definition js (s : string) : jsstr := utf16_of_bytes (bytes_of_string s).
Notation "$ s" := (js s%string) (at level 8, s constr at level 0, format "$ s") : js_scope.
Open Scope js_scope.

(** * Exceptions *)

(** A computation that may throw: a value or the exception. *)
Inductive result (E A : Type) : Type :=
| Ok (a : A)
| Err (e : E).
Arguments Ok {E A} a.
Arguments Err {E A} e.

#[export] Instance result_ret {E} : MRet (result E) := fun A a => Ok a.
#[export] Instance result_bind {E} : MBind (result E) :=
  fun A B f m => match m with Ok a => f a | Err e => Err e end.
#[export] Instance result_fmap {E} : FMap (result E) :=
  fun A B f m => match m with Ok a => Ok (f a) | Err e => Err e end.

#[export] Instance result_eq_dec {E A} `{EqDecision E, EqDecision A} : EqDecision (result E A).
Proof. solve_decision. Defined.

Definition is_ok {E A} (r : result E A) : bool := match r with Ok _ => true | Err _ => false end.

Lemma bind_ok {E A B} (m : result E A) (f : A → result E B) (b : B) :
  (m ≫= f) = Ok b ↔ ∃ a, m = Ok a ∧ f a = Ok b.
Proof. destruct m; simpl; naive_solver. Qed.

Lemma bind_err {E A B} (m : result E A) (f : A → result E B) (e : E) :
  (m ≫= f) = Err e ↔ m = Err e ∨ ∃ a, m = Ok a ∧ f a = Err e.
Proof. destruct m; simpl; naive_solver. Qed.

(** * Character classes *)

Definition in_range (lo hi c : N) : bool := (lo <=? c)%N && (c <=? hi)%N.

(** [\s], and what [trim] strips: WhiteSpace and LineTerminator of ECMA-262. *)
Definition is_space (c : N) : bool :=
  in_range 9 13 c || (c =? 32)%N || (c =? 160)%N || (c =? 5760)%N || in_range 8192 8202 c
  || (c =? 8232)%N || (c =? 8233)%N || (c =? 8239)%N || (c =? 8287)%N || (c =? 12288)%N || (c =? 65279)%N.

(** [.] of a regular expression without the [s] flag. *)
Definition is_line_terminator (c : N) : bool := (c =? 10)%N || (c =? 13)%N || (c =? 8232)%N || (c =? 8233)%N.

Definition is_digit (c : N) : bool := in_range 48 57 c.
Definition is_lower (c : N) : bool := in_range 97 122 c.
Definition is_upper (c : N) : bool := in_range 65 90 c.

(** * String operations of the language *)

Fixpoint drop_while {A} (p : A → bool) (l : list A) : list A :=
  match l with
  | [] => []
  | x :: r => if p x then drop_while p r else l
  end.

Fixpoint take_while {A} (p : A → bool) (l : list A) : list A :=
  match l with
  | [] => []
  | x :: r => if p x then x :: take_while p r else []
  end.

Definition trim_start (s : jsstr) : jsstr := drop_while is_space s.
Definition trim_end (s : jsstr) : jsstr := rev (drop_while is_space (rev s)).
Definition trim (s : jsstr) : jsstr := trim_end (trim_start s).

(** [s.startsWith(p)]. *)
Fixpoint starts_with (p s : jsstr) : bool :=
  match p, s with
  | [], _ => true
  | c :: p', d :: s' => (c =? d)%N && starts_with p' s'
  | _ :: _, [] => false
  end.

(** [s.includes(p)]. *)
Fixpoint includes (p s : jsstr) : bool :=
  starts_with p s || match s with [] => false | _ :: r => includes p r end.

(** [s.indexOf(c)] for a one-unit needle. *)
Fixpoint index_of (c : N) (s : jsstr) : option nat :=
  match s with
  | [] => None
  | d :: r => if (c =? d)%N then Some 0 else S <$> index_of c r
  end.

(** [s.split(re)] for a one-unit separator class. *)
Fixpoint split_on (p : N → bool) (s : jsstr) : list jsstr :=
  match s with
  | [] => [[]]
  | c :: r =>
      if p c then [] :: split_on p r
      else match split_on p r with
           | [] => [[c]]
           | w :: ws => (c :: w) :: ws
           end
  end.

(** [l.join(sep)]. *)
Fixpoint join {A} (sep : list A) (l : list (list A)) : list A :=
  match l with
  | [] => []
  | [w] => w
  | w :: r => w ++ sep ++ join sep r
  end.

(** [s.replace(/c/g, by)] for a one-unit pattern class. *)
Definition replace_units (p : N → bool) (by_ : jsstr) (s : jsstr) : jsstr :=
  s ≫= (λ c, if p c then by_ else [c]).

(** Truthiness of a string, and [s || d]. *)
Definition truthy (s : jsstr) : bool := match s with [] => false | _ => true end.
Definition or_else (s d : jsstr) : jsstr := if truthy s then s else d.
Definition or_undef (s : jsstr) : option jsstr := if truthy s then Some s else None.

(** [o ?? d] *)
Definition nullish {A} (o : option A) (d : A) : A := match o with Some a => a | None => d end.

(** First-occurrence order, as [Array.from(new Set(l))] keeps it. *)
Fixpoint dedup_from (seen l : list jsstr) : list jsstr :=
  match l with
  | [] => []
  | x :: r => if bool_decide (x ∈ seen) then dedup_from seen r else x :: dedup_from (x :: seen) r
  end.
Definition dedup (l : list jsstr) : list jsstr := dedup_from [] l.

(** * Decimal numerals *)

Fixpoint dec_go (fuel : nat) (n : N) (acc : jsstr) : jsstr :=
  match fuel with
  | 0 => acc
  | S f =>
      let acc' := (48 + n mod 10)%N :: acc in
      if (n / 10 =? 0)%N then acc' else dec_go f (n / 10)%N acc'
  end.

(** [String(n)] of a non-negative integer below 10^21. *)
Definition dec (n : N) : jsstr := dec_go (S (N.size_nat n)) n [].
Definition decn (n : nat) : jsstr := dec (N.of_nat n).
Definition decz (z : Z) : jsstr :=
  match z with
  | Z0 => dec 0
  | Zpos p => dec (Npos p)
  | Zneg p => MINUS :: dec (Npos p)
  end.

(** The number a run of decimal digits denotes. *)
Definition digits_val (s : jsstr) : N := fold_left (λ a c, (a * 10 + (c - 48))%N) s 0%N.

#[global] Arguments is_space : simpl never.
#[global] Arguments is_digit : simpl never.
#[global] Arguments in_range : simpl never.
#[global] Arguments dec : simpl never.
#[global] Arguments js : simpl never.

(** * Automation *)

Create HintDb syslog.

(** A decidable closed statement, by evaluation. *)
Ltac vm_decide := apply (bool_decide_unpack _); vm_compute; exact I.

Ltac btrue :=
  repeat match goal with
  | H : (_ && _) = true |- _ => apply andb_prop in H as [? ?]
  | H : (_ || _) = false |- _ => apply orb_false_elim in H as [? ?]
  | H : negb _ = true |- _ => apply negb_true_iff in H
  | H : negb _ = false |- _ => apply negb_false_iff in H
  | H : (_ <=? _)%N = true |- _ => apply N.leb_le in H
  | H : (_ <=? _)%N = false |- _ => apply N.leb_gt in H
  | H : (_ <? _)%N = true |- _ => apply N.ltb_lt in H
  | H : (_ <? _)%N = false |- _ => apply N.ltb_ge in H
  | H : (_ =? _)%N = true |- _ => apply N.eqb_eq in H
  | H : (_ =? _)%N = false |- _ => apply N.eqb_neq in H
  end.

(** Decides a goal about code units by the ranges of its hypotheses. *)
Ltac units :=
  unfold in_range in *;
  repeat match goal with
  | H : (_ || _) = true |- _ => apply orb_prop in H as [H|H]
  | H : (_ && _) = false |- _ => apply andb_false_iff in H as [H|H]
  | |- (_ && _) = true => apply andb_true_intro; split
  | |- (_ && _) = false => apply andb_false_iff
  | |- (_ || _) = true => apply orb_true_iff
  | |- (_ || _) = false => apply orb_false_intro
  | |- context [(?a <=? ?b)%N] => destruct (N.leb_spec a b)
  | |- context [(?a <? ?b)%N] => destruct (N.ltb_spec a b)
  | |- context [(?a =? ?b)%N] => destruct (N.eqb_spec a b)
  end; btrue; try (first [lia | exfalso; lia | intuition lia]).

(** Computes the string literals of the goal or of the hypotheses. *)
Ltac lits :=
  repeat match goal with
  | |- context [js ?s] => let v := eval vm_compute in (js s) in change (js s) with v
  | H : context [js ?s] |- _ => let v := eval vm_compute in (js s) in change (js s) with v in H
  end.

(** Inverts every bind that is known to have succeeded. *)
Ltac invert_ok :=
  repeat match goal with
  | H : mbind _ _ = Ok _ |- _ => apply bind_ok in H as (? & ? & H)
  | H : Ok _ = Ok _ |- _ => injection H as H
  | H : mret _ = Ok _ |- _ => injection H as H
  | H : Err _ = Ok _ |- _ => discriminate H
  | p : _ * _ |- _ => destruct p
  end; simplify_eq/=.

(** * Lemmas on lists and strings *)

Section drop_while.
Context {A : Type} (p : A → bool).

Lemma take_drop_while l : take_while p l ++ drop_while p l = l.
Proof. induction l as [|x l IH]; simpl; [done|]. destruct (p x); simpl; congruence. Qed.

Lemma length_drop_while l : length (drop_while p l) ≤ length l.
Proof. induction l as [|x l IH]; simpl; [done|]. destruct (p x); simpl; lia. Qed.

Lemma take_while_all l : Forall (λ x, p x = true) (take_while p l).
Proof. induction l as [|x l IH]; simpl; [constructor|]. destruct (p x) eqn:E; by constructor. Qed.

Lemma drop_while_head l x r : drop_while p l = x :: r → p x = false.
Proof. induction l as [|y l IH]; simpl; [done|]. destruct (p y) eqn:E; naive_solver. Qed.

Lemma drop_while_nop l : (∀ x r, l = x :: r → p x = false) → drop_while p l = l.
Proof. destruct l as [|x l]; simpl; [done|]. intros H. by rewrite (H x l eq_refl). Qed.

Lemma drop_while_idem l : drop_while p (drop_while p l) = drop_while p l.
Proof. apply drop_while_nop. intros x r E. by eapply drop_while_head. Qed.

Lemma drop_while_nil l : drop_while p l = [] ↔ Forall (λ x, p x = true) l.
Proof.
  induction l as [|x l IH]; simpl; [split; [constructor | done]|].
  rewrite Forall_cons. destruct (p x); naive_solver.
Qed.

Lemma take_while_app l r :
  Forall (λ x, p x = true) l → (∀ x r', r = x :: r' → p x = false) → take_while p (l ++ r) = l.
Proof.
  induction 1 as [|x l Hx _ IH]; simpl; intros Hr.
  - destruct r as [|x r]; simpl; [done|]. by rewrite (Hr x r eq_refl).
  - rewrite Hx. f_equal. auto.
Qed.

Lemma drop_while_app l r :
  Forall (λ x, p x = true) l → (∀ x r', r = x :: r' → p x = false) → drop_while p (l ++ r) = r.
Proof.
  induction 1 as [|x l Hx _ IH]; simpl; intros Hr; [by apply drop_while_nop|]. rewrite Hx. auto.
Qed.
End drop_while.

Lemma trim_start_nil s : trim_start s = [] ↔ Forall (λ c, is_space c = true) s.
Proof. apply drop_while_nil. Qed.

Lemma trim_nil s : trim s = [] ↔ Forall (λ c, is_space c = true) s.
Proof.
  unfold trim, trim_end. rewrite <- trim_start_nil. split.
  - intros H%(f_equal (@rev N)). rewrite rev_involutive in H. simpl in H.
    apply drop_while_nil in H. apply Forall_rev in H. rewrite rev_involutive in H.
    destruct (trim_start s) as [|c r] eqn:E; [done|].
    apply Forall_cons in H as [H _]. unfold trim_start in E. apply drop_while_head in E. congruence.
  - by intros ->.
Qed.

Lemma join_cons {A} (sep : list A) w l : join sep (w :: l) = w ++ (l ≫= λ x, sep ++ x).
Proof.
  revert w. induction l as [|x l IH]; intros w; [simpl; by rewrite app_nil_r|].
  change (join sep (w :: x :: l)) with (w ++ sep ++ join sep (x :: l)).
  rewrite IH, bind_cons. by rewrite !app_assoc.
Qed.

(** * Lemmas on numerals *)

Lemma digits_val_snoc s c : digits_val (s ++ [c]) = (digits_val s * 10 + (c - 48))%N.
Proof. unfold digits_val. by rewrite fold_left_app. Qed.

Lemma size_nat_le a b : (a ≤ b)%N → (N.size_nat a ≤ N.size_nat b)%nat.
Proof.
  intros H. destruct (N.eq_dec a b) as [->|Hne]; [done|].
  destruct a as [|p], b as [|q]; simpl; try lia. apply Pos.size_nat_monotone. lia.
Qed.

Lemma size_nat_half a n : (a ≤ n / 2)%N → n ≠ 0%N → (N.size_nat a < N.size_nat n)%nat.
Proof.
  rewrite <- N.div2_div. intros H%size_nat_le Hn. destruct n as [|[p|p|]]; [done| | |]; simpl in *; lia.
Qed.

Lemma dec_go_spec f n acc :
  (N.size_nat n < f)%nat →
  ∃ ds, dec_go f n acc = ds ++ acc ∧ digits_val ds = n ∧ forallb is_digit ds = true ∧ ds ≠ [].
Proof.
  revert n acc. induction f as [|f IH]; intros n acc Hf; [lia|]. cbn [dec_go].
  assert (is_digit (48 + n mod 10) = true) as Hd.
  { unfold is_digit, in_range. pose proof (N.mod_lt n 10 ltac:(done)) as Hm. revert Hm.
    generalize (n mod 10)%N. intros m Hm. apply andb_true_intro. split; apply N.leb_le; lia. }
  destruct (N.eqb_spec (n / 10) 0) as [E|E].
  - exists [(48 + n mod 10)%N]. split_and!; [done| |by cbn; rewrite Hd|done].
    etrans; [apply (digits_val_snoc [])|]. pose proof (N.div_mod n 10 ltac:(done)) as Hn.
    rewrite E in Hn. change (digits_val []) with 0%N. revert Hn. generalize (n mod 10)%N. lia.
  - destruct (IH (n / 10)%N ((48 + n mod 10)%N :: acc)) as (ds & E1 & E2 & E3 & E4).
    { assert (n / 10 <= n / 2)%N as Hle by (apply N.div_le_compat_l; lia).
      enough (N.size_nat (n / 10) < N.size_nat n)%nat by lia.
      apply size_nat_half in Hle; [lia|]. intros ->. done. }
    exists (ds ++ [(48 + n mod 10)%N]). rewrite <- app_assoc. split_and!; [done| | |by destruct ds].
    + rewrite digits_val_snoc, E2. pose proof (N.div_mod n 10 ltac:(done)) as Hn. revert Hn.
      generalize (n mod 10)%N (n / 10)%N. lia.
    + rewrite forallb_app, E3. cbn. by rewrite Hd.
Qed.

Lemma dec_val n : digits_val (dec n) = n.
Proof.
  destruct (dec_go_spec (S (N.size_nat n)) n []) as (ds & E & V & _); [lia|].
  unfold dec. by rewrite E, app_nil_r.
Qed.

Lemma dec_digits n : forallb is_digit (dec n) = true.
Proof.
  destruct (dec_go_spec (S (N.size_nat n)) n []) as (ds & E & _ & D & _); [lia|].
  unfold dec. by rewrite E, app_nil_r.
Qed.

Lemma dec_nonempty n : dec n ≠ [].
Proof.
  destruct (dec_go_spec (S (N.size_nat n)) n []) as (ds & E & _ & _ & D); [lia|].
  unfold dec. by rewrite E, app_nil_r.
Qed.

Lemma dec_go_length f n acc k :
  (n < 10 ^ N.of_nat (S k))%N → length (dec_go f n acc) ≤ S k + length acc.
Proof.
  revert n acc k. induction f as [|f IH]; intros n acc k Hn; simpl; [lia|].
  destruct (N.eqb_spec (n / 10) 0); [simpl; lia|]. destruct k as [|k].
  { exfalso. apply n0. apply N.div_small. exact Hn. }
  etrans; [apply (IH _ _ k)|simpl; lia]. apply N.Div0.div_lt_upper_bound.
  rewrite Nat2N.inj_succ, N.pow_succ_r' in Hn. exact Hn.
Qed.

Lemma dec_length n k : (n < 10 ^ N.of_nat (S k))%N → length (dec n) ≤ S k.
Proof. intros Hn. unfold dec. etrans; [by apply (dec_go_length _ _ _ k)|simpl; lia]. Qed.

Lemma digits_val_zeros j s : digits_val (replicate j 48%N ++ s) = digits_val s.
Proof. unfold digits_val. induction j as [|j IH]; simpl; [done|]. exact IH. Qed.

Lemma forallb_replicate {A} (p : A → bool) n x : p x = true → forallb p (replicate n x) = true.
Proof. intros Hx. induction n as [|n IH]; simpl; [done|]. by rewrite Hx. Qed.

(** * Trimming and splitting *)

Lemma trim_id s c r c' r' :
  s = c :: r → is_space c = false → rev s = c' :: r' → is_space c' = false → trim s = s.
Proof.
  intros -> Hc Hr Hc'. unfold trim, trim_end, trim_start. cbn [drop_while]. rewrite Hc.
  rewrite Hr. cbn [drop_while]. rewrite Hc', <- Hr. apply rev_involutive.
Qed.

Lemma trim_head s c r : trim s = c :: r → is_space c = false.
Proof.
  unfold trim, trim_end. intros E. destruct (trim_start s) as [|c' r'] eqn:Es; [done|].
  assert (is_space c' = false) as Hc' by (by eapply drop_while_head).
  assert (c = c') as ->; [|done].
  assert (∃ k, c' :: r' = (c :: r) ++ k) as [k Hk].
  { exists (rev (take_while is_space (rev (c' :: r')))). rewrite <- E, <- rev_app_distr, take_drop_while.
    by rewrite rev_involutive. }
  by injection Hk.
Qed.

Lemma trim_idem s : trim (trim s) = trim s.
Proof.
  destruct (trim s) as [|c r] eqn:E; [done|]. pose proof (trim_head s c r E) as Hc.
  destruct (rev (c :: r)) as [|c' r'] eqn:Er; [by apply (f_equal length) in Er; rewrite length_rev in Er|].
  eapply trim_id; try done. rewrite <- E in Er. unfold trim, trim_end in Er. rewrite rev_involutive in Er.
  by eapply drop_while_head.
Qed.

Lemma trim_prefix s : ∃ l r, s = l ++ trim s ++ r ∧ Forall (λ c, is_space c = true) l.
Proof.
  exists (take_while is_space s), (rev (take_while is_space (rev (trim_start s)))). split; [|apply take_while_all].
  rewrite <- (take_drop_while is_space s) at 1. f_equal. unfold trim, trim_end. rewrite <- rev_app_distr, take_drop_while.
  by rewrite rev_involutive.
Qed.

Lemma split_on_app p w c r : forallb (λ c, negb (p c)) w = true → p c = true → split_on p (w ++ c :: r) = w :: split_on p r.
Proof.
  intros Hw Hc. induction w as [|d w IH]; simpl; [by rewrite Hc|]. simpl in Hw. apply andb_prop in Hw as [Hd Hw].
  apply negb_true_iff in Hd. rewrite Hd. by rewrite IH.
Qed.

Lemma split_on_none p w : forallb (λ c, negb (p c)) w = true → split_on p w = [w].
Proof.
  induction w as [|d w IH]; simpl; [done|]. intros [Hd Hw]%andb_prop. apply negb_true_iff in Hd. rewrite Hd. by rewrite IH.
Qed.

Lemma split_on_join p c ws :
  p c = true → ws ≠ [] → Forall (λ w, forallb (λ c, negb (p c)) w = true) ws → split_on p (join [c] ws) = ws.
Proof.
  intros Hc Hne Hws. induction Hws as [|w ws Hw Hws IH]; [done|]. destruct ws as [|w' ws]; [by apply split_on_none|].
  change (join [c] (w :: w' :: ws)) with (w ++ c :: join [c] (w' :: ws)). rewrite split_on_app by done. by rewrite IH.
Qed.

Lemma filter_truthy l : Forall (λ c, truthy c = true) l → List.filter truthy l = l.
Proof. induction 1 as [|c l Hc _ IH]; [done|]. simpl. rewrite Hc. by f_equal. Qed.

Lemma trim_last s l c : trim s = l ++ [c] → is_space c = false.
Proof.
  unfold trim, trim_end. intros E%(f_equal (@rev N)). rewrite rev_involutive, rev_unit in E. by apply drop_while_head in E.
Qed.

(** Trimmed parts around a unit that is not blank are trimmed together. *)
Lemma trim_app k m v : trim k = k → k ≠ [] → trim v = v → is_space m = false → trim (k ++ m :: v) = k ++ m :: v.
Proof.
  intros Hk Hne Hv Hm. destruct k as [|c k]; [done|].
  assert (∃ c' r', rev ((c :: k) ++ m :: v) = c' :: r' ∧ is_space c' = false) as (c' & r' & Hr & Hc').
  { destruct v as [|x v _] using rev_ind.
    - exists m, (rev (c :: k)). by rewrite rev_unit.
    - exists x, (rev ((c :: k) ++ m :: v)). rewrite <- rev_unit, <- app_assoc. split; [done|]. by apply trim_last in Hv. }
  eapply trim_id; [reflexivity| |exact Hr|done]. by apply trim_head in Hk.
Qed.

Lemma trim_units p s : forallb p s = true → forallb p (trim s) = true.
Proof.
  intros H. destruct (trim_prefix s) as (l & r & E & _). rewrite E, !forallb_app in H. btrue. done.
Qed.

Lemma split_on_units p s : Forall (λ w, forallb (λ c, negb (p c)) w = true) (split_on p s).
Proof.
  induction s as [|c s IH]; [by repeat constructor|]. cbn [split_on]. destruct (p c) eqn:E; [by constructor|].
  destruct IH as [|w ws Hw Hws]; [constructor; [|constructor]|constructor; [|done]]; simpl; by rewrite E.
Qed.

Lemma index_of_app c k v : forallb (λ d, negb (c =? d)%N) k = true → index_of c (k ++ c :: v) = Some (length k).
Proof.
  induction k as [|d k IH]; cbn [app index_of forallb]; [by rewrite N.eqb_refl|]. intros [Hd Hk]%andb_prop.
  apply negb_true_iff in Hd. by rewrite Hd, IH.
Qed.

Lemma index_of_take c s k : index_of c s = Some k → forallb (λ d, negb (c =? d)%N) (take k s) = true.
Proof.
  revert k. induction s as [|d s IH]; intros k; [done|]. cbn [index_of]. destruct (c =? d)%N eqn:E; [by intros [= <-]|].
  destruct (index_of c s) as [j|]; [|done]. intros [= <-]. simpl. rewrite E. simpl. auto.
Qed.

(** * First occurrences *)

Lemma dedup_from_nodup seen l :
  NoDup (dedup_from seen l) ∧ (∀ x, x ∈ dedup_from seen l → x ∈ l ∧ x ∉ seen).
Proof.
  revert seen. induction l as [|x l IH]; intros seen; cbn [dedup_from]; [split; [constructor|by intros x ?%elem_of_nil]|].
  case_bool_decide as Hx.
  - destruct (IH seen) as [H1 H2]. split; [done|]. intros y Hy. destruct (H2 y Hy). split; [by right|done].
  - destruct (IH (x :: seen)) as [H1 H2]. split.
    + constructor; [|done]. intros Hin. destruct (H2 x Hin) as [_ Hn]. apply Hn. left.
    + intros y [->|Hy]%elem_of_cons; [split; [left|done]|]. destruct (H2 y Hy) as [? Hn].
      split; [by right|]. intros Hs. apply Hn. by right.
Qed.

Lemma dedup_from_id seen l : NoDup l → (∀ x, x ∈ l → x ∉ seen) → dedup_from seen l = l.
Proof.
  revert seen. induction l as [|x l IH]; intros seen; [done|]. intros [Hx Hd]%NoDup_cons Hs. cbn [dedup_from].
  rewrite bool_decide_eq_false_2 by (apply Hs; left). f_equal. apply IH; [done|]. intros y Hy [->|Hin]%elem_of_cons; [done|].
  apply (Hs y); [by right|done].
Qed.

(** * Objects used as maps: own properties in insertion order *)

Section assoc.
Context {K A : Type} `{EqDecision K}.

(** [o\[k\]] *)
Fixpoint assoc_get (o : list (K * A)) (k : K) : option A :=
  match o with
  | [] => None
  | (k', v) :: r => if decide (k' = k) then Some v else assoc_get r k
  end.

(** [o\[k\] = v]: in place when the property exists. *)
Fixpoint assoc_set (o : list (K * A)) (k : K) (v : A) : list (K * A) :=
  match o with
  | [] => [(k, v)]
  | (k', v') :: r => if decide (k' = k) then (k, v) :: r else (k', v') :: assoc_set r k v
  end.

Lemma assoc_get_set_eq o k v : assoc_get (assoc_set o k v) k = Some v.
Proof.
  induction o as [|[k' v'] o IH]; simpl; [by rewrite decide_True|].
  case_decide; simpl; [by rewrite decide_True|by rewrite decide_False].
Qed.

Lemma assoc_get_set_ne o k k' v : k ≠ k' → assoc_get (assoc_set o k v) k' = assoc_get o k'.
Proof.
  intros Hne. induction o as [|[k0 v0] o IH]; simpl; [by rewrite decide_False|].
  case_decide; simpl; [subst; by rewrite !decide_False|]. by rewrite IH.
Qed.

Lemma assoc_set_in o k v x : x ∈ (assoc_set o k v).*1 ↔ x = k ∨ x ∈ o.*1.
Proof.
  induction o as [|[k' v'] o IH]; simpl; [by rewrite list_elem_of_singleton, elem_of_nil; naive_solver|].
  case_decide; simpl; rewrite !elem_of_cons; naive_solver.
Qed.

Lemma assoc_set_nodup o k v : NoDup o.*1 → NoDup (assoc_set o k v).*1.
Proof.
  induction o as [|[k' v'] o IH]; simpl; [intros _; apply NoDup_singleton|]. intros [Hn Hd]%NoDup_cons.
  case_decide; simpl; [subst; by constructor|]. constructor; [|auto]. rewrite assoc_set_in. intros [?|?]; [congruence|done].
Qed.

Lemma assoc_set_forall (Q : K * A → Prop) o k v : Forall Q o → Q (k, v) → Forall Q (assoc_set o k v).
Proof. induction 1 as [|[k' v'] o H0 Ho IH]; intros Hq; simpl; [by constructor|]. case_decide; constructor; auto. Qed.

Lemma assoc_get_elem o k v : NoDup o.*1 → (k, v) ∈ o ↔ assoc_get o k = Some v.
Proof.
  induction o as [|[k' v'] o IH]; simpl; [by rewrite elem_of_nil|]. intros [Hn Hd]%NoDup_cons. rewrite elem_of_cons, IH by done.
  case_decide as E; [subst|naive_solver]. split; [|naive_solver]. intros [[= ->]|H]; [done|]. exfalso. apply Hn.
  apply IH in H; [|done]. apply list_elem_of_fmap. by exists (k, v).
Qed.

Lemma assoc_set_ne o k v : assoc_set o k v ≠ [].
Proof. destruct o as [|[k' v'] o]; simpl; [done|]. by case_decide. Qed.
End assoc.

(** What a map filled from a list holds: the last value of every key. *)
Lemma assoc_get_fold {K A B} `{EqDecision K} (key : B → K) (val : B → A) l o k :
  assoc_get (fold_left (λ m x, assoc_set m (key x) (val x)) l o) k =
  match List.find (λ x, bool_decide (key x = k)) (rev l) with Some x => Some (val x) | None => assoc_get o k end.
Proof.
  induction l as [|x l IH] using rev_ind; [done|]. rewrite fold_left_app, rev_unit. cbn [fold_left List.find].
  case_bool_decide as E; [by rewrite E, assoc_get_set_eq|]. by rewrite assoc_get_set_ne.
Qed.
