(* ===== verification/Unicode.v ===== *)
(** Code points and the case mapping of the language.

    [code_points] and [code_units] go between the UTF-16 code units of a
    JavaScript string and Unicode code points (an unpaired surrogate is a code
    point of its own, as [String.prototype] iteration treats it).
    [to_lower] and [to_upper] are [toLowerCase] and [toUpperCase]: the
    locale-independent mapping of the Unicode Character Database (version 14),
    with its one-to-many entries and its single context-dependent rule, the final
    form of the Greek capital sigma. *)
From Stdlib Require Import ZArith NArith Lia.
From stdpp Require Import base list numbers strings.
From S2P Require Import Prelude.

(** * Code units and code points *)

Definition is_high (u : N) : bool := in_range 55296 56319 u.
Definition is_low (u : N) : bool := in_range 56320 57343 u.

Fixpoint code_points (s : jsstr) : list N :=
  match s with
  | [] => []
  | u :: r =>
      match r with
      | v :: r' =>
          if is_high u && is_low v
          then (65536 + (u - 55296) * 1024 + (v - 56320))%N :: code_points r'
          else u :: code_points r
      | [] => [u]
      end
  end.

Definition unit_of_cp (c : N) : jsstr :=
  if (c <? 65536)%N then [c]
  else [(55296 + (c - 65536) / 1024)%N; (56320 + (c - 65536) mod 1024)%N].

Definition code_units (cps : list N) : jsstr := cps ≫= unit_of_cp.

(** * Case mapping tables *)

(** Lower-case mapping: (first, last, step, offset) runs of code points. *)
Definition lower_runs : list (Z * Z * Z * Z) := [
    (65,90,1,32); (192,214,1,32); (216,222,1,32); (256,302,2,1); (306,310,2,1); (313,327,2,1); (330,374,2,1);
    (376,376,1,-121); (377,381,2,1); (385,385,1,210); (386,388,2,1); (390,390,1,206); (391,391,1,1);
    (393,394,1,205); (395,395,1,1); (398,398,1,79); (399,399,1,202); (400,400,1,203); (401,401,1,1);
    (403,403,1,205); (404,404,1,207); (406,406,1,211); (407,407,1,209); (408,408,1,1); (412,412,1,211);
    (413,413,1,213); (415,415,1,214); (416,420,2,1); (422,422,1,218); (423,423,1,1); (425,425,1,218); (428,428,1,1);
    (430,430,1,218); (431,431,1,1); (433,434,1,217); (435,437,2,1); (439,439,1,219); (440,440,1,1); (444,444,1,1);
    (452,452,1,2); (453,453,1,1); (455,455,1,2); (456,456,1,1); (458,458,1,2); (459,475,2,1); (478,494,2,1);
    (497,497,1,2); (498,500,2,1); (502,502,1,-97); (503,503,1,-56); (504,542,2,1); (544,544,1,-130); (546,562,2,1);
    (570,570,1,10795); (571,571,1,1); (573,573,1,-163); (574,574,1,10792); (577,577,1,1); (579,579,1,-195);
    (580,580,1,69); (581,581,1,71); (582,590,2,1); (880,882,2,1); (886,886,1,1); (895,895,1,116); (902,902,1,38);
    (904,906,1,37); (908,908,1,64); (910,911,1,63); (913,929,1,32); (931,939,1,32); (975,975,1,8); (984,1006,2,1);
    (1012,1012,1,-60); (1015,1015,1,1); (1017,1017,1,-7); (1018,1018,1,1); (1021,1023,1,-130); (1024,1039,1,80);
    (1040,1071,1,32); (1120,1152,2,1); (1162,1214,2,1); (1216,1216,1,15); (1217,1229,2,1); (1232,1326,2,1);
    (1329,1366,1,48); (4256,4293,1,7264); (4295,4295,1,7264); (4301,4301,1,7264); (5024,5103,1,38864);
    (5104,5109,1,8); (7312,7354,1,-3008); (7357,7359,1,-3008); (7680,7828,2,1); (7838,7838,1,-7615);
    (7840,7934,2,1); (7944,7951,1,-8); (7960,7965,1,-8); (7976,7983,1,-8); (7992,7999,1,-8); (8008,8013,1,-8);
    (8025,8031,2,-8); (8040,8047,1,-8); (8072,8079,1,-8); (8088,8095,1,-8); (8104,8111,1,-8); (8120,8121,1,-8);
    (8122,8123,1,-74); (8124,8124,1,-9); (8136,8139,1,-86); (8140,8140,1,-9); (8152,8153,1,-8); (8154,8155,1,-100);
    (8168,8169,1,-8); (8170,8171,1,-112); (8172,8172,1,-7); (8184,8185,1,-128); (8186,8187,1,-126);
    (8188,8188,1,-9); (8486,8486,1,-7517); (8490,8490,1,-8383); (8491,8491,1,-8262); (8498,8498,1,28);
    (8544,8559,1,16); (8579,8579,1,1); (9398,9423,1,26); (11264,11311,1,48); (11360,11360,1,1);
    (11362,11362,1,-10743); (11363,11363,1,-3814); (11364,11364,1,-10727); (11367,11371,2,1);
    (11373,11373,1,-10780); (11374,11374,1,-10749); (11375,11375,1,-10783); (11376,11376,1,-10782);
    (11378,11378,1,1); (11381,11381,1,1); (11390,11391,1,-10815); (11392,11490,2,1); (11499,11501,2,1);
    (11506,11506,1,1); (42560,42604,2,1); (42624,42650,2,1); (42786,42798,2,1); (42802,42862,2,1);
    (42873,42875,2,1); (42877,42877,1,-35332); (42878,42886,2,1); (42891,42891,1,1); (42893,42893,1,-42280);
    (42896,42898,2,1); (42902,42920,2,1); (42922,42922,1,-42308); (42923,42923,1,-42319); (42924,42924,1,-42315);
    (42925,42925,1,-42305); (42926,42926,1,-42308); (42928,42928,1,-42258); (42929,42929,1,-42282);
    (42930,42930,1,-42261); (42931,42931,1,928); (42932,42946,2,1); (42948,42948,1,-48); (42949,42949,1,-42307);
    (42950,42950,1,-35384); (42951,42953,2,1); (42960,42960,1,1); (42966,42968,2,1); (42997,42997,1,1);
    (65313,65338,1,32); (66560,66599,1,40); (66736,66771,1,40); (66928,66964,2,39); (66929,66937,2,39);
    (66941,66953,2,39); (66957,66961,2,39); (66965,66965,1,39); (68736,68786,1,64); (71840,71871,1,32);
    (93760,93791,1,32); (125184,125217,1,34)]%Z.

(** Code points whose lower case is several code points. *)
Definition lower_special : list (N * list N) := [
    (304,[105;775])]%N.

(** Upper-case mapping, in the same form. *)
Definition upper_runs : list (Z * Z * Z * Z) := [
    (97,122,1,-32); (181,181,1,743); (224,246,1,-32); (248,254,1,-32); (255,255,1,121); (257,303,2,-1);
    (305,305,1,-232); (307,311,2,-1); (314,328,2,-1); (331,375,2,-1); (378,382,2,-1); (383,383,1,-300);
    (384,384,1,195); (387,389,2,-1); (392,392,1,-1); (396,396,1,-1); (402,402,1,-1); (405,405,1,97); (409,409,1,-1);
    (410,410,1,163); (414,414,1,130); (417,421,2,-1); (424,424,1,-1); (429,429,1,-1); (432,432,1,-1);
    (436,438,2,-1); (441,441,1,-1); (445,445,1,-1); (447,447,1,56); (453,453,1,-1); (454,454,1,-2); (456,456,1,-1);
    (457,457,1,-2); (459,459,1,-1); (460,460,1,-2); (462,476,2,-1); (477,477,1,-79); (479,495,2,-1); (498,498,1,-1);
    (499,499,1,-2); (501,501,1,-1); (505,543,2,-1); (547,563,2,-1); (572,572,1,-1); (575,576,1,10815);
    (578,578,1,-1); (583,591,2,-1); (592,592,1,10783); (593,593,1,10780); (594,594,1,10782); (595,595,1,-210);
    (596,596,1,-206); (598,599,1,-205); (601,601,1,-202); (603,603,1,-203); (604,604,1,42319); (608,608,1,-205);
    (609,609,1,42315); (611,611,1,-207); (613,613,1,42280); (614,614,1,42308); (616,616,1,-209); (617,617,1,-211);
    (618,618,1,42308); (619,619,1,10743); (620,620,1,42305); (623,623,1,-211); (625,625,1,10749); (626,626,1,-213);
    (629,629,1,-214); (637,637,1,10727); (640,640,1,-218); (642,642,1,42307); (643,643,1,-218); (647,647,1,42282);
    (648,648,1,-218); (649,649,1,-69); (650,651,1,-217); (652,652,1,-71); (658,658,1,-219); (669,669,1,42261);
    (670,670,1,42258); (837,837,1,84); (881,883,2,-1); (887,887,1,-1); (891,893,1,130); (940,940,1,-38);
    (941,943,1,-37); (945,961,1,-32); (962,962,1,-31); (963,971,1,-32); (972,972,1,-64); (973,974,1,-63);
    (976,976,1,-62); (977,977,1,-57); (981,981,1,-47); (982,982,1,-54); (983,983,1,-8); (985,1007,2,-1);
    (1008,1008,1,-86); (1009,1009,1,-80); (1010,1010,1,7); (1011,1011,1,-116); (1013,1013,1,-96); (1016,1016,1,-1);
    (1019,1019,1,-1); (1072,1103,1,-32); (1104,1119,1,-80); (1121,1153,2,-1); (1163,1215,2,-1); (1218,1230,2,-1);
    (1231,1231,1,-15); (1233,1327,2,-1); (1377,1414,1,-48); (4304,4346,1,3008); (4349,4351,1,3008);
    (5112,5117,1,-8); (7296,7296,1,-6254); (7297,7297,1,-6253); (7298,7298,1,-6244); (7299,7300,1,-6242);
    (7301,7301,1,-6243); (7302,7302,1,-6236); (7303,7303,1,-6181); (7304,7304,1,35266); (7545,7545,1,35332);
    (7549,7549,1,3814); (7566,7566,1,35384); (7681,7829,2,-1); (7835,7835,1,-59); (7841,7935,2,-1); (7936,7943,1,8);
    (7952,7957,1,8); (7968,7975,1,8); (7984,7991,1,8); (8000,8005,1,8); (8017,8023,2,8); (8032,8039,1,8);
    (8048,8049,1,74); (8050,8053,1,86); (8054,8055,1,100); (8056,8057,1,128); (8058,8059,1,112); (8060,8061,1,126);
    (8112,8113,1,8); (8126,8126,1,-7205); (8144,8145,1,8); (8160,8161,1,8); (8165,8165,1,7); (8526,8526,1,-28);
    (8560,8575,1,-16); (8580,8580,1,-1); (9424,9449,1,-26); (11312,11359,1,-48); (11361,11361,1,-1);
    (11365,11365,1,-10795); (11366,11366,1,-10792); (11368,11372,2,-1); (11379,11379,1,-1); (11382,11382,1,-1);
    (11393,11491,2,-1); (11500,11502,2,-1); (11507,11507,1,-1); (11520,11557,1,-7264); (11559,11559,1,-7264);
    (11565,11565,1,-7264); (42561,42605,2,-1); (42625,42651,2,-1); (42787,42799,2,-1); (42803,42863,2,-1);
    (42874,42876,2,-1); (42879,42887,2,-1); (42892,42892,1,-1); (42897,42899,2,-1); (42900,42900,1,48);
    (42903,42921,2,-1); (42933,42947,2,-1); (42952,42954,2,-1); (42961,42961,1,-1); (42967,42969,2,-1);
    (42998,42998,1,-1); (43859,43859,1,-928); (43888,43967,1,-38864); (65345,65370,1,-32); (66600,66639,1,-40);
    (66776,66811,1,-40); (66967,67003,2,-39); (66968,66976,2,-39); (66980,66992,2,-39); (66996,67000,2,-39);
    (67004,67004,1,-39); (68800,68850,1,-64); (71872,71903,1,-32); (93792,93823,1,-32); (125218,125251,1,-34)]%Z.

Definition upper_special : list (N * list N) := [
    (223,[83;83]); (329,[700;78]); (496,[74;780]); (912,[921;776;769]); (944,[933;776;769]); (1415,[1333;1362]);
    (7830,[72;817]); (7831,[84;776]); (7832,[87;778]); (7833,[89;778]); (7834,[65;702]); (8016,[933;787]);
    (8018,[933;787;768]); (8020,[933;787;769]); (8022,[933;787;834]); (8064,[7944;921]); (8065,[7945;921]);
    (8066,[7946;921]); (8067,[7947;921]); (8068,[7948;921]); (8069,[7949;921]); (8070,[7950;921]);
    (8071,[7951;921]); (8072,[7944;921]); (8073,[7945;921]); (8074,[7946;921]); (8075,[7947;921]);
    (8076,[7948;921]); (8077,[7949;921]); (8078,[7950;921]); (8079,[7951;921]); (8080,[7976;921]);
    (8081,[7977;921]); (8082,[7978;921]); (8083,[7979;921]); (8084,[7980;921]); (8085,[7981;921]);
    (8086,[7982;921]); (8087,[7983;921]); (8088,[7976;921]); (8089,[7977;921]); (8090,[7978;921]);
    (8091,[7979;921]); (8092,[7980;921]); (8093,[7981;921]); (8094,[7982;921]); (8095,[7983;921]);
    (8096,[8040;921]); (8097,[8041;921]); (8098,[8042;921]); (8099,[8043;921]); (8100,[8044;921]);
    (8101,[8045;921]); (8102,[8046;921]); (8103,[8047;921]); (8104,[8040;921]); (8105,[8041;921]);
    (8106,[8042;921]); (8107,[8043;921]); (8108,[8044;921]); (8109,[8045;921]); (8110,[8046;921]);
    (8111,[8047;921]); (8114,[8122;921]); (8115,[913;921]); (8116,[902;921]); (8118,[913;834]);
    (8119,[913;834;921]); (8124,[913;921]); (8130,[8138;921]); (8131,[919;921]); (8132,[905;921]); (8134,[919;834]);
    (8135,[919;834;921]); (8140,[919;921]); (8146,[921;776;768]); (8147,[921;776;769]); (8150,[921;834]);
    (8151,[921;776;834]); (8162,[933;776;768]); (8163,[933;776;769]); (8164,[929;787]); (8166,[933;834]);
    (8167,[933;776;834]); (8178,[8186;921]); (8179,[937;921]); (8180,[911;921]); (8182,[937;834]);
    (8183,[937;834;921]); (8188,[937;921]); (64256,[70;70]); (64257,[70;73]); (64258,[70;76]); (64259,[70;70;73]);
    (64260,[70;70;76]); (64261,[83;84]); (64262,[83;84]); (64275,[1348;1350]); (64276,[1348;1333]);
    (64277,[1348;1339]); (64278,[1358;1350]); (64279,[1348;1341])]%N.

(** The code points the rule of the final sigma looks past (Case_Ignorable). *)
Definition ignorable_ranges : list (N * N) := [
    (39,39); (46,46); (58,58); (94,94); (96,96); (168,168); (173,173); (175,175); (180,180); (183,184);
    (688,879); (884,885); (890,890); (900,901); (903,903); (1155,1161); (1369,1369); (1375,1375); (1425,1469);
    (1471,1471); (1473,1474); (1476,1477); (1479,1479); (1524,1524); (1536,1541); (1552,1562); (1564,1564);
    (1600,1600); (1611,1631); (1648,1648); (1750,1757); (1759,1768); (1770,1773); (1807,1807); (1809,1809);
    (1840,1866); (1958,1968); (2027,2037); (2042,2042); (2045,2045); (2070,2093); (2137,2139); (2184,2184);
    (2192,2193); (2200,2207); (2249,2306); (2362,2362); (2364,2364); (2369,2376); (2381,2381); (2385,2391);
    (2402,2403); (2417,2417); (2433,2433); (2492,2492); (2497,2500); (2509,2509); (2530,2531); (2558,2558);
    (2561,2562); (2620,2620); (2625,2626); (2631,2632); (2635,2637); (2641,2641); (2672,2673); (2677,2677);
    (2689,2690); (2748,2748); (2753,2757); (2759,2760); (2765,2765); (2786,2787); (2810,2815); (2817,2817);
    (2876,2876); (2879,2879); (2881,2884); (2893,2893); (2901,2902); (2914,2915); (2946,2946); (3008,3008);
    (3021,3021); (3072,3072); (3076,3076); (3132,3132); (3134,3136); (3142,3144); (3146,3149); (3157,3158);
    (3170,3171); (3201,3201); (3260,3260); (3263,3263); (3270,3270); (3276,3277); (3298,3299); (3328,3329);
    (3387,3388); (3393,3396); (3405,3405); (3426,3427); (3457,3457); (3530,3530); (3538,3540); (3542,3542);
    (3633,3633); (3636,3642); (3654,3662); (3761,3761); (3764,3772); (3782,3782); (3784,3789); (3864,3865);
    (3893,3893); (3895,3895); (3897,3897); (3953,3966); (3968,3972); (3974,3975); (3981,3991); (3993,4028);
    (4038,4038); (4141,4144); (4146,4151); (4153,4154); (4157,4158); (4184,4185); (4190,4192); (4209,4212);
    (4226,4226); (4229,4230); (4237,4237); (4253,4253); (4348,4348); (4957,4959); (5906,5908); (5938,5939);
    (5970,5971); (6002,6003); (6068,6069); (6071,6077); (6086,6086); (6089,6099); (6103,6103); (6109,6109);
    (6155,6159); (6211,6211); (6277,6278); (6313,6313); (6432,6434); (6439,6440); (6450,6450); (6457,6459);
    (6679,6680); (6683,6683); (6742,6742); (6744,6750); (6752,6752); (6754,6754); (6757,6764); (6771,6780);
    (6783,6783); (6823,6823); (6832,6862); (6912,6915); (6964,6964); (6966,6970); (6972,6972); (6978,6978);
    (7019,7027); (7040,7041); (7074,7077); (7080,7081); (7083,7085); (7142,7142); (7144,7145); (7149,7149);
    (7151,7153); (7212,7219); (7222,7223); (7288,7293); (7376,7378); (7380,7392); (7394,7400); (7405,7405);
    (7412,7412); (7416,7417); (7468,7530); (7544,7544); (7579,7679); (8125,8125); (8127,8129); (8141,8143);
    (8157,8159); (8173,8175); (8189,8190); (8203,8207); (8216,8217); (8228,8228); (8231,8231); (8234,8238);
    (8288,8292); (8294,8303); (8305,8305); (8319,8319); (8336,8348); (8400,8432); (11388,11389); (11503,11505);
    (11631,11631); (11647,11647); (11744,11775); (11823,11823); (12293,12293); (12330,12333); (12337,12341);
    (12347,12347); (12441,12446); (12540,12542); (40981,40981); (42232,42237); (42508,42508); (42607,42610);
    (42612,42621); (42623,42623); (42652,42655); (42736,42737); (42752,42785); (42864,42864); (42888,42890);
    (42994,42996); (43000,43001); (43010,43010); (43014,43014); (43019,43019); (43045,43046); (43052,43052);
    (43204,43205); (43232,43249); (43263,43263); (43302,43309); (43335,43345); (43392,43394); (43443,43443);
    (43446,43449); (43452,43453); (43471,43471); (43493,43494); (43561,43566); (43569,43570); (43573,43574);
    (43587,43587); (43596,43596); (43632,43632); (43644,43644); (43696,43696); (43698,43700); (43703,43704);
    (43710,43711); (43713,43713); (43741,43741); (43756,43757); (43763,43764); (43766,43766); (43867,43871);
    (43881,43883); (44005,44005); (44008,44008); (44013,44013); (64286,64286); (64434,64450); (65024,65039);
    (65043,65043); (65056,65071); (65106,65106); (65109,65109); (65279,65279); (65287,65287); (65294,65294);
    (65306,65306); (65342,65342); (65344,65344); (65392,65392); (65438,65439); (65507,65507); (65529,65531);
    (66045,66045); (66272,66272); (66422,66426); (67456,67461); (67463,67504); (67506,67514); (68097,68099);
    (68101,68102); (68108,68111); (68152,68154); (68159,68159); (68325,68326); (68900,68903); (69291,69292);
    (69446,69456); (69506,69509); (69633,69633); (69688,69702); (69744,69744); (69747,69748); (69759,69761);
    (69811,69814); (69817,69818); (69821,69821); (69826,69826); (69837,69837); (69888,69890); (69927,69931);
    (69933,69940); (70003,70003); (70016,70017); (70070,70078); (70089,70092); (70095,70095); (70191,70193);
    (70196,70196); (70198,70199); (70206,70206); (70367,70367); (70371,70378); (70400,70401); (70459,70460);
    (70464,70464); (70502,70508); (70512,70516); (70712,70719); (70722,70724); (70726,70726); (70750,70750);
    (70835,70840); (70842,70842); (70847,70848); (70850,70851); (71090,71093); (71100,71101); (71103,71104);
    (71132,71133); (71219,71226); (71229,71229); (71231,71232); (71339,71339); (71341,71341); (71344,71349);
    (71351,71351); (71453,71455); (71458,71461); (71463,71467); (71727,71735); (71737,71738); (71995,71996);
    (71998,71998); (72003,72003); (72148,72151); (72154,72155); (72160,72160); (72193,72202); (72243,72248);
    (72251,72254); (72263,72263); (72273,72278); (72281,72283); (72330,72342); (72344,72345); (72752,72758);
    (72760,72765); (72767,72767); (72850,72871); (72874,72880); (72882,72883); (72885,72886); (73009,73014);
    (73018,73018); (73020,73021); (73023,73029); (73031,73031); (73104,73105); (73109,73109); (73111,73111);
    (73459,73460); (78896,78904); (92912,92916); (92976,92982); (92992,92995); (94031,94031); (94095,94111);
    (94176,94177); (94179,94180); (110576,110579); (110581,110587); (110589,110590); (113821,113822);
    (113824,113827); (118528,118573); (118576,118598); (119143,119145); (119155,119170); (119173,119179);
    (119210,119213); (119362,119364); (121344,121398); (121403,121452); (121461,121461); (121476,121476);
    (121499,121503); (121505,121519); (122880,122886); (122888,122904); (122907,122913); (122915,122916);
    (122918,122922); (123184,123197); (123566,123566); (123628,123631); (125136,125142); (125252,125259);
    (127995,127999); (917505,917505); (917536,917631); (917760,917999)]%N.

(** The letters with case (Cased) among the others. *)
Definition cased_ranges : list (N * N) := [
    (65,90); (97,122); (170,170); (181,181); (186,186); (192,214); (216,246); (248,442); (444,447); (452,659);
    (661,687); (880,883); (886,887); (891,893); (895,895); (902,902); (904,906); (908,908); (910,929);
    (931,1013); (1015,1153); (1162,1327); (1329,1366); (1376,1416); (4256,4293); (4295,4295); (4301,4301);
    (4304,4346); (4349,4351); (5024,5109); (5112,5117); (7296,7304); (7312,7354); (7357,7359); (7424,7467);
    (7531,7543); (7545,7578); (7680,7957); (7960,7965); (7968,8005); (8008,8013); (8016,8023); (8025,8025);
    (8027,8027); (8029,8029); (8031,8061); (8064,8116); (8118,8124); (8126,8126); (8130,8132); (8134,8140);
    (8144,8147); (8150,8155); (8160,8172); (8178,8180); (8182,8188); (8450,8450); (8455,8455); (8458,8467);
    (8469,8469); (8473,8477); (8484,8484); (8486,8486); (8488,8488); (8490,8493); (8495,8500); (8505,8505);
    (8508,8511); (8517,8521); (8526,8526); (8544,8575); (8579,8580); (9398,9449); (11264,11387); (11390,11492);
    (11499,11502); (11506,11507); (11520,11557); (11559,11559); (11565,11565); (42560,42605); (42624,42651);
    (42786,42863); (42865,42887); (42891,42894); (42896,42954); (42960,42961); (42963,42963); (42965,42969);
    (42997,42998); (43002,43002); (43824,43866); (43872,43880); (43888,43967); (64256,64262); (64275,64279);
    (65313,65338); (65345,65370); (66560,66639); (66736,66771); (66776,66811); (66928,66938); (66940,66954);
    (66956,66962); (66964,66965); (66967,66977); (66979,66993); (66995,67001); (67003,67004); (68736,68786);
    (68800,68850); (71840,71903); (93760,93823); (119808,119892); (119894,119964); (119966,119967);
    (119970,119970); (119973,119974); (119977,119980); (119982,119993); (119995,119995); (119997,120003);
    (120005,120069); (120071,120074); (120077,120084); (120086,120092); (120094,120121); (120123,120126);
    (120128,120132); (120134,120134); (120138,120144); (120146,120485); (120488,120512); (120514,120538);
    (120540,120570); (120572,120596); (120598,120628); (120630,120654); (120656,120686); (120688,120712);
    (120714,120744); (120746,120770); (120772,120779); (122624,122633); (122635,122654); (125184,125251);
    (127280,127305); (127312,127337); (127344,127369)]%N.

(** * Case mapping *)

Fixpoint run_offset (runs : list (Z * Z * Z * Z)) (c : Z) : Z :=
  match runs with
  | [] => 0
  | (lo, hi, step, d) :: r =>
      if ((lo <=? c) && (c <=? hi) && ((c - lo) mod step =? 0))%Z then d else run_offset r c
  end.

Fixpoint special_case (sp : list (N * list N)) (c : N) : option (list N) :=
  match sp with
  | [] => None
  | (k, v) :: r => if (k =? c)%N then Some v else special_case r c
  end.

Definition map_case (runs : list (Z * Z * Z * Z)) (sp : list (N * list N)) (c : N) : list N :=
  match special_case sp c with
  | Some v => v
  | None => [Z.to_N (Z.of_N c + run_offset runs (Z.of_N c))]
  end.

Definition in_ranges (rs : list (N * N)) (c : N) : bool := existsb (λ r, in_range r.1 r.2 c) rs.
(** Whether the first code point that is not looked past is a letter with case. *)
Fixpoint meets_cased (l : list N) : bool :=
  match l with
  | [] => false
  | c :: r => if in_ranges ignorable_ranges c then meets_cased r else in_ranges cased_ranges c
  end.
Definition SIGMA : N := 931.
Definition FINAL_SIGMA : N := 962.
(** [before] holds the code points before, the last one first: a capital sigma that
    ends a word takes its final form. *)
Fixpoint lower_points (before l : list N) : list N :=
  match l with
  | [] => []
  | c :: r =>
      (if (c =? SIGMA)%N && meets_cased before && negb (meets_cased r) then [FINAL_SIGMA] else map_case lower_runs lower_special c)
      ++ lower_points (c :: before) r
  end.

(** [s.toLowerCase()] and [s.toUpperCase()]. *)
Definition to_lower (s : jsstr) : jsstr := code_units (lower_points [] (code_points s)).
Definition to_upper (s : jsstr) : jsstr := code_units (code_points s ≫= map_case upper_runs upper_special).
#[global] Arguments to_lower : simpl never.
#[global] Arguments to_upper : simpl never.

Example to_lower_ascii : to_lower $"CIDR not In" = $"cidr not in".
Proof. vm_compute. reflexivity. Qed.
Example to_lower_sigma : to_lower $"ΟΔΟΣ ΟΔΟΣΑ Σ Α'Σ." = $"οδος οδοσα σ α'ς.".
Proof. vm_compute. reflexivity. Qed.
Example to_lower_wide : to_lower $"ÀÉÎĀЖΩ" = $"àéîāжω".
Proof. vm_compute. reflexivity. Qed.
Example to_upper_wide : to_upper $"straße" = $"STRASSE".
Proof. vm_compute. reflexivity. Qed.
Example to_lower_supplementary : to_lower $"𐐀" = $"𐐨".
Proof. vm_compute. reflexivity. Qed.

(** Where no sigma stands, letters are lowered one by one. *)
Lemma lower_points_alone before l : Forall (λ c, c ≠ SIGMA) l → lower_points before l = l ≫= map_case lower_runs lower_special.
Proof.
  intros Hl. revert before. induction Hl as [|c l Hc _ IH]; intros before; [done|]. cbn [lower_points]. rewrite bind_cons, IH.
  by destruct (N.eqb_spec c SIGMA).
Qed.
Lemma elem_of_lower_points before l d : d ∈ lower_points before l → d = FINAL_SIGMA ∨ ∃ c, c ∈ l ∧ d ∈ map_case lower_runs lower_special c.
Proof.
  revert before. induction l as [|c l IH]; intros before; [by intros ?%elem_of_nil|]. cbn [lower_points]. intros [Hd|Hd]%elem_of_app.
  - destruct (_ && _); [left; by apply list_elem_of_singleton in Hd|right]. exists c. split; [left|done].
  - destruct (IH _ Hd) as [?|(c' & ? & ?)]; [by left|right]. exists c'. split; [by right|done].
Qed.

(** * Round trip between the two encodings *)

(** A string without unpaired surrogates, every unit within 16 bits. *)
Fixpoint well_formed (s : jsstr) : bool :=
  match s with
  | [] => true
  | u :: r =>
      if is_high u
      then match r with v :: r' => is_low v && well_formed r' | [] => false end
      else negb (is_low u) && (u <? 65536)%N && well_formed r
  end.

(** A Unicode scalar value: a code point that is not a surrogate. *)
Definition is_scalar (c : N) : bool := (c <? 55296)%N || in_range 57344 1114111 c.

Lemma unit_of_cp_pair u v :
  is_high u = true → is_low v = true →
  unit_of_cp (65536 + (u - 55296) * 1024 + (v - 56320)) = [u; v].
Proof.
  unfold is_high, is_low, in_range, unit_of_cp. intros Hu Hv.
  btrue.
  destruct (N.ltb_spec (65536 + (u - 55296) * 1024 + (v - 56320)) 65536); [lia|].
  replace (65536 + (u - 55296) * 1024 + (v - 56320) - 65536)%N
    with ((v - 56320) + (u - 55296) * 1024)%N by lia.
  rewrite N.Div0.mod_add, N.div_add, N.mod_small, N.div_small by lia.
  f_equal; [lia|]. f_equal; lia.
Qed.

Lemma unit_of_cp_small c : (c < 65536)%N → unit_of_cp c = [c].
Proof. unfold unit_of_cp. by intros ->%N.ltb_lt. Qed.

Lemma well_formed_ind (P : jsstr → Prop) :
  P [] →
  (∀ u v r, is_high u = true → is_low v = true → well_formed r = true → P r → P (u :: v :: r)) →
  (∀ u r, is_high u = false → is_low u = false → (u < 65536)%N →
     well_formed r = true → P r → P (u :: r)) →
  ∀ s, well_formed s = true → P s.
Proof.
  intros H0 H2 H1 s. remember (length s) as n eqn:En. revert s En.
  induction (lt_wf n) as [n _ IH]. intros [|u r] -> Hw; [done|]. simpl in Hw.
  destruct (is_high u) eqn:Hu.
  - destruct r as [|v r]; [done|]. btrue. apply H2; try done.
    eapply IH; [|reflexivity|done]. simpl. lia.
  - btrue. apply H1; try done. eapply IH; [|reflexivity|done]. simpl. lia.
Qed.

Lemma code_points_cons_low u r :
  is_high u = false → code_points (u :: r) = u :: code_points r.
Proof. intros Hu. simpl. destruct r; [done|]. by rewrite Hu. Qed.

Lemma code_units_points s : well_formed s = true → code_units (code_points s) = s.
Proof.
  revert s. apply well_formed_ind; [done|intros u v r Hu Hv _ IH|intros u r Hu Hl Hlt _ IH].
  - simpl. rewrite Hu, Hv. cbn [andb]. unfold code_units in *. rewrite bind_cons, IH.
    by rewrite unit_of_cp_pair.
  - rewrite code_points_cons_low by done. unfold code_units in *.
    rewrite bind_cons, IH. by rewrite unit_of_cp_small.
Qed.

Lemma code_points_scalar s : well_formed s = true → Forall (λ c, is_scalar c = true) (code_points s).
Proof.
  revert s. apply well_formed_ind;
    [constructor|intros u v r Hu Hv _ IH|intros u r Hu Hl Hlt _ IH].
  - simpl. rewrite Hu, Hv. simpl. constructor; [|done].
    unfold is_high, is_low, is_scalar, in_range in *. btrue. units.
  - rewrite code_points_cons_low by done. constructor; [|done].
    unfold is_high, is_low, is_scalar, in_range in *. btrue. units.
Qed.

(** * [JSON.stringify] of a string *)

Definition hex_digit (n : N) : N := if (n <? 10)%N then (48 + n)%N else (87 + n)%N.
Definition hex4 (u : N) : jsstr :=
  [hex_digit (u / 4096 mod 16); hex_digit (u / 256 mod 16); hex_digit (u / 16 mod 16); hex_digit (u mod 16)].
Definition unicode_escape (u : N) : jsstr := $"\u" ++ hex4 u.

Definition json_escape (u : N) : jsstr :=
  if (u =? 8)%N then $"\b" else if (u =? 9)%N then $"\t" else if (u =? 10)%N then $"\n"
  else if (u =? 12)%N then $"\f" else if (u =? 13)%N then $"\r"
  else if (u =? DQUOTE)%N then [BSLASH; DQUOTE] else if (u =? BSLASH)%N then [BSLASH; BSLASH]
  else if (u <? 32)%N then unicode_escape u else [u].

Fixpoint json_units (s : jsstr) : jsstr :=
  match s with
  | [] => []
  | u :: r =>
      if is_high u
      then match r with
           | v :: r' => if is_low v then u :: v :: json_units r' else unicode_escape u ++ json_units r
           | [] => unicode_escape u
           end
      else if is_low u then unicode_escape u ++ json_units r
      else json_escape u ++ json_units r
  end.

Definition json_string (s : jsstr) : jsstr := [DQUOTE] ++ json_units s ++ [DQUOTE].

Example json_string_ex :
  json_string [97; 10; 34; 55357; 1]%N = DQUOTE :: $"a\n\" ++ DQUOTE :: $"\ud83d\u0001" ++ [DQUOTE].
Proof. vm_compute. reflexivity. Qed.

(** * Lowering unit by unit *)

(** A unit that stands for itself and is lowered to one unit wherever it stands: all but
    half a surrogate pair, the capital i with a dot and the capital sigma. *)
Definition lowers_alone (u : N) : bool :=
  negb (is_high u) && negb (u =? SIGMA)%N && match map_case lower_runs lower_special u with [v] => (v <? 65536)%N | _ => false end.
Definition lower_unit (u : N) : N := nullish (map_case lower_runs lower_special u !! 0) 0%N.
Lemma to_lower_alone s : forallb lowers_alone s = true → to_lower s = map lower_unit s.
Proof.
  intros Hs. assert (code_points s = s) as Ec.
  { induction s as [|u s IH]; [done|]. cbn [forallb] in Hs. apply andb_prop in Hs as [[[Hh _]%andb_prop _]%andb_prop Hs].
    rewrite code_points_cons_low by (by apply negb_true_iff). by rewrite IH. }
  unfold to_lower, code_units. rewrite Ec, lower_points_alone.
  - clear Ec. induction s as [|u s IH]; [done|]. cbn [forallb] in Hs. apply andb_prop in Hs as [[_ Hu]%andb_prop Hs].
    rewrite bind_cons, bind_app. cbn [map]. rewrite <- IH by done. unfold lower_unit.
    destruct (map_case lower_runs lower_special u) as [|v [|]]; [done| |done]. cbn -[unit_of_cp]. apply N.ltb_lt in Hu. by rewrite unit_of_cp_small.
  - apply Forall_forall. intros u Hu ->. rewrite forallb_forall in Hs. apply list_elem_of_In in Hu. by apply Hs in Hu.
Qed.
