(* ===== verification/FilterAst.v ===== *)
(** The filter AST shared by the query bar, the URL and the API
    (src/frontend/src/api/schema.d.ts, [FilterExpr]), its induction principle,
    and the shapes the text form is defined on. *)
From stdpp Require Import base list numbers strings.
From S2P Require Import Prelude.

Inductive BoolOp := op_and | op_or.
Inductive FieldValueOp :=
  op_eq | op_ne | op_contains | op_starts_with | op_regex | op_gt | op_gte | op_lt | op_lte | op_cidr.
Inductive FieldValuesOp := op_in | op_not_in.
Inductive FieldExistsOp := op_exists | op_not_exists.

Inductive FilterExpr :=
| BoolExpr (op : BoolOp) (args : list FilterExpr)
| NotExpr (arg : FilterExpr)
| TextExpr (value : jsstr)
| FieldValueExpr (op : FieldValueOp) (field value : jsstr)
| FieldValuesExpr (op : FieldValuesOp) (field : jsstr) (values : list jsstr)
| FieldExistsExpr (op : FieldExistsOp) (field : jsstr).

#[export] Instance BoolOp_eq_dec : EqDecision BoolOp.
Proof. solve_decision. Defined.
#[export] Instance FieldValueOp_eq_dec : EqDecision FieldValueOp.
Proof. solve_decision. Defined.
#[export] Instance FieldValuesOp_eq_dec : EqDecision FieldValuesOp.
Proof. solve_decision. Defined.
#[export] Instance FieldExistsOp_eq_dec : EqDecision FieldExistsOp.
Proof. solve_decision. Defined.

(** Induction with a hypothesis for every argument of [and] and [or]. *)
Section induction.
Variable P : FilterExpr → Prop.
Hypothesis HBool : ∀ op args, Forall P args → P (BoolExpr op args).
Hypothesis HNot : ∀ a, P a → P (NotExpr a).
Hypothesis HText : ∀ v, P (TextExpr v).
Hypothesis HValue : ∀ op f v, P (FieldValueExpr op f v).
Hypothesis HValues : ∀ op f vs, P (FieldValuesExpr op f vs).
Hypothesis HExists : ∀ op f, P (FieldExistsExpr op f).

Fixpoint FilterExpr_deep_ind (e : FilterExpr) : P e :=
  match e with
  | BoolExpr op args =>
      HBool op args
        ((fix go (l : list FilterExpr) : Forall P l :=
            match l with
            | [] => Forall_nil_2 P
            | a :: r => Forall_cons_2 P a r (FilterExpr_deep_ind a) (go r)
            end) args)
  | NotExpr a => HNot a (FilterExpr_deep_ind a)
  | TextExpr v => HText v
  | FieldValueExpr op f v => HValue op f v
  | FieldValuesExpr op f vs => HValues op f vs
  | FieldExistsExpr op f => HExists op f
  end.
End induction.

#[export] Instance FilterExpr_eq_dec : EqDecision FilterExpr.
Proof.
  refine (fix go x y :=
    let _ : EqDecision FilterExpr := go in
    match x, y with
    | BoolExpr o1 l1, BoolExpr o2 l2 => cast_if_and (decide (o1 = o2)) (decide (l1 = l2))
    | NotExpr a1, NotExpr a2 => cast_if (decide (a1 = a2))
    | TextExpr v1, TextExpr v2 => cast_if (decide (v1 = v2))
    | FieldValueExpr o1 f1 v1, FieldValueExpr o2 f2 v2 =>
        cast_if_and3 (decide (o1 = o2)) (decide (f1 = f2)) (decide (v1 = v2))
    | FieldValuesExpr o1 f1 v1, FieldValuesExpr o2 f2 v2 =>
        cast_if_and3 (decide (o1 = o2)) (decide (f1 = f2)) (decide (v1 = v2))
    | FieldExistsExpr o1 f1, FieldExistsExpr o2 f2 => cast_if_and (decide (o1 = o2)) (decide (f1 = f2))
    | _, _ => right _
    end); congruence.
Defined.
