(* ===== verification/FilterLex.v ===== *)
(** The tokenizer and the quoting rules of the filter text form
    (src/frontend/src/lib/filter-text.ts, [tokenize] and [quote]).

    The source scans by an index [i] into [input]; here the scan carries the
    remaining input and the index, so [input\[i\]] is the head of the remaining
    input and [input\[i + 1\]] the element after it.  The loop is not
    structurally recursive, so it takes fuel: one unit per iteration, of which
    there are at most [length input], since every iteration consumes input. *)
From Stdlib Require Import Lia.
From stdpp Require Import base list numbers strings.
From S2P Require Import Prelude Unicode FilterAst.

(** * Errors *)

(** [FilterSyntaxError]: its message as the class's constructor completes it,
    and its position.  [OutOfFuel] is not thrown by the source; it marks a run
    the model cut short, and [FilterText] shows there is none. *)
Inductive FilterError :=
| FilterSyntaxError (message : jsstr) (position : nat)
| OutOfFuel.

Definition syntax_error (message : jsstr) (position : nat) : FilterError :=
  FilterSyntaxError (message ++ $" (at position " ++ decn (position + 1) ++ $")") position.

(** * Tokens *)

Inductive TokenKind := Kbare | Kquoted | Kop | Klparen | Krparen | Kcomma | Kbang | Kexists.
#[export] Instance TokenKind_eq_dec : EqDecision TokenKind.
Proof. solve_decision. Defined.

Record Token := MkToken { kind : TokenKind; value : jsstr; pos : nat }.

Definition OPERATORS : list jsstr :=
  [$"!="; $"=~"; $"^="; $">="; $"<="; $"="; $"~"; $">"; $"<"].

Definition OP_TO_AST (op : jsstr) : option FieldValueOp :=
  if decide (op = $"=") then Some op_eq
  else if decide (op = $"!=") then Some op_ne
  else if decide (op = $"~") then Some op_contains
  else if decide (op = $"^=") then Some op_starts_with
  else if decide (op = $"=~") then Some op_regex
  else if decide (op = $">") then Some op_gt
  else if decide (op = $">=") then Some op_gte
  else if decide (op = $"<") then Some op_lt
  else if decide (op = $"<=") then Some op_lte
  else None.

(** The inverse table; [cidr] has no operator of its own ([undefined]). *)
Definition AST_TO_OP (op : FieldValueOp) : option jsstr :=
  match op with
  | op_eq => Some $"="
  | op_ne => Some $"!="
  | op_contains => Some $"~"
  | op_starts_with => Some $"^="
  | op_regex => Some $"=~"
  | op_gt => Some $">"
  | op_gte => Some $">="
  | op_lt => Some $"<"
  | op_lte => Some $"<="
  | op_cidr => None
  end.

Definition KEYWORDS : list jsstr := [$"and"; $"or"; $"not"; $"in"; $"cidr"].
Definition is_keyword_text (v : jsstr) : bool := bool_decide (to_lower v ∈ KEYWORDS).

(** The class of [BARE_RE], negated. *)
Definition is_special (c : N) : bool :=
  is_space c || (c =? LPAREN)%N || (c =? RPAREN)%N || (c =? COMMA)%N || (c =? DQUOTE)%N || (c =? EQUALS)%N
  || (c =? BANG)%N || (c =? TILDE)%N || (c =? CARET)%N || (c =? LESS)%N || (c =? GREATER)%N || (c =? COLON)%N.
Definition is_bare_unit (c : N) : bool := negb (is_special c).
#[global] Arguments is_special : simpl never.
#[global] Arguments is_bare_unit : simpl never.

(** [BARE_RE.test(v)] *)
Definition BARE_RE (v : jsstr) : bool := truthy v && forallb is_bare_unit v.

(** * Tokenizer *)

(** The inner loop over a quoted string that opened at [start]: the text, the
    index after the closing quote and the input from there. *)
Fixpoint scan_quoted (start i : nat) (rest out : jsstr) : result FilterError (jsstr * nat * jsstr) :=
  match rest with
  | [] => Err (syntax_error $"unterminated quoted string" start)
  | ch :: r =>
      if (ch =? BSLASH)%N
      then match r with
           | [] => Err (syntax_error $"unterminated escape" i)
           | next :: r' => scan_quoted start (i + 2) r' (out ++ [next])
           end
      else if (ch =? DQUOTE)%N then Ok (out, i + 1, r)
      else scan_quoted start (i + 1) r (out ++ [ch])
  end.

(** [OPERATORS.find((o) => input.startsWith(o, i))] *)
Definition find_operator (rest : jsstr) : option jsstr := List.find (λ o, starts_with o rest) OPERATORS.

#[global] Arguments find_operator : simpl never.

Definition push (t : Token) (m : result FilterError (list Token)) : result FilterError (list Token) :=
  ts ← m; mret (t :: ts).

(** One iteration of the outer loop at the input from index [i], continued by
    [rec] after it. *)
Definition tokenize_step (rec : jsstr → nat → result FilterError (list Token)) (rest : jsstr) (i : nat) :
    result FilterError (list Token) :=
  match rest with
  | [] => mret []
  | c :: r =>
      if is_space c then rec r (i + 1)
      else if (c =? LPAREN)%N then push (MkToken Klparen [c] i) (rec r (i + 1))
      else if (c =? RPAREN)%N then push (MkToken Krparen [c] i) (rec r (i + 1))
      else if (c =? COMMA)%N then push (MkToken Kcomma [c] i) (rec r (i + 1))
      else if (c =? COLON)%N && starts_with [STAR] r
      then push (MkToken Kexists $":*" i) (rec (drop 1 r) (i + 2))
      else if (c =? DQUOTE)%N
      then '(out, i', r') ← scan_quoted i (i + 1) r [];
           push (MkToken Kquoted out i) (rec r' i')
      else match find_operator rest with
      | Some op => push (MkToken Kop op i) (rec (drop (length op) rest) (i + length op))
      | None =>
          if (c =? BANG)%N then push (MkToken Kbang [c] i) (rec r (i + 1))
          else
            let w := take_while is_bare_unit rest in
            match w with
            | [] => Err (syntax_error ($"unexpected character " ++ json_string [c]) i)
            | _ => push (MkToken Kbare w i) (rec (drop_while is_bare_unit rest) (i + length w))
            end
      end
  end.

Fixpoint tokenize_loop (fuel : nat) : jsstr → nat → result FilterError (list Token) :=
  match fuel with
  | 0 => λ _ _, Err OutOfFuel
  | S f => tokenize_step (tokenize_loop f)
  end.

Definition tokenize (input : jsstr) : result FilterError (list Token) :=
  tokenize_loop (S (length input)) input 0.

(** * Quoting *)

Definition quoteAlways (v : jsstr) : jsstr :=
  [DQUOTE]
  ++ replace_units (λ c, (c =? DQUOTE)%N) [BSLASH; DQUOTE]
       (replace_units (λ c, (c =? BSLASH)%N) [BSLASH; BSLASH] v)
  ++ [DQUOTE].

Definition quote (v : jsstr) : jsstr :=
  if BARE_RE v && negb (is_keyword_text v) then v
  else
    [DQUOTE]
    ++ replace_units (λ c, (c =? DQUOTE)%N) [BSLASH; DQUOTE]
         (replace_units (λ c, (c =? BSLASH)%N) [BSLASH; BSLASH] v)
    ++ [DQUOTE].

(** * Fuel *)

Lemma scan_quoted_shorter start i rest out o j r :
  scan_quoted start i rest out = Ok (o, j, r) → length r < length rest.
Proof.
  remember (length rest) as n eqn:En. revert i rest out En.
  induction (lt_wf n) as [n _ IH]. intros i [|ch rest] out -> H; simpl in H; [done|].
  destruct (ch =? BSLASH)%N; [destruct rest as [|next rest]; [done|]|destruct (ch =? DQUOTE)%N].
  - eapply IH in H; [|shelve|reflexivity]. simpl. lia. Unshelve. simpl. lia.
  - invert_ok. simpl. lia.
  - eapply IH in H; [|shelve|reflexivity]. simpl. lia. Unshelve. simpl. lia.
Qed.

Lemma find_operator_len rest op : find_operator rest = Some op → 0 < length op.
Proof.
  intros H. apply List.find_some in H as [H _].
  vm_compute in H. destruct_or! H; try done; subst; simpl; lia.
Qed.

(** An iteration only continues on strictly shorter input. *)
Lemma tokenize_step_ext rec1 rec2 rest i :
  (∀ r j, length r < length rest → rec1 r j = rec2 r j) →
  tokenize_step rec1 rest i = tokenize_step rec2 rest i.
Proof.
  intros H. unfold tokenize_step. destruct rest as [|c r]; [done|].
  repeat case_match;
    try (rewrite H by (rewrite ?length_drop; cbn [length]; lia); reflexivity); try reflexivity.
  - destruct (scan_quoted i (i + 1) r []) as [[[o j] r']|] eqn:E; simpl; [|done].
    apply scan_quoted_shorter in E. f_equal. apply H. simpl. lia.
  - f_equal. apply H. rewrite length_drop.
    pose proof (find_operator_len _ _ ltac:(eassumption)). cbn [length]. lia.
  - f_equal. apply H. pose proof (take_drop_while is_bare_unit (c :: r)) as E%(f_equal length).
    rewrite length_app in E. match goal with Ew : take_while _ _ = _ |- _ => rewrite Ew in E end.
    cbn [length] in E |- *. lia.
Qed.

(** More fuel than input makes no difference. *)
Lemma tokenize_loop_fuel f1 f2 rest i :
  length rest < f1 → length rest < f2 → tokenize_loop f1 rest i = tokenize_loop f2 rest i.
Proof.
  revert f2 rest i. induction f1 as [|f1 IH]; intros [|f2] rest i H1 H2; try lia.
  apply tokenize_step_ext. intros r j Hr. apply IH; lia.
Qed.

Definition lex (rest : jsstr) (i : nat) : result FilterError (list Token) :=
  tokenize_loop (S (length rest)) rest i.

#[global] Arguments lex : simpl never.
#[global] Arguments tokenize_loop : simpl never.
#[global] Arguments tokenize_step : simpl never.

Lemma tokenize_lex input : tokenize input = lex input 0.
Proof. reflexivity. Qed.

Lemma lex_unfold rest i : lex rest i = tokenize_step lex rest i.
Proof. apply tokenize_step_ext. intros r j Hr. apply tokenize_loop_fuel; lia. Qed.
#[global] Opaque lex.

Lemma scan_quoted_fuel start i rest out : scan_quoted start i rest out ≠ Err OutOfFuel.
Proof.
  remember (length rest) as n eqn:En. revert i rest out En.
  induction (lt_wf n) as [n _ IH]. intros i [|ch [|next rest]] out ->; simpl; repeat case_match; try done;
    (eapply IH; [|reflexivity]; simpl; lia).
Qed.

Lemma push_fuel t m : m ≠ Err OutOfFuel → push t m ≠ Err OutOfFuel.
Proof. intros H. destruct m as [ts|e]; [done|]. intros [= ->]. by apply H. Qed.

Lemma tokenize_step_fuel rec rest i :
  (∀ r j, rec r j ≠ Err OutOfFuel) → tokenize_step rec rest i ≠ Err OutOfFuel.
Proof.
  intros Hrec. unfold tokenize_step. destruct rest as [|c r]; [done|].
  repeat case_match; try done; try (apply push_fuel, Hrec); try apply Hrec.
  pose proof (scan_quoted_fuel i (i + 1) r []).
  destruct (scan_quoted _ _ _ _) as [[[o j] r']|]; simpl; [apply push_fuel, Hrec|congruence].
Qed.

(** The tokenizer always answers. *)
Lemma lex_fuel rest i : lex rest i ≠ Err OutOfFuel.
Proof.
  remember (length rest) as n eqn:En. revert rest i En.
  induction (lt_wf n) as [n _ IH]. intros rest i ->. rewrite lex_unfold.
  rewrite (tokenize_step_ext lex
    (λ r j, if decide (length r < length rest) then lex r j else Err (syntax_error [] 0))).
  2:{ intros r j Hr. by rewrite decide_True by done. }
  apply tokenize_step_fuel. intros r j. case_decide; [|done]. by eapply IH.
Qed.

(** * Lexing printed text *)

Definition kv (t : Token) : TokenKind * jsstr := (kind t, value t).

(** [s] lexes, wherever it starts, to tokens of these kinds and values. *)
Definition lexes (s : jsstr) (l : list (TokenKind * jsstr)) : Prop :=
  ∀ i, ∃ ts, lex s i = Ok ts ∧ kv <$> ts = l.

(** A position where a bare word ends. *)
Definition boundary (s : jsstr) : Prop := ∀ c r, s = c :: r → is_special c = true.

Lemma lexes_nil : lexes [] [].
Proof. intros i. by exists []. Qed.

Lemma lexes_space c r l : is_space c = true → lexes r l → lexes (c :: r) l.
Proof. intros Hc H i. rewrite lex_unfold. unfold tokenize_step. rewrite Hc. apply H. Qed.

Lemma lexes_push k v s j r l :
  (∀ i, lex s i = push (MkToken k v i) (lex r (j i))) → lexes r l → lexes s ((k, v) :: l).
Proof.
  intros E H i. destruct (H (j i)) as (ts & Hts & <-). rewrite E, Hts. simpl. eauto.
Qed.

Lemma lexes_lparen r l : lexes r l → lexes (LPAREN :: r) ((Klparen, [LPAREN]) :: l).
Proof. apply lexes_push with (j := λ i, i + 1). intros i. by rewrite lex_unfold. Qed.

Lemma lexes_rparen r l : lexes r l → lexes (RPAREN :: r) ((Krparen, [RPAREN]) :: l).
Proof. apply lexes_push with (j := λ i, i + 1). intros i. by rewrite lex_unfold. Qed.

Lemma lexes_comma r l : lexes r l → lexes (COMMA :: r) ((Kcomma, [COMMA]) :: l).
Proof. apply lexes_push with (j := λ i, i + 1). intros i. by rewrite lex_unfold. Qed.

Lemma lexes_exists r l : lexes r l → lexes ($":*" ++ r) ((Kexists, $":*") :: l).
Proof. apply lexes_push with (j := λ i, i + 2). intros i. by rewrite lex_unfold. Qed.

Lemma lexes_op op r l :
  op ∈ OPERATORS → find_operator (op ++ r) = Some op → lexes r l → lexes (op ++ r) ((Kop, op) :: l).
Proof.
  intros Hop Hf. apply lexes_push with (j := λ i, i + length op). intros i. rewrite lex_unfold.
  rewrite <- (drop_app_length op r) at 2.
  unfold OPERATORS in Hop. unfold tokenize_step. rewrite Hf.
  rewrite !elem_of_cons in Hop. destruct_or! Hop; subst; try done. by apply elem_of_nil in Hop.
Qed.

Lemma find_operator_none c r :
  (c =? BANG)%N = false → (c =? EQUALS)%N = false → (c =? TILDE)%N = false → (c =? CARET)%N = false →
  (c =? LESS)%N = false → (c =? GREATER)%N = false → find_operator (c :: r) = None.
Proof.
  intros H1 H2 H3 H4 H5 H6. unfold find_operator, OPERATORS. lits. cbn [List.find starts_with].
  by rewrite !(N.eqb_sym _ c), ?H1, ?H2, ?H3, ?H4, ?H5, ?H6.
Qed.

Lemma bare_not_special c : is_bare_unit c = true → is_special c = false.
Proof. unfold is_bare_unit. apply negb_true_iff. Qed.

Lemma take_while_bare w r :
  forallb is_bare_unit w = true → boundary r → take_while is_bare_unit (w ++ r) = w.
Proof.
  intros Hw Hr. apply take_while_app.
  - by apply List.Forall_forall, List.forallb_forall.
  - intros x r' E. unfold is_bare_unit. by rewrite (Hr x r' E).
Qed.

Lemma drop_while_bare w r :
  forallb is_bare_unit w = true → boundary r → drop_while is_bare_unit (w ++ r) = r.
Proof.
  intros Hw Hr. apply drop_while_app.
  - by apply List.Forall_forall, List.forallb_forall.
  - intros x r' E. unfold is_bare_unit. by rewrite (Hr x r' E).
Qed.

Lemma tokenize_step_bare rec c r i :
  is_special c = false →
  tokenize_step rec (c :: r) i =
    push (MkToken Kbare (take_while is_bare_unit (c :: r)) i)
      (rec (drop_while is_bare_unit (c :: r)) (i + length (take_while is_bare_unit (c :: r)))).
Proof.
  intros Hc. assert (is_bare_unit c = true) as Hb by (unfold is_bare_unit; by rewrite Hc).
  unfold is_special in Hc. do 11 (apply orb_false_elim in Hc as [Hc ?]).
  unfold tokenize_step. rewrite find_operator_none by done. cbn [take_while drop_while]. rewrite Hb.
  repeat match goal with E : _ = false |- _ => rewrite E; clear E end. done.
Qed.

Lemma lexes_bare w r l :
  BARE_RE w = true → boundary r → lexes r l → lexes (w ++ r) ((Kbare, w) :: l).
Proof.
  intros Hw Hr. unfold BARE_RE in Hw. apply andb_prop in Hw as [Hne Hw].
  apply lexes_push with (j := λ i, i + length w). intros i. rewrite lex_unfold.
  pose proof (take_while_bare _ _ Hw Hr) as Ht. pose proof (drop_while_bare _ _ Hw Hr) as Hd.
  destruct w as [|c w]; [done|]. cbn [app] in *.
  rewrite tokenize_step_bare, Ht, Hd; [done|].
  cbn [forallb] in Hw. apply andb_prop in Hw as [Hc _]. by apply bare_not_special.
Qed.

Lemma lexes_bang r l :
  (∀ c r', r = c :: r' → (c =? EQUALS)%N = false) → lexes r l → lexes (BANG :: r) ((Kbang, [BANG]) :: l).
Proof.
  intros Hr. apply lexes_push with (j := λ i, i + 1). intros i. rewrite lex_unfold.
  assert (find_operator (BANG :: r) = None) as Hf.
  { unfold find_operator, OPERATORS. lits. destruct r as [|c r]; [done|].
    specialize (Hr c r eq_refl). rewrite N.eqb_sym in Hr. cbn -[N.eqb]. by rewrite Hr. }
  unfold tokenize_step. by rewrite Hf.
Qed.

(** The two replacements of [quoteAlways] escape each unit on its own. *)
Definition escape_unit (c : N) : jsstr :=
  if (c =? BSLASH)%N then [BSLASH; BSLASH] else if (c =? DQUOTE)%N then [BSLASH; DQUOTE] else [c].

Lemma quoteAlways_escape v : quoteAlways v = [DQUOTE] ++ (v ≫= escape_unit) ++ [DQUOTE].
Proof.
  unfold quoteAlways. do 2 f_equal. induction v as [|c v IH]; [done|].
  unfold replace_units in *. rewrite !bind_cons, bind_app, IH. f_equal.
  unfold escape_unit. destruct (c =? BSLASH)%N; [done|]. cbn. by destruct (c =? DQUOTE)%N.
Qed.

Lemma scan_quoted_escape start i v r out :
  scan_quoted start i ((v ≫= escape_unit) ++ DQUOTE :: r) out
    = Ok (out ++ v, i + length (v ≫= escape_unit) + 1, r).
Proof.
  revert i out. induction v as [|c v IH]; intros i out.
  - cbn. rewrite app_nil_r, Nat.add_0_r. done.
  - rewrite bind_cons, <- app_assoc. unfold escape_unit at 1 3.
    destruct (c =? BSLASH)%N eqn:E1; [|destruct (c =? DQUOTE)%N eqn:E2].
    + apply N.eqb_eq in E1 as ->. cbn [app scan_quoted]. cbn. rewrite IH. rewrite <- app_assoc. simpl.
      do 3 f_equal. lia.
    + apply N.eqb_eq in E2 as ->. cbn [app scan_quoted]. cbn. rewrite IH. rewrite <- app_assoc. simpl.
      do 3 f_equal. lia.
    + cbn [app scan_quoted]. rewrite E1, E2, IH. rewrite <- app_assoc. simpl. do 3 f_equal. lia.
Qed.

Lemma lexes_quoteAlways v r l : lexes r l → lexes (quoteAlways v ++ r) ((Kquoted, v) :: l).
Proof.
  apply lexes_push with (j := λ i, i + 1 + length (v ≫= escape_unit) + 1). intros i.
  rewrite quoteAlways_escape, lex_unfold, <- !app_assoc. cbn [app].
  unfold tokenize_step.
  replace (find_operator (DQUOTE :: (v ≫= escape_unit) ++ DQUOTE :: r)) with (@None jsstr)
    by (symmetry; by apply find_operator_none).
  cbn -[scan_quoted Nat.add]. rewrite scan_quoted_escape. done.
Qed.

(** What [quote] prints is one token holding the value: bare or quoted. *)
Definition quote_kind (v : jsstr) : TokenKind :=
  if BARE_RE v && negb (is_keyword_text v) then Kbare else Kquoted.

Lemma lexes_quote v r l :
  boundary r → lexes r l → lexes (quote v ++ r) ((quote_kind v, v) :: l).
Proof.
  intros Hb Hr. unfold quote, quote_kind. destruct (BARE_RE v && negb (is_keyword_text v)) eqn:E.
  - btrue. by apply lexes_bare.
  - by apply lexes_quoteAlways.
Qed.

(** * What the tokenizer accepts *)

(** A bare token is a non-empty run of bare units; an operator token is one of
    the operators. *)
Definition token_ok (t : Token) : Prop :=
  match kind t with
  | Kbare => BARE_RE (value t) = true
  | Kop => value t ∈ OPERATORS
  | _ => True
  end.

Lemma push_ok t m ts :
  token_ok t → (∀ ts', m = Ok ts' → Forall token_ok ts') → push t m = Ok ts → Forall token_ok ts.
Proof.
  intros Ht Hm H. unfold push in H. apply bind_ok in H as (ts' & E & [= <-]). constructor; auto.
Qed.

Lemma take_while_BARE_RE s c r :
  take_while is_bare_unit s = c :: r → BARE_RE (c :: r) = true.
Proof.
  intros E. unfold BARE_RE. cbn [truthy andb].
  pose proof (take_while_all is_bare_unit s) as H. rewrite E in H.
  apply List.forallb_forall. by apply List.Forall_forall.
Qed.

Lemma tokenize_loop_ok f rest i ts : tokenize_loop f rest i = Ok ts → Forall token_ok ts.
Proof.
  revert rest i ts. induction f as [|f IH]; intros rest i ts H; [done|].
  change (tokenize_loop (S f)) with (tokenize_step (tokenize_loop f)) in H. unfold tokenize_step in H.
  destruct rest as [|c r]; [injection H as <-; constructor|].
  repeat case_match; try done; try (eapply IH; done);
    try (eapply push_ok; [| |exact H]; [done|intros; by eapply IH]).
  - apply bind_ok in H as ([[o j] r'] & _ & H). eapply push_ok; [| |exact H]; [done|intros; by eapply IH].
  - eapply push_ok; [| |exact H]; [|intros; by eapply IH].
    match goal with E : find_operator _ = Some _ |- _ => apply List.find_some in E as [E _] end.
    by apply list_elem_of_In.
  - eapply push_ok; [| |exact H]; [|intros; by eapply IH]. by eapply take_while_BARE_RE.
Qed.

Lemma OP_TO_AST_total op : op ∈ OPERATORS → is_Some (OP_TO_AST op).
Proof.
  unfold OPERATORS. rewrite !elem_of_cons, elem_of_nil.
  intros H. destruct_or! H; subst; try done; eexists; vm_compute; reflexivity.
Qed.

Lemma AST_TO_OP_inverse op o : AST_TO_OP op = Some o → OP_TO_AST o = Some op ∧ o ∈ OPERATORS.
Proof. destruct op; intros [= <-]; (split; [by vm_compute|]); by apply (bool_decide_unpack _). Qed.
