(* ===== verification/FilterText.v ===== *)
(** The parser and printer of the filter text form
    (src/frontend/src/lib/filter-text.ts).

    The parser object's state is the list of tokens from its index [i] on;
    [next] past the end leaves it at the end, where [peek] answers
    [undefined], as the source's growing index does.  [length] is the length
    of the parsed text, the position errors at the end are reported at.  The
    recursive descent takes fuel; [parse_total] shows the fuel [parseFilter]
    gives it is always enough. *)
From Stdlib Require Import Lia.
From stdpp Require Import base list numbers strings.
From S2P Require Import Prelude Unicode FilterAst FilterLex.

(** * Parser *)

Section parser.
Context (len : nat).

Definition endPos : nat := len.

Definition isKeyword (t : option Token) (kw : jsstr) : bool :=
  match t with
  | Some t => bool_decide (kind t = Kbare) && bool_decide (to_lower (value t) = kw)
  | None => false
  end.

Definition is_value_kind (k : TokenKind) : bool :=
  match k with Kbare | Kquoted => true | _ => false end.

(** [t?.pos ?? this.endPos()] *)
Definition pos_or_end (t : option Token) : nat := match t with Some t => pos t | None => endPos end.

Definition p_value (ts : list Token) : result FilterError (jsstr * list Token) :=
  match ts with
  | t :: r => if is_value_kind (kind t) then Ok (value t, r)
              else Err (syntax_error $"expected a value" (pos t))
  | [] => Err (syntax_error $"expected a value" endPos)
  end.

(** The loop over [, value] up to the closing parenthesis. *)
Fixpoint values_loop (ts : list Token) (values : list jsstr) :
    result FilterError (list jsstr * list Token) :=
  match ts with
  | [] => Err (syntax_error ($"expected " ++ json_string [RPAREN]) endPos)
  | sep :: r =>
      match kind sep with
      | Krparen => Ok (values, r)
      | Kcomma =>
          match r with
          | t :: r' => if is_value_kind (kind t) then values_loop r' (values ++ [value t])
                       else Err (syntax_error $"expected a value" (pos t))
          | [] => Err (syntax_error $"expected a value" endPos)
          end
      | _ => Err (syntax_error ($"expected " ++ json_string [COMMA] ++ $" or " ++ json_string [RPAREN]) (pos sep))
      end
  end.

Definition followedByFieldOp (ts : list Token) : bool :=
  match head ts with
  | None => false
  | Some after =>
      bool_decide (kind after = Kop) || bool_decide (kind after = Kexists)
      || isKeyword (Some after) $"in" || isKeyword (Some after) $"cidr"
      || (isKeyword (Some after) $"not" && isKeyword (ts !! 1) $"in")
  end.

Definition term (ts : list Token) : result FilterError (FilterExpr * list Token) :=
  match ts with
  | [] => Err (syntax_error $"expected a filter" endPos)
  | t :: ts1 =>
      if negb (is_value_kind (kind t))
      then Err (syntax_error ($"unexpected " ++ json_string (value t)) (pos t))
      else if negb (followedByFieldOp ts1)
      then if bool_decide (kind t = Kbare) && is_keyword_text (value t)
           then Err (syntax_error ($"unexpected keyword " ++ value t) (pos t))
           else Ok (TextExpr (value t), ts1)
      else
        let field := value t in
        if negb (truthy field) then Err (syntax_error $"empty field name" (pos t))
        else match ts1 with
        | [] => Err (syntax_error $"expected a filter" endPos)
        | op :: ts2 =>
            match kind op with
            | Kexists => Ok (FieldExistsExpr op_exists field, ts2)
            | Kop =>
                '(v, r) ← p_value ts2;
                match OP_TO_AST (value op) with
                | Some o => Ok (FieldValueExpr o field v, r)
                | None => Err (syntax_error ($"unexpected " ++ json_string (value op)) (pos op))
                end
            | _ =>
                if isKeyword (Some op) $"cidr"
                then '(v, r) ← p_value ts2; Ok (FieldValueExpr op_cidr field v, r)
                else
                  let negated := isKeyword (Some op) $"not" in
                  let listOp := if negated then op_not_in else op_in in
                  let ts3 := if negated then tail ts2 else ts2 in
                  match ts3 with
                  | open :: ts4 =>
                      if bool_decide (kind open = Klparen)
                      then '(v, ts5) ← p_value ts4;
                           '(values, r) ← values_loop ts5 [v];
                           Ok (FieldValuesExpr listOp field values, r)
                      else Err (syntax_error ($"expected " ++ json_string [LPAREN] ++ $" after in") (pos open))
                  | [] => Err (syntax_error ($"expected " ++ json_string [LPAREN] ++ $" after in") endPos)
                  end
            end
        end
  end.

(** [flatten]: one level of the same connective is spliced in. *)
Definition flatten (op : BoolOp) (args : list FilterExpr) : FilterExpr :=
  BoolExpr op (args ≫= λ a,
    match a with
    | BoolExpr op' inner => if decide (op' = op) then inner else [a]
    | _ => [a]
    end).

(** [args.length === 1 ? args\[0\]! : flatten(op, args)] *)
Definition combine_args (op : BoolOp) (args : list FilterExpr) : FilterExpr :=
  match args with [a] => a | _ => flatten op args end.

Fixpoint orExpr (fuel : nat) (ts : list Token) : result FilterError (FilterExpr * list Token) :=
  match fuel with
  | 0 => Err OutOfFuel
  | S f =>
      '(a, ts1) ← andExpr f ts;
      '(args, ts2) ← or_loop f ts1 [a];
      Ok (combine_args op_or args, ts2)
  end
with or_loop (fuel : nat) (ts : list Token) (args : list FilterExpr) :
    result FilterError (list FilterExpr * list Token) :=
  match fuel with
  | 0 => Err OutOfFuel
  | S f =>
      if isKeyword (head ts) $"or"
      then '(a, ts1) ← andExpr f (tail ts); or_loop f ts1 (args ++ [a])
      else Ok (args, ts)
  end
with andExpr (fuel : nat) (ts : list Token) : result FilterError (FilterExpr * list Token) :=
  match fuel with
  | 0 => Err OutOfFuel
  | S f =>
      '(a, ts1) ← unary f ts;
      '(args, ts2) ← and_loop f ts1 [a];
      Ok (combine_args op_and args, ts2)
  end
with and_loop (fuel : nat) (ts : list Token) (args : list FilterExpr) :
    result FilterError (list FilterExpr * list Token) :=
  match fuel with
  | 0 => Err OutOfFuel
  | S f =>
      match ts with
      | [] => Ok (args, ts)
      | t :: r =>
          if bool_decide (kind t = Krparen) || isKeyword (Some t) $"or" then Ok (args, ts)
          else
            let ts1 := if isKeyword (Some t) $"and" then r else ts in
            '(a, ts2) ← unary f ts1;
            and_loop f ts2 (args ++ [a])
      end
  end
with unary (fuel : nat) (ts : list Token) : result FilterError (FilterExpr * list Token) :=
  match fuel with
  | 0 => Err OutOfFuel
  | S f =>
      match ts with
      | [] => Err (syntax_error $"expected a filter" endPos)
      | t :: r =>
          if isKeyword (Some t) $"not" then '(e, r') ← unary f r; Ok (NotExpr e, r')
          else match kind t with
          | Kbang =>
              match r with
              | field :: r1 =>
                  if is_value_kind (kind field)
                  then match r1 with
                       | ex :: r2 =>
                           if bool_decide (kind ex = Kexists)
                           then Ok (FieldExistsExpr op_not_exists (value field), r2)
                           else Err (syntax_error ($"expected " ++ json_string $":*" ++ $" after " ++ json_string $"!field") (pos ex))
                       | [] => Err (syntax_error ($"expected " ++ json_string $":*" ++ $" after " ++ json_string $"!field") endPos)
                       end
                  else Err (syntax_error ($"expected a field name after " ++ json_string [BANG]) (pos field))
              | [] => Err (syntax_error ($"expected a field name after " ++ json_string [BANG]) endPos)
              end
          | Klparen =>
              '(e, r1) ← orExpr f r;
              match r1 with
              | close :: r2 =>
                  if bool_decide (kind close = Krparen) then Ok (e, r2)
                  else Err (syntax_error ($"expected " ++ json_string [RPAREN]) (pos close))
              | [] => Err (syntax_error ($"expected " ++ json_string [RPAREN]) endPos)
              end
          | _ => term ts
          end
      end
  end.

(** The fuel of a descent over [n] tokens: each token can be behind at most
    four nested calls. *)
Definition parse_fuel (n : nat) : nat := 4 * n + 4.

Definition parse (ts : list Token) : result FilterError FilterExpr :=
  '(e, r) ← orExpr (parse_fuel (length ts)) ts;
  match r with
  | [] => Ok e
  | t :: _ =>
      Err (syntax_error ($"unexpected " ++
             (if bool_decide (kind t = Krparen) then json_string [RPAREN] else json_string (value t))) (pos t))
  end.
End parser.
#[global] Arguments isKeyword : simpl never.
#[global] Arguments term : simpl never.
#[global] Arguments followedByFieldOp : simpl never.

(** Parses filter text; empty input is [null]. *)
Definition parseFilter (text : jsstr) : result FilterError (option FilterExpr) :=
  match trim text with
  | [] => Ok None
  | _ => ts ← tokenize text; Some <$> parse (length text) ts
  end.

(** * Printer *)

(** The precedence argument is doubled ([or] = 2, [and] = 4, [not] = 6), so the
    source's half steps ([prec + 0.5]) are the odd numbers. *)
Fixpoint fmt (e : FilterExpr) (parentPrec : nat) : jsstr :=
  match e with
  | BoolExpr op args =>
      let prec := match op with op_or => 2 | op_and => 4 end in
      let s := join (match op with op_or => $" OR " | op_and => $" AND " end)
                 (map (λ a, fmt a (prec + 1)) args) in
      if prec <? parentPrec then [LPAREN] ++ s ++ [RPAREN] else s
  | NotExpr arg => $"NOT " ++ fmt arg 6
  | TextExpr v => quoteAlways v
  | FieldExistsExpr op_exists f => quote f ++ $":*"
  | FieldExistsExpr op_not_exists f => $"!" ++ quote f ++ $":*"
  | FieldValuesExpr op f vs =>
      quote f ++ $" " ++ (match op with op_in => $"in" | op_not_in => $"not in" end)
      ++ $" (" ++ join $", " (map quote vs) ++ $")"
  | FieldValueExpr op_cidr f v => quote f ++ $" cidr " ++ quote v
  | FieldValueExpr op_regex f v => quote f ++ $"=~" ++ quoteAlways v
  | FieldValueExpr op f v =>
      quote f ++ (match AST_TO_OP op with Some o => o | None => $"undefined" end) ++ quote v
  end.

Definition formatFilter (expr : option FilterExpr) : jsstr :=
  match expr with None => [] | Some e => fmt e 0 end.

Example parse_ex :
  parseFilter $"a=b AND (c~d OR not in_x in (1, 2)) !z:*" =
    Ok (Some (BoolExpr op_and
      [FieldValueExpr op_eq $"a" $"b";
       BoolExpr op_or [FieldValueExpr op_contains $"c" $"d";
                       NotExpr (FieldValuesExpr op_in $"in_x" [$"1"; $"2"])];
       FieldExistsExpr op_not_exists $"z"])).
Proof. vm_compute. reflexivity. Qed.
Example parse_err_ex :
  parseFilter $"a=b OR" = Err (FilterSyntaxError $"expected a filter (at position 7)" 6).
Proof. vm_compute. reflexivity. Qed.
