(* ===== verification/FilterTextFacts.v ===== *)
(** The filter text parser always answers: every descent consumes tokens, so
    the fuel it is given is enough.  Also the canonical and the printable
    expressions, and [canon], the flattening the parser performs. *)
From Stdlib Require Import Lia.
From stdpp Require Import base list numbers strings.
From S2P Require Import Prelude Unicode FilterAst FilterLex FilterText.

(** * Consumption: every successful descent takes at least one token *)

Section facts.
Context (len : nat).

Lemma p_value_shorter ts v r : p_value len ts = Ok (v, r) → length r < length ts.
Proof. destruct ts as [|t ts]; simpl; [done|]. case_match; intros; invert_ok; lia. Qed.

Lemma values_loop_shorter ts vs vs' r : values_loop len ts vs = Ok (vs', r) → length r < length ts.
Proof.
  remember (length ts) as n eqn:En. revert ts vs En.
  induction (lt_wf n) as [n _ IH]. intros [|sep ts] vs -> H; simpl in H; [done|].
  destruct (kind sep); try done; [invert_ok; simpl; lia|].
  destruct ts as [|t ts]; [done|]. destruct (is_value_kind (kind t)); [|done].
  eapply IH in H; [|shelve|reflexivity]. simpl. lia. Unshelve. simpl. lia.
Qed.

Lemma length_tail {A} (l : list A) : length (tail l) = pred (length l).
Proof. by destruct l. Qed.

Lemma term_shorter ts e r : term len ts = Ok (e, r) → length r < length ts.
Proof.
  unfold term. intros H. destruct ts as [|t ts1]; [done|].
  repeat case_match; invert_ok; simpl; try lia;
  repeat match goal with
  | H : p_value _ _ = _ |- _ => apply p_value_shorter in H
  | H : values_loop _ _ _ = _ |- _ => apply values_loop_shorter in H
  end; simpl in *; rewrite ?length_tail in *; try lia.
  all: match goal with E : tail ?l = _ |- _ => apply (f_equal length) in E; rewrite length_tail in E end;
    simpl in *; lia.
Qed.

Lemma descent_shorter f :
  (∀ ts e r, orExpr len f ts = Ok (e, r) → length r < length ts) ∧
  (∀ ts args args' r, or_loop len f ts args = Ok (args', r) → length r ≤ length ts) ∧
  (∀ ts e r, andExpr len f ts = Ok (e, r) → length r < length ts) ∧
  (∀ ts args args' r, and_loop len f ts args = Ok (args', r) → length r ≤ length ts) ∧
  (∀ ts e r, unary len f ts = Ok (e, r) → length r < length ts).
Proof.
  induction f as [|f (IHor & IHol & IHand & IHal & IHun)]; [by repeat split|].
  split_and!; simpl.
  - intros ts e r H. invert_ok.
    repeat match goal with
    | H : andExpr _ _ _ = _ |- _ => apply IHand in H | H : or_loop _ _ _ _ = _ |- _ => apply IHol in H
    end. lia.
  - intros ts args args' r H. case_match; invert_ok; [|lia].
    repeat match goal with
    | H : andExpr _ _ _ = _ |- _ => apply IHand in H | H : or_loop _ _ _ _ = _ |- _ => apply IHol in H
    end. rewrite length_tail in *. lia.
  - intros ts e r H. invert_ok.
    repeat match goal with
    | H : unary _ _ _ = _ |- _ => apply IHun in H | H : and_loop _ _ _ _ = _ |- _ => apply IHal in H
    end. lia.
  - intros ts args args' r H. repeat case_match; invert_ok; try (simpl; lia).
    all: repeat match goal with
    | H : unary _ _ _ = _ |- _ => apply IHun in H | H : and_loop _ _ _ _ = _ |- _ => apply IHal in H
    end; simpl in *; lia.
  - intros [|t ts] e r H; [done|].
    destruct (isKeyword (Some t) $"not").
    { apply bind_ok in H as ([a r'] & E & [= <- <-]). apply IHun in E. simpl. lia. }
    destruct (kind t); try (by apply term_shorter in H).
    + apply bind_ok in H as ([a r'] & E & H). apply IHor in E. destruct r' as [|close r2]; [done|].
      case_match; [|done]. injection H as <- <-. simpl in *. lia.
    + repeat case_match; invert_ok; simpl; lia.
Qed.

(** * Termination: the fuel is enough *)

Lemma p_value_fuel ts : p_value len ts ≠ Err OutOfFuel.
Proof. destruct ts; simpl; [done|]. by case_match. Qed.

Lemma values_loop_fuel ts vs : values_loop len ts vs ≠ Err OutOfFuel.
Proof.
  remember (length ts) as n eqn:En. revert ts vs En.
  induction (lt_wf n) as [n _ IH]. intros [|sep ts] vs ->; simpl; [done|].
  destruct (kind sep); try done. destruct ts as [|t ts]; [done|].
  case_match; [|done]. eapply IH; [|reflexivity]. simpl. lia.
Qed.

Lemma term_fuel ts : term len ts ≠ Err OutOfFuel.
Proof.
  unfold term. intros H. repeat case_match; try done;
  repeat match goal with
  | H : mbind _ _ = Err _ |- _ => apply bind_err in H as [H | ([? ?] & ? & H)]
  | H : p_value _ _ = Err _ |- _ => by apply p_value_fuel in H
  | H : values_loop _ _ _ = Err _ |- _ => by apply values_loop_fuel in H
  | H : Err _ = Err _ |- _ => discriminate H
  | H : Ok _ = Err _ |- _ => discriminate H
  | H : match OP_TO_AST ?x with _ => _ end = _ |- _ => destruct (OP_TO_AST x)
  end.
Qed.

Lemma descent_fuel f :
  (∀ ts, 4 * length ts + 4 ≤ f → orExpr len f ts ≠ Err OutOfFuel) ∧
  (∀ ts args, 4 * length ts + 4 ≤ f → or_loop len f ts args ≠ Err OutOfFuel) ∧
  (∀ ts, 4 * length ts + 3 ≤ f → andExpr len f ts ≠ Err OutOfFuel) ∧
  (∀ ts args, 4 * length ts + 3 ≤ f → and_loop len f ts args ≠ Err OutOfFuel) ∧
  (∀ ts, 4 * length ts + 2 ≤ f → unary len f ts ≠ Err OutOfFuel).
Proof.
  induction f as [|f (IHor & IHol & IHand & IHal & IHun)]; [repeat split; lia|].
  destruct (descent_shorter f) as (Sor & Sol & Sand & Sal & Sun).
  split_and!; simpl.
  - intros ts Hf [H|([a ts1] & E & H)]%bind_err; [apply IHand in H; [done|lia]|].
    apply bind_err in H as [H|([? ?] & ? & H)]; [|done].
    apply Sand in E. apply IHol in H; [done|lia].
  - intros ts args Hf H. case_match eqn:K; [|done].
    destruct ts as [|t ts]; [done|]. simpl in *.
    apply bind_err in H as [H|([a ts1] & E & H)]; [apply IHand in H; [done|lia]|].
    apply Sand in E. apply IHol in H; [done|lia].
  - intros ts Hf [H|([a ts1] & E & H)]%bind_err; [apply IHun in H; [done|lia]|].
    apply bind_err in H as [H|([? ?] & ? & H)]; [|done].
    apply Sun in E. apply IHal in H; [done|lia].
  - intros [|t ts] args Hf H; [done|]. case_match; [done|]. simpl in *.
    apply bind_err in H as [H|([a ts1] & E & H)].
    + apply IHun in H; [done|]. case_match; simpl; lia.
    + apply Sun in E. apply IHal in H; [done|]. revert E. case_match; simpl; lia.
  - intros [|t ts] Hf H; [done|]. simpl in *.
    repeat case_match; try done; try (by apply term_fuel in H).
    + apply bind_err in H as [H|([a ts1] & E & H)]; [apply IHun in H; [done|lia]|done].
    + apply bind_err in H as [H|([a ts1] & E & H)]; [apply IHor in H; [done|lia]|].
      repeat case_match; done.
Qed.

Lemma parse_total ts : parse len ts ≠ Err OutOfFuel.
Proof.
  unfold parse. intros [H|([e r] & _ & H)]%bind_err; [|by repeat case_match].
  revert H. apply descent_fuel. unfold parse_fuel. lia.
Qed.
End facts.

Lemma parseFilter_total text : parseFilter text ≠ Err OutOfFuel.
Proof.
  unfold parseFilter. destruct (trim text); [done|]. intros [H|(ts & _ & H)]%bind_err.
  - rewrite tokenize_lex in H. by apply lex_fuel in H.
  - destruct (parse (length text) ts) eqn:E; [done|].
    match goal with H : _ = Err OutOfFuel |- _ => injection H as -> end. by apply parse_total in E.
Qed.

(** * Canonical and printable expressions *)

(** What the grammar can express: no empty [and], [or] or value list, and a
    field name wherever the grammar needs one. *)
Fixpoint printable (e : FilterExpr) : bool :=
  match e with
  | BoolExpr _ args => negb (bool_decide (args = [])) && forallb printable args
  | NotExpr a => printable a
  | TextExpr _ => true
  | FieldValueExpr _ f _ => truthy f
  | FieldValuesExpr _ f vs => truthy f && negb (bool_decide (vs = []))
  | FieldExistsExpr op_exists f => truthy f
  | FieldExistsExpr op_not_exists _ => true
  end.

Definition is_bool (op : BoolOp) (e : FilterExpr) : bool :=
  match e with BoolExpr op' _ => bool_decide (op' = op) | _ => false end.

(** The header comment's canonical ASTs: no single-argument [and] or [or], no
    [and] directly inside [and], no [or] directly inside [or]. *)
Fixpoint canonical (e : FilterExpr) : bool :=
  match e with
  | BoolExpr op args =>
      negb (length args =? 1) && forallb (λ a, negb (is_bool op a)) args && forallb canonical args
  | NotExpr a => canonical a
  | _ => true
  end.

(** The canonical form of an expression. *)
Fixpoint canon (e : FilterExpr) : FilterExpr :=
  match e with
  | BoolExpr op args => combine_args op (map canon args)
  | NotExpr a => NotExpr (canon a)
  | _ => e
  end.

Definition splice (op : BoolOp) (a : FilterExpr) : list FilterExpr :=
  match a with
  | BoolExpr op' inner => if decide (op' = op) then inner else [a]
  | _ => [a]
  end.

Lemma splice_id op a : is_bool op a = false → splice op a = [a].
Proof. destruct a; simpl; try done. intros ?%bool_decide_eq_false. by rewrite decide_False. Qed.

Lemma flatten_splice op args : flatten op args = BoolExpr op (args ≫= splice op).
Proof. reflexivity. Qed.

Lemma flatten_id op args : forallb (λ a, negb (is_bool op a)) args = true → flatten op args = BoolExpr op args.
Proof.
  intros H. rewrite flatten_splice. f_equal. induction args as [|a args IH]; [done|].
  cbn [forallb] in H. btrue. rewrite bind_cons, splice_id by done. simpl. f_equal. auto.
Qed.

Lemma canon_canonical e : canonical e = true → canon e = e.
Proof.
  induction e as [op args IH|a IH| | | |] using FilterExpr_deep_ind; simpl; intros H; try done;
    [|by rewrite IH].
  apply andb_prop in H as [[Hl Hb]%andb_prop Hc]. assert (map canon args = args) as ->.
  { clear -IH Hc. induction IH as [|a l Ha _ IHl]; [done|]. cbn [forallb] in *. btrue. simpl. f_equal; auto. }
  unfold combine_args. destruct args as [|a [|b l]]; [done|done|]. by apply flatten_id.
Qed.

