(* ===== verification/FilterRoundTrip.v ===== *)
(** The round trip of the filter text form: printing an expression and parsing
    the text gives the expression back, up to the flattening [canon] the parser
    performs on every input.

    The proof goes through the token list an expression prints to ([toks]):
    the tokenizer recovers it from the text ([lexes_fmt]) and the recursive
    descent recovers the expression from it, at each of the three levels of
    the grammar ([parses]). *)
From Stdlib Require Import Lia.
From stdpp Require Import base list numbers strings.
From S2P Require Import Prelude Unicode FilterAst FilterLex FilterText FilterTextFacts.

(** * The tokens an expression prints to *)

Definition tk (s : string) : TokenKind * jsstr := (Kbare, js s).
Definition tk_lparen : TokenKind * jsstr := (Klparen, [LPAREN]).
Definition tk_rparen : TokenKind * jsstr := (Krparen, [RPAREN]).
Definition tk_comma : TokenKind * jsstr := (Kcomma, [COMMA]).
Definition tk_quote (v : jsstr) : TokenKind * jsstr := (quote_kind v, v).

Fixpoint toks (e : FilterExpr) (p : nat) : list (TokenKind * jsstr) :=
  match e with
  | BoolExpr op args =>
      let prec := match op with op_or => 2 | op_and => 4 end in
      let s := join [match op with op_or => tk "OR" | op_and => tk "AND" end]
                 (map (λ a, toks a (prec + 1)) args) in
      if prec <? p then [tk_lparen] ++ s ++ [tk_rparen] else s
  | NotExpr a => tk "NOT" :: toks a 6
  | TextExpr v => [(Kquoted, v)]
  | FieldExistsExpr op_exists f => [tk_quote f; (Kexists, $":*")]
  | FieldExistsExpr op_not_exists f => [(Kbang, [BANG]); tk_quote f; (Kexists, $":*")]
  | FieldValuesExpr op f vs =>
      [tk_quote f] ++ (match op with op_in => [tk "in"] | op_not_in => [tk "not"; tk "in"] end)
      ++ [tk_lparen] ++ join [tk_comma] (map (λ v, [tk_quote v]) vs) ++ [tk_rparen]
  | FieldValueExpr op_cidr f v => [tk_quote f; tk "cidr"; tk_quote v]
  | FieldValueExpr op_regex f v => [tk_quote f; (Kop, $"=~"); (Kquoted, v)]
  | FieldValueExpr op f v =>
      [tk_quote f; (Kop, match AST_TO_OP op with Some o => o | None => [] end); tk_quote v]
  end.

(** ** The tokenizer recovers them *)

Lemma boundary_cons c r : is_special c = true → boundary (c :: r).
Proof. intros H d r' [= <- <-]. done. Qed.

Lemma boundary_js c r : is_special c = true → boundary ([c] ++ r).
Proof. apply boundary_cons. Qed.

#[local] Hint Resolve boundary_cons lexes_space lexes_lparen lexes_rparen lexes_comma lexes_exists
  lexes_quote lexes_quoteAlways lexes_bare : syslog.

Lemma quote_head v c r : quote v = c :: r → c = DQUOTE ∨ is_bare_unit c = true.
Proof.
  unfold quote. destruct (BARE_RE v && negb (is_keyword_text v)) eqn:E.
  - intros ->. btrue. unfold BARE_RE in *. btrue. cbn [forallb] in *. btrue. auto.
  - intros [= <- _]. auto.
Qed.

Lemma quote_nonempty v : quote v ≠ [].
Proof. unfold quote, BARE_RE. destruct v; [done|]. by case_match. Qed.

(** What follows an operator is never read as a longer operator. *)
Lemma find_operator_before_quote o v r :
  o ∈ OPERATORS → find_operator (o ++ quote v ++ r) = Some o.
Proof.
  intros Ho. destruct (quote v) as [|c q] eqn:E; [by apply quote_nonempty in E|].
  assert ((EQUALS =? c)%N = false ∧ (TILDE =? c)%N = false) as [H1 H2].
  { apply quote_head in E as [->|E]; [done|]. apply bare_not_special in E. unfold is_special in E.
    btrue. split; apply N.eqb_neq; congruence. }
  unfold OPERATORS in *. rewrite !elem_of_cons, elem_of_nil in Ho. unfold find_operator, OPERATORS. lits.
  destruct_or! Ho; subst; try done; cbn -[N.eqb]; rewrite ?H1, ?H2; done.
Qed.

Lemma find_operator_before_quoteAlways v r :
  find_operator ($"=~" ++ quoteAlways v ++ r) = Some $"=~".
Proof. reflexivity. Qed.

Lemma lexes_op_quote o v r l :
  o ∈ OPERATORS → boundary r → lexes r l → lexes (o ++ quote v ++ r) ((Kop, o) :: tk_quote v :: l).
Proof.
  intros Ho Hr Hl. apply lexes_op; [done|by apply find_operator_before_quote|by apply lexes_quote].
Qed.

Lemma lexes_kw w r l :
  BARE_RE (js w) = true → lexes r l → lexes (js w ++ SPACE :: r) (tk w :: l).
Proof. intros. apply lexes_bare; [done|by apply boundary_cons|by apply lexes_space]. Qed.

(** A separator with a keyword between spaces. *)
Lemma lexes_sep w r l :
  BARE_RE (js w) = true → lexes r l → lexes ((SPACE :: js w ++ [SPACE]) ++ r) (tk w :: l).
Proof.
  intros. cbn [app]. apply lexes_space; [done|]. rewrite <- app_assoc. by apply lexes_kw.
Qed.

Section join.
Context {A : Type} (text : A → jsstr) (image : A → list (TokenKind * jsstr)).
Context (sep : jsstr) (mark : TokenKind * jsstr).
Hypothesis sep_boundary : ∀ r, boundary (sep ++ r).
Hypothesis sep_lexes : ∀ r l, lexes r l → lexes (sep ++ r) (mark :: l).

Lemma lexes_join xs r l :
  Forall (λ x, ∀ r l, boundary r → lexes r l → lexes (text x ++ r) (image x ++ l)) xs →
  boundary r → lexes r l →
  lexes (join sep (map text xs) ++ r) (join [mark] (map image xs) ++ l).
Proof.
  intros Hxs Hr Hl. destruct Hxs as [|x xs Hx Hxs]; [done|]. simpl map. rewrite !join_cons, <- !app_assoc.
  assert (boundary ((map text xs ≫= λ y, sep ++ y) ++ r) ∧
          lexes ((map text xs ≫= λ y, sep ++ y) ++ r) ((map image xs ≫= λ y, [mark] ++ y) ++ l)) as [Hb Hj].
  { induction Hxs as [|y ys Hy Hys [Hb IH]]; [done|]. simpl map. rewrite !bind_cons, <- !app_assoc.
    split; [apply sep_boundary|]. cbn [app]. apply sep_lexes. by apply Hy. }
  by apply Hx.
Qed.
End join.

Lemma lexes_fmt e p r l : boundary r → lexes r l → lexes (fmt e p ++ r) (toks e p ++ l).
Proof.
  revert p r l. induction e as [op args IH|a IH|v|op f v|op f vs|op f] using FilterExpr_deep_ind;
    intros p r l Hr Hl.
  - assert (∀ n w r l, BARE_RE (js w) = true → boundary r → lexes r l →
      lexes (join (SPACE :: js w ++ [SPACE]) (map (λ a, fmt a n) args) ++ r)
            (join [tk w] (map (λ a, toks a n) args) ++ l)) as Hj.
    { intros n w r' l' Hw Hr' Hl'. apply lexes_join; [| |eapply Forall_impl; [exact IH|intros x Hx r0 l0; apply Hx]|done|done].
      - intros r0. by apply boundary_cons.
      - intros r0 l0. by apply lexes_sep. }
    simpl. set (prec := match op with op_or => 2 | op_and => 4 end).
    replace (match op with op_or => $" OR " | op_and => $" AND " end)
      with (SPACE :: js (match op with op_or => "OR" | op_and => "AND" end) ++ [SPACE])
      by by destruct op.
    replace (match op with op_or => tk "OR" | op_and => tk "AND" end)
      with (tk (match op with op_or => "OR" | op_and => "AND" end)) by by destruct op.
    destruct (prec <? p).
    + rewrite <- ?app_assoc. cbn [app]. apply lexes_lparen. rewrite <- ?app_assoc.
      apply Hj; [by destruct op|by apply boundary_cons|by apply lexes_rparen].
    + apply Hj; [by destruct op|done|done].
  - cbn [fmt toks]. change $"NOT " with ($"NOT" ++ [SPACE]). rewrite <- ?app_assoc. cbn [app].
    apply lexes_kw; [done|]. auto.
  - by apply lexes_quoteAlways.
  - destruct op; cbn [fmt toks AST_TO_OP]; rewrite <- ?app_assoc; apply lexes_quote.
    all: try (apply boundary_js; reflexivity).
    all: cbn [app].
    all: try (apply lexes_op_quote; [by apply (bool_decide_unpack _)|done|done]).
    + apply lexes_op; [by apply (bool_decide_unpack _)|apply find_operator_before_quoteAlways
                      |by apply lexes_quoteAlways].
    + apply lexes_sep with (w := "cidr"); [done|]. by apply lexes_quote.
  - cbn [fmt toks]. rewrite <- ?app_assoc. apply lexes_quote; [by apply boundary_js|].
    assert (lexes ($"(" ++ join $", " (map quote vs) ++ $")" ++ r)
              ([tk_lparen] ++ join [tk_comma] (map (λ v, [tk_quote v]) vs) ++ [tk_rparen] ++ l)) as H.
    { apply lexes_lparen, lexes_join; [intros; by apply boundary_js| | |by apply boundary_js|by apply lexes_rparen].
      - intros. apply lexes_comma. by apply lexes_space.
      - apply Forall_true. intros. by apply lexes_quote. }
    destruct op.
    + change $" (" with ([SPACE] ++ $"("). rewrite <- ?app_assoc.
      apply lexes_sep with (w := "in"); done.
    + change $" (" with ([SPACE] ++ $"("). rewrite <- ?app_assoc.
      change $"not in" with ($"not" ++ [SPACE] ++ $"in"). rewrite <- ?app_assoc.
      apply lexes_sep with (w := "not"); [done|]. apply lexes_kw with (w := "in"); done.
  - destruct op; cbn [fmt toks]; rewrite <- ?app_assoc.
    + apply lexes_quote; [by apply boundary_js|]. by apply lexes_exists.
    + cbn [app]. apply lexes_bang.
      * intros c r' E. destruct (quote f) as [|c' q] eqn:Eq; [by apply quote_nonempty in Eq|].
        injection E as <- _. apply quote_head in Eq as [->|Hb]; [done|].
        apply bare_not_special in Hb. unfold is_special in Hb. by btrue; apply N.eqb_neq.
      * apply lexes_quote; [by apply boundary_js|]. by apply lexes_exists.
Qed.

(** ** The descent recovers the expression *)

(** What may follow a complete unary, and-, or or-expression. *)
Definition follow_o (l : list (TokenKind * jsstr)) : Prop :=
  match l with [] => True | (k, _) :: _ => k = Krparen end.
Definition follow_a (l : list (TokenKind * jsstr)) : Prop :=
  match l with [] => True | (k, v) :: _ => k = Krparen ∨ (k = Kbare ∧ to_lower v = $"or") end.
Definition follow_u (l : list (TokenKind * jsstr)) : Prop :=
  match l with
  | [] => True
  | (k, v) :: _ => k = Krparen ∨ (k = Kbare ∧ (to_lower v = $"or" ∨ to_lower v = $"and"))
  end.

Lemma follow_o_a l : follow_o l → follow_a l.
Proof. destruct l as [|[k v] l]; simpl; auto. Qed.
Lemma follow_a_u l : follow_a l → follow_u l.
Proof. destruct l as [|[k v] l]; simpl; naive_solver. Qed.
#[local] Hint Resolve follow_o_a follow_a_u : syslog.

Lemma kv_cons x l (ts : list Token) :
  kv <$> ts = x :: l → ∃ t ts', ts = t :: ts' ∧ kv t = x ∧ kv <$> ts' = l.
Proof. destruct ts as [|t ts]; [done|]. intros [= <- <-]. eauto. Qed.

(** Takes the first token off a list whose kinds and values are known. *)
Ltac pop H t Ht :=
  let ts := fresh "ts" in
  apply kv_cons in H as (t & ts & -> & Ht & H);
  let k := fresh "k" in let v := fresh "v" in let p := fresh "p" in
  destruct t as [k v p]; unfold kv, tk, tk_lparen, tk_rparen, tk_comma, tk_quote in Ht; cbn in Ht;
  let Hk := fresh "Hk" in let Hv := fresh "Hv" in injection Ht as Hk Hv; subst k; subst v.

Lemma isKeyword_kind t kw : kind t ≠ Kbare → isKeyword (Some t) kw = false.
Proof. intros H. unfold isKeyword. by rewrite bool_decide_eq_false_2. Qed.

Lemma isKeyword_true t kw : kind t = Kbare → to_lower (value t) = kw → isKeyword (Some t) kw = true.
Proof. intros H1 H2. unfold isKeyword. by rewrite !bool_decide_eq_true_2. Qed.

Lemma isKeyword_lit w p kw :
  isKeyword (Some (MkToken Kbare (js w) p)) kw = bool_decide (to_lower (js w) = kw).
Proof. reflexivity. Qed.

(** A quoted-if-necessary value is never taken for a keyword. *)
Lemma quote_kind_not_keyword v p kw :
  kw ∈ KEYWORDS → isKeyword (Some (MkToken (quote_kind v) v p)) kw = false.
Proof.
  intros Hkw. unfold quote_kind. destruct (BARE_RE v && negb (is_keyword_text v)) eqn:E;
    [|by apply isKeyword_kind].
  btrue. unfold is_keyword_text in *. match goal with H : bool_decide _ = false |- _ =>
    apply bool_decide_eq_false in H; rename H into Hn end.
  unfold isKeyword. apply andb_false_iff. right. apply bool_decide_eq_false. cbn [value]. congruence.
Qed.

Lemma quote_kind_value v : is_value_kind (quote_kind v) = true.
Proof. unfold quote_kind. by case_match. Qed.

Lemma quote_kind_cases v : quote_kind v = Kbare ∨ quote_kind v = Kquoted.
Proof. unfold quote_kind. case_match; auto. Qed.

Section descent.
Context (len : nat).

Definition parsesU (e : FilterExpr) : Prop :=
  ∀ f ts r, 4 * length ts + 2 ≤ f → kv <$> ts = toks e 6 ++ r → follow_u r →
  ∃ ts', unary len f ts = Ok (canon e, ts') ∧ kv <$> ts' = r.
Definition parsesA (e : FilterExpr) : Prop :=
  ∀ f ts r, 4 * length ts + 3 ≤ f → kv <$> ts = toks e 3 ++ r → follow_a r →
  ∃ ts', andExpr len f ts = Ok (canon e, ts') ∧ kv <$> ts' = r.
Definition parsesO (e : FilterExpr) : Prop :=
  ∀ f ts r, 4 * length ts + 4 ≤ f → kv <$> ts = toks e 0 ++ r → follow_o r →
  ∃ ts', orExpr len f ts = Ok (canon e, ts') ∧ kv <$> ts' = r.

Lemma and_loop_stop f ts r args :
  0 < f → kv <$> ts = r → follow_a r → and_loop len f ts args = Ok (args, ts).
Proof.
  intros Hf <- Hr. destruct f as [|f]; [lia|]. destruct ts as [|[k v p] ts]; [done|].
  cbn in Hr. cbn. destruct Hr as [->|[-> E]]; [done|]. by rewrite isKeyword_true.
Qed.

Lemma or_loop_stop f ts r args :
  0 < f → kv <$> ts = r → follow_o r → or_loop len f ts args = Ok (args, ts).
Proof.
  intros Hf <- Hr. destruct f as [|f]; [lia|]. destruct ts as [|[k v p] ts]; [done|].
  cbn in Hr. subst. done.
Qed.

(** The tokens of the arguments after the first, each behind its connective. *)
Definition rest_toks (w : string) (n : nat) (args : list FilterExpr) : list (TokenKind * jsstr) :=
  args ≫= λ a, tk w :: toks a n.

Lemma join_toks w n a args :
  join [tk w] (map (λ a, toks a n) (a :: args)) = toks a n ++ rest_toks w n args.
Proof.
  simpl map. rewrite join_cons. f_equal. unfold rest_toks.
  induction args as [|b args IH]; [done|]. simpl map. by rewrite !bind_cons, IH.
Qed.

Lemma rest_toks_follow w n args r :
  to_lower (js w) = $"or" ∨ to_lower (js w) = $"and" → follow_u r → follow_u (rest_toks w n args ++ r).
Proof. intros Hw Hr. destruct args; [done|]. right. auto. Qed.

Lemma toks_high e : toks e 5 = toks e 6.
Proof. by destruct e as [[]| | | | |]. Qed.

Lemma and_loop_rest args acc f ts r :
  Forall parsesU args → 4 * length ts + 3 ≤ f → kv <$> ts = rest_toks "AND" 5 args ++ r → follow_a r →
  ∃ ts', and_loop len f ts acc = Ok (acc ++ map canon args, ts') ∧ kv <$> ts' = r.
Proof.
  intros Hargs. revert acc f ts. induction Hargs as [|a args Ha _ IH]; intros acc f ts Hf Hts Hr.
  - rewrite app_nil_r. exists ts. split; [|done]. eapply and_loop_stop; [lia|exact Hts|done].
  - unfold rest_toks in Hts. rewrite bind_cons in Hts. fold (rest_toks "AND" 5 args) in Hts.
    cbn [app] in Hts. rewrite <- app_assoc, toks_high in Hts. pop Hts t Ht.
    destruct f as [|f]; [lia|]. cbn [and_loop]. rewrite !isKeyword_lit.
    replace (bool_decide (to_lower $"AND" = $"or")) with false by (by vm_compute).
    replace (bool_decide (to_lower $"AND" = $"and")) with true by (by vm_compute). cbn.
    destruct (Ha f ts0 (rest_toks "AND" 5 args ++ r)) as (ts1 & E1 & K1);
      [simpl in Hf; lia|done|apply rest_toks_follow; [right; by vm_compute|auto with syslog]|].
    rewrite E1. cbn. destruct (descent_shorter len f) as (_ & _ & _ & _ & Sun). apply Sun in E1.
    destruct (IH (acc ++ [canon a]) f ts1) as (ts2 & E2 & K2); [simpl in Hf; lia|done|done|].
    exists ts2. by rewrite E2, <- app_assoc.
Qed.

Lemma or_loop_rest args acc f ts r :
  Forall parsesA args → 4 * length ts + 4 ≤ f → kv <$> ts = rest_toks "OR" 3 args ++ r → follow_o r →
  ∃ ts', or_loop len f ts acc = Ok (acc ++ map canon args, ts') ∧ kv <$> ts' = r.
Proof.
  intros Hargs. revert acc f ts. induction Hargs as [|a args Ha _ IH]; intros acc f ts Hf Hts Hr.
  - rewrite app_nil_r. exists ts. split; [|done]. eapply or_loop_stop; [lia|exact Hts|done].
  - unfold rest_toks in Hts. rewrite bind_cons in Hts. fold (rest_toks "OR" 3 args) in Hts.
    cbn [app] in Hts. rewrite <- app_assoc in Hts. pop Hts t Ht.
    destruct f as [|f]; [lia|]. cbn [or_loop head tail]. rewrite isKeyword_lit.
    replace (bool_decide (to_lower $"OR" = $"or")) with true by (by vm_compute).
    destruct (Ha f ts0 (rest_toks "OR" 3 args ++ r)) as (ts1 & E1 & K1);
      [simpl in Hf; lia|done|destruct args; [auto with syslog|right; split; [done|by vm_compute]]|].
    rewrite E1. cbn. destruct (descent_shorter len f) as (_ & _ & Sand & _ & _). apply Sand in E1.
    destruct (IH (acc ++ [canon a]) f ts1) as (ts2 & E2 & K2); [simpl in Hf; lia|done|done|].
    exists ts2. by rewrite E2, <- app_assoc.
Qed.

(** A unary expression is an and-expression of one argument, and so on up. *)
Lemma parsesU_A e : toks e 3 = toks e 6 → parsesU e → parsesA e.
Proof.
  intros Et HU f ts r Hf Hts Hr. destruct f as [|f]; [lia|]. cbn [andExpr].
  destruct (HU f ts r) as (ts1 & E1 & K1); [lia|by rewrite <- Et|auto with syslog|].
  rewrite E1. cbn. destruct (descent_shorter len f) as (_ & _ & _ & _ & Sun). apply Sun in E1.
  rewrite (and_loop_stop f ts1 r) by (done || lia). eauto.
Qed.

Lemma parsesA_O e : toks e 0 = toks e 3 → parsesA e → parsesO e.
Proof.
  intros Et HA f ts r Hf Hts Hr. destruct f as [|f]; [lia|]. cbn [orExpr].
  destruct (HA f ts r) as (ts1 & E1 & K1); [lia|by rewrite <- Et|auto with syslog|].
  rewrite E1. cbn. rewrite (or_loop_stop f ts1 r) by (done || lia). eauto.
Qed.

(** A parenthesised expression is a unary one. *)
Lemma parsesO_U e : toks e 6 = [tk_lparen] ++ toks e 0 ++ [tk_rparen] → parsesO e → parsesU e.
Proof.
  intros Et HO f ts r Hf Hts Hr. rewrite Et in Hts. cbn [app] in Hts. rewrite <- app_assoc in Hts.
  pop Hts t Ht. destruct f as [|f]; [lia|]. cbn [unary kind]. rewrite isKeyword_kind by done.
  destruct (HO f ts0 ([tk_rparen] ++ r)) as (ts1 & E1 & K1); [simpl in Hf; lia|done|done|].
  rewrite E1. cbn. cbn [app] in K1. pop K1 t Ht. cbn. eauto.
Qed.

Lemma unary_term f t ts :
  is_value_kind (kind t) = true → isKeyword (Some t) $"not" = false →
  unary len (S f) (t :: ts) = term len (t :: ts).
Proof. intros Hk Hn. cbn [unary]. rewrite Hn. by destruct (kind t). Qed.

Lemma follow_u_field ts r : kv <$> ts = r → follow_u r → followedByFieldOp ts = false.
Proof.
  intros <- Hr. destruct ts as [|[k v p] ts]; [done|]. unfold followedByFieldOp. cbn in Hr |- *.
  destruct Hr as [->|[-> Hv]]; [done|].
  unfold isKeyword. cbn [kind value] in *. destruct Hv as [E|E]; rewrite E; by vm_compute.
Qed.

Lemma p_value_quote v p ts : p_value len (MkToken (quote_kind v) v p :: ts) = Ok (v, ts).
Proof. cbn. by rewrite quote_kind_value. Qed.

Lemma values_loop_toks vs acc ts r :
  kv <$> ts = (vs ≫= λ v, [tk_comma; tk_quote v]) ++ tk_rparen :: r →
  ∃ ts', values_loop len ts acc = Ok (acc ++ vs, ts') ∧ kv <$> ts' = r.
Proof.
  revert acc ts. induction vs as [|v vs IH]; intros acc ts Hts.
  - cbn in Hts. pop Hts t Ht. rewrite app_nil_r. cbn. eauto.
  - rewrite bind_cons in Hts. cbn [app] in Hts. pop Hts t Ht. pop Hts t Ht.
    cbn. rewrite quote_kind_value. destruct (IH (acc ++ [v]) _ Hts) as (ts' & E & K).
    exists ts'. rewrite E, <- app_assoc. done.
Qed.

(** The head of a term with a field: the field's token, then what says so. *)
Lemma term_field f p op ts :
  truthy f = true → followedByFieldOp (op :: ts) = true →
  term len (MkToken (quote_kind f) f p :: op :: ts) =
    match kind op with
    | Kexists => Ok (FieldExistsExpr op_exists f, ts)
    | Kop =>
        '(v, r) ← p_value len ts;
        match OP_TO_AST (value op) with
        | Some o => Ok (FieldValueExpr o f v, r)
        | None => Err (syntax_error ($"unexpected " ++ json_string (value op)) (pos op))
        end
    | _ =>
        if isKeyword (Some op) $"cidr"
        then '(v, r) ← p_value len ts; Ok (FieldValueExpr op_cidr f v, r)
        else
          let negated := isKeyword (Some op) $"not" in
          let listOp := if negated then op_not_in else op_in in
          match (if negated then tail ts else ts) with
          | open :: ts4 =>
              if bool_decide (kind open = Klparen)
              then '(v, ts5) ← p_value len ts4;
                   '(values, r) ← values_loop len ts5 [v];
                   Ok (FieldValuesExpr listOp f values, r)
              else Err (syntax_error ($"expected " ++ json_string [LPAREN] ++ $" after in") (pos open))
          | [] => Err (syntax_error ($"expected " ++ json_string [LPAREN] ++ $" after in") (endPos len))
          end
    end.
Proof. intros Hf Hop. unfold term. cbn [kind value pos]. rewrite quote_kind_value, Hop, Hf. done. Qed.

(** Stands at a printed field: reduces [unary] to what follows the field. *)
Ltac at_field :=
  match goal with Hf : _ ≤ ?f |- _ => destruct f as [|f]; [lia|] end;
  rewrite unary_term; [|apply quote_kind_value|apply quote_kind_not_keyword; by apply (bool_decide_unpack _)];
  rewrite term_field; [|assumption|by vm_compute].

Lemma parses_value op f v : printable (FieldValueExpr op f v) = true → parsesU (FieldValueExpr op f v).
Proof.
  intros Hp fuel ts r Hf Hts Hr. simpl in Hp.
  destruct op; cbn [toks app AST_TO_OP] in Hts; pop Hts t Ht; pop Hts t Ht; pop Hts t Ht; at_field;
    cbn [kind value]; rewrite ?p_value_quote; eauto.
Qed.

Lemma join_values v vs :
  join [tk_comma] (map (λ v, [tk_quote v]) (v :: vs)) = tk_quote v :: (vs ≫= λ v, [tk_comma; tk_quote v]).
Proof.
  simpl map. rewrite join_cons. cbn [app]. f_equal.
  induction vs as [|w vs IH]; [done|]. simpl map. by rewrite !bind_cons, IH.
Qed.

Lemma parses_values op f vs : printable (FieldValuesExpr op f vs) = true → parsesU (FieldValuesExpr op f vs).
Proof.
  intros Hp fuel ts r Hf Hts Hr. simpl in Hp. apply andb_prop in Hp as [Hp Hvs].
  destruct vs as [|v vs]; [done|]. clear Hvs.
  destruct op; cbn [toks] in Hts; rewrite join_values in Hts; cbn [app] in Hts; rewrite <- ?app_assoc in Hts;
    cbn [app] in Hts.
  - pop Hts t Ht. pop Hts t Ht. pop Hts t Ht. pop Hts t Ht. at_field.
    cbn [kind value tail]. rewrite !isKeyword_lit.
    replace (bool_decide (to_lower $"in" = $"cidr")) with false by (by vm_compute).
    replace (bool_decide (to_lower $"in" = $"not")) with false by (by vm_compute).
    cbn [kind]. rewrite bool_decide_eq_true_2 by done. rewrite p_value_quote. cbn.
    apply (values_loop_toks _ [v]) in Hts as (ts' & E & K). rewrite E. eauto.
  - pop Hts t Ht. pop Hts t Ht. pop Hts t Ht. pop Hts t Ht. pop Hts t Ht. at_field.
    cbn [kind value tail]. rewrite !isKeyword_lit.
    replace (bool_decide (to_lower $"not" = $"cidr")) with false by (by vm_compute).
    replace (bool_decide (to_lower $"not" = $"not")) with true by (by vm_compute).
    cbn [kind tail]. rewrite bool_decide_eq_true_2 by done. rewrite p_value_quote. cbn.
    apply (values_loop_toks _ [v]) in Hts as (ts' & E & K). rewrite E. eauto.
Qed.

Lemma parses_exists op f : printable (FieldExistsExpr op f) = true → parsesU (FieldExistsExpr op f).
Proof.
  intros Hp fuel ts r Hf Hts Hr. destruct op; cbn [toks app] in Hts.
  - pop Hts t Ht. pop Hts t Ht. at_field. cbn. eauto.
  - pop Hts t Ht. pop Hts t Ht. pop Hts t Ht. destruct fuel as [|fuel]; [lia|].
    cbn [unary kind value]. rewrite isKeyword_kind by done. rewrite quote_kind_value. cbn. eauto.
Qed.

Lemma parses_text v : parsesU (TextExpr v).
Proof.
  intros fuel ts r Hf Hts Hr. cbn [toks app] in Hts. pop Hts t Ht. destruct fuel as [|fuel]; [lia|].
  rewrite unary_term by done. unfold term. cbn [kind value is_value_kind negb].
  rewrite (follow_u_field _ _ Hts Hr). cbn. eauto.
Qed.

Lemma parses_not a : parsesU a → parsesU (NotExpr a).
Proof.
  intros Ha fuel ts r Hf Hts Hr. cbn [toks app] in Hts. pop Hts t Ht. destruct fuel as [|fuel]; [lia|].
  cbn [unary]. rewrite isKeyword_lit.
  replace (bool_decide (to_lower $"NOT" = $"not")) with true by (by vm_compute).
  destruct (Ha fuel ts0 r) as (ts' & E & K); [simpl in Hf; lia|done|done|]. rewrite E. cbn. eauto.
Qed.

Lemma parses_and args : args ≠ [] → Forall parsesU args → parsesA (BoolExpr op_and args).
Proof.
  intros Hne Hargs fuel ts r Hf Hts Hr. destruct Hargs as [|a args Ha Hargs]; [done|].
  change (toks (BoolExpr op_and (a :: args)) 3) with (join [tk "AND"] (map (λ a, toks a 5) (a :: args))) in Hts.
  rewrite join_toks, <- app_assoc, toks_high in Hts. destruct fuel as [|fuel]; [lia|]. cbn [andExpr].
  destruct (Ha fuel ts (rest_toks "AND" 5 args ++ r)) as (ts1 & E1 & K1);
    [lia|done|apply rest_toks_follow; [right; by vm_compute|auto with syslog]|].
  rewrite E1. cbn [mbind result_bind]. destruct (descent_shorter len fuel) as (_ & _ & _ & _ & Sun).
  apply Sun in E1.
  destruct (and_loop_rest args [canon a] fuel ts1 r) as (ts2 & E2 & K2); [done|lia|done|done|].
  rewrite E2. cbn. eauto.
Qed.

Lemma parses_or args : args ≠ [] → Forall parsesA args → parsesO (BoolExpr op_or args).
Proof.
  intros Hne Hargs fuel ts r Hf Hts Hr. destruct Hargs as [|a args Ha Hargs]; [done|].
  change (toks (BoolExpr op_or (a :: args)) 0) with (join [tk "OR"] (map (λ a, toks a 3) (a :: args))) in Hts.
  rewrite join_toks, <- app_assoc in Hts. destruct fuel as [|fuel]; [lia|]. cbn [orExpr].
  destruct (Ha fuel ts (rest_toks "OR" 3 args ++ r)) as (ts1 & E1 & K1);
    [lia|done|destruct args; [auto with syslog|right; split; [done|by vm_compute]]|].
  rewrite E1. cbn [mbind result_bind]. destruct (descent_shorter len fuel) as (_ & _ & Sand & _ & _).
  apply Sand in E1.
  destruct (or_loop_rest args [canon a] fuel ts1 r) as (ts2 & E2 & K2); [done|lia|done|done|].
  rewrite E2. cbn. eauto.
Qed.

Lemma parses e : printable e = true → parsesU e ∧ parsesA e ∧ parsesO e.
Proof.
  assert (∀ e, toks e 0 = toks e 3 → toks e 3 = toks e 6 → parsesU e → parsesU e ∧ parsesA e ∧ parsesO e)
    as Hatom.
  { intros e1 H1 H2 HU. assert (parsesA e1) by by apply parsesU_A. auto using parsesA_O. }
  induction e as [op args IH|a IH|v|op f v|op f vs|op f] using FilterExpr_deep_ind; intros Hp.
  - cbn [printable] in Hp. apply andb_prop in Hp as [Hne%negb_true_iff%bool_decide_eq_false Hp].
    assert (Forall (λ a, parsesU a ∧ parsesA a ∧ parsesO a) args) as HF.
    { clear Hne Hatom. induction IH as [|a l Ha _ IHl]; [done|]. cbn [forallb] in Hp. btrue. auto. }
    destruct op.
    + assert (parsesA (BoolExpr op_and args)) as HA
        by (apply parses_and; [done|eapply Forall_impl; [exact HF|naive_solver]]).
      assert (parsesO (BoolExpr op_and args)) as HO by by apply parsesA_O.
      split_and!; [by apply parsesO_U|done|done].
    + assert (parsesO (BoolExpr op_or args)) as HO
        by (apply parses_or; [done|eapply Forall_impl; [exact HF|naive_solver]]).
      assert (parsesU (BoolExpr op_or args)) as HU by by apply parsesO_U.
      split_and!; [done|by apply parsesU_A|done].
  - apply Hatom; [done|done|]. by apply parses_not, IH.
  - apply Hatom; [done|done|]. apply parses_text.
  - apply Hatom; [done|done|]. by apply parses_value.
  - apply Hatom; [done|done|]. by apply parses_values.
  - apply Hatom; [done|done|]. by apply parses_exists.
Qed.
End descent.

(** * The theorems *)

Lemma fmt_not_blank e p : printable e = true → trim (fmt e p) ≠ [].
Proof.
  intros Hp H%trim_nil.
  destruct (lexes_fmt e p [] [] ltac:(done) lexes_nil 0) as (ts & E & K). rewrite !app_nil_r in *.
  assert (∀ s i, Forall (λ c, is_space c = true) s → lex s i = Ok []) as Hs.
  { induction s as [|c s IH]; intros i Hs; [by rewrite lex_unfold|].
    apply Forall_cons in Hs as [Hc Hs]. rewrite lex_unfold. unfold tokenize_step. rewrite Hc. auto. }
  rewrite (Hs _ 0 H) in E. injection E as <-. cbn in K.
  clear -Hp K. revert p K. induction e as [op args IH| | |op f v|op f vs|op f] using FilterExpr_deep_ind;
    intros p K; try done.
  - cbn [toks] in K. case_match; [done|]. cbn [printable] in Hp. destruct args as [|a args]; [done|].
    apply Forall_cons in IH as [IH _]. cbn [forallb] in Hp. btrue.
    simpl map in K. rewrite join_cons in K. symmetry in K. apply app_eq_nil in K as [K _]. by eapply IH.
  - by destruct op.
  - by destruct op.
Qed.

Lemma parse_format e :
  printable e = true → parseFilter (formatFilter (Some e)) = Ok (Some (canon e)).
Proof.
  intros Hp. unfold parseFilter, formatFilter. destruct (trim (fmt e 0)) as [|c s] eqn:Et.
  { by apply fmt_not_blank in Et. }
  clear c s Et. destruct (lexes_fmt e 0 [] [] ltac:(done) lexes_nil 0) as (ts & E & K).
  rewrite !app_nil_r in *. rewrite tokenize_lex, E. cbn [mbind result_bind].
  destruct (parses (length (fmt e 0)) e Hp) as (_ & _ & HO).
  destruct (HO (parse_fuel (length ts)) ts []) as (ts' & Ep & K');
    [unfold parse_fuel; lia|by rewrite app_nil_r|done|].
  unfold parse. rewrite Ep. by destruct ts'.
Qed.
