(* ===== verification/FilterProps.v ===== *)
(** What the filter text form guarantees, from the lemmas of the lexer, the
    descent and the printer. *)
From Stdlib Require Import Lia.
From stdpp Require Import base list numbers strings.
From S2P Require Import Prelude Unicode FilterAst FilterLex FilterText FilterTextFacts FilterRoundTrip.

(** * What the parser returns *)

Definition good (e : FilterExpr) : Prop := canonical e = true ∧ printable e = true.

Section good.
Context (len : nat).

Lemma values_loop_nonempty ts vs vs' r : values_loop len ts vs = Ok (vs', r) → vs ≠ [] → vs' ≠ [].
Proof.
  remember (length ts) as n eqn:En. revert ts vs En.
  induction (lt_wf n) as [n _ IH]. intros [|sep ts] vs -> H Hne; simpl in H; [done|].
  destruct (kind sep); try done; [by invert_ok|].
  destruct ts as [|t ts]; [done|]. destruct (is_value_kind (kind t)); [|done].
  eapply (IH (length ts)) in H; [done|simpl; lia|reflexivity|by destruct vs].
Qed.

Lemma term_good ts e r : term len ts = Ok (e, r) → good e.
Proof.
  unfold term, good. intros H.
  repeat case_match; invert_ok; try done; btrue; simpl; split; try done.
  all: match goal with
    | Hl : values_loop _ _ _ = Ok _ |- _ =>
        apply values_loop_nonempty in Hl; [|done];
        apply andb_true_intro; split; [done|by apply negb_true_iff, bool_decide_eq_false]
    end.
Qed.

Lemma splice_good op a :
  good a → splice op a ≠ [] ∧ Forall (λ b, good b ∧ is_bool op b = false) (splice op a).
Proof.
  intros [Hc Hp]. destruct (is_bool op a) eqn:Hb.
  - destruct a as [op' inner| | | | |]; try done. cbn in Hb. apply bool_decide_eq_true in Hb as ->.
    cbn [splice]. rewrite decide_True by done. cbn [canonical printable] in Hc, Hp.
    apply andb_prop in Hc as [[_ Hn]%andb_prop Hc]. apply andb_prop in Hp as [Hne Hp].
    split; [by apply negb_true_iff, bool_decide_eq_false in Hne|].
    clear Hne. induction inner as [|b inner IH]; [done|]. cbn [forallb] in *. btrue.
    constructor; [done|]. auto.
  - rewrite splice_id by done. split; [done|]. by repeat constructor.
Qed.

Lemma combine_args_good op args : args ≠ [] → Forall good args → good (combine_args op args).
Proof.
  intros Hne HF. destruct HF as [|a args Ha HF]; [done|]. destruct args as [|b args]; [done|].
  cbn [combine_args]. rewrite flatten_splice.
  assert (Forall (λ b, good b ∧ is_bool op b = false) ((a :: b :: args) ≫= splice op)) as Hall.
  { assert (Forall good (a :: b :: args)) as HF' by by constructor. clear -HF'.
    induction HF' as [|x l Hx _ IH]; [constructor|]. rewrite bind_cons. apply Forall_app; split; [|done].
    by apply splice_good. }
  assert (2 ≤ length ((a :: b :: args) ≫= splice op)) as Hlen.
  { rewrite !bind_cons, !length_app. apply Forall_cons in HF as [Hb _].
    destruct (splice_good op a Ha) as [Hna _], (splice_good op b Hb) as [Hnb _].
    destruct (splice op a), (splice op b); simpl; (done || lia). }
  generalize dependent ((a :: b :: args) ≫= splice op). intros l Hall Hlen.
  assert (forallb (λ a, negb (is_bool op a)) l = true ∧ forallb canonical l = true ∧ forallb printable l = true)
    as (H1 & H2 & H3).
  { clear Hlen. induction Hall as [|x l [[Hxc Hxp] Hxb] _ IH]; [done|].
    cbn [forallb]. rewrite Hxb, Hxc, Hxp. destruct IH as (? & ? & ?). done. }
  split; cbn [canonical printable].
  - rewrite H1, H2. destruct l as [|? [|? ?]]; simpl in Hlen; (lia || done).
  - rewrite H3. destruct l; simpl in Hlen; [lia|done].
Qed.

Lemma descent_good f :
  (∀ ts e r, orExpr len f ts = Ok (e, r) → good e) ∧
  (∀ ts args args' r, or_loop len f ts args = Ok (args', r) →
     args ≠ [] → Forall good args → args' ≠ [] ∧ Forall good args') ∧
  (∀ ts e r, andExpr len f ts = Ok (e, r) → good e) ∧
  (∀ ts args args' r, and_loop len f ts args = Ok (args', r) →
     args ≠ [] → Forall good args → args' ≠ [] ∧ Forall good args') ∧
  (∀ ts e r, unary len f ts = Ok (e, r) → good e).
Proof.
  assert (∀ (l : list FilterExpr) a, l ++ [a] ≠ []) as Hsnoc by (by intros []).
  induction f as [|f (IHor & IHol & IHand & IHal & IHun)]; [by repeat split|].
  split_and!; cbn [orExpr or_loop andExpr and_loop unary].
  - intros ts e r ([a ts1] & E1 & ([args ts2] & E2 & [= <- _])%bind_ok)%bind_ok. apply IHand in E1.
    apply IHol in E2 as [? ?]; [|done|by apply Forall_singleton]. by apply combine_args_good.
  - intros ts args args' r H Hne HF. case_match; [|by injection H as <- _].
    apply bind_ok in H as ([a ts1] & E1 & E2). apply IHand in E1.
    eapply IHol; [exact E2|done|]. apply Forall_app; by rewrite Forall_singleton.
  - intros ts e r ([a ts1] & E1 & ([args ts2] & E2 & [= <- _])%bind_ok)%bind_ok. apply IHun in E1.
    apply IHal in E2 as [? ?]; [|done|by apply Forall_singleton]. by apply combine_args_good.
  - intros [|t ts] args args' r H Hne HF; [by injection H as <- _|]. case_match; [by injection H as <- _|].
    apply bind_ok in H as ([a ts1] & E1 & E2). apply IHun in E1.
    eapply IHal; [exact E2|done|]. apply Forall_app; by rewrite Forall_singleton.
  - intros [|t ts] e r H; [done|]. case_match.
    { apply bind_ok in H as ([a ts1] & E1 & [= <- _]). by apply IHun in E1. }
    destruct (kind t); try (by apply term_good in H).
    + apply bind_ok in H as ([a r'] & E & H). apply IHor in E. repeat case_match; by invert_ok.
    + repeat case_match; by invert_ok.
Qed.

Lemma parse_good ts e : parse len ts = Ok e → good e.
Proof.
  unfold parse. intros ([a r] & E & H)%bind_ok. apply descent_good in E. case_match; by invert_ok.
Qed.
End good.

Lemma parseFilter_good text e : parseFilter text = Ok (Some e) → good e.
Proof.
  unfold parseFilter. destruct (trim text); [done|]. intros (ts & _ & H)%bind_ok.
  destruct (parse (length text) ts) as [e'|] eqn:E; [|done]. injection H as ->. by apply parse_good in E.
Qed.

(** * Claims *)

(** C1: the header's round trip.  For every canonical AST the grammar has text
    for, at any nesting and with any strings in it, parsing the printed text
    gives the very same AST. *)
Theorem filter_round_trip e :
  canonical e = true → printable e = true → parseFilter (formatFilter (Some e)) = Ok (Some e).
Proof. intros Hc Hp. rewrite parse_format by done. by rewrite canon_canonical. Qed.

Definition round_trip_sample : FilterExpr :=
  BoolExpr op_and
    [BoolExpr op_or [FieldValueExpr op_eq $"app" $"not"; NotExpr (TextExpr $"a b")];
     FieldValuesExpr op_not_in $"in" [$"or"; [DQUOTE; BSLASH]; []];
     FieldExistsExpr op_not_exists []].

Lemma filter_round_trip_witness :
  parseFilter (formatFilter (Some round_trip_sample)) = Ok (Some round_trip_sample).
Proof. apply (filter_round_trip round_trip_sample); reflexivity. Defined.

(** C2: whatever text the parser accepts, the text printed for the resulting
    AST parses to that same AST: formatting a query never changes it, and
    formatting twice is formatting once. *)
Theorem filter_reparse text e :
  parseFilter text = Ok (Some e) →
  canonical e = true ∧ printable e = true ∧ parseFilter (formatFilter (Some e)) = Ok (Some e).
Proof. intros [Hc Hp]%parseFilter_good. split_and!; [done..|]. rewrite parse_format by done. by rewrite canon_canonical. Qed.

Lemma filter_reparse_witness :
  parseFilter $"x=1 (y=2 AND (z=3)) or !q:*" =
    parseFilter (formatFilter (Some (BoolExpr op_or
      [BoolExpr op_and [FieldValueExpr op_eq $"x" $"1"; FieldValueExpr op_eq $"y" $"2"; FieldValueExpr op_eq $"z" $"3"];
       FieldExistsExpr op_not_exists $"q"]))).
Proof.
  symmetry. etrans; [apply (filter_reparse $"x=1 (y=2 AND (z=3)) or !q:*"); vm_compute; reflexivity|].
  vm_compute. reflexivity.
Defined.

(** C3: parsing always answers.  A blank text gives nothing; on every other text the
    tokenizer and the recursive descent end with an AST or with a syntax error, and
    never with nothing.  The fuel of the model never runs out. *)
Theorem filter_parse_total text :
  (Forall (λ c, is_space c = true) text ∧ parseFilter text = Ok None)
  ∨ (~ Forall (λ c, is_space c = true) text
     ∧ ((∃ e, parseFilter text = Ok (Some e)) ∨ (∃ msg pos, parseFilter text = Err (FilterSyntaxError msg pos)))).
Proof.
  pose proof (parseFilter_total text) as Ht. pose proof (trim_nil text) as Hb. unfold parseFilter in *.
  destruct (trim text) as [|u s]; [left; naive_solver|right].
  split; [naive_solver|]. destruct (tokenize text) as [ts|[m p|]]; simpl in *; [|by right; exists m, p|done].
  destruct (parse (length text) ts) as [e|[m p|]]; simpl in *; [by left; exists e|by right; exists m, p|done].
Qed.
