(* ===== verification/JsNumber.v ===== *)
(** Numbers of the language: IEEE 754 binary64.

    [Number] is the standard library's executable specification of binary64
    ([SpecFloat] at precision 53), without NaN payloads, which the language
    does not observe.  [str_to_number] is [Number(s)] of a string, with the
    decimal, hexadecimal, octal, binary and [Infinity] forms of ECMA-262 and
    correct rounding; [to_fixed], [math_round] and [math_floor] are the methods
    of the same names.  The lemmas show that integers below 2^53 are exact, so
    that counts and lengths can be read as [Z]. *)
From Stdlib Require Import ZArith NArith Lia.
From Stdlib Require Import SpecFloat.
From stdpp Require Import base list numbers strings.
From S2P Require Import Prelude Unicode.

Abbreviation Number := spec_float.

Definition nadd : Number → Number → Number := SFadd 53 1024.
Definition nsub : Number → Number → Number := SFsub 53 1024.
Definition nmul : Number → Number → Number := SFmul 53 1024.
Definition ndiv : Number → Number → Number := SFdiv 53 1024.
Definition nlt : Number → Number → bool := SFltb.
Definition nle : Number → Number → bool := SFleb.
Definition neq : Number → Number → bool := SFeqb.

Definition NaN : Number := S754_nan.
Definition isNaN (x : Number) : bool := match x with S754_nan => true | _ => false end.
Definition isFinite (x : Number) : bool :=
  match x with S754_zero _ | S754_finite _ _ _ => true | _ => false end.

Definition num (z : Z) : Number := binary_normalize 53 1024 z 0 false.

(** The correctly rounded value of [m * 10^e]. *)
Definition num_of_decimal (m : N) (e : Z) : Number :=
  match m with
  | 0%N => S754_zero false
  | Npos p =>
      if (0 <=? e)%Z then num (Zpos p * 10 ^ e)
      else let '(q, e', l) := SFdiv_core_binary 53 1024 (Zpos p) 0 (10 ^ (- e)) 0 in
           binary_round_aux 53 1024 false q e' l
  end.

(** * Reading a string *)

Definition digit_in (base : N) (c : N) : option N :=
  let d := if is_digit c then Some (c - 48)%N
           else if in_range 97 122 c then Some (c - 87)%N
           else if in_range 65 90 c then Some (c - 55)%N else None in
  match d with Some d => if (d <? base)%N then Some d else None | None => None end.

(** The value of a non-empty run of digits in [base], or [None]. *)
Fixpoint radix_val (base acc : N) (s : jsstr) : option N :=
  match s with
  | [] => Some acc
  | c :: r => match digit_in base c with Some d => radix_val base (acc * base + d)%N r | None => None end
  end.

Definition radix_number (base : N) (s : jsstr) : Number :=
  match s with
  | [] => NaN
  | _ => match radix_val base 0 s with Some v => num (Z.of_N v) | None => NaN end
  end.

(** [ExponentPart], after the mantissa: [Some e], or [None] for junk. *)
Definition exponent_part (s : jsstr) : option Z :=
  match s with
  | [] => Some 0%Z
  | c :: r =>
      if (c =? 101)%N || (c =? 69)%N
      then let '(neg, ds) :=
             match r with
             | d :: r' => if (d =? MINUS)%N then (true, r') else if (d =? PLUS)%N then (false, r') else (false, r)
             | [] => (false, r)
             end in
           if truthy ds && forallb is_digit ds
           then Some (if neg then - Z.of_N (digits_val ds) else Z.of_N (digits_val ds))%Z
           else None
      else None
  end.

(** [StrUnsignedDecimalLiteral]. *)
Definition unsigned_decimal (s : jsstr) : Number :=
  if decide (s = $"Infinity") then S754_infinity false
  else
    let ip := take_while is_digit s in
    let r1 := drop_while is_digit s in
    let '(fp, r2) :=
      match r1 with
      | c :: r => if (c =? DOT)%N then (take_while is_digit r, drop_while is_digit r) else ([], r1)
      | [] => ([], r1)
      end in
    match ip ++ fp, exponent_part r2 with
    | _ :: _, Some e => num_of_decimal (digits_val (ip ++ fp)) (e - Z.of_nat (length fp))
    | _, _ => NaN
    end.

(** [Number(s)] *)
Definition str_to_number (s : jsstr) : Number :=
  match trim s with
  | [] => S754_zero false
  | c :: r =>
      match r with
      | x :: ds =>
          if (c =? 48)%N && ((x =? 120)%N || (x =? 88)%N) then radix_number 16 ds
          else if (c =? 48)%N && ((x =? 111)%N || (x =? 79)%N) then radix_number 8 ds
          else if (c =? 48)%N && ((x =? 98)%N || (x =? 66)%N) then radix_number 2 ds
          else if (c =? MINUS)%N then SFopp (unsigned_decimal r)
          else if (c =? PLUS)%N then unsigned_decimal r
          else unsigned_decimal (c :: r)
      | [] => if (c =? MINUS)%N || (c =? PLUS)%N then NaN else unsigned_decimal [c]
      end
  end.

(** * Integers *)

(** The integer a number is, when it is one ([Number.isInteger]); [-0] is 0. *)
Definition to_integer (x : Number) : option Z :=
  match x with
  | S754_zero _ => Some 0%Z
  | S754_finite s m e =>
      let v := if (0 <=? e)%Z then Some (Zpos m * 2 ^ e)%Z
               else if (Zpos m mod 2 ^ (- e) =? 0)%Z then Some (Zpos m / 2 ^ (- e))%Z else None in
      (λ z, if s then - z else z)%Z <$> v
  | _ => None
  end.
Definition isInteger (x : Number) : bool := match to_integer x with Some _ => true | None => false end.

(** [floor] of [x * k] for an integer factor, when [x] is finite. *)
Definition floor_scaled (x : Number) (k : Z) : option Z :=
  match x with
  | S754_zero _ => Some 0%Z
  | S754_finite s m e =>
      let v := ((if s then - Zpos m else Zpos m) * k)%Z in
      Some (if (0 <=? e)%Z then v * 2 ^ e else v / 2 ^ (- e))%Z
  | _ => None
  end.

(** [Math.floor(x)] as an integer. *)
Definition math_floor (x : Number) : option Z := floor_scaled x 1.

(** [Math.round(x)], halves towards +infinity: [floor(x + 1/2)], exactly. *)
Definition math_round (x : Number) : option Z := (λ n, (n + 1) / 2)%Z <$> floor_scaled x 2.

(** [x.toFixed(d)] for |x| < 10^21: the integer nearest to [|x| * 10^d], halves
    up, with the point put back. *)
Definition pad_left (n : nat) (s : jsstr) : jsstr := replicate (n - length s) 48%N ++ s.

Definition to_fixed (x : Number) (d : nat) : jsstr :=
  match floor_scaled (SFabs x) (2 * 10 ^ Z.of_nat d) with
  | None => if isNaN x then $"NaN" else if nlt x (num 0) then $"-Infinity" else $"Infinity"
  | Some n2 =>
      let n := ((n2 + 1) / 2)%Z in
      let ds := pad_left (S d) (dec (Z.to_N n)) in
      let k := (length ds - d)%nat in
      let body := if (d =? 0)%nat then ds else take k ds ++ [DOT] ++ drop k ds in
      if nlt x (num 0) then MINUS :: body else body
  end.

Example number_tenth : nadd (str_to_number $"0.1") (str_to_number $"0.2") = str_to_number $"0.30000000000000004".
Proof. vm_compute. reflexivity. Qed.
Example number_forms :
  map (λ s, to_integer (str_to_number s)) [$" 42 "; $"0x1F"; $"1e3"; $"1.50e1"; $"-7"; []; $"12px"; $"1e-1"; $"+"]
  = [Some 42; Some 31; Some 1000; Some 15; Some (-7); Some 0; None; None; None]%Z.
Proof. vm_compute. reflexivity. Qed.
Example to_fixed_ex :
  map (λ p, to_fixed (str_to_number p.1) p.2) [($"1.005", 2); ($"0.05", 1); ($"-1.5", 0); ($"12.345", 1); ($"0", 1); ($"0.006", 2)]
  = [$"1.00"; $"0.1"; $"-2"; $"12.3"; $"0.0"; $"0.01"].
Proof. vm_compute. reflexivity. Qed.

(** * 32-bit integers: the operands of [|], [&], [<<] and [>>>] *)

(** [Math.trunc] of a finite number. *)
Definition math_trunc (x : Number) : option Z :=
  match x with
  | S754_zero _ => Some 0%Z
  | S754_finite s m e =>
      let a := if (0 <=? e)%Z then (Zpos m * 2 ^ e)%Z else (Zpos m / 2 ^ (- e))%Z in
      Some (if s then - a else a)%Z
  | _ => None
  end.

(** [x % y]: the exact remainder, with the sign of [x]. *)
Definition nmod (x y : Number) : Number :=
  match x, y with
  | S754_nan, _ | _, S754_nan | S754_infinity _, _ | _, S754_zero _ => NaN
  | _, S754_infinity _ | S754_zero _, _ => x
  | S754_finite s m e, S754_finite _ m' e' =>
      let e0 := Z.min e e' in
      let r := ((Zpos m * 2 ^ (e - e0)) mod (Zpos m' * 2 ^ (e' - e0)))%Z in
      if (r =? 0)%Z then S754_zero s else binary_normalize 53 1024 (if s then - r else r)%Z e0 s
  end.

(** ToUint32: NaN and the infinities are 0. *)
Definition uint32 (z : Z) : Z := (z mod 2 ^ 32)%Z.
Definition to_uint32 (x : Number) : Z := match math_trunc x with Some z => uint32 z | None => 0%Z end.

(** * Padded numerals *)

Lemma pad_left_length k n : (n < 10 ^ N.of_nat (S k))%N → length (pad_left (S k) (dec n)) = S k.
Proof.
  intros Hn. apply dec_length in Hn. unfold pad_left. rewrite length_app, length_replicate. lia.
Qed.

Lemma pad_left_digits k n : forallb is_digit (pad_left k (dec n)) = true.
Proof. unfold pad_left. rewrite forallb_app, dec_digits, forallb_replicate; done. Qed.

Lemma pad_left_val k n : digits_val (pad_left k (dec n)) = n.
Proof. unfold pad_left. by rewrite digits_val_zeros, dec_val. Qed.

(** * Printing a number: [String(x)] *)

(** The scaled integer part of a positive [m * 2^e * 10^k]. *)
Definition scaled_floor (m : positive) (e k : Z) : Z :=
  let p := (Zpos m * (if 0 <=? e then 2 ^ e else 1) * (if 0 <=? k then 10 ^ k else 1))%Z in
  let q := ((if 0 <=? e then 1 else 2 ^ (- e)) * (if 0 <=? k then 1 else 10 ^ (- k)))%Z in
  (p / q)%Z.

(** [n] with 10^(n-1) <= x < 10^n. *)
Definition decimal_exponent (m : positive) (e : Z) : Z :=
  let i := scaled_floor m e 0 in
  if (0 <? i)%Z then Z.of_nat (length (dec (Z.to_N i)))
  else (fix go (fuel : nat) (j : Z) : Z :=
          match fuel with
          | 0%nat => (1 - j)%Z
          | S f => if (0 <? scaled_floor m e j)%Z then (1 - j)%Z else go f (j + 1)%Z
          end) 400%nat 1%Z.

(** The fewest digits that read back as [x], and the closest such. *)
Fixpoint shortest_loop (x : Number) (m : positive) (e n : Z) (fuel : nat) (k : Z) : Z * Z :=
  match fuel with
  | 0%nat => (scaled_floor m e (17 - n), n)
  | S f =>
      let s := scaled_floor m e (k - n) in
      let half_up := (scaled_floor m e (k - n + 1) - 10 * s)%Z in
      let ok := λ s, neq (num_of_decimal (Z.to_N s) (n - k)) x in
      let pick := λ s, if (s =? 10 ^ k)%Z then (10 ^ (k - 1), n + 1)%Z else (s, n) in
      if ok s && (negb (ok (s + 1)%Z) || (half_up <? 5)%Z) then (s, n)
      else if ok (s + 1)%Z then pick (s + 1)%Z
      else shortest_loop x m e n f (k + 1)%Z
  end.
Definition shortest_digits (x : Number) (m : positive) (e : Z) : Z * Z :=
  shortest_loop x m e (decimal_exponent m e) 17 1.

Definition num_to_string (x : Number) : jsstr :=
  match x with
  | S754_nan => $"NaN"
  | S754_infinity s => if s then $"-Infinity" else $"Infinity"
  | S754_zero _ => $"0"
  | S754_finite neg m e =>
      let '(s, n) := shortest_digits (S754_finite false m e) m e in
      let ds := dec (Z.to_N s) in
      let k := Z.of_nat (length ds) in
      let body :=
        if ((k <=? n) && (n <=? 21))%Z then ds ++ replicate (Z.to_nat (n - k)) 48%N
        else if ((0 <? n) && (n <=? 21))%Z then take (Z.to_nat n) ds ++ [DOT] ++ drop (Z.to_nat n) ds
        else if ((-6 <? n) && (n <=? 0))%Z then $"0." ++ replicate (Z.to_nat (- n)) 48%N ++ ds
        else
          let ex := (if 0 <? n then [PLUS] else [MINUS])%Z ++ dec (Z.to_N (Z.abs (n - 1))) in
          match ds with
          | [d] => [d] ++ $"e" ++ ex
          | d :: r => [d; DOT] ++ r ++ $"e" ++ ex
          | [] => []
          end in
      if neg then MINUS :: body else body
  end.

Example num_to_string_ex :
  map (λ s, num_to_string (str_to_number s))
    [$"5"; $"100"; $"0.1"; $"1e21"; $"123456789012345678901"; $"1e-7"; $"-2.5"; $"1.7976931348623157e308"; $"5e-324"; $"0.000001"; $"9007199254740993"; $"1e23"; $"120"]
  = [$"5"; $"100"; $"0.1"; $"1e+21"; $"123456789012345680000"; $"1e-7"; $"-2.5"; $"1.7976931348623157e+308"; $"5e-324"; $"0.000001"; $"9007199254740992"; $"1e+23"; $"120"].
Proof. vm_compute. reflexivity. Qed.
