(* ===== verification/Fields.v ===== *)
(** Log rows and their fields (src/frontend/src/lib/fields.ts and the
    [LogRow] schema).

    A row's core columns are the optional members of the record; numeric
    columns are integers.  [labels] and [fields] are objects used as maps:
    their own properties in property order.  The order [localeCompare] gives
    strings is the parameter of [rowEntries]. *)
From Stdlib Require Import Lia.
From stdpp Require Import base list numbers strings.
From S2P Require Import Prelude.

Record RowRef := MkRowRef { stream_id : jsstr; time_ns : jsstr }.

Record LogRow := MkLogRow {
  r_timestamp : jsstr;
  r_received_at : option jsstr;
  r_message : option jsstr;
  r_hostname : option jsstr;
  r_source_ip : option jsstr;
  r_source_port : option Z;
  r_peer_ip : option jsstr;
  r_facility : option jsstr;
  r_facility_code : option Z;
  r_severity : option jsstr;
  r_severity_code : option Z;
  r_priority : option Z;
  r_protocol : option jsstr;
  r_format : option jsstr;
  r_app_name : option jsstr;
  r_process_id : option jsstr;
  r_message_id : option jsstr;
  r_source : option jsstr;
  r_source_type : option jsstr;
  r_raw_message : option jsstr;
  r_parse_error : option jsstr;
  r_time_source : option jsstr;
  r_severity_source : option jsstr;
  r_timestamp_raw : option jsstr;
  r_truncated : option bool;
  r_fields_dropped : option Z;
  r_labels : option (list (jsstr * jsstr));
  r_fields : option (list (jsstr * jsstr));
  r_ref : RowRef
}.

Definition CORE_FIELDS : list jsstr :=
  [$"timestamp"; $"received_at"; $"hostname"; $"source_ip"; $"source_port"; $"peer_ip"; $"facility";
   $"facility_code"; $"severity"; $"severity_code"; $"priority"; $"protocol"; $"format"; $"app_name";
   $"process_id"; $"message_id"; $"source"; $"source_type"; $"message"; $"raw_message"; $"parse_error";
   $"time_source"; $"severity_source"; $"timestamp_raw"; $"truncated"; $"fields_dropped"].

Definition apiFieldName (name : jsstr) : jsstr :=
  if decide (name = $"_time") then $"timestamp"
  else if decide (name = $"_msg") then $"message"
  else name.

Definition HIDDEN_FIELDS : list jsstr := [$"_stream"; $"_stream_id"].
Definition isCoreField (name : jsstr) : bool := bool_decide (apiFieldName name ∈ CORE_FIELDS).
Definition DEFAULT_COLUMNS : list jsstr := [$"timestamp"; $"hostname"; $"severity"; $"app_name"; $"message"].
Definition PINNED_FACETS : list jsstr := [$"severity"; $"hostname"; $"facility"; $"app_name"; $"source"].

(** [String(v)] of the values a core column can hold. *)
Definition string_of_bool (b : bool) : jsstr := if b then $"true" else $"false".

(** The core columns of a row, as [row\[n\]] reads them. *)
Definition core_columns (row : LogRow) : list (jsstr * option jsstr) :=
  [($"timestamp", Some (r_timestamp row)); ($"received_at", r_received_at row); ($"hostname", r_hostname row);
   ($"source_ip", r_source_ip row); ($"source_port", decz <$> r_source_port row); ($"peer_ip", r_peer_ip row);
   ($"facility", r_facility row); ($"facility_code", decz <$> r_facility_code row); ($"severity", r_severity row);
   ($"severity_code", decz <$> r_severity_code row); ($"priority", decz <$> r_priority row);
   ($"protocol", r_protocol row); ($"format", r_format row); ($"app_name", r_app_name row);
   ($"process_id", r_process_id row); ($"message_id", r_message_id row); ($"source", r_source row);
   ($"source_type", r_source_type row); ($"message", r_message row); ($"raw_message", r_raw_message row);
   ($"parse_error", r_parse_error row); ($"time_source", r_time_source row);
   ($"severity_source", r_severity_source row); ($"timestamp_raw", r_timestamp_raw row);
   ($"truncated", string_of_bool <$> r_truncated row); ($"fields_dropped", decz <$> r_fields_dropped row)].

(** [o\[k\]] of an object used as a map. *)
Fixpoint prop_get {A} (o : list (jsstr * A)) (k : jsstr) : option A :=
  match o with
  | [] => None
  | (k', v) :: r => if decide (k' = k) then Some v else prop_get r k
  end.

Definition getField (row : LogRow) (name : jsstr) : option jsstr :=
  let n := apiFieldName name in
  if bool_decide (n ∈ CORE_FIELDS)
  then match prop_get (core_columns row) n with Some v => v | None => None end
  else if starts_with $"labels." n
  then match r_labels row with Some l => prop_get l (drop 7 n) | None => None end
  else match r_fields row with Some o => prop_get o n | None => None end.

(** [sort] with a comparison that may be negative, zero or positive: stable. *)
Section sort.
Context {A : Type} (cmp : A → A → Z).

Fixpoint insert_sorted (x : A) (l : list A) : list A :=
  match l with
  | [] => [x]
  | y :: r => if (0 <? cmp y x)%Z then x :: l else y :: insert_sorted x r
  end.
Fixpoint sort_acc (acc l : list A) : list A :=
  match l with [] => acc | x :: r => sort_acc (insert_sorted x acc) r end.
Definition array_sort (l : list A) : list A := sort_acc [] l.

Lemma insert_sorted_perm x l : insert_sorted x l ≡ₚ x :: l.
Proof.
  induction l as [|y l IH]; simpl; [done|]. case_match; [done|]. rewrite IH. constructor.
Qed.
Lemma sort_acc_perm acc l : sort_acc acc l ≡ₚ l ++ acc.
Proof.
  revert acc. induction l as [|x l IH]; intros acc; simpl; [done|].
  rewrite IH, insert_sorted_perm. symmetry. apply Permutation_middle.
Qed.
Lemma array_sort_perm l : array_sort l ≡ₚ l.
Proof. unfold array_sort. by rewrite sort_acc_perm, app_nil_r. Qed.
End sort.

Record RowEntries := MkRowEntries {
  e_core : list (jsstr * jsstr);
  e_labels : list (jsstr * jsstr);
  e_dynamic : list (jsstr * jsstr)
}.

Section entries.
Context (localeCompare : jsstr → jsstr → Z).

Definition by_name (a b : jsstr * jsstr) : Z := localeCompare a.1 b.1.

Definition rowEntries (row : LogRow) : RowEntries :=
  MkRowEntries
    (omap (λ f, match getField row f with
                | Some v => if truthy v then Some (f, v) else None
                | None => None
                end) CORE_FIELDS)
    (array_sort by_name (map (λ kv, ($"labels." ++ kv.1, kv.2)) (nullish (r_labels row) [])))
    (array_sort by_name (nullish (r_fields row) [])).
End entries.

Definition rowKey (row : LogRow) (index : nat) : jsstr :=
  stream_id (r_ref row) ++ [COLON] ++ time_ns (r_ref row) ++ [COLON] ++ decn index.

(** * Facts *)

Lemma core_columns_names row : map fst (core_columns row) = CORE_FIELDS.
Proof. reflexivity. Qed.

Lemma prop_get_in {A} (o : list (jsstr * A)) k v : prop_get o k = Some v → (k, v) ∈ o.
Proof.
  induction o as [|[k' v'] o IH]; simpl; [done|]. case_decide; [intros [= ->]; subst; left|right; auto].
Qed.

Lemma prop_get_nodup {A} (o : list (jsstr * A)) k v : NoDup o.*1 → (k, v) ∈ o → prop_get o k = Some v.
Proof.
  induction o as [|[k' v'] o IH]; simpl; [by intros _ ?%elem_of_nil|]. intros [Hn Hd]%NoDup_cons.
  intros [[= -> ->]|H]%elem_of_cons; [by rewrite decide_True|]. rewrite decide_False; [auto|].
  intros ->. apply Hn. apply list_elem_of_fmap. by exists (k, v).
Qed.
