(* ===== verification/FilterSem.v ===== *)
(** What a filter selects, and the operations that edit filters:
    [matchFilter] (src/frontend/src/mocks/data.ts), the chip operations of
    src/frontend/src/lib/filter-text.ts and lib/filter-actions.ts, and the
    structured builder of features/explorer.

    The regular-expression engine is the host's: [RegExpEngine] has the two
    questions the sources ask it. *)
From Stdlib Require Import Lia ZArith SpecFloat.
From stdpp Require Import base list numbers strings.
From S2P Require Import Prelude Unicode FilterAst FilterLex FilterText FilterTextFacts FilterRoundTrip JsNumber Fields.

(** [new RegExp(p)] does not throw, and [new RegExp(p).test(s)]. *)
Class RegExpEngine := {
  re_compiles : jsstr → bool;
  re_test : jsstr → jsstr → bool
}.

(** * Matching *)

(** [/^(\d+)\.(\d+)\.(\d+)\.(\d+)$/] *)
Definition ipv4_octets (s : jsstr) : option (list jsstr) :=
  match split_on (λ c, (c =? DOT)%N) s with
  | [a; b; c; d] =>
      if forallb (λ o, truthy o && forallb is_digit o) [a; b; c; d] then Some [a; b; c; d] else None
  | _ => None
  end.

Definition ipv4ToInt (s : jsstr) : option Number :=
  match ipv4_octets s with
  | None => None
  | Some m => Some (fold_left (λ n o, nadd (nmul n (num 256)) (str_to_number o)) m (num 0))
  end.

(** The network mask of a prefix length: [bits === 0 ? 0 : (~0 << (32 - bits)) >>> 0]. *)
Definition cidr_mask (bits : Number) : Z :=
  if neq bits (num 0) then 0%Z
  else uint32 (Z.shiftl (2 ^ 32 - 1) (to_uint32 (nsub (num 32) bits) mod 32)).

Definition cidr_match (value v : jsstr) : bool :=
  let parts := split_on (λ c, (c =? SLASH)%N) value in
  let n := ipv4ToInt (nullish (parts !! 0) []) in
  let x := ipv4ToInt v in
  let bits := match parts !! 1 with Some b => str_to_number b | None => num 32 end in
  match n, x with
  | Some n, Some x =>
      let mask := cidr_mask bits in
      (Z.land (to_uint32 n) mask =? Z.land (to_uint32 x) mask)%Z
  | _, _ => false
  end.

Section sem.
Context `{RegExpEngine}.

Fixpoint matchFilter (row : LogRow) (e : FilterExpr) : bool :=
  match e with
  | BoolExpr op_and args => forallb (matchFilter row) args
  | BoolExpr op_or args => existsb (matchFilter row) args
  | NotExpr arg => negb (matchFilter row arg)
  | TextExpr v => includes (to_lower v) (to_lower (nullish (r_message row) []))
  | FieldExistsExpr op_exists f => match getField row f with Some v => truthy v | None => false end
  | FieldExistsExpr op_not_exists f => negb (match getField row f with Some v => truthy v | None => false end)
  | FieldValuesExpr op_in f vs => bool_decide (nullish (getField row f) [] ∈ vs)
  | FieldValuesExpr op_not_in f vs => negb (bool_decide (nullish (getField row f) [] ∈ vs))
  | FieldValueExpr op f value =>
      let v := nullish (getField row f) [] in
      match op with
      | op_eq => bool_decide (v = value)
      | op_ne => negb (bool_decide (v = value))
      | op_contains => includes (to_lower value) (to_lower v)
      | op_starts_with => starts_with value v
      | op_regex => re_compiles value && re_test value v
      | op_gt => nlt (str_to_number value) (str_to_number v)
      | op_gte => nle (str_to_number value) (str_to_number v)
      | op_lt => nlt (str_to_number v) (str_to_number value)
      | op_lte => nle (str_to_number v) (str_to_number value)
      | op_cidr => cidr_match value v
      end
  end.

(** A query without a filter selects every row. *)
Definition selects (filter : option FilterExpr) (row : LogRow) : bool :=
  match filter with Some e => matchFilter row e | None => true end.
End sem.

(** * Editing *)

Definition andTerms (expr : option FilterExpr) : list FilterExpr :=
  match expr with
  | None => []
  | Some (BoolExpr op_and args) => args
  | Some e => [e]
  end.

Definition combineAnd (terms : list FilterExpr) : option FilterExpr :=
  match terms with
  | [] => None
  | [t] => Some t
  | _ => Some (flatten op_and terms)
  end.

Definition negate (expr : FilterExpr) : FilterExpr :=
  match expr with
  | NotExpr a => a
  | FieldValueExpr op_eq f v => FieldValueExpr op_ne f v
  | FieldValueExpr op_ne f v => FieldValueExpr op_eq f v
  | FieldValuesExpr op_in f vs => FieldValuesExpr op_not_in f vs
  | FieldValuesExpr op_not_in f vs => FieldValuesExpr op_in f vs
  | FieldExistsExpr op_exists f => FieldExistsExpr op_not_exists f
  | FieldExistsExpr op_not_exists f => FieldExistsExpr op_exists f
  | _ => NotExpr expr
  end.

(** The term [addValueFilter] keeps: anything but an [eq] or [ne] of this field and value. *)
Definition unrelated (field value : jsstr) (t : FilterExpr) : bool :=
  match t with
  | FieldValueExpr op_eq f v | FieldValueExpr op_ne f v => negb (bool_decide (f = field) && bool_decide (v = value))
  | _ => true
  end.

Definition addValueFilter (filter : option FilterExpr) (field value : jsstr) (exclude : bool) : option FilterExpr :=
  let terms := List.filter (unrelated field value) (andTerms filter) in
  combineAnd (terms ++ [FieldValueExpr (if exclude then op_ne else op_eq) field value]).

Definition filterExcludes (term : FilterExpr) : bool :=
  match term with
  | NotExpr _ | FieldValueExpr op_ne _ _ | FieldValuesExpr op_not_in _ _ | FieldExistsExpr op_not_exists _ => true
  | _ => false
  end.

(** * The structured builder *)

Inductive BuilderOp := B_value (op : FieldValueOp) | B_values (op : FieldValuesOp) | B_exists (op : FieldExistsOp).
#[export] Instance BuilderOp_eq_dec : EqDecision BuilderOp.
Proof. solve_decision. Defined.

(** Operators with their labels and symbols, in menu order. *)
Definition FIELD_VALUE_OPS : list (BuilderOp * jsstr * jsstr) :=
  [(B_value op_eq, $"equals", $"="); (B_value op_ne, $"not equals", $"!=");
   (B_value op_contains, $"contains", $"~"); (B_value op_starts_with, $"starts with", $"^=");
   (B_value op_regex, $"matches regex", $"=~"); (B_values op_in, $"is one of", $"in");
   (B_values op_not_in, $"is not one of", $"not in"); (B_exists op_exists, $"exists", $":*");
   (B_exists op_not_exists, $"does not exist", $"!:*"); (B_value op_gt, $"greater than", $">");
   (B_value op_gte, $"at least", $">="); (B_value op_lt, $"less than", $"<");
   (B_value op_lte, $"at most", $"<="); (B_value op_cidr, $"in CIDR", $"cidr")].

Definition isSimpleTerm (e : FilterExpr) : bool :=
  match e with BoolExpr _ _ | NotExpr _ | TextExpr _ => false | _ => true end.

(** [/^[\da-fA-F:.]+\/\d{1,3}$/] *)
Definition is_cidr_unit (c : N) : bool :=
  is_digit c || in_range 97 102 c || in_range 65 70 c || (c =? COLON)%N || (c =? DOT)%N.
Definition CIDR_RE (s : jsstr) : bool :=
  match split_on (λ c, (c =? SLASH)%N) s with
  | [a; b] => truthy a && forallb is_cidr_unit a && truthy b && forallb is_digit b && (length b <=? 3)
  | _ => false
  end.

Definition buildExpr `{RegExpEngine} (field : jsstr) (op : BuilderOp) (value : jsstr) : result jsstr FilterExpr :=
  let f := trim field in
  if negb (truthy f) then Err $"Choose a field."
  else match op with
  | B_exists o => Ok (FieldExistsExpr o f)
  | B_values o =>
      let values := List.filter truthy (map trim (split_on (λ c, (c =? COMMA)%N) value)) in
      match values with
      | [] => Err $"Enter at least one value (comma-separated)."
      | _ => Ok (FieldValuesExpr o f values)
      end
  | B_value o =>
      let numeric := match o with op_gt | op_gte | op_lt | op_lte => true | _ => false end in
      if numeric && (negb (truthy (trim value)) || isNaN (str_to_number value)) then Err $"Enter a number."
      else if bool_decide (o = op_regex) && negb (re_compiles value) then Err $"Invalid regular expression."
      else if bool_decide (o = op_cidr) && negb (CIDR_RE (trim value)) then Err $"Enter a CIDR such as 10.0.0.0/8."
      else Ok (FieldValueExpr o f value)
  end.

(** * Meaning-preserving operations *)

Section facts.
Context `{RegExpEngine}.

(** The connective an operator stands for. *)
Definition connective (op : BoolOp) (bs : list bool) : bool :=
  match op with op_and => forallb id bs | op_or => existsb id bs end.

Lemma match_bool row op args : matchFilter row (BoolExpr op args) = connective op (map (matchFilter row) args).
Proof. destruct op; simpl; induction args as [|a args IH]; simpl; by rewrite ?IH. Qed.

Lemma connective_app op bs cs :
  connective op (bs ++ cs) = connective op [connective op bs; connective op cs].
Proof.
  destruct op; simpl; rewrite ?forallb_app, ?existsb_app; by rewrite ?andb_true_r, ?orb_false_r.
Qed.

Lemma connective_single op b : connective op [b] = b.
Proof. destruct op; simpl; by rewrite ?andb_true_r, ?orb_false_r. Qed.

Lemma connective_cons op b bs : connective op (b :: bs) = connective op [b; connective op bs].
Proof. destruct op; simpl; by rewrite ?andb_true_r, ?orb_false_r. Qed.

Lemma match_splice row op a : connective op (map (matchFilter row) (splice op a)) = matchFilter row a.
Proof.
  destruct a as [op' inner| | | | |]; cbn [splice map]; try apply connective_single.
  case_decide; subst; [by rewrite match_bool|apply connective_single].
Qed.

Lemma match_flatten row op args :
  matchFilter row (flatten op args) = connective op (map (matchFilter row) args).
Proof.
  rewrite flatten_splice, match_bool. induction args as [|a args IH]; [done|].
  rewrite bind_cons, map_app, connective_app, match_splice, IH.
  cbn [map]. by rewrite (connective_cons op _ (map _ args)).
Qed.

Lemma match_combine_args row op args :
  matchFilter row (combine_args op args) = connective op (map (matchFilter row) args).
Proof.
  unfold combine_args. destruct args as [|a [|b args]]; try apply match_flatten. symmetry. apply connective_single.
Qed.

Lemma match_canon row e : matchFilter row (canon e) = matchFilter row e.
Proof.
  induction e as [op args IH|a IH| | | |] using FilterExpr_deep_ind; try done.
  - cbn [canon]. rewrite match_combine_args, match_bool. f_equal.
    induction IH as [|a args Ha _ IHargs]; simpl; congruence.
  - simpl. by rewrite IH.
Qed.

Lemma match_andTerms row filter : selects filter row = forallb (matchFilter row) (andTerms filter).
Proof. destruct filter as [[[] ?| | | | |]|]; simpl; by rewrite ?andb_true_r. Qed.

Lemma match_combineAnd row terms : selects (combineAnd terms) row = forallb (matchFilter row) terms.
Proof.
  destruct terms as [|a [|b terms]]; [done|simpl; by rewrite andb_true_r|].
  cbn [combineAnd selects]. rewrite match_flatten, <- match_bool. done.
Qed.

Lemma match_negate row e : matchFilter row (negate e) = negb (matchFilter row e).
Proof. destruct e as [| | |[]|[]|[]]; cbn [negate matchFilter]; by rewrite ?negb_involutive. Qed.
End facts.

(** * What editing keeps *)

Lemma andTerms_forallb (P : FilterExpr → bool) filter :
  match filter with
  | Some (BoolExpr op_and args) => forallb P args = true
  | Some e => P e = true
  | None => True
  end → forallb P (andTerms filter) = true.
Proof. destruct filter as [[[]| | | | |]|]; simpl; intros Hp; rewrite ?Hp; done. Qed.

(** An optional filter that is canonical and has text. *)
Definition query_ok (filter : option FilterExpr) : bool :=
  match filter with Some e => canonical e && printable e | None => true end.

Definition term_ok (t : FilterExpr) : bool := canonical t && printable t && negb (is_bool op_and t).

Lemma andTerms_ok filter : query_ok filter = true → forallb term_ok (andTerms filter) = true.
Proof.
  destruct filter as [e|]; [|done]. unfold query_ok. intros [Hc Hp]%andb_prop.
  destruct e as [[] args| | | | |]; cbn [andTerms forallb]; unfold term_ok;
    try (rewrite Hc, Hp; done).
  cbn [canonical printable] in Hc, Hp. apply andb_prop in Hc as [[_ Hn]%andb_prop Hc].
  apply andb_prop in Hp as [_ Hp]. induction args as [|a args IH]; [done|]. cbn [forallb] in *.
  apply andb_prop in Hc as [-> Hc], Hp as [-> Hp], Hn as [-> Hn]. simpl. auto.
Qed.

Lemma combineAnd_ok terms : forallb term_ok terms = true → query_ok (combineAnd terms) = true.
Proof.
  intros Ht. assert (forallb canonical terms = true ∧ forallb printable terms = true
    ∧ forallb (λ a, negb (is_bool op_and a)) terms = true) as (Hc & Hp & Hn).
  { induction terms as [|a terms IH]; [done|]. cbn [forallb] in *. unfold term_ok at 1 in Ht.
    apply andb_prop in Ht as [[[-> ->]%andb_prop ->]%andb_prop Ht]. simpl. auto. }
  destruct terms as [|a [|b terms]]; [done| |].
  - cbn [combineAnd query_ok forallb] in *. btrue. apply andb_true_intro. by split.
  - cbn [combineAnd query_ok]. rewrite flatten_id by done. cbn [canonical printable].
    rewrite Hc, Hp, Hn. reflexivity.
Qed.

Lemma forallb_filter {A} (P Q : A → bool) l : forallb P l = true → forallb P (List.filter Q l) = true.
Proof.
  induction l as [|a l IH]; [done|]. cbn [forallb List.filter]. intros [Ha Hl]%andb_prop.
  destruct (Q a); [cbn [forallb]; rewrite Ha|]; auto.
Qed.

Lemma addValueFilter_ok filter field value exclude :
  truthy field = true → query_ok filter = true → query_ok (addValueFilter filter field value exclude) = true.
Proof.
  intros Hf Hq. apply combineAnd_ok. rewrite forallb_app. apply andb_true_intro. split.
  - by apply forallb_filter, andTerms_ok.
  - unfold term_ok. simpl. by rewrite Hf.
Qed.

(** The terms of an edited filter are the kept ones and the new one. *)
Lemma andTerms_combineAnd terms :
  forallb (λ t, negb (is_bool op_and t)) terms = true → andTerms (combineAnd terms) = terms.
Proof.
  intros Hn. destruct terms as [|a [|b terms]]; [done| |].
  - cbn in *. destruct a as [[]| | | | |]; done.
  - cbn [combineAnd andTerms]. by rewrite flatten_id.
Qed.

Lemma filter_filter_same {A} (Q : A → bool) l : List.filter Q (List.filter Q l) = List.filter Q l.
Proof.
  induction l as [|a l IH]; [done|]. simpl. destruct (Q a) eqn:E; simpl; rewrite ?E; congruence.
Qed.

Lemma addValueFilter_terms filter field value (exclude : bool) :
  query_ok filter = true →
  andTerms (addValueFilter filter field value exclude) =
    List.filter (unrelated field value) (andTerms filter)
    ++ [FieldValueExpr (if exclude then op_ne else op_eq) field value].
Proof.
  intros Hq. apply andTerms_combineAnd. rewrite forallb_app. apply andb_true_intro. split; [|done].
  apply forallb_filter. apply andTerms_ok in Hq. revert Hq. generalize (andTerms filter). intros l.
  induction l as [|a l IH]; [done|]. cbn [forallb]. unfold term_ok at 1. intros Ha. btrue.
  apply andb_true_intro. split; [by apply negb_true_iff|auto].
Qed.

Lemma unrelated_new field value (exclude : bool) :
  unrelated field value (FieldValueExpr (if exclude then op_ne else op_eq) field value) = false.
Proof. destruct exclude; simpl; by rewrite !bool_decide_eq_true_2. Qed.

Lemma buildExpr_ok `{RegExpEngine} field op value e :
  buildExpr field op value = Ok e → isSimpleTerm e = true ∧ canonical e = true ∧ printable e = true.
Proof.
  unfold buildExpr. destruct (truthy (trim field)) eqn:Hf; [|done]. cbn [negb].
  destruct op as [o|o|o]; [| |intros [= <-]; by destruct o].
  - repeat case_match; intros; by simplify_eq.
  - destruct (List.filter truthy _) as [|v vs]; [done|]. intros [= <-]. simpl. by rewrite Hf.
Qed.

Lemma buildExpr_err `{RegExpEngine} field op value msg : buildExpr field op value = Err msg → truthy msg = true.
Proof.
  unfold buildExpr. intros E. repeat case_match; try discriminate E; by injection E as <-.
Qed.

(** * Claims *)

(** C4: printing a filter and reading the text back does not change what it selects.
    This holds for every AST the grammar has words for (no connective without
    arguments, no list without values, a name wherever a field is named), not only for
    canonical ones, which are returned unchanged, but for nested connectives of the
    same kind and single-argument ones too. *)
Theorem format_preserves_meaning `{RegExpEngine} e :
  printable e = true →
  ∃ e', parseFilter (formatFilter (Some e)) = Ok (Some e') ∧ ∀ row, matchFilter row e' = matchFilter row e.
Proof. intros Hp. exists (canon e). split; [by apply parse_format|intros row; apply match_canon]. Qed.

Definition no_regexp : RegExpEngine := {| re_compiles := λ _ : jsstr, false; re_test := λ _ _ : jsstr, false |}.

Lemma format_preserves_meaning_witness :
  ∃ e', parseFilter (formatFilter (Some (BoolExpr op_and [BoolExpr op_and [TextExpr $"x"; TextExpr $"y"]]))) = Ok (Some e')
    ∧ ∀ row, matchFilter (H := no_regexp) row e'
        = matchFilter (H := no_regexp) row (BoolExpr op_and [BoolExpr op_and [TextExpr $"x"; TextExpr $"y"]]).
Proof.
  apply (format_preserves_meaning (H := no_regexp) (BoolExpr op_and [BoolExpr op_and [TextExpr $"x"; TextExpr $"y"]])).
  reflexivity.
Defined.

(** The chip operations mean what they say.  Negating a term inverts it on
    every row (also where the negation is folded into [ne], [not_in] or
    [not_exists], or a [not] is unwrapped), combining terms selects the rows
    they all select, and taking a query apart into terms and combining them
    again selects the same rows. *)
Theorem negate_inverts `{RegExpEngine} row e terms filter :
  matchFilter row (negate e) = negb (matchFilter row e)
  ∧ selects (combineAnd terms) row = forallb (matchFilter row) terms
  ∧ selects (combineAnd (andTerms filter)) row = selects filter row.
Proof.
  split_and!; [apply match_negate|apply match_combineAnd|].
  by rewrite match_combineAnd, match_andTerms.
Qed.

(** C5: clicking a value.  Adding [field = value] (or [!=]) to a query keeps
    every other top-level term, drops an earlier [=] or [!=] of the same field
    and value, and appends the new one; the rows it selects are those the kept
    terms select and whose field has (or, excluding, has not) the value; the
    query stays canonical and printable; and clicking again changes nothing. *)
Theorem addValueFilter_spec `{RegExpEngine} filter field value (exclude : bool) row :
  truthy field = true → query_ok filter = true →
  let filter' := addValueFilter filter field value exclude in
  andTerms filter' = List.filter (unrelated field value) (andTerms filter)
                     ++ [FieldValueExpr (if exclude then op_ne else op_eq) field value]
  ∧ selects filter' row =
      forallb (matchFilter row) (List.filter (unrelated field value) (andTerms filter))
      && xorb exclude (bool_decide (nullish (getField row field) [] = value))
  ∧ query_ok filter' = true
  ∧ addValueFilter filter' field value exclude = filter'.
Proof.
  intros Hf Hq filter'. pose proof (addValueFilter_terms filter field value exclude Hq) as Ht.
  split_and!; [done| |by apply addValueFilter_ok|].
  - subst filter'. rewrite match_andTerms, Ht, forallb_app. f_equal. cbn [forallb]. rewrite andb_true_r. by destruct exclude.
  - unfold addValueFilter at 1. subst filter'. rewrite Ht, List.filter_app, filter_filter_same.
    cbn [List.filter]. by rewrite unrelated_new, app_nil_r.
Qed.

Lemma addValueFilter_spec_witness :
  query_ok (addValueFilter (Some (BoolExpr op_and
      [FieldValueExpr op_ne $"app" $"sshd"; TextExpr $"boom"])) $"app" $"sshd" false) = true.
Proof.
  apply (addValueFilter_spec (H := no_regexp)
    (Some (BoolExpr op_and [FieldValueExpr op_ne $"app" $"sshd"; TextExpr $"boom"])) $"app" $"sshd" false
    (MkLogRow [] None None None None None None None None None None None None None None None None None None None
       None None None None None None None None (MkRowRef [] []))); reflexivity.
Defined.

(** What the structured builder accepts, the query bar can write and read
    back: the expression is one simple term, it is canonical and printable, so
    its text parses to the very same term.  What it refuses it refuses with a
    message. *)
Theorem buildExpr_round_trips `{RegExpEngine} field op value :
  match buildExpr field op value with
  | Ok e => isSimpleTerm e = true ∧ parseFilter (formatFilter (Some e)) = Ok (Some e)
  | Err msg => truthy msg = true
  end.
Proof.
  destruct (buildExpr field op value) as [e|msg] eqn:E; [|by eapply buildExpr_err].
  apply buildExpr_ok in E as (Hs & Hc & Hp). split; [done|].
  rewrite parse_format by done. by rewrite canon_canonical.
Qed.
