(* ===== verification/BoundedFifo.v ===== *)
(** What the live tail expects of its row buffers: a bounded first-in
    first-out log that keeps the newest items.  [lib/ring-buffer.ts] implements
    it (RingBuffer.v) and [features/live-tail/tailStore.ts] uses it
    (TailStore.v); the laws are stated here once. *)
From Stdlib Require Import Lia.
From stdpp Require Import base list numbers strings.
From S2P Require Import Prelude JsNumber.

(** * The newest items of a list *)

(** [l.slice(Math.max(0, l.length - n))] *)
Definition last_n {A} (n : nat) (l : list A) : list A := drop (length l - n) l.

Section last_n.
Context {A : Type}.
Implicit Types l k : list A.

Lemma last_n_all n l : length l ≤ n → last_n n l = l.
Proof. intros H. unfold last_n. by replace (length l - n) with 0 by lia. Qed.

Lemma length_last_n n l : length (last_n n l) = min n (length l).
Proof. unfold last_n. rewrite length_drop. lia. Qed.

Lemma last_n_app_le n l k : n ≤ length k → last_n n (l ++ k) = last_n n k.
Proof.
  intros H. unfold last_n. rewrite length_app, drop_app_ge by lia. f_equal. lia.
Qed.

Lemma last_n_app_ge n l k : length k ≤ n → last_n n (l ++ k) = last_n (n - length k) l ++ k.
Proof.
  intros H. unfold last_n. rewrite length_app, drop_app_le by lia. do 2 f_equal. lia.
Qed.

Lemma last_n_app_l n m l k : n ≤ m → last_n n (last_n m l ++ k) = last_n n (l ++ k).
Proof.
  intros H. destruct (decide (n ≤ length k)).
  - by rewrite !last_n_app_le.
  - rewrite !last_n_app_ge by lia. f_equal. unfold last_n. rewrite length_drop, drop_drop. f_equal. lia.
Qed.

Lemma last_n_app_r n m l k : n ≤ m → last_n n (l ++ last_n m k) = last_n n (l ++ k).
Proof.
  intros H. destruct (decide (length k ≤ m)); [by rewrite (last_n_all m k)|].
  rewrite !last_n_app_le by (rewrite ?length_last_n; lia).
  unfold last_n. rewrite length_drop, drop_drop. f_equal. lia.
Qed.

Lemma last_n_last_n n m l : n ≤ m → last_n n (last_n m l) = last_n n l.
Proof. intros H. rewrite <- (app_nil_l (last_n m l)), last_n_app_r by done. done. Qed.
End last_n.
#[global] Arguments last_n : simpl never.

(** * The interface *)

(** A constructor that was given no positive integer, or more cells than an
    array can have, throws. *)
Inductive FifoError := CapacityError | RangeError.

(** The capacity a JavaScript number denotes, or the exception
    [new RingBuffer(n)] throws on it. *)
Definition capacity_of (n : Number) : result FifoError nat :=
  match to_integer n with
  | None => Err CapacityError
  | Some z => if (z <? 1)%Z then Err CapacityError
              else if (4294967295 <? z)%Z then Err RangeError
              else Ok (Z.to_nat z)
  end.

Lemma capacity_of_pos n c : capacity_of n = Ok c → 0 < c.
Proof.
  unfold capacity_of. repeat case_match; intros; simplify_eq.
  match goal with E : (_ <? 1)%Z = false |- _ => apply Z.ltb_ge in E end. lia.
Qed.

Class BoundedFifo (B : Type) (T : Type) := {
  fifo_ok : B → Prop;
  fifo_new : Number → result FifoError B;
  fifo_push : list T → B → B;
  fifo_items : B → list T;
  fifo_size : B → nat;
  fifo_capacity : B → nat;
  fifo_evicted : B → nat;
  fifo_clear : B → B;
  fifo_resize : Number → B → result FifoError B;
}.

Class BoundedFifoLaws (B T : Type) `{BoundedFifo B T} := {
  fifo_size_items b : fifo_ok b → fifo_size b = length (fifo_items b);
  fifo_bounded b : fifo_ok b → fifo_size b ≤ fifo_capacity b;
  fifo_new_err n e : capacity_of n = Err e → fifo_new n = Err e;
  fifo_new_ok n c : capacity_of n = Ok c →
    ∃ b, fifo_new n = Ok b ∧ fifo_ok b ∧ fifo_capacity b = c ∧ fifo_items b = [] ∧ fifo_evicted b = 0;
  fifo_push_ok l b : fifo_ok b → fifo_ok (fifo_push l b);
  fifo_push_capacity l b : fifo_ok b → fifo_capacity (fifo_push l b) = fifo_capacity b;
  fifo_push_items l b : fifo_ok b → fifo_items (fifo_push l b) = last_n (fifo_capacity b) (fifo_items b ++ l);
  fifo_push_evicted l b : fifo_ok b →
    fifo_evicted (fifo_push l b) = fifo_evicted b + (fifo_size b + length l - fifo_capacity b);
  fifo_clear_ok b : fifo_ok b → fifo_ok (fifo_clear b);
  fifo_clear_capacity b : fifo_capacity (fifo_clear b) = fifo_capacity b;
  fifo_clear_items b : fifo_items (fifo_clear b) = [];
  fifo_resize_err n b e : capacity_of n = Err e → fifo_resize n b = Err e;
  fifo_resize_ok n c b : fifo_ok b → capacity_of n = Ok c →
    ∃ b', fifo_resize n b = Ok b' ∧ fifo_ok b' ∧ fifo_capacity b' = c ∧ fifo_items b' = last_n c (fifo_items b);
}.
