(* ===== verification/RingBuffer.v ===== *)
(** The ring buffer of src/frontend/src/lib/ring-buffer.ts, and the proof that
    it is a bounded first-in first-out log.

    [buf] is the array, [start] the index of the oldest item, [count] the
    number of items, [dropped] the evictions since creation or [clear].  The
    items may be any values of the language, [undefined] among them, which
    also is what a fresh array holds. *)
From Stdlib Require Import Lia Arith.
From stdpp Require Import base list numbers strings.
From S2P Require Import Prelude JsNumber BoundedFifo.

(** The value [undefined] of the item type. *)
Class Undefined (T : Type) := undefined : T.
#[export] Instance option_undefined {A} : Undefined (option A) := None.

Record RingBuffer (T : Type) := MkRingBuffer { buf : list T; start : nat; count : nat; dropped : nat }.
Arguments MkRingBuffer {T}.
Arguments buf {T}. Arguments start {T}. Arguments count {T}. Arguments dropped {T}.

Section ring.
Context {T : Type} `{Undefined T}.
Implicit Types b : RingBuffer T.

Definition capacity b : nat := length (buf b).
Definition size b : nat := count b.
Definition evicted b : nat := dropped b.

Definition empty_ring (c : nat) : RingBuffer T := MkRingBuffer (replicate c undefined) 0 0 0.

Definition new (n : Number) : result FifoError (RingBuffer T) := empty_ring <$> capacity_of n.

(** The body of the loop of [push]. *)
Definition push1 b (item : T) : RingBuffer T :=
  let idx := (start b + count b) mod length (buf b) in
  let buf' := <[idx := item]> (buf b) in
  if count b <? length buf'
  then MkRingBuffer buf' (start b) (count b + 1) (dropped b)
  else MkRingBuffer buf' ((start b + 1) mod length buf') (count b) (dropped b + 1).

Definition push (items : list T) b : RingBuffer T := fold_left push1 items b.

(** [this.buf\[i\]] *)
Definition cell b (i : nat) : T := nullish (buf b !! i) undefined.

Definition toArray b : list T := map (λ i, cell b ((start b + i) mod length (buf b))) (seq 0 (count b)).

Definition at_ b (i : Z) : T :=
  if (i <? 0)%Z || (Z.of_nat (count b) <=? i)%Z then undefined
  else cell b ((start b + Z.to_nat i) mod length (buf b)).

Definition clear b : RingBuffer T := empty_ring (length (buf b)).

Definition resize (n : Number) b : result FifoError (RingBuffer T) :=
  next ← new n;
  let items := toArray b in
  mret (push (last_n (capacity next) items) next).

(** * Invariant *)

Definition ring_ok b : Prop := 0 < length (buf b) ∧ start b < length (buf b) ∧ count b ≤ length (buf b).

Lemma empty_ring_ok c : 0 < c → ring_ok (empty_ring c).
Proof. intros Hc. unfold ring_ok. simpl. rewrite length_replicate. lia. Qed.

Lemma push1_capacity b x : capacity (push1 b x) = capacity b.
Proof. unfold capacity, push1. case_match; simpl; by rewrite length_insert. Qed.

Lemma push1_ok b x : ring_ok b → ring_ok (push1 b x).
Proof.
  intros (Hn & Hs & Hc). unfold ring_ok, push1.
  destruct (Nat.ltb_spec (count b) (length (<[(start b + count b) mod length (buf b):=x]> (buf b))));
    simpl; rewrite length_insert in *; split_and!; try lia. apply Nat.mod_upper_bound. lia.
Qed.

(** * What a push does to the contents *)

Lemma mod_small_or n a : a < 2 * n → a mod n = if a <? n then a else a - n.
Proof.
  intros Ha. destruct (Nat.ltb_spec a n); [by apply Nat.mod_small|].
  rewrite (Nat.mod_eq a n) by lia. replace (a / n) with 1; [lia|].
  apply (Nat.div_unique a n 1 (a - n)); lia.
Qed.

Lemma cell_insert l i j (x : T) : i < length l → nullish (<[i:=x]> l !! j) undefined = if decide (i = j) then x else nullish (l !! j) undefined.
Proof.
  intros Hi. case_decide; subst; [by rewrite list_lookup_insert_eq by done|by rewrite list_lookup_insert_ne].
Qed.

Lemma last_n_full {A} n (f : nat → A) x :
  0 < n → last_n n (map f (seq 0 n) ++ [x]) = map f (seq 1 (n - 1)) ++ [x].
Proof.
  intros Hn. unfold last_n. rewrite length_app, length_map, length_seq. simpl.
  replace (n + 1 - n) with 1 by lia. destruct n as [|n]; [lia|]. simpl. by rewrite Nat.sub_0_r.
Qed.

Lemma push1_items b x : ring_ok b → toArray (push1 b x) = last_n (capacity b) (toArray b ++ [x]).
Proof.
  intros (Hn & Hs & Hc). unfold toArray, push1, capacity, cell. set (n := length (buf b)) in *.
  assert ((start b + count b) mod n < n) as Hidx by (apply Nat.mod_upper_bound; lia).
  rewrite length_insert. fold n.
  destruct (Nat.ltb_spec (count b) n) as [Hlt|Hge]; cbn [buf start count].
  - rewrite last_n_all by (rewrite length_app, length_map, length_seq; simpl; lia).
    rewrite length_insert. fold n.
    rewrite Nat.add_1_r, seq_S, map_app. simpl. f_equal.
    + apply map_ext_in. intros i Hi%in_seq. rewrite cell_insert by done. rewrite decide_False; [done|].
      rewrite !mod_small_or by lia. repeat case_match; rewrite ?Nat.ltb_lt, ?Nat.ltb_ge in *; lia.
    + rewrite cell_insert by done. by rewrite decide_True.
  - replace (count b) with n in * by lia.
    rewrite length_insert. fold n. rewrite last_n_full by lia.
    assert (seq 0 n = seq 0 (n - 1) ++ [n - 1]) as ->.
    { etrans; [|apply (seq_S (n - 1) 0)]. f_equal. lia. }
    rewrite map_app. simpl. f_equal.
    + rewrite <- seq_shift, map_map. apply map_ext_in. intros i Hi%in_seq.
      rewrite cell_insert by done. rewrite Nat.Div0.add_mod_idemp_l. rewrite decide_False.
      * do 3 f_equal. lia.
      * rewrite !mod_small_or by lia. repeat case_match; rewrite ?Nat.ltb_lt, ?Nat.ltb_ge in *; lia.
    + rewrite cell_insert by done. rewrite decide_True; [done|].
      rewrite Nat.Div0.add_mod_idemp_l. f_equal. lia.
Qed.

Lemma push_facts l b :
  ring_ok b →
  ring_ok (push l b) ∧ capacity (push l b) = capacity b
  ∧ toArray (push l b) = last_n (capacity b) (toArray b ++ l).
Proof.
  revert b. induction l as [|x l IH]; intros b Hb; simpl.
  - split_and!; [done|done|]. rewrite app_nil_r, last_n_all; [done|].
    unfold toArray. rewrite length_map, length_seq. apply Hb.
  - destruct (IH (push1 b x) (push1_ok b x Hb)) as (H1 & H2 & H3). split_and!; [done|by rewrite H2, push1_capacity|].
    rewrite H3, push1_capacity, push1_items by done. rewrite last_n_app_l by done. by rewrite <- app_assoc.
Qed.

Lemma push1_evicted b x : ring_ok b → evicted (push1 b x) = evicted b + (size b + 1 - capacity b).
Proof.
  intros (_ & _ & Hc). unfold evicted, push1, size, capacity. rewrite length_insert.
  destruct (Nat.ltb_spec (count b) (length (buf b))); simpl; lia.
Qed.

Lemma size_items b : size b = length (toArray b).
Proof. unfold toArray. by rewrite length_map, length_seq. Qed.

Lemma push_evicted l b :
  ring_ok b → evicted (push l b) = evicted b + (size b + length l - capacity b).
Proof.
  revert b. induction l as [|x l IH]; intros b Hb; simpl.
  - destruct Hb as (_ & _ & ?). unfold size, capacity. lia.
  - rewrite IH by by apply push1_ok. rewrite push1_evicted, push1_capacity by done.
    rewrite (size_items (push1 b x)), push1_items, length_last_n, length_app, <- size_items by done.
    simpl. destruct Hb as (? & _ & ?). unfold size, capacity in *. lia.
Qed.

Lemma at_items b i : ring_ok b → at_ b i = nullish (if (i <? 0)%Z then None else toArray b !! Z.to_nat i) undefined.
Proof.
  intros _. unfold at_, toArray. destruct (Z.ltb_spec i 0); [done|]. cbn [orb].
  destruct (Z.leb_spec (Z.of_nat (count b)) i).
  - rewrite lookup_ge_None_2; [done|]. rewrite length_map, length_seq. lia.
  - rewrite list_lookup_fmap, lookup_seq_lt by lia. done.
Qed.

#[export] Instance ring_fifo : BoundedFifo (RingBuffer T) T := {|
  fifo_ok := ring_ok; fifo_new := new; fifo_push := push; fifo_items := toArray; fifo_size := size;
  fifo_capacity := capacity; fifo_evicted := evicted; fifo_clear := clear; fifo_resize := resize |}.

#[export] Instance ring_fifo_laws : BoundedFifoLaws (RingBuffer T) T.
Proof.
  split; simpl.
  - intros b _. apply size_items.
  - intros b Hb. apply Hb.
  - unfold new. by intros n e ->.
  - unfold new. intros n c E. rewrite E. exists (empty_ring c). split_and!; try done.
    + by apply empty_ring_ok, capacity_of_pos with n.
    + unfold capacity. simpl. by rewrite length_replicate.
  - intros l b Hb. by apply push_facts.
  - intros l b Hb. by apply push_facts.
  - intros l b Hb. by apply push_facts.
  - intros l b Hb. by apply push_evicted.
  - intros b Hb. apply empty_ring_ok, Hb.
  - intros b. unfold capacity. simpl. by rewrite length_replicate.
  - done.
  - unfold resize, new. by intros n b e ->.
  - unfold resize, new. intros n c b Hb E. rewrite E. simpl. eexists. split; [done|].
    assert (capacity (empty_ring c) = c) as Hcap by (unfold capacity; simpl; by rewrite length_replicate).
    destruct (push_facts (last_n (capacity (empty_ring c)) (toArray b)) (empty_ring c)) as (H1 & H2 & H3);
      [by apply empty_ring_ok, capacity_of_pos with n|].
    rewrite Hcap in *. split_and!; [done..|]. rewrite H3. simpl. by rewrite last_n_last_n.
Qed.
End ring.

(** * Claims *)

(** C13: the ring buffer is a bounded queue.  After pushing any items onto a
    well-formed buffer its contents are the newest [capacity] of the old
    contents followed by the items, in order; it stays well-formed with the same capacity; the
    eviction count grows by exactly the items that no longer fit; and indexing
    agrees with the array copy, out of range too. *)
Theorem ring_push_spec {T} `{Undefined T} (l : list T) (b : RingBuffer T) (i : Z) :
  ring_ok b →
  let b' := push l b in
  ring_ok b' ∧ capacity b' = capacity b
  ∧ toArray b' = last_n (capacity b) (toArray b ++ l)
  ∧ evicted b' = evicted b + (size b + length l - capacity b)
  ∧ size b' = length (toArray b')
  ∧ at_ b' i = nullish (if (i <? 0)%Z then None else toArray b' !! Z.to_nat i) undefined.
Proof.
  intros Hb b'. destruct (push_facts l b Hb) as (H1 & H2 & H3).
  split_and!; [done..|by apply push_evicted|apply size_items|by apply at_items].
Qed.

Lemma ring_push_spec_witness :
  toArray (push [Some 4; Some 5; Some 6; Some 7] (MkRingBuffer [Some 3; Some 1; Some 2] 1 3 0))
  = [Some 5; Some 6; Some 7].
Proof.
  destruct (ring_push_spec [Some 4; Some 5; Some 6; Some 7] (MkRingBuffer [Some 3; Some 1; Some 2] 1 3 0) 0)
    as (_ & _ & E & _); [vm_compute; lia|]. rewrite E. reflexivity.
Defined.
