(* ===== verification/TailStore.v ===== *)
(** The store behind the live tail (src/frontend/src/features/live-tail/
    tailStore.ts): a row buffer, a second buffer for rows that arrive while
    the view is paused, and change notifications batched per frame.

    The store is proved correct against the interface of its buffers
    (BoundedFifo.v), not against the ring buffer.  Listeners are callbacks and
    are named by a number; [frames] counts the callbacks handed to the
    scheduler that it has not run yet. *)
From Stdlib Require Import Lia.
From stdpp Require Import base list numbers strings.
From S2P Require Import Prelude JsNumber BoundedFifo RingBuffer.

Definition MAX_ROW_OPTIONS : list nat := [500; 1000; 2000; 5000; 10000; 20000].

Section store.
Context {B T : Type} `{BoundedFifoLaws B T}.

Record TailStore := MkTailStore {
  rows : B;
  pending : B;
  paused : bool;
  version : nat;
  scheduled : bool;
  listeners : list nat;
  received : nat;
  frames : nat
}.

Definition make (n : Number) : result FifoError TailStore :=
  r ← fifo_new n; p ← fifo_new n; mret (MkTailStore r p false 0 false [] 0 0).

(** [subscribe] and the function it returns; a set keeps one copy. *)
Definition subscribe (l : nat) (s : TailStore) : TailStore :=
  let ls := if bool_decide (l ∈ listeners s) then listeners s else listeners s ++ [l] in
  MkTailStore (rows s) (pending s) (paused s) (version s) (scheduled s) ls (received s) (frames s).
Definition unsubscribe (l : nat) (s : TailStore) : TailStore :=
  MkTailStore (rows s) (pending s) (paused s) (version s) (scheduled s)
    (List.filter (λ x, negb (x =? l)) (listeners s)) (received s) (frames s).

(** [notify] up to the call of the scheduler. *)
Definition notify (s : TailStore) : TailStore :=
  if scheduled s then s
  else MkTailStore (rows s) (pending s) (paused s) (version s) true (listeners s) (received s) (S (frames s)).

(** The callback [notify] schedules, and the listeners it calls. *)
Definition run_frame (s : TailStore) : TailStore * list nat :=
  (MkTailStore (rows s) (pending s) (paused s) (S (version s)) false (listeners s) (received s) (pred (frames s)),
   listeners s).

Definition store_push (l : list T) (s : TailStore) : TailStore :=
  let received' := received s + length l in
  notify (if paused s
          then MkTailStore (rows s) (fifo_push l (pending s)) (paused s) (version s) (scheduled s) (listeners s) received' (frames s)
          else MkTailStore (fifo_push l (rows s)) (pending s) (paused s) (version s) (scheduled s) (listeners s) received' (frames s)).

Definition setPaused (p : bool) (s : TailStore) : TailStore :=
  notify (if p
          then MkTailStore (rows s) (pending s) p (version s) (scheduled s) (listeners s) (received s) (frames s)
          else MkTailStore (fifo_push (fifo_items (pending s)) (rows s)) (fifo_clear (pending s)) p
                 (version s) (scheduled s) (listeners s) (received s) (frames s)).

Definition store_clear (s : TailStore) : TailStore :=
  notify (MkTailStore (fifo_clear (rows s)) (fifo_clear (pending s)) (paused s) (version s) (scheduled s)
            (listeners s) (received s) (frames s)).

Definition store_resize (n : Number) (s : TailStore) : result FifoError TailStore :=
  r ← fifo_resize n (rows s);
  p ← fifo_resize n (pending s);
  mret (notify (MkTailStore r p (paused s) (version s) (scheduled s) (listeners s) (received s) (frames s))).

Definition snapshot (s : TailStore) : list T := fifo_items (rows s).
Definition pendingCount (s : TailStore) : nat := fifo_size (pending s).
Definition store_capacity (s : TailStore) : nat := fifo_capacity (rows s).

(** * Runs *)

Inductive event :=
| EPush (l : list T) | EPause (p : bool) | EClear | EResize (n : Number) | ESubscribe (l : nat) | EUnsubscribe (l : nat)
| EFrame.

(** One event; an exception leaves the store as it is, and a frame only runs
    when one was scheduled. *)
Definition step (s : TailStore) (e : event) : TailStore :=
  match e with
  | EPush l => store_push l s
  | EPause p => setPaused p s
  | EClear => store_clear s
  | EResize n => match store_resize n s with Ok s' => s' | Err _ => s end
  | ESubscribe l => subscribe l s
  | EUnsubscribe l => unsubscribe l s
  | EFrame => if frames s =? 0 then s else (run_frame s).1
  end.

Definition run (s : TailStore) (es : list event) : TailStore := fold_left step es s.

(** * Invariant *)

Definition store_ok (s : TailStore) : Prop :=
  fifo_ok (rows s) ∧ fifo_ok (pending s) ∧ fifo_capacity (pending s) = fifo_capacity (rows s)
  ∧ 0 < fifo_capacity (rows s)
  ∧ frames s = (if scheduled s then 1 else 0)
  ∧ (paused s = false → fifo_items (pending s) = [])
  ∧ NoDup (listeners s).

Lemma make_ok n s : make n = Ok s → store_ok s ∧ snapshot s = [] ∧ paused s = false.
Proof.
  unfold make. intros (r & E1 & (p & E2 & [= <-])%bind_ok)%bind_ok.
  destruct (capacity_of n) as [c|e] eqn:Ec; [|by rewrite (fifo_new_err n e Ec) in E1].
  destruct (fifo_new_ok n c Ec) as (b & Eb & Hok & Hcap & Hit & _).
  rewrite Eb in E1, E2. injection E1 as <-. injection E2 as <-.
  split_and!; try done. split_and!; simpl; try done; [|constructor].
  rewrite Hcap. by apply capacity_of_pos with n.
Qed.

Lemma notify_ok s : store_ok s → store_ok (notify s).
Proof.
  unfold notify. destruct (scheduled s) eqn:E; [done|]. unfold store_ok. rewrite E. simpl.
  intros (? & ? & ? & ? & -> & ? & ?). done.
Qed.

Lemma step_ok s e : store_ok s → store_ok (step s e).
Proof.
  intros Hs. pose proof Hs as (Hr & Hp & Hc & Hpos & Hf & Hpa & Hl). destruct e as [l|p| |n|l|l|]; cbn [step].
  - apply notify_ok. destruct (paused s) eqn:Epa; split_and!; simpl; rewrite ?fifo_push_capacity;
      auto using fifo_push_ok. done.
  - apply notify_ok. destruct p; split_and!; simpl;
      rewrite ?fifo_push_capacity, ?fifo_clear_capacity, ?fifo_clear_items;
      auto using fifo_push_ok, fifo_clear_ok. done.
  - apply notify_ok. split_and!; simpl; rewrite ?fifo_clear_capacity, ?fifo_clear_items; auto using fifo_clear_ok.
  - unfold store_resize. destruct (capacity_of n) as [c|e] eqn:Ec; [|rewrite (fifo_resize_err n (rows s) e Ec); exact Hs].
    destruct (fifo_resize_ok n c (rows s) Hr Ec) as (r & -> & Hr' & Hcr & _).
    destruct (fifo_resize_ok n c (pending s) Hp Ec) as (p & -> & Hp' & Hcp & Hip). simpl.
    apply notify_ok. split_and!; simpl; try done; try congruence.
    + rewrite Hcr. by apply capacity_of_pos with n.
    + intros Hq. by rewrite Hip, Hpa.
  - unfold subscribe. split_and!; simpl; try done. case_bool_decide as Hin; [done|].
    apply NoDup_app. split_and!; [done| |apply NoDup_singleton]. intros x Hx ->%list_elem_of_singleton. done.
  - unfold unsubscribe. split_and!; simpl; try done. by apply NoDup_ListNoDup, List.NoDup_filter, NoDup_ListNoDup.
  - destruct (Nat.eqb_spec (frames s) 0); [done|]. split_and!; simpl; try done.
    destruct (scheduled s); lia.
Qed.

Lemma run_ok es s : store_ok s → store_ok (run s es).
Proof. revert s. induction es as [|e es IH]; intros s Hs; [done|]. simpl. by apply IH, step_ok. Qed.

(** * Pausing loses nothing *)

Definition events_no_resize : list event → bool :=
  forallb (λ e, match e with EResize _ => false | _ => true end).

(** The rows that arrived since the last [clear], oldest first. *)
Definition arrived (acc : list T) (e : event) : list T :=
  match e with EPush l => acc ++ l | EClear => [] | _ => acc end.

(** Rows shown and held back are together the newest that arrived. *)
Definition tracks (s : TailStore) (all : list T) : Prop :=
  store_ok s
  ∧ last_n (store_capacity s) (snapshot s ++ fifo_items (pending s)) = last_n (store_capacity s) all
  ∧ length (snapshot s) ≤ store_capacity s.

Lemma tracks_eq s all s' all' :
  tracks s all → rows s' = rows s → pending s' = pending s → store_ok s' → all' = all → tracks s' all'.
Proof. intros (? & ? & ?) Hr Hp Hs ->. unfold tracks, snapshot, store_capacity in *. rewrite Hr, Hp. done. Qed.

Lemma notify_fields s : rows (notify s) = rows s ∧ pending (notify s) = pending s ∧ paused (notify s) = paused s.
Proof. unfold notify. by destruct (scheduled s). Qed.

Lemma snapshot_bounded s : store_ok s → length (snapshot s) ≤ store_capacity s.
Proof. intros (Hr & _). unfold snapshot, store_capacity. rewrite <- fifo_size_items by done. by apply fifo_bounded. Qed.

Lemma step_capacity s e :
  store_ok s → match e with EResize _ => False | _ => True end → store_capacity (step s e) = store_capacity s.
Proof.
  intros (Hr & _) He. unfold store_capacity. destruct e; try done; cbn [step].
  - unfold store_push. rewrite (proj1 (notify_fields _)). case_match; simpl; by rewrite ?fifo_push_capacity.
  - unfold setPaused. rewrite (proj1 (notify_fields _)). case_match; simpl; by rewrite ?fifo_push_capacity.
  - unfold store_clear. rewrite (proj1 (notify_fields _)). simpl. apply fifo_clear_capacity.
  - case_match; done.
Qed.

Lemma step_tracks s e all :
  tracks s all → match e with EResize _ => False | _ => True end → tracks (step s e) (arrived all e).
Proof.
  intros (Hs & Ha & Hb) He. pose proof (step_ok s e Hs) as Hs'.
  split_and!; [done| |by apply snapshot_bounded].
  rewrite (step_capacity s e Hs He). unfold snapshot in *. pose proof Hs as (Hr & Hp & Hc & _ & _ & Hpa & _).
  destruct e as [l|p| |n|l|l|]; try done; cbn [step arrived].
  - rewrite <- (last_n_app_l _ (store_capacity s) all l), <- Ha, last_n_app_l, <- app_assoc by done.
    unfold store_push. destruct (notify_fields (if paused s then
      MkTailStore (rows s) (fifo_push l (pending s)) (paused s) (version s) (scheduled s) (listeners s)
        (received s + length l) (frames s)
      else MkTailStore (fifo_push l (rows s)) (pending s) (paused s) (version s) (scheduled s) (listeners s)
        (received s + length l) (frames s))) as (-> & -> & _).
    destruct (paused s) eqn:Epa; simpl; rewrite fifo_push_items by done; unfold store_capacity.
    + rewrite Hc. by apply last_n_app_r.
    + rewrite (Hpa eq_refl), !app_nil_r. by apply last_n_last_n.
  - rewrite <- Ha. unfold setPaused.
    destruct (notify_fields (if p then
      MkTailStore (rows s) (pending s) p (version s) (scheduled s) (listeners s) (received s) (frames s)
      else MkTailStore (fifo_push (fifo_items (pending s)) (rows s)) (fifo_clear (pending s)) p
                 (version s) (scheduled s) (listeners s) (received s) (frames s))) as (-> & -> & _).
    destruct p; simpl; [done|]. rewrite fifo_clear_items, app_nil_r, fifo_push_items by done.
    by apply last_n_last_n.
  - unfold store_clear. destruct (notify_fields (MkTailStore (fifo_clear (rows s)) (fifo_clear (pending s))
      (paused s) (version s) (scheduled s) (listeners s) (received s) (frames s))) as (-> & -> & _).
    simpl. by rewrite !fifo_clear_items.
  - case_match; done.
Qed.

Lemma run_tracks es s all :
  tracks s all → events_no_resize es = true → tracks (run s es) (fold_left arrived es all).
Proof.
  revert s all. induction es as [|e es IH]; intros s all Ht He; [done|]. cbn [events_no_resize forallb] in He.
  apply andb_prop in He as [He1 He]. cbn [run fold_left]. apply IH; [|done]. apply step_tracks; [done|]. by destruct e.
Qed.

Lemma make_capacity n s c : make n = Ok s → capacity_of n = Ok c → store_capacity s = c.
Proof.
  unfold make. intros (r & E1 & (p & E2 & [= <-])%bind_ok)%bind_ok Ec.
  destruct (fifo_new_ok n c Ec) as (b & Eb & _ & Hcap & _). rewrite Eb in E1. by injection E1 as <-.
Qed.

Lemma run_capacity es s : store_ok s → events_no_resize es = true → store_capacity (run s es) = store_capacity s.
Proof.
  revert s. induction es as [|e es IH]; intros s Hs He; [done|]. cbn [events_no_resize forallb] in He.
  apply andb_prop in He as [He1 He]. cbn [run fold_left]. change (fold_left step es (step s e)) with (run (step s e) es).
  rewrite IH by (done || by apply step_ok). apply step_capacity; [done|]. by destruct e.
Qed.

(** Rows the store has been handed, in any state. *)
Definition pushed (e : event) : nat := match e with EPush l => length l | _ => 0 end.

Lemma notify_received s : received (notify s) = received s.
Proof. unfold notify. by case_match. Qed.

Lemma run_received es s : received (run s es) = received s + sum_list (map pushed es).
Proof.
  revert s. induction es as [|e es IH]; intros s; simpl; [lia|]. rewrite IH.
  assert (received (step s e) = received s + pushed e) as ->; [|lia].
  destruct e; simpl; try lia.
  - unfold store_push. rewrite notify_received. by case_match.
  - unfold setPaused. rewrite notify_received. case_match; simpl; lia.
  - unfold store_clear. rewrite notify_received. simpl. lia.
  - unfold store_resize. destruct (fifo_resize n (rows s)); [|simpl; lia]. simpl.
    destruct (fifo_resize n (pending s)); [|simpl; lia]. simpl. rewrite notify_received. simpl. lia.
  - case_match; simpl; lia.
Qed.
End store.
Arguments TailStore : clear implicits.
Arguments event : clear implicits.

(** * Claims *)

(** C14: pausing the live tail loses nothing.  Whatever is pushed, paused,
    resumed, cleared, subscribed and rendered, in any order, from a fresh store
    of capacity [c]: once the view is not paused it shows exactly the newest [c]
    rows that arrived since the last clear, in order, as if it had never been
    paused; while it is paused the shown and the held-back rows together do. *)
Theorem tail_pause_transparent {B T} `{BoundedFifoLaws B T} n c (s0 : TailStore B) (es : list (event T)) :
  make n = Ok s0 → capacity_of n = Ok c → events_no_resize es = true →
  let s := run s0 es in
  let all := fold_left arrived es [] in
  (paused s = false → snapshot s = last_n c all)
  ∧ last_n c (snapshot s ++ fifo_items (pending s)) = last_n c all.
Proof.
  intros Hm Hc He s all. destruct (make_ok n s0 Hm) as (Hok & Hsn & Hpa).
  pose proof (run_capacity es s0 Hok He) as Hcap. rewrite (make_capacity n s0 c Hm Hc) in Hcap.
  assert (tracks s all) as (Hs & Ht & Hb).
  { apply run_tracks; [|done]. split_and!; [done| |by apply snapshot_bounded].
    rewrite Hsn. simpl. f_equal. destruct Hok as (_ & _ & _ & _ & _ & Hpe & _). auto. }
  fold s in Hcap. rewrite Hcap in Ht, Hb. split; [|done]. intros Hp.
  pose proof Hs as (_ & _ & _ & _ & _ & Hpe & _). rewrite <- Ht, (Hpe Hp), app_nil_r. by rewrite last_n_all.
Qed.

Lemma tail_pause_transparent_witness :
  ∃ s0 : TailStore (RingBuffer (option nat)), make (num 2) = Ok s0 ∧
  snapshot (run s0 [EPush [Some 1]; EPause true; EPush [Some 2; Some 3; Some 4]; EFrame; EPause false]) = [Some 3; Some 4].
Proof.
  eexists. split; [reflexivity|].
  refine (proj1 (tail_pause_transparent (num 2) 2 _
    [EPush [Some 1]; EPause true; EPush [Some 2; Some 3; Some 4]; EFrame; EPause false] _ _ _) _); reflexivity.
Defined.

(** The store's invariant in every reachable state, resizing and failed
    resizing included: both buffers are well-formed and of the same capacity,
    at most that many rows are shown, nothing is held back unless paused, at
    most one frame is scheduled, exactly when the flag says so, and [received]
    counts every row ever pushed. *)
Theorem tail_store_invariant {B T} `{BoundedFifoLaws B T} n (s0 : TailStore B) (es : list (event T)) :
  make n = Ok s0 →
  let s := run s0 es in
  fifo_ok (rows s) ∧ fifo_ok (pending s) ∧ fifo_capacity (pending s) = fifo_capacity (rows s)
  ∧ length (snapshot s) ≤ store_capacity s ∧ pendingCount s ≤ store_capacity s
  ∧ (paused s = false → pendingCount s = 0)
  ∧ frames s = (if scheduled s then 1 else 0)
  ∧ received s = sum_list (map pushed es).
Proof.
  intros Hm s. destruct (make_ok n s0 Hm) as (Hok & _). pose proof (run_ok es s0 Hok) as Hs. fold s in Hs.
  pose proof Hs as (Hr & Hp & Hc & _ & Hf & Hpe & _). split_and!; try done.
  - by apply snapshot_bounded.
  - unfold pendingCount, store_capacity. rewrite <- Hc. by apply fifo_bounded.
  - intros Hq. unfold pendingCount. by rewrite fifo_size_items, (Hpe Hq).
  - subst s. rewrite run_received. unfold make in Hm.
    apply bind_ok in Hm as (? & _ & (? & _ & [= <-])%bind_ok). done.
Qed.

Lemma tail_store_invariant_witness :
  ∃ s0 : TailStore (RingBuffer (option nat)), make (num 2) = Ok s0 ∧
  received (run s0 [EPush [Some 1]; EResize (num 0); EPause true; EPush [Some 2; Some 3; Some 4]; EResize (num 3)]) = 4.
Proof.
  eexists. split; [reflexivity|].
  etrans; [refine (proj2 (proj2 (proj2 (proj2 (proj2 (proj2 (proj2 (tail_store_invariant (num 2) _ _ _))))))));
    reflexivity|reflexivity].
Defined.
