(* ===== verification/TailSource.v ===== *)
(** The live tail's connection (src/frontend/src/features/live-tail/
    tailSource.ts, [connectTail]): a Server-Sent Events source that is reopened
    with a growing delay until the caller closes it.

    The state is the closure's variables: [es] is the current source, [closed],
    [attempt] and [timer] are as in the source.  Event sources are named by
    the order they were made in; [live_sources] are those not closed yet, the
    only ones that still deliver events.  A pending timer is its delay.  The
    handlers are the caller's: what they are called with is the trace; they do
    not close the connection themselves (those of the page set state and push
    rows), so that a handler has ended before the next step.  How an
    event's payload decodes is an argument of the event, and [Math.random()]
    is an argument of the error event. *)
From Stdlib Require Import Lia ZArith.
From stdpp Require Import base list numbers strings.
From S2P Require Import Prelude JsNumber.

Inductive TailStatus := connecting | live | reconnecting | error.
#[export] Instance TailStatus_eq_dec : EqDecision TailStatus.
Proof. solve_decision. Defined.

(** Calls of the handlers. *)
Inductive call (Row Stats : Type) :=
| onStatus (s : TailStatus) (detail : option jsstr)
| onRows (rows : list Row)
| onStats (s : Stats).
Arguments onStatus {Row Stats}. Arguments onRows {Row Stats}. Arguments onStats {Row Stats}.

Definition MAX_BACKOFF_MS : Z := 15000.

(** [Math.min(MAX_BACKOFF_MS, 500 * 2 ** Math.min(attempt, 5))] *)
Definition backoff_base (attempt : nat) : Z := Z.min MAX_BACKOFF_MS (500 * 2 ^ Z.min (Z.of_nat attempt) 5).

(** The delay, with the jitter of [Math.random()]. *)
Definition backoff (attempt : nat) (random : Number) : Number :=
  nmul (num (backoff_base attempt)) (nadd (str_to_number $"0.75") (nmul random (str_to_number $"0.5"))).

Record Problem := MkProblem { p_detail : option jsstr; p_title : option jsstr; p_code : option jsstr }.

(** The payload of an [error] event: none for a connection failure, a text that
    decodes or does not for a server-sent error (an empty text counts as none). *)
Inductive error_data := NoData | BadJson | Decoded (p : Problem).

Section source.
Context {Row Stats : Type}.

Inductive sevent :=
| SOpen (* the source's [open] event *)
| SLogs (data : option (option (list Row))) (* [None]: not JSON; [Some None]: no rows *)
| SStats (data : option Stats)
| SError (data : error_data) (random : Number).

Inductive input :=
| FromSource (id : nat) (e : sevent)
| TimerFires
| Close.

Record TailConn := MkTailConn {
  es : option nat;
  closed : bool;
  attempt : nat;
  timer : option Number;
  next_id : nat;
  live_sources : list nat
}.

Abbreviation trace := (list (call Row Stats)).

(** The closure [open]. *)
Definition open (st : TailConn) : TailConn * trace :=
  (MkTailConn (Some (next_id st)) (closed st) (attempt st) None (S (next_id st)) (next_id st :: live_sources st),
   [onStatus (if attempt st =? 0 then connecting else reconnecting) None]).

(** [es?.close()] *)
Definition close_es (st : TailConn) : TailConn :=
  match es st with
  | Some i => MkTailConn (es st) (closed st) (attempt st) (timer st) (next_id st)
                (List.filter (λ j, negb (j =? i)) (live_sources st))
  | None => st
  end.

Definition on_error (data : error_data) (random : Number) (st : TailConn) : TailConn * trace :=
  let said :=
    match data with
    | NoData => []
    | BadJson => [onStatus error None]
    | Decoded p =>
        [onStatus error (match p_detail p with
                         | Some d => Some d
                         | None => match p_title p with Some t => Some t | None => p_code p end
                         end)]
    end in
  let st := close_es st in
  if closed st then (st, said)
  else
    let attempt' := S (attempt st) in
    (MkTailConn (es st) (closed st) attempt' (Some (backoff attempt' random)) (next_id st) (live_sources st),
     said ++ match data with NoData => [onStatus reconnecting None] | _ => [] end).

Definition on_event (e : sevent) (st : TailConn) : TailConn * trace :=
  match e with
  | SOpen => (MkTailConn (es st) (closed st) 0 (timer st) (next_id st) (live_sources st), [onStatus live None])
  | SLogs data =>
      (st, match data with Some (Some (r :: rs)) => [onRows (r :: rs)] | _ => [] end)
  | SStats data => (st, match data with Some s => [onStats s] | None => [] end)
  | SError data random => on_error data random st
  end.

Definition close (st : TailConn) : TailConn :=
  close_es (MkTailConn (es st) true (attempt st) None (next_id st) (live_sources st)).

(** [connectTail] up to its return. *)
Definition connect : TailConn * trace := open (MkTailConn None false 0 None 0 []).

(** What can happen: an open source delivers an event, the pending timer
    fires, the caller closes. *)
Definition input_step (st : TailConn) (i : input) : TailConn * trace :=
  match i with
  | FromSource id e => if bool_decide (id ∈ live_sources st) then on_event e st else (st, [])
  | TimerFires => match timer st with Some _ => open st | None => (st, []) end
  | Close => (close st, [])
  end.

Fixpoint run_inputs (st : TailConn) (ins : list input) : TailConn * trace :=
  match ins with
  | [] => (st, [])
  | i :: r => let '(st1, t1) := input_step st i in let '(st2, t2) := run_inputs st1 r in (st2, t1 ++ t2)
  end.

Inductive reachable : TailConn → Prop :=
| reach_init : reachable (fst connect)
| reach_step st i : reachable st → reachable (fst (input_step st i)).

(** * Invariant *)

(** Exactly one of: a live current source, a pending reconnect, or closed. *)
Definition conn_ok (st : TailConn) : Prop :=
  if closed st then live_sources st = [] ∧ timer st = None
  else (∃ i, es st = Some i ∧ live_sources st = [i] ∧ timer st = None)
       ∨ (live_sources st = [] ∧ (∃ d, timer st = Some d) ∧ 0 < attempt st).

Lemma step_conn_ok st i : conn_ok st → conn_ok (fst (input_step st i)).
Proof.
  destruct st as [e c a t n ls]. unfold conn_ok. cbn [es closed attempt timer next_id live_sources].
  destruct i as [id ev| |]; cbn [input_step]; intros Hok.
  - cbn [live_sources]. case_bool_decide as Hin; [|done]. destruct c.
    { destruct Hok as [-> ->]. by apply elem_of_nil in Hin. }
    destruct Hok as [(i & -> & -> & ->)|(-> & _)]; [|by apply elem_of_nil in Hin].
    destruct ev as [|d|d|d r]; simpl; try (left; by exists i).
    rewrite Nat.eqb_refl. simpl.
    right. split_and!; [done|by eexists|lia].
  - cbn [timer]. destruct t as [d|]; [|done]. simpl. destruct c; [by destruct Hok|].
    left. destruct Hok as [(i & -> & -> & [=])|(-> & _)]. by exists n.
  - simpl. unfold close_es. simpl. destruct e as [i|]; simpl.
    + destruct c; [destruct Hok as [-> _]; done|].
      destruct Hok as [(j & [= ->] & -> & _)|(-> & _)]; simpl; rewrite ?Nat.eqb_refl; done.
    + destruct c; [destruct Hok as [-> _]; done|].
      destruct Hok as [(j & [=] & _)|(-> & _)]; done.
Qed.

Lemma reachable_ok st : reachable st → conn_ok st.
Proof. induction 1; [left; by eexists|by apply step_conn_ok]. Qed.

Lemma closed_step st i :
  conn_ok st → closed st = true → closed (fst (input_step st i)) = true ∧ snd (input_step st i) = [] ∧ next_id (fst (input_step st i)) = next_id st.
Proof.
  unfold conn_ok. intros Hok Hc. rewrite Hc in Hok. destruct Hok as [Hl Ht]. destruct i as [id e| |]; cbn [input_step].
  - rewrite Hl. case_bool_decide as Hin; [by apply elem_of_nil in Hin|done].
  - by rewrite Ht.
  - unfold close, close_es. simpl. by destruct (es st).
Qed.
End source.
Arguments TailConn : clear implicits.
Arguments input : clear implicits.
Arguments sevent : clear implicits.

(** * Back-off *)

Lemma backoff_base_bounds a : 0 < a → (1000 ≤ backoff_base a ≤ 15000)%Z.
Proof.
  intros Ha. unfold backoff_base, MAX_BACKOFF_MS.
  assert (1 ≤ Z.min (Z.of_nat a) 5)%Z as Hm by lia.
  assert (2 ^ 1 ≤ 2 ^ Z.min (Z.of_nat a) 5)%Z by (apply Z.pow_le_mono_r; lia). lia.
Qed.

Lemma backoff_base_mono a b : a ≤ b → (backoff_base a ≤ backoff_base b)%Z.
Proof.
  intros Hab. unfold backoff_base.
  assert (2 ^ Z.min (Z.of_nat a) 5 ≤ 2 ^ Z.min (Z.of_nat b) 5)%Z by (apply Z.pow_le_mono_r; lia). lia.
Qed.

(** * Claims *)

(** C15: the connection's invariant.  In every reachable state the tail is
    either closed, with no source open and no timer pending, or it has exactly
    one open source, the current one, and no timer, or no open source and a
    pending reconnect: there is never a second stream, and as long as the
    caller has not closed it, it never stops trying. *)
Theorem tail_connection_invariant {Row Stats} (st : TailConn) :
  @reachable Row Stats st →
  if closed st then live_sources st = [] ∧ timer st = None
  else (∃ i, es st = Some i ∧ live_sources st = [i] ∧ timer st = None)
       ∨ (live_sources st = [] ∧ (∃ d, timer st = Some d) ∧ 0 < attempt st).
Proof. apply reachable_ok. Qed.

Definition sample_inputs : list (input nat nat) :=
  [FromSource 0 SOpen; FromSource 0 (SError NoData (num 0)); TimerFires; FromSource 1 (SError BadJson (num 0))].

Lemma reachable_run {Row Stats} (st : TailConn) (ins : list (input Row Stats)) :
  @reachable Row Stats st → @reachable Row Stats (fst (run_inputs st ins)).
Proof.
  revert st. induction ins as [|i ins IH]; intros st H; [done|]. simpl.
  destruct (input_step st i) as [st1 t1] eqn:E1. destruct (run_inputs st1 ins) as [st2 t2] eqn:E2. simpl.
  specialize (IH st1). rewrite E2 in IH. apply IH. pose proof (reach_step st i H) as Hs. by rewrite E1 in Hs.
Qed.

Lemma tail_connection_invariant_witness :
  let st := fst (run_inputs (fst (@connect nat nat)) sample_inputs) in
  live_sources st = [] ∧ attempt st = 2 ∧ is_Some (timer st).
Proof.
  intros st. destruct (tail_connection_invariant (Row:=nat) (Stats:=nat) st (reachable_run _ sample_inputs reach_init))
    as [(i & _ & H & _)|(H & [d Hd] & _)].
  - vm_compute in H. discriminate H.
  - split_and!; [done|reflexivity|by exists d].
Defined.

(** C16: closing is final.  From any reachable state, after [close] no handler
    is ever called again and no event source is ever opened, whatever the
    network, the timer and further calls of [close] do. *)
Theorem tail_close_final {Row Stats} (st : TailConn) (ins : list (input Row Stats)) :
  @reachable Row Stats st →
  let st' := close st in
  snd (run_inputs st' ins) = [] ∧ next_id (fst (run_inputs st' ins)) = next_id st.
Proof.
  intros Hr st'. assert (conn_ok st' ∧ closed st' = true ∧ next_id st' = next_id st) as (Hok & Hc & <-).
  { pose proof (step_conn_ok (Row:=Row) (Stats:=Stats) st Close (reachable_ok st Hr)) as Ho. split; [done|].
    subst st'. unfold close, close_es. simpl. by destruct (es st). }
  clearbody st'. clear st Hr. revert st' Hok Hc. induction ins as [|i ins IH]; intros st Hok Hc; [done|].
  simpl. destruct (closed_step st i Hok Hc) as (Hc' & Ht & Hn). pose proof (step_conn_ok st i Hok) as Hok'.
  destruct (input_step st i) as [st1 t1]. simpl in *. subst t1.
  destruct (IH st1 Hok' Hc') as [IHt IHn]. destruct (run_inputs st1 ins) as [st2 t2]. simpl in *.
  by rewrite IHt, IHn.
Qed.

Lemma tail_close_final_witness :
  snd (run_inputs (Row:=nat) (Stats:=nat) (close (fst (run_inputs (fst (@connect nat nat)) sample_inputs)))
    [TimerFires; FromSource 1 SOpen; Close; FromSource 0 (SLogs (Some (Some [7])))]) = [].
Proof.
  apply (tail_close_final (Row:=nat) (Stats:=nat) (fst (run_inputs (fst (@connect nat nat)) sample_inputs))).
  apply (reachable_run _ sample_inputs reach_init).
Defined.

(** C17: the reconnect delay.  Every failure before the next successful open
    raises the attempt and never lowers the base delay, which lies between one
    and fifteen seconds and stays at the maximum from the fifth failure on; a
    successful open starts over. *)
Theorem tail_backoff {Row Stats} (st : TailConn) (d : error_data) (r : Number) :
  closed st = false →
  let st1 := fst (@on_error Row Stats d r st) in
  let st2 := fst (@on_event Row Stats SOpen st1) in
  timer st1 = Some (nmul (num (backoff_base (attempt st1))) (nadd (str_to_number $"0.75") (nmul r (str_to_number $"0.5"))))
  ∧ attempt st1 = S (attempt st)
  ∧ (1000 ≤ backoff_base (attempt st1) ≤ MAX_BACKOFF_MS)%Z
  ∧ (backoff_base (attempt st) ≤ backoff_base (attempt st1))%Z
  ∧ (5 ≤ attempt st1 → backoff_base (attempt st1) = MAX_BACKOFF_MS)
  ∧ attempt st2 = 0.
Proof.
  intros Hc st1 st2. assert (closed (close_es st) = false ∧ attempt (close_es st) = attempt st) as [Hc' Ha].
  { unfold close_es. by destruct (es st). }
  assert (attempt st1 = S (attempt st)) as E.
  { subst st1. unfold on_error. rewrite Hc'. simpl. by rewrite Ha. }
  split_and!; try done.
  - rewrite E. subst st1. unfold on_error. rewrite Hc'. simpl. by rewrite Ha.
  - rewrite E. by apply backoff_base_bounds; lia.
  - rewrite E. by apply backoff_base_bounds; lia.
  - rewrite E. apply backoff_base_mono. lia.
  - intros H5. apply Z.le_antisymm; [apply backoff_base_bounds; lia|]. by apply (backoff_base_mono 5).
Qed.

Lemma tail_backoff_witness :
  attempt (fst (@on_error nat nat NoData (num 0) (fst (@connect nat nat)))) = 1
  ∧ timer (fst (@on_error nat nat NoData (num 0) (fst (@connect nat nat)))) = Some (num 750).
Proof.
  split.
  - apply (tail_backoff (Row:=nat) (Stats:=nat) (fst (@connect nat nat)) NoData (num 0)). reflexivity.
  - etrans; [apply (tail_backoff (Row:=nat) (Stats:=nat) (fst (@connect nat nat)) NoData (num 0)); reflexivity|]. vm_compute. reflexivity.
Defined.
