(* ===== verification/JsDate.v ===== *)
(** Dates of the language: [Date] time values, the proleptic Gregorian
    calendar, [toISOString] and the ISO form [Date.parse] must accept.

    A time value is a number of milliseconds, an integer of at most
    8.64e15 in magnitude, or [NaN] for an invalid date: [option Z].  Integers of
    that size and the sums and differences the sources form of them are exact
    in binary64, or already out of the range, so they are computed in [Z]. *)
From Stdlib Require Import ZArith Lia.
From stdpp Require Import base list numbers strings.
From S2P Require Import Prelude JsNumber.
Open Scope Z_scope.

(** * Calendar *)

(** Days since 1970-01-01 of a date; months are 1 to 12. *)
Definition days_of_civil (y m d : Z) : Z :=
  let y' := if m <=? 2 then y - 1 else y in
  let era := y' / 400 in
  let yoe := y' mod 400 in
  let mp := (m + 9) mod 12 in
  let doy := (153 * mp + 2) / 5 + d - 1 in
  let doe := yoe * 365 + yoe / 4 - yoe / 100 + doy in
  era * 146097 + doe - 719468.

(** The date of a day of a 400-year era that starts on March 1st: years since
    the era's start, month and day. *)
Definition civil_of_doe (doe : Z) : Z * Z * Z :=
  let yoe := (doe - doe / 1460 + doe / 36524 - doe / 146096) / 365 in
  let doy := doe - (365 * yoe + yoe / 4 - yoe / 100) in
  let mp := (5 * doy + 2) / 153 in
  let d := doy - (153 * mp + 2) / 5 + 1 in
  let m := if mp <? 10 then mp + 3 else mp - 9 in
  (yoe + (if m <=? 2 then 1 else 0), m, d).

Definition civil_of_days (z : Z) : Z * Z * Z :=
  let z' := z + 719468 in
  let '(y, m, d) := civil_of_doe (z' mod 146097) in
  (y + z' / 146097 * 400, m, d).

Definition is_leap (y : Z) : bool := (y mod 4 =? 0) && (negb (y mod 100 =? 0) || (y mod 400 =? 0)).
Definition days_in_month (y m : Z) : Z :=
  if m =? 2 then (if is_leap y then 29 else 28)
  else if (m =? 4) || (m =? 6) || (m =? 9) || (m =? 11) then 30 else 31.

(** * Time values *)

Definition msPerDay : Z := 86400000.
Definition max_time : Z := 8640000000000000.

(** [TimeClip] of an integer. *)
Definition time_clip (t : Z) : option Z := if Z.abs t <=? max_time then Some t else None.

(** [TimeClip] of half an integer: truncated towards zero. *)
Definition time_clip_half (t2 : Z) : option Z := time_clip (Z.quot t2 2).

(** * Printing *)

Definition pad2 (n : Z) : jsstr := pad_left 2 (dec (Z.to_N n)).
Definition pad3 (n : Z) : jsstr := pad_left 3 (dec (Z.to_N n)).
Definition iso_year (y : Z) : jsstr :=
  if (0 <=? y) && (y <=? 9999) then pad_left 4 (dec (Z.to_N y))
  else (if y <? 0 then MINUS else PLUS) :: pad_left 6 (dec (Z.to_N (Z.abs y))).

(** [toISOString] of a valid date. *)
Definition iso_string (t : Z) : jsstr :=
  let '(y, m, d) := civil_of_days (t / msPerDay) in
  let r := t mod msPerDay in
  iso_year y ++ [MINUS] ++ pad2 m ++ [MINUS] ++ pad2 d ++ $"T"
  ++ pad2 (r / 3600000) ++ [COLON] ++ pad2 (r / 60000 mod 60) ++ [COLON] ++ pad2 (r / 1000 mod 60)
  ++ [DOT] ++ pad3 (r mod 1000) ++ $"Z".

(** * Reading *)

(** [n] digits at the head of the string. *)
Definition take_digits (n : nat) (s : jsstr) : option (Z * jsstr) :=
  let ds := take n s in
  if (length ds =? n)%nat && forallb is_digit ds then Some (Z.of_N (digits_val ds), drop n s) else None.

Definition expect (c : N) (s : jsstr) : option jsstr :=
  match s with d :: r => if (d =? c)%N then Some r else None | [] => None end.

(** Seconds and milliseconds: [:ss] and [:ss.sss] are optional. *)
Definition iso_seconds (s : jsstr) : option (Z * Z * jsstr) :=
  match expect COLON s with
  | None => Some (0, 0, s)
  | Some s =>
      '(sec, s) ← take_digits 2 s;
      match expect DOT s with
      | None => Some (sec, 0, s)
      | Some s => '(ms, s) ← take_digits 3 s; Some (sec, ms, s)
      end
  end.

(** The offset in minutes: [Z] or [+hh:mm] or [-hh:mm]. *)
Definition iso_offset (s : jsstr) : option Z :=
  match s with
  | [c] => if (c =? 90)%N then Some 0 else None
  | c :: s =>
      if (c =? PLUS)%N || (c =? MINUS)%N
      then '(h, s) ← take_digits 2 s; s ← expect COLON s; '(m, s) ← take_digits 2 s;
           match s with
           | [] => if (h <=? 23) && (m <=? 59) then Some (if (c =? MINUS)%N then - (h * 60 + m) else h * 60 + m) else None
           | _ => None
           end
      else None
  | [] => None
  end.

(** A date in the language's date-time string format, with a four-digit year, a
    time and an offset; [None] for any other string. *)
Definition iso_parse (s : jsstr) : option Z :=
  '(y, s) ← take_digits 4 s; s ← expect MINUS s;
  '(mo, s) ← take_digits 2 s; s ← expect MINUS s;
  '(d, s) ← take_digits 2 s; s ← expect 84 s;
  '(h, s) ← take_digits 2 s; s ← expect COLON s;
  '(mi, s) ← take_digits 2 s;
  '(sec, ms, s) ← iso_seconds s;
  off ← iso_offset s;
  if (1 <=? mo) && (mo <=? 12) && (1 <=? d) && (d <=? days_in_month y mo) && (h <=? 23) && (mi <=? 59) && (sec <=? 59)
  then Some (days_of_civil y mo d * msPerDay + h * 3600000 + mi * 60000 + sec * 1000 + ms - off * 60000)
  else None.

Example iso_ex : iso_string 1789380000123 = $"2026-09-14T10:00:00.123Z" ∧ iso_string (-1) = $"1969-12-31T23:59:59.999Z".
Proof. vm_compute. done. Qed.
Example iso_parse_ex :
  map iso_parse [$"2026-09-14T10:00:00.123Z"; $"2026-09-14T12:00+02:00"; $"2025-02-29T00:00:00Z"]
  = [Some 1789380000123; Some 1789380000000; None].
Proof. vm_compute. done. Qed.

(** * The calendar is a bijection *)

Fixpoint upto (check : Z → bool) (n : nat) (z : Z) : bool :=
  match n with O => true | S n => check z && upto check n (z + 1) end.

Lemma upto_spec check n z x : upto check n z = true → z <= x < z + Z.of_nat n → check x = true.
Proof.
  revert z. induction n as [|n IH]; intros z H Hx; [lia|]. simpl in H. apply andb_prop in H as [H1 H2].
  destruct (decide (x = z)) as [->|]; [done|]. apply (IH (z + 1)); [done|lia].
Qed.

(** The year of a day of the era, and the day of that year; the last one only
    exists before a leap year's end of February. *)
Lemma yoe_spec doe :
  0 <= doe < 146097 →
  let yoe := (doe - doe / 1460 + doe / 36524 - doe / 146096) / 365 in
  let doy := doe - (365 * yoe + yoe / 4 - yoe / 100) in
  0 <= yoe < 400 ∧ 0 <= doy <= 365 ∧ (doy = 365 → is_leap (yoe + 1) = true).
Proof.
  intros H yoe doy. assert (0 <= yoe < 400 ∧ 0 <= doy <= 365) as [Hy Hd].
  { subst yoe doy. Z.to_euclidean_division_equations. lia. }
  split_and!; try lia. intros E.
  assert ((yoe + 1) mod 4 = 0 ∧ ((yoe + 1) mod 100 ≠ 0 ∨ (yoe + 1) mod 400 = 0)) as [E1 E2].
  { subst yoe doy. Z.to_euclidean_division_equations. lia. }
  unfold is_leap. apply andb_true_intro. split; [by apply Z.eqb_eq|]. apply orb_true_iff.
  destruct E2 as [E2|E2]; [left; by apply negb_true_iff, Z.eqb_neq|right; by apply Z.eqb_eq].
Qed.

(** A day of a year that starts in March, by the longest such year. *)
Definition doy_ok (doy : Z) : bool :=
  let mp := (5 * doy + 2) / 153 in
  let d := doy - (153 * mp + 2) / 5 + 1 in
  let m := if mp <? 10 then mp + 3 else mp - 9 in
  ((m + 9) mod 12 =? mp) && (1 <=? m) && (m <=? 12) && (1 <=? d) && (d <=? days_in_month 4 m)
  && (negb ((m =? 2) && (d =? 29)) || (doy =? 365)).

Lemma doy_ok_all doy : 0 <= doy <= 365 → doy_ok doy = true.
Proof. intros H. apply (upto_spec doy_ok 366 0); [vm_compute; reflexivity|lia]. Qed.

Lemma civil_of_doe_spec doe :
  0 <= doe < 146097 →
  let '(y, m, d) := civil_of_doe doe in
  days_of_civil y m d + 719468 = doe ∧ 1 <= m <= 12 ∧ 1 <= d <= days_in_month y m.
Proof.
  intros H. destruct (yoe_spec doe H) as (Hy & Hd & Hleap). unfold civil_of_doe.
  set (yoe := (doe - doe / 1460 + doe / 36524 - doe / 146096) / 365) in *.
  set (doy := doe - (365 * yoe + yoe / 4 - yoe / 100)) in *.
  pose proof (doy_ok_all doy Hd) as Hok. unfold doy_ok in Hok.
  set (mp := (5 * doy + 2) / 153) in *. set (d := doy - (153 * mp + 2) / 5 + 1) in *.
  set (m := if mp <? 10 then mp + 3 else mp - 9) in *.
  do 5 (apply andb_prop in Hok as [Hok ?]). split_and!; try lia.
  - unfold days_of_civil. replace (if m <=? 2 then yoe + (if m <=? 2 then 1 else 0) - 1 else yoe + (if m <=? 2 then 1 else 0))
      with yoe by (destruct (m <=? 2); lia).
    rewrite (Z.div_small yoe 400), (Z.mod_small yoe 400) by lia. apply Z.eqb_eq in Hok. rewrite Hok. lia.
  - unfold days_in_month in *. destruct (m =? 2) eqn:E2; [|by apply Z.leb_le]. apply Z.eqb_eq in E2. rewrite E2. cbn [Z.leb Z.compare Pos.compare Pos.compare_cont].
    change (is_leap 4) with true in *. destruct (decide (d = 29)) as [E29|]; [|].
    2:{ assert (d <= 29) by (by apply Z.leb_le). destruct (is_leap _); lia. }
    rewrite Hleap; [lia|]. rewrite E29 in *. destruct (doy =? 365) eqn:E3; [by apply Z.eqb_eq in E3|]. done.
Qed.

Lemma days_of_civil_era y m d k : days_of_civil (y + k * 400) m d = days_of_civil y m d + k * 146097.
Proof.
  unfold days_of_civil.
  replace (if m <=? 2 then y + k * 400 - 1 else y + k * 400) with ((if m <=? 2 then y - 1 else y) + k * 400)
    by (case_match; lia).
  rewrite Z.div_add, Z.mod_add by done. lia.
Qed.

Lemma days_in_month_era y m k : days_in_month (y + k * 400) m = days_in_month y m.
Proof.
  unfold days_in_month, is_leap. replace (y + k * 400) with (y + (k * 100) * 4) at 1 by lia.
  replace (y + k * 400) with (y + (k * 4) * 100) at 1 by lia. by rewrite !Z.mod_add.
Qed.

Lemma civil_of_days_spec z :
  let '(y, m, d) := civil_of_days z in
  days_of_civil y m d = z ∧ 1 <= m <= 12 ∧ 1 <= d <= days_in_month y m.
Proof.
  unfold civil_of_days.
  pose proof (civil_of_doe_spec ((z + 719468) mod 146097) ltac:(apply Z.mod_pos_bound; done)) as H.
  destruct (civil_of_doe ((z + 719468) mod 146097)) as [[y m] d].
  rewrite days_of_civil_era, days_in_month_era.
  pose proof (Z.div_mod (z + 719468) 146097 ltac:(done)). lia.
Qed.

(** * Reading back what [toISOString] prints *)

Lemma take_digits_pad k n r :
  0 <= n < 10 ^ Z.of_nat (S k) → take_digits (S k) (pad_left (S k) (dec (Z.to_N n)) ++ r) = Some (n, r).
Proof.
  intros Hn. unfold take_digits. assert ((Z.to_N n < 10 ^ N.of_nat (S k))%N) as Hn'.
  { apply N2Z.inj_lt. rewrite N2Z.inj_pow, nat_N_Z, Z2N.id by lia. exact (proj2 Hn). }
  pose proof (pad_left_length k _ Hn') as Hl. rewrite take_app_length' by done. rewrite drop_app_length' by done.
  rewrite Hl, Nat.eqb_refl, pad_left_digits, pad_left_val. simpl. by rewrite Z2N.id by lia.
Qed.

Definition year_of (t : Z) : Z := let '(y, _, _) := civil_of_days (t / msPerDay) in y.

Lemma expect_hit c r : expect c (c :: r) = Some r.
Proof. unfold expect. by rewrite N.eqb_refl. Qed.

Lemma iso_seconds_ms sec ms r :
  0 <= sec < 60 → 0 <= ms < 1000 →
  iso_seconds (COLON :: pad2 sec ++ DOT :: pad3 ms ++ r) = Some (sec, ms, r).
Proof.
  intros Hs Hm. unfold iso_seconds. rewrite expect_hit. unfold pad2, pad3.
  rewrite take_digits_pad by (simpl; lia). simpl. rewrite take_digits_pad by (simpl; lia). done.
Qed.

Lemma iso_parse_string t : 0 <= year_of t <= 9999 → iso_parse (iso_string t) = Some t.
Proof.
  unfold year_of, iso_string. pose proof (civil_of_days_spec (t / msPerDay)) as Hc.
  destruct (civil_of_days (t / msPerDay)) as [[y m] d]. intros Hy. destruct Hc as (Hdays & Hm & Hd).
  pose proof (Z.mod_pos_bound t msPerDay ltac:(done)) as Hr. set (r := t mod msPerDay) in *.
  assert (t = t / msPerDay * msPerDay + r) as Ht by (pose proof (Z.div_mod t msPerDay ltac:(done)); lia).
  unfold iso_year. replace ((0 <=? y) && (y <=? 9999)) with true by lia.
  assert (0 <= r / 3600000 <= 23) as Hh by (unfold msPerDay in Hr; Z.to_euclidean_division_equations; lia).
  assert (0 <= r / 60000 mod 60 <= 59) as Hmi by (Z.to_euclidean_division_equations; lia).
  assert (0 <= r / 1000 mod 60 <= 59) as Hsec by (Z.to_euclidean_division_equations; lia).
  assert (0 <= r mod 1000 <= 999) as Hms by (Z.to_euclidean_division_equations; lia).
  assert (r = r / 3600000 * 3600000 + r / 60000 mod 60 * 60000 + r / 1000 mod 60 * 1000 + r mod 1000) as Hsum
    by (Z.to_euclidean_division_equations; lia).
  assert (days_in_month y m <= 31) as H31 by (unfold days_in_month; repeat case_match; lia).
  revert Hh Hmi Hsec Hms Hsum. generalize (r / 3600000) (r / 60000 mod 60) (r / 1000 mod 60) (r mod 1000).
  intros h mi sec ms Hh Hmi Hsec Hms Hsum. lits. cbn [app].
  unfold iso_parse. rewrite take_digits_pad by (simpl; lia). simpl. unfold pad2 at 1.
  rewrite take_digits_pad by (simpl; lia). simpl. unfold pad2 at 1.
  rewrite take_digits_pad by (simpl; lia). simpl. unfold pad2 at 1.
  rewrite take_digits_pad by (simpl; lia). simpl. unfold pad2 at 1.
  rewrite take_digits_pad by (simpl; lia). simpl.
  rewrite iso_seconds_ms by lia. simpl.
  replace (_ && _) with true by (rewrite ?andb_true_iff; symmetry; rewrite ?andb_true_iff; lia).
  f_equal. lia.
Qed.
