(* ===== verification/TimeRange.v ===== *)
(** Time range expressions (src/frontend/src/lib/time-range.ts and
    features/time-range/time-input.ts).

    [TZDate] of @date-fns/tz is a parameter: the two questions the sources ask
    it are the operations of [TimeZones].  [Date.parse] is modelled on the
    language's own date-time format; what an engine makes of other strings is
    the third operation.  [Number(digits) * unit] and the sums with the current
    time are exact in binary64 up to 2^56 (units are multiples of 8) and out of
    the range of dates beyond, so they are computed in [Z]. *)
From Stdlib Require Import ZArith Lia.
From stdpp Require Import base list numbers strings.
From S2P Require Import Prelude Unicode JsNumber JsDate.
Open Scope Z_scope.

Class TimeZones := {
  (** [new TZDate(t, tz)]: full year, month from 0, day; [None] for NaN. *)
  tz_date : jsstr → Z → option (Z * Z * Z);
  (** [new TZDate(y, mo, d, h, mi, s, 0, tz).getTime()] *)
  tz_time : jsstr → Z → Z → Z → Z → Z → Z → option Z;
  (** [Date.parse] of a string not in the date-time string format. *)
  date_parse_other : jsstr → option Z
}.

(** UTC, for every zone name; the constructor of a date takes a year below 100 for one
    of the twentieth century. *)
Definition full_year (y : Z) : Z := if (0 <=? y) && (y <=? 99) then 1900 + y else y.
Definition utc_zones : TimeZones := {|
  tz_date := λ _ t, let '(y, m, d) := civil_of_days (t / msPerDay) in Some (y, m - 1, d);
  tz_time := λ _ y m d h mi s,
    time_clip (days_of_civil (full_year y) (m + 1) d * msPerDay + h * 3600000 + mi * 60000 + s * 1000);
  date_parse_other := λ _ : jsstr, None
|}.

Inductive TimeError := TimeRangeError (message : jsstr) | InvalidTimeValue.
#[export] Instance TimeError_eq_dec : EqDecision TimeError.
Proof. solve_decision. Defined.

Record Preset := MkPreset { preset_from : jsstr; preset_label : jsstr; preset_short : jsstr }.

Definition PRESETS : list Preset :=
  [MkPreset $"now-5m" $"Last 5 minutes" $"5m"; MkPreset $"now-15m" $"Last 15 minutes" $"15m";
   MkPreset $"now-30m" $"Last 30 minutes" $"30m"; MkPreset $"now-1h" $"Last 1 hour" $"1h";
   MkPreset $"now-3h" $"Last 3 hours" $"3h"; MkPreset $"now-6h" $"Last 6 hours" $"6h";
   MkPreset $"now-12h" $"Last 12 hours" $"12h"; MkPreset $"now-24h" $"Last 24 hours" $"24h";
   MkPreset $"now-7d" $"Last 7 days" $"7d"; MkPreset $"now-30d" $"Last 30 days" $"30d"].

Inductive TimeUnit := unit_s | unit_m | unit_h | unit_d | unit_w.
#[export] Instance TimeUnit_eq_dec : EqDecision TimeUnit.
Proof. solve_decision. Defined.

Definition UNIT_MS (u : TimeUnit) : Z :=
  match u with unit_s => 1000 | unit_m => 60000 | unit_h => 3600000 | unit_d => 86400000 | unit_w => 604800000 end.

(** The class [\[smhdw\]]. *)
Definition unit_char (u : TimeUnit) : N :=
  match u with unit_s => 115 | unit_m => 109 | unit_h => 104 | unit_d => 100 | unit_w => 119 end%N.
Definition unit_of (c : N) : option TimeUnit :=
  List.find (λ u, (unit_char u =? c)%N) [unit_s; unit_m; unit_h; unit_d; unit_w].

Definition MAX_DEFAULT_RANGE_MS : Z := 31 * UNIT_MS unit_d.

(** The groups of [RELATIVE_RE]: the offset, with its sign and digits, and
    whether [/d] follows. *)
Record Relative := MkRelative { rel_offset : option (bool * jsstr * TimeUnit); rel_day : bool }.

Definition rel_suffix (s : jsstr) : option bool :=
  if decide (s = []) then Some false else if decide (s = $"/d") then Some true else None.

(** [RELATIVE_RE.exec(e)]: [/^now(?:(\[+-\])(\d+)(\[smhdw\]))?(\/d)?$/] *)
Definition RELATIVE_RE (e : jsstr) : option Relative :=
  if negb (starts_with $"now" e) then None
  else
    let r := drop 3 e in
    match r with
    | c :: r' =>
        if (c =? PLUS)%N || (c =? MINUS)%N
        then match take_while is_digit r', drop_while is_digit r' with
             | d :: ds, u :: suffix =>
                 match unit_of u, rel_suffix suffix with
                 | Some u, Some day => Some (MkRelative (Some ((c =? MINUS)%N, d :: ds, u)) day)
                 | _, _ => None
                 end
             | _, _ => None
             end
        else MkRelative None <$> rel_suffix r
    | [] => Some (MkRelative None false)
    end.

Definition isRelative (expr : jsstr) : bool := match RELATIVE_RE (trim expr) with Some _ => true | None => false end.

(** [/^\d{4}-\d{2}-\d{2}T\d{2}:\d{2}(:\d{2}(\.\d+)?)?(Z|\[+-\]\d{2}:\d{2})$/i] *)
Definition expect_ci (upper : N) (s : jsstr) : option jsstr :=
  match s with c :: r => if (c =? upper)%N || (c =? upper + 32)%N then Some r else None | [] => None end.
Definition rfc3339_offset (s : jsstr) : bool :=
  match s with
  | [] => false
  | c :: r =>
      match expect_ci 90 s with
      | Some rest => bool_decide (rest = [])
      | None =>
          ((c =? PLUS)%N || (c =? MINUS)%N)
          && match ('(_, r) ← take_digits 2 r; r ← expect COLON r; '(_, r) ← take_digits 2 r; Some r) with
             | Some rest => bool_decide (rest = [])
             | None => false
             end
      end
  end.
Definition RFC3339_RE (s : jsstr) : bool :=
  match ('(_, s) ← take_digits 4 s; s ← expect MINUS s; '(_, s) ← take_digits 2 s; s ← expect MINUS s;
         '(_, s) ← take_digits 2 s; s ← expect_ci 84 s; '(_, s) ← take_digits 2 s; s ← expect COLON s;
         '(_, s) ← take_digits 2 s; Some s) with
  | None => false
  | Some s =>
      match expect COLON s with
      | None => rfc3339_offset s
      | Some s =>
          match take_digits 2 s with
          | None => false
          | Some (_, s) =>
              match expect DOT s with
              | None => rfc3339_offset s
              | Some s => truthy (take_while is_digit s) && rfc3339_offset (drop_while is_digit s)
              end
          end
      end
  end.

Section ranges.
Context `{TimeZones}.

Definition date_parse (s : jsstr) : option Z :=
  match iso_parse s with Some t => Some t | None => date_parse_other s end.

Definition invalid_time (expr : jsstr) : TimeError :=
  TimeRangeError ($"Invalid time " ++ [DQUOTE] ++ expr ++ [DQUOTE] ++ $". Use RFC 3339 (2026-09-14T10:00:00Z) or now-15m.").

(** The start of the day of [t] in [tz]; the time is clipped by [new TZDate(t, tz)]. *)
Definition start_of_day (tz : jsstr) (t : Z) : option Z :=
  t ← time_clip t; '(y, m, d) ← tz_date tz t; tz_time tz y m d 0 0 0.

(** A date, possibly an invalid one. *)
Definition resolveExpr (expr : jsstr) (now : Z) (tz : jsstr) : result TimeError (option Z) :=
  let e := trim expr in
  match RELATIVE_RE e with
  | Some m =>
      let t := match rel_offset m with
               | Some (neg, ds, u) =>
                   let delta := Z.of_N (digits_val ds) * UNIT_MS u in
                   if neg : bool then now - delta else now + delta
               | None => now
               end in
      Ok (if rel_day m then match start_of_day tz t with Some s => time_clip s | None => None end else time_clip t)
  | None =>
      if RFC3339_RE e
      then match date_parse e with Some d => Ok (Some d) | None => Err (invalid_time expr) end
      else Err (invalid_time expr)
  end.

Record Resolved := MkResolved { r_start : option Z; r_end : option Z }.

(** [a >= b] of two time values: false when one is NaN. *)
Definition time_ge (a b : option Z) : bool :=
  match a, b with Some a, Some b => b <=? a | _, _ => false end.
Definition time_gt (a b : option Z) : bool :=
  match a, b with Some a, Some b => b <? a | _, _ => false end.

Definition resolveRange (from to : jsstr) (now : Z) (tz : jsstr) : result TimeError Resolved :=
  s ← resolveExpr from now tz;
  e ← resolveExpr to now tz;
  if time_ge s e then Err (TimeRangeError $"Start must be before end.") else Ok (MkResolved s e).

(** [date.toISOString()] *)
Definition toISOString (d : option Z) : result TimeError jsstr :=
  match d with Some t => Ok (iso_string t) | None => Err InvalidTimeValue end.

Definition rangeDurationMs (from to : jsstr) (now : Z) : result TimeError (option Z) :=
  r ← resolveRange from to now $"UTC";
  Ok (match r_end r, r_start r with Some e, Some s => Some (e - s) | _, _ => None end).

Definition zoomOut (from to : jsstr) (now : Z) (tz : jsstr) : result TimeError (jsstr * jsstr) :=
  r ← resolveRange from to now tz;
  match r_start r, r_end r with
  | Some s, Some e =>
      let dur := e - s in
      let s' := time_clip_half (2 * s - dur) in
      let e' := time_clip_half (2 * e + dur) in
      if time_gt e' (Some now) && bool_decide (to = $"now")
      then Ok ($"now-" ++ decz ((dur * 2 + 500) / 1000) ++ $"s", $"now")
      else
        let e'' := if time_gt e' (Some now) then Some now else e' in
        f ← toISOString s'; t ← toISOString e''; Ok (f, t)
  | _, _ => Err InvalidTimeValue
  end.

(** [/^(\d+)\s*(\[smhdw\])$/] *)
Definition SHORT_RE (s : jsstr) : option (jsstr * TimeUnit) :=
  match take_while is_digit s, drop_while is_space (drop_while is_digit s) with
  | d :: ds, [u] => match unit_of u with Some u => Some (d :: ds, u) | None => None end
  | _, _ => None
  end.

Definition parseQuickInput (input : jsstr) : option jsstr :=
  let s := to_lower (trim input) in
  let relative := match RELATIVE_RE s with
                  | Some _ => if decide (s = $"now") then None else Some s
                  | None => None
                  end in
  match SHORT_RE s with
  | Some (ds, u) => if (0 <? digits_val ds)%N then Some ($"now-" ++ ds ++ [unit_char u]) else relative
  | None => relative
  end.

Definition unit_name (u : TimeUnit) : jsstr :=
  match u with unit_s => $"second" | unit_m => $"minute" | unit_h => $"hour" | unit_d => $"day" | unit_w => $"week" end.

(** [/^now-(\d+)(\[smhdw\])$/] *)
Definition LAST_RE (s : jsstr) : option (jsstr * TimeUnit) :=
  if starts_with $"now-" s
  then match take_while is_digit (drop 4 s), drop_while is_digit (drop 4 s) with
       | d :: ds, [u] => match unit_of u with Some u => Some (d :: ds, u) | None => None end
       | _, _ => None
       end
  else None.

Definition rangeLabel (formatAbsolute : option Z → jsstr) (from to : jsstr) : jsstr :=
  let absolute := λ e, if isRelative e then e else formatAbsolute (date_parse e) in
  let both := absolute from ++ $" → " ++ absolute to in
  if decide (to = $"now")
  then match List.find (λ p, bool_decide (preset_from p = from)) PRESETS with
       | Some p => preset_label p
       | None =>
           match LAST_RE from with
           | Some (ds, u) =>
               let n := str_to_number ds in
               $"Last " ++ num_to_string n ++ $" " ++ unit_name u ++ (if neq n (num 1) then [] else $"s")
           | None => both
           end
       end
  else both.

(** * Date inputs *)

(** [/^(\d{4})-(\d{2})-(\d{2})T(\d{2}):(\d{2})(?::(\d{2}))?$/] *)
Definition LOCAL_RE (s : jsstr) : option (Z * Z * Z * Z * Z * Z) :=
  '(y, s) ← take_digits 4 s; s ← expect MINUS s; '(mo, s) ← take_digits 2 s; s ← expect MINUS s;
  '(d, s) ← take_digits 2 s; s ← expect 84 s; '(h, s) ← take_digits 2 s; s ← expect COLON s;
  '(mi, s) ← take_digits 2 s;
  match s with
  | [] => Some (y, mo, d, h, mi, 0)
  | _ => s ← expect COLON s; '(sec, s) ← take_digits 2 s;
         match s with [] => Some (y, mo, d, h, mi, sec) | _ => None end
  end.

Definition localInputToISO (value tz : jsstr) : option jsstr :=
  match LOCAL_RE value with
  | None => None
  | Some (y, mo, d, h, mi, s) =>
      match tz_time tz y (mo - 1) d h mi s with
      | Some t => iso_string <$> time_clip t
      | None => None
      end
  end.

(** [maxRangeMs] is a positive number of milliseconds when it is given. *)
Definition validateCustomRange (start end_ tz : jsstr) (maxRangeMs : option Z) : option jsstr :=
  match localInputToISO start tz, localInputToISO end_ tz with
  | None, _ => Some $"Enter a valid start date and time."
  | _, None => Some $"Enter a valid end date and time."
  | Some s, Some e =>
      if time_ge (date_parse s) (date_parse e) then Some $"Start must be before end."
      else match maxRangeMs with
      | Some m =>
          if negb (m =? 0)
             && match date_parse e, date_parse s with Some e, Some s => m <? e - s | _, _ => false end
          then Some ($"The range may not exceed " ++ decz ((m * 2 + 86400000) / 172800000) ++ $" days.")
          else None
      | None => None
      end
  end.
End ranges.
