(* ===== verification/TimeRangeProps.v ===== *)
(** What time range expressions resolve to, from the definitions of
    TimeRange.v. *)
From Stdlib Require Import ZArith Lia.
From stdpp Require Import base list numbers strings.
From S2P Require Import Prelude Unicode JsNumber JsDate TimeRange.
Open Scope Z_scope.

(** * Reading the printed relative form *)

Lemma unit_of_char u : unit_of (unit_char u) = Some u.
Proof. by destruct u. Qed.

Lemma unit_of_some c u : unit_of c = Some u → c = unit_char u.
Proof.
  unfold unit_of. intros [_ E]%List.find_some. by apply N.eqb_eq in E.
Qed.

Lemma unit_not_digit u : is_digit (unit_char u) = false.
Proof. by destruct u. Qed.

Lemma digits_split ds c r :
  forallb is_digit ds = true → is_digit c = false →
  take_while is_digit (ds ++ c :: r) = ds ∧ drop_while is_digit (ds ++ c :: r) = c :: r.
Proof.
  intros Hd Hc. assert (Forall (λ x, is_digit x = true) ds) by (by apply List.Forall_forall, List.forallb_forall).
  split; [apply take_while_app|apply drop_while_app]; try done; intros x r' [= <- _]; done.
Qed.

(** [now], a sign, digits, a unit and possibly [/d]. *)
Definition relative_text (neg : bool) (ds : jsstr) (u : TimeUnit) (day : bool) : jsstr :=
  $"now" ++ (if neg then MINUS else PLUS) :: ds ++ unit_char u :: (if day then $"/d" else []).

Lemma RELATIVE_RE_text neg ds u day :
  ds ≠ [] → forallb is_digit ds = true →
  RELATIVE_RE (relative_text neg ds u day) = Some (MkRelative (Some (neg, ds, u)) day).
Proof.
  intros Hne Hd. unfold relative_text, RELATIVE_RE. lits. cbn [app starts_with drop negb].
  rewrite !N.eqb_refl. cbn [andb negb drop].
  destruct (digits_split ds (unit_char u) (if day then [SLASH; 100%N] else []) Hd (unit_not_digit u)) as [-> ->].
  destruct ds as [|d ds]; [done|]. rewrite unit_of_char. by destruct neg, day.
Qed.

Lemma RELATIVE_RE_some e m :
  RELATIVE_RE e = Some m →
  (∃ neg ds u, rel_offset m = Some (neg, ds, u) ∧ ds ≠ [] ∧ forallb is_digit ds = true ∧ e = relative_text neg ds u (rel_day m))
  ∨ (rel_offset m = None ∧ e = $"now" ++ (if rel_day m then $"/d" else [])).
Proof.
  unfold RELATIVE_RE. destruct (starts_with $"now" e) eqn:Hs; [|done]. cbn [negb].
  assert (e = $"now" ++ drop 3 e) as He.
  { revert Hs. lits. destruct e as [|a [|b [|c e]]]; cbn [starts_with]; intros; btrue; try done. by subst. }
  revert He. generalize (drop 3 e). intros r ->. clear Hs.
  assert (∀ s b, rel_suffix s = Some b → s = if b then $"/d" else []) as Hsuf.
  { unfold rel_suffix. intros s b. repeat case_decide; intros; by simplify_eq. }
  destruct r as [|c r]; [intros [= <-]; by right|].
  destruct ((c =? PLUS)%N || (c =? MINUS)%N) eqn:Hc.
  - destruct (take_while is_digit r) as [|d ds] eqn:Et; [done|].
    destruct (drop_while is_digit r) as [|u suf] eqn:Ed; [done|].
    destruct (unit_of u) as [u'|] eqn:Eu; [|done]. destruct (rel_suffix suf) as [day|] eqn:Es; [|done].
    intros [= <-]. left. exists (c =? MINUS)%N, (d :: ds), u'. cbn [rel_offset rel_day].
    pose proof (take_while_all is_digit r) as Ha. rewrite Et in Ha.
    split_and!; [done|done|by apply List.forallb_forall, List.Forall_forall|].
    unfold relative_text. rewrite <- (take_drop_while is_digit r), Et, Ed.
    apply unit_of_some in Eu as ->. apply Hsuf in Es as ->. do 2 f_equal.
    destruct (N.eqb_spec c MINUS); [done|]. simpl in Hc. rewrite orb_false_r in Hc. by apply N.eqb_eq in Hc.
  - destruct (rel_suffix (c :: r)) as [day|] eqn:Es; [|done]. intros [= <-]. right. cbn. split; [done|].
    by rewrite (Hsuf _ _ Es).
Qed.

(** * Trimming *)

Lemma unit_not_space u : is_space (unit_char u) = false.
Proof. by destruct u. Qed.

Lemma trim_relative neg ds u day : trim (relative_text neg ds u day) = relative_text neg ds u day.
Proof.
  assert (∃ c' r', rev (relative_text neg ds u day) = c' :: r' ∧ is_space c' = false) as (c' & r' & Hr & Hc').
  { unfold relative_text. destruct day.
    - exists 100%N, (rev ($"now" ++ (if neg then MINUS else PLUS) :: ds ++ [unit_char u; SLASH])). split; [|done].
      rewrite <- (rev_unit _ 100%N). f_equal. lits. cbn [app]. rewrite <- !app_assoc. reflexivity.
    - exists (unit_char u), (rev ($"now" ++ (if neg then MINUS else PLUS) :: ds)). split; [|apply unit_not_space].
      rewrite <- (rev_unit _ (unit_char u)). reflexivity. }
  eapply (trim_id _ 110%N); [reflexivity|done|exact Hr|done].
Qed.

(** * Resolving *)

Section resolve.
Context `{TimeZones}.

(** The instant of an offset, before rounding. *)
Definition shifted (neg : bool) (ds : jsstr) (u : TimeUnit) (now : Z) : Z :=
  let delta := Z.of_N (digits_val ds) * UNIT_MS u in if neg then now - delta else now + delta.

Lemma resolve_relative_text neg ds u day now tz :
  ds ≠ [] → forallb is_digit ds = true →
  resolveExpr (relative_text neg ds u day) now tz =
    Ok (if day then (start_of_day tz (shifted neg ds u now) ≫= time_clip) else time_clip (shifted neg ds u now)).
Proof.
  intros Hne Hd. unfold resolveExpr. rewrite trim_relative, RELATIVE_RE_text by done. cbn [rel_offset rel_day].
  destruct day; [|done]. fold (shifted neg ds u now). by destruct (start_of_day tz (shifted neg ds u now)).
Qed.

Lemma resolve_now now tz : resolveExpr $"now" now tz = Ok (time_clip now).
Proof. reflexivity. Qed.

Lemma isRelative_resolves e now tz : isRelative e = true → ∃ d, resolveExpr e now tz = Ok d.
Proof. unfold isRelative, resolveExpr. destruct (RELATIVE_RE (trim e)); [|done]. by eexists. Qed.

Lemma resolveRange_ok from to now tz r :
  resolveRange from to now tz = Ok r ↔
  resolveExpr from now tz = Ok (r_start r) ∧ resolveExpr to now tz = Ok (r_end r)
  ∧ (∀ s e, r_start r = Some s → r_end r = Some e → s < e).
Proof.
  unfold resolveRange. destruct (resolveExpr from now tz) as [s|]; simpl; [|naive_solver].
  destruct (resolveExpr to now tz) as [e|]; simpl; [|naive_solver]. split.
  - unfold time_ge. intros Hr. assert (r = MkResolved s e) as -> by (repeat case_match; congruence). simpl.
    split_and!; [done..|]. intros s' e' -> ->. case_match eqn:E; [done|]. apply Z.leb_gt in E. lia.
  - destruct r as [s' e']. simpl. intros ([= <-] & [= <-] & Hlt). unfold time_ge.
    destruct s as [s|], e as [e|]; try done. specialize (Hlt s e eq_refl eq_refl).
    by replace (e <=? s) with false by lia.
Qed.

Lemma iso_string_ends t : ∃ r, iso_string t = r ++ $"Z".
Proof. unfold iso_string. destruct (civil_of_days _) as [[y m] d]. eexists. rewrite !app_assoc. reflexivity. Qed.

Lemma iso_string_head t : 0 <= year_of t <= 9999 → ∃ c r, iso_string t = c :: r ∧ is_digit c = true.
Proof.
  intros Hy. pose proof (iso_parse_string t Hy) as Hp. unfold iso_parse, take_digits in Hp.
  destruct (iso_string t) as [|c r]; [done|]. exists c, r. split; [done|].
  destruct (forallb is_digit (take 4 (c :: r))) eqn:E; [|by rewrite andb_false_r in Hp].
  cbn in E. by apply andb_prop in E as [E _].
Qed.

Lemma trim_iso t : 0 <= year_of t <= 9999 → trim (iso_string t) = iso_string t.
Proof.
  intros Hy. destruct (iso_string_head t Hy) as (c & r & E & Hc), (iso_string_ends t) as [k Ek].
  eapply (trim_id _ c r 90%N (rev k)); [done| |rewrite Ek; lits; by rewrite rev_unit|done].
  unfold is_digit, in_range, is_space in *. btrue. units.
Qed.

Lemma relative_iso t : 0 <= year_of t <= 9999 → RELATIVE_RE (iso_string t) = None.
Proof.
  intros Hy. destruct (iso_string_head t Hy) as (c & r & -> & Hc). unfold RELATIVE_RE. lits. cbn [starts_with].
  replace (110 =? c)%N with false; [done|]. unfold is_digit, in_range in Hc. btrue. units.
Qed.

Lemma rfc3339_iso t : 0 <= year_of t <= 9999 → RFC3339_RE (iso_string t) = true.
Proof.
  intros Hy. unfold year_of, iso_string in *. pose proof (civil_of_days_spec (t / msPerDay)) as Hc.
  destruct (civil_of_days (t / msPerDay)) as [[y m] d]. destruct Hc as (_ & Hm & Hd).
  pose proof (Z.mod_pos_bound t msPerDay ltac:(done)) as Hr. set (r := t mod msPerDay) in *.
  unfold iso_year. replace ((0 <=? y) && (y <=? 9999)) with true by lia.
  assert (0 <= r / 3600000 <= 23) as Hh by (unfold msPerDay in Hr; Z.to_euclidean_division_equations; lia).
  assert (0 <= r / 60000 mod 60 <= 59) as Hmi by (Z.to_euclidean_division_equations; lia).
  assert (0 <= r / 1000 mod 60 <= 59) as Hsec by (Z.to_euclidean_division_equations; lia).
  assert (0 <= r mod 1000 <= 999) as Hms by (Z.to_euclidean_division_equations; lia).
  assert (days_in_month y m <= 31) as H31 by (unfold days_in_month; repeat case_match; lia).
  revert Hh Hmi Hsec Hms. generalize (r / 3600000) (r / 60000 mod 60) (r / 1000 mod 60) (r mod 1000).
  intros h mi sec ms Hh Hmi Hsec Hms. lits. cbn [app]. unfold RFC3339_RE, pad2, pad3.
  do 6 (rewrite take_digits_pad by (simpl; lia); simpl).
  destruct (digits_split (pad_left 3 (dec (Z.to_N ms))) 90%N [] (pad_left_digits _ _) eq_refl) as [-> ->].
  assert (truthy (pad_left 3 (dec (Z.to_N ms))) = true) as ->; [|done].
  pose proof (dec_nonempty (Z.to_N ms)) as Hne. unfold pad_left. by destruct (replicate _ _), (dec (Z.to_N ms)).
Qed.

Lemma resolve_iso t now tz : 0 <= year_of t <= 9999 → resolveExpr (iso_string t) now tz = Ok (Some t).
Proof.
  intros Hy. unfold resolveExpr. rewrite trim_iso, relative_iso, rfc3339_iso by done.
  unfold date_parse. by rewrite iso_parse_string.
Qed.
End resolve.

Lemma relative_shape e m : RELATIVE_RE e = Some m → trim e = e.
Proof.
  intros [(neg & ds & u & _ & _ & _ & ->)|(_ & ->)]%RELATIVE_RE_some; [apply trim_relative|].
  by destruct (rel_day m).
Qed.

Lemma relative_branch s e :
  match RELATIVE_RE s with
  | Some _ => if decide (s = $"now") then None else Some s
  | None => None
  end = Some e → isRelative e = true.
Proof.
  destruct (RELATIVE_RE s) as [m|] eqn:E; [|done]. case_decide; [done|]. intros [= <-].
  unfold isRelative. rewrite (relative_shape s m E). by rewrite E.
Qed.

(** * Zooming out *)

Lemma year_clip t : 0 <= year_of t <= 9999 → time_clip t = Some t.
Proof.
  unfold year_of. pose proof (civil_of_days_spec (t / msPerDay)) as Hc.
  destruct (civil_of_days (t / msPerDay)) as [[y m] d]. intros Hy. destruct Hc as (Hdays & Hm & Hd).
  assert (days_in_month y m <= 31) as H31 by (unfold days_in_month; repeat case_match; lia).
  assert (-800000 <= t / msPerDay <= 4000000) as Hb.
  { rewrite <- Hdays. unfold days_of_civil. destruct (m <=? 2); Z.to_euclidean_division_equations; lia. }
  unfold time_clip, max_time, msPerDay in *. replace (Z.abs t <=? 8640000000000000) with true; [done|].
  Z.to_euclidean_division_equations; lia.
Qed.

Lemma zoom_relative `{TimeZones} n now tz :
  0 <= n → Z.abs (now - n * 1000) <= max_time →
  resolveExpr ($"now-" ++ decz n ++ $"s") now tz = Ok (Some (now - n * 1000)).
Proof.
  intros Hn Hc. assert (decz n = dec (Z.to_N n)) as -> by (destruct n; done || lia).
  change ($"now-" ++ dec (Z.to_N n) ++ $"s") with (relative_text true (dec (Z.to_N n)) unit_s false).
  rewrite resolve_relative_text by (apply dec_nonempty || apply dec_digits).
  unfold shifted. rewrite dec_val, Z2N.id by lia. unfold time_clip. simpl. by replace (_ <=? _) with true by lia.
Qed.

Lemma zoomOut_value `{TimeZones} from to now tz s e :
  resolveRange from to now tz = Ok (MkResolved (Some s) (Some e)) →
  let s1 := Z.quot (2 * s - (e - s)) 2 in
  let e1 := Z.quot (2 * e + (e - s)) 2 in
  time_clip s1 = Some s1 → time_clip e1 = Some e1 →
  zoomOut from to now tz =
    if (now <? e1) && bool_decide (to = $"now")
    then Ok ($"now-" ++ decz (((e - s) * 2 + 500) / 1000) ++ $"s", $"now")
    else Ok (iso_string s1, iso_string (Z.min e1 now)).
Proof.
  intros Hr s1 e1 E1 E2. unfold zoomOut. rewrite Hr. cbn [mbind result_bind r_start r_end]. unfold time_clip_half.
  fold s1 e1. rewrite E1, E2. cbn [time_gt].
  destruct (now <? e1) eqn:Eg; cbn [andb]; [case_bool_decide; [done|]|]; simpl;
    [replace (Z.min e1 now) with now by lia|replace (Z.min e1 now) with e1 by lia]; done.
Qed.

(** * Claims *)

(** The zone [tz] is [off] milliseconds ahead of UTC at the instant [t] and at the midnight
    that began its local day: the date the library gives for [t] is that of the shifted
    clock, and the time it gives for that midnight (of a year that is not taken for one of
    the twentieth century) is shifted back. *)
Definition steady `{TimeZones} (tz : jsstr) (off t : Z) : Prop :=
  let '(y, m, d) := civil_of_days ((t + off) / msPerDay) in
  tz_date tz t = Some (y, m - 1, d)
  ∧ (100 <= y → tz_time tz y (m - 1) d 0 0 0 = time_clip (days_of_civil y m d * msPerDay - off)).

Lemma start_of_steady_day `{TimeZones} tz off t :
  steady tz off t → 100 <= year_of (t + off) → time_clip t = Some t → start_of_day tz t = time_clip (t - (t + off) mod msPerDay).
Proof.
  unfold steady, start_of_day, year_of. pose proof (civil_of_days_spec ((t + off) / msPerDay)) as Hc.
  destruct (civil_of_days ((t + off) / msPerDay)) as [[y m] d]. destruct Hc as (Hc & _). intros [Ed Et] Hy ->. cbn.
  rewrite Ed. cbn. rewrite Et, Hc by done. f_equal. pose proof (Z.div_mod (t + off) msPerDay ltac:(done)). lia.
Qed.
Lemma time_clip_idem t s : time_clip t = Some s → time_clip s = Some s.
Proof. unfold time_clip. case_match eqn:E; [|done]. intros [= <-]. by rewrite E. Qed.

(** C37: a relative expression means its offset.  [now-<n><unit>] and
    [now+<n><unit>] resolve, for any digits and any unit, to the instant that
    many milliseconds away, as a date (an invalid one when it is out of the
    range of dates).  With [/d] they resolve to what the time zone library gives for
    midnight of the local date of that instant; where the zone keeps its distance to UTC
    from that midnight to the instant, and from the year 100 on, this is the last
    local midnight at or before the instant, less than a day before it. *)
Theorem resolve_relative `{TimeZones} neg ds u now tz :
  ds ≠ [] → forallb is_digit ds = true →
  let t := shifted neg ds u now in
  resolveExpr (relative_text neg ds u false) now tz = Ok (time_clip t)
  ∧ resolveExpr (relative_text neg ds u true) now tz = Ok (start_of_day tz t ≫= time_clip)
  ∧ (∀ off, steady tz off t → 100 <= year_of (t + off) → Z.abs t <= max_time →
       let s := t - (t + off) mod msPerDay in
       resolveExpr (relative_text neg ds u true) now tz = Ok (time_clip s)
       ∧ s <= t < s + msPerDay ∧ (s + off) mod msPerDay = 0).
Proof.
  intros Hne Hd t. split_and!; [by apply (resolve_relative_text neg ds u false)|by apply (resolve_relative_text neg ds u true)|].
  intros off Hs Hy Ht s. assert (time_clip t = Some t) as Ec by (unfold time_clip; by rewrite (proj2 (Z.leb_le _ _) Ht)).
  rewrite (resolve_relative_text neg ds u true) by done. fold t. rewrite (start_of_steady_day tz off t) by done. fold s. split_and!.
  - destruct (time_clip s) as [s'|] eqn:E; [|done]. cbn. by rewrite (time_clip_idem _ _ E).
  - subst s. pose proof (Z.mod_pos_bound (t + off) msPerDay ltac:(done)). lia.
  - subst s. pose proof (Z.mod_pos_bound (t + off) msPerDay ltac:(done)). lia.
  - subst s. replace (t - (t + off) mod msPerDay + off) with ((t + off) / msPerDay * msPerDay) by (pose proof (Z.div_mod (t + off) msPerDay ltac:(done)); lia).
    by apply Z.mod_mul.
Qed.

(** In UTC the distance is always zero. *)
Lemma utc_steady tz t : steady (H := utc_zones) tz 0 t.
Proof.
  unfold steady. cbn [tz_date tz_time utc_zones]. rewrite Z.add_0_r. destruct (civil_of_days (t / msPerDay)) as [[y m] d]. split; [done|].
  intros Hy. unfold full_year. replace (y <=? 99) with false by lia. rewrite andb_false_r. f_equal.
  replace (m - 1 + 1) with m by lia. lia.
Qed.

Lemma resolve_relative_witness :
  resolveExpr (H := utc_zones) $"now-7d" 1789380000000 $"UTC" = Ok (Some 1788775200000)
  ∧ resolveExpr (H := utc_zones) $"now-7d/d" 1789380000000 $"UTC" = Ok (Some 1788739200000).
Proof.
  destruct (resolve_relative (H := utc_zones) true $"7" unit_d 1789380000000 $"UTC") as (E1 & _ & E2); [done|done|].
  split; [exact E1|]. destruct (E2 0 (utc_steady _ _)) as [E3 _]; [vm_compute; discriminate|vm_compute; discriminate|exact E3].
Defined.
(** A day of the first century is taken for one of the twentieth. *)
Example first_century_day : resolveExpr (H := utc_zones) $"now-102000w/d" 1789380000000 $"UTC" = Ok (Some 57888000000).
Proof. vm_compute. reflexivity. Qed.

(** A resolved range is the two expressions' dates, and in order: a range
    is accepted exactly when both expressions resolve and the start is not at
    or after the end (an invalid date, from an offset beyond the range of
    dates, compares with nothing). *)
Theorem resolveRange_spec `{TimeZones} from to now tz r :
  resolveRange from to now tz = Ok r ↔
  resolveExpr from now tz = Ok (r_start r) ∧ resolveExpr to now tz = Ok (r_end r)
  ∧ (∀ s e, r_start r = Some s → r_end r = Some e → s < e).
Proof. apply resolveRange_ok. Qed.

(** An offset beyond the range of dates resolves to an invalid date without an
    error, and the order check passes. *)
Lemma resolve_out_of_range `{TimeZones} :
  resolveRange $"now-999999999d" $"now" 1789380000000 $"UTC" = Ok (MkResolved None (Some 1789380000000)).
Proof. reflexivity. Qed.

(** Quick input.  What the time picker makes of typed input is a relative
    expression, so resolving it never throws; and the short form [<n><unit>],
    with blanks around and before the unit, in any case, means the last [n]
    units for every positive [n]. *)
Theorem parseQuickInput_resolves `{TimeZones} input e now tz :
  parseQuickInput input = Some e →
  isRelative e = true ∧ (∃ d, resolveExpr e now tz = Ok d)
  ∧ (∀ ds u, SHORT_RE (to_lower (trim input)) = Some (ds, u) → (0 < digits_val ds)%N →
       resolveExpr e now tz = Ok (time_clip (now - Z.of_N (digits_val ds) * UNIT_MS u))).
Proof.
  intros Hq. assert (∀ ds u, SHORT_RE (to_lower (trim input)) = Some (ds, u) → ds ≠ [] ∧ forallb is_digit ds = true) as Hshort.
  { unfold SHORT_RE. intros ds u. destruct (take_while is_digit _) as [|d ds'] eqn:Et; [done|].
    pose proof (take_while_all is_digit (to_lower (trim input))) as Ha. rewrite Et in Ha.
    repeat case_match; try done. intros [= <- <-]. split; [done|]. by apply List.forallb_forall, List.Forall_forall. }
  assert (∀ ds u, SHORT_RE (to_lower (trim input)) = Some (ds, u) → (0 < digits_val ds)%N → e = relative_text true ds u false) as He.
  { intros ds u Es Hpos. unfold parseQuickInput in Hq. rewrite Es in Hq. apply N.ltb_lt in Hpos. rewrite Hpos in Hq.
    injection Hq as <-. reflexivity. }
  assert (isRelative e = true) as Hrel.
  { unfold parseQuickInput in Hq. destruct (SHORT_RE (to_lower (trim input))) as [[ds u]|] eqn:Es.
    - destruct (0 <? digits_val ds)%N eqn:Ep.
      + apply N.ltb_lt in Ep. rewrite (He ds u eq_refl Ep). destruct (Hshort ds u eq_refl) as [? ?].
        unfold isRelative. by rewrite trim_relative, RELATIVE_RE_text.
      + by apply relative_branch in Hq.
    - by apply relative_branch in Hq. }
  split_and!; [done|by apply isRelative_resolves|]. intros ds u Es Hpos. destruct (Hshort ds u Es) as [? ?].
  rewrite (He ds u Es Hpos). by apply (resolve_relative_text true ds u false).
Qed.

Lemma parseQuickInput_resolves_witness :
  parseQuickInput $" 15 M " = Some $"now-15m"
  ∧ resolveExpr (H := utc_zones) $"now-15m" 1789380000000 $"UTC" = Ok (Some 1789379100000).
Proof.
  split; [vm_compute; reflexivity|].
  apply (parseQuickInput_resolves (H := utc_zones) $" 15 M " $"now-15m" 1789380000000 $"UTC") with (ds := $"15") (u := unit_m);
    vm_compute; reflexivity.
Defined.

(** Zooming out.  For a range of at least a quarter of a second that
    starts before now, the new range always resolves: it starts no later than
    the old one, ends no earlier (or at the current time, where it is cut off),
    and, unless cut off, is twice as long: to the millisecond for dates, to
    half a second for the relative form that a range up to [now] keeps. *)
Theorem zoomOut_spec `{TimeZones} from to now tz s e :
  resolveRange from to now tz = Ok (MkResolved (Some s) (Some e)) →
  s < now → 250 <= e - s → Z.abs now <= max_time → - max_time <= now - 2 * (e - s) - 500 →
  let s1 := Z.quot (2 * s - (e - s)) 2 in
  let e1 := Z.quot (2 * e + (e - s)) 2 in
  e1 <= max_time → 0 <= year_of s1 <= 9999 → 0 <= year_of (Z.min e1 now) <= 9999 →
  ∃ from' to' s' e',
    zoomOut from to now tz = Ok (from', to')
    ∧ resolveRange from' to' now tz = Ok (MkResolved (Some s') (Some e'))
    ∧ s' <= s ∧ Z.min e now <= e' <= Z.max e1 now
    ∧ (to = $"now" → to' = $"now" ∧ e' = now ∧ Z.abs (e' - s' - 2 * (e - s)) <= 500)
    ∧ (to ≠ $"now" → e1 <= now → Z.abs (e' - s' - 2 * (e - s)) <= 1).
Proof.
  intros Hr Hnow Hdur Hcn Hfar s1 e1 He1 Hy1 Hy2.
  assert (s1 <= s ∧ e <= e1 ∧ Z.abs (e1 - s1 - 2 * (e - s)) <= 1) as (Hs1 & Hee & Hlen)
    by (subst s1 e1; Z.to_euclidean_division_equations; lia).
  assert (time_clip e1 = Some e1) as Ec.
  { unfold time_clip. replace (Z.abs e1 <=? max_time) with true; [done|]. symmetry. apply Z.leb_le.
    pose proof (year_clip (Z.min e1 now) Hy2) as E. unfold time_clip in E. case_match eqn:E'; [|done].
    apply Z.leb_le in E'. lia. }
  pose proof (zoomOut_value from to now tz s e Hr (year_clip s1 Hy1) Ec) as Ez. fold s1 e1 in Ez.
  apply resolveRange_ok in Hr as (_ & Hto & _). cbn [r_end] in Hto.
  destruct (decide (to = $"now")) as [->|Hne].
  - rewrite resolve_now in Hto. assert (e = now) as ->.
    { unfold time_clip in Hto. replace (Z.abs now <=? max_time) with true in Hto by lia. congruence. }
    assert (now < e1) as Hgt by (subst s1 e1; Z.to_euclidean_division_equations; lia).
    set (n := ((now - s) * 2 + 500) / 1000) in *.
    assert (2 * (now - s) - 500 <= n * 1000 <= 2 * (now - s) + 500 ∧ now - s <= n * 1000) as [Hn1 Hn2]
      by (subst n; Z.to_euclidean_division_equations; lia).
    exists ($"now-" ++ decz n ++ $"s"), $"now", (now - n * 1000), now.
    split_and!; try done; try lia.
    + rewrite Ez. replace (now <? e1) with true by lia. by rewrite bool_decide_eq_true_2.
    + apply resolveRange_ok. cbn [r_start r_end]. split_and!; [apply zoom_relative; lia| |].
      * rewrite resolve_now. unfold time_clip. by replace (Z.abs now <=? max_time) with true by lia.
      * intros ? ? [= <-] [= <-]. lia.
    + intros _. split_and!; [done|done|lia].
  - exists (iso_string s1), (iso_string (Z.min e1 now)), s1, (Z.min e1 now). split_and!; try done; try lia.
    + rewrite Ez. rewrite (bool_decide_eq_false_2 (to = _)) by done. by rewrite andb_false_r.
    + apply resolveRange_ok. cbn [r_start r_end]. split_and!; [by apply resolve_iso..|].
      intros ? ? [= <-] [= <-]. lia.
Qed.

Lemma zoomOut_spec_witness :
  ∃ from' to' s' e',
    zoomOut (H := utc_zones) $"now-1h" $"now" 1789380000000 $"UTC" = Ok (from', to')
    ∧ resolveRange (H := utc_zones) from' to' 1789380000000 $"UTC" = Ok (MkResolved (Some s') (Some e')).
Proof.
  destruct (zoomOut_spec (H := utc_zones) $"now-1h" $"now" 1789380000000 $"UTC" 1789376400000 1789380000000)
    as (f & t & s & e & E1 & E2 & _); [vm_compute; done..|].
  by exists f, t, s, e.
Defined.
