(* ===== verification/Utf8.v ===== *)
(** UTF-8, as [TextEncoder], [TextDecoder] and [URLSearchParams] use it: the
    encoder of scalar values and the decoder of the Encoding Standard, which
    replaces malformed sequences by U+FFFD. *)
From Stdlib Require Import NArith Lia.
From stdpp Require Import base list numbers strings.
From S2P Require Import Prelude Unicode.
Open Scope N_scope.

Definition REPLACEMENT : N := 65533.

(** The bytes of a scalar value. *)
Definition utf8_encode_cp (c : N) : list N :=
  if c <? 128 then [c]
  else if c <? 2048 then [192 + c / 64; 128 + c mod 64]
  else if c <? 65536 then [224 + c / 4096; 128 + c / 64 mod 64; 128 + c mod 64]
  else [240 + c / 262144; 128 + c / 4096 mod 64; 128 + c / 64 mod 64; 128 + c mod 64].

(** A string's bytes; unpaired surrogates are encoded as U+FFFD. *)
Definition scalar_of (c : N) : N := if is_scalar c then c else REPLACEMENT.
Definition utf8_encode (s : jsstr) : list N := (scalar_of <$> code_points s) ≫= utf8_encode_cp.

(** The decoder's state inside a sequence: the bits so far, how many bytes are
    missing, and the range the next one must be in. *)
Record decoder := MkDecoder { d_cp : N; d_needed : nat; d_lo : N; d_hi : N }.

(** A byte at the start of a sequence: what is emitted and the state after. *)
Definition lead (b : N) : list N * option decoder :=
  if b <? 128 then ([b], None)
  else if in_range 194 223 b then ([], Some (MkDecoder (b - 192) 1 128 191))
  else if in_range 224 239 b
  then ([], Some (MkDecoder (b - 224) 2 (if b =? 224 then 160 else 128) (if b =? 237 then 159 else 191)))
  else if in_range 240 244 b
  then ([], Some (MkDecoder (b - 240) 3 (if b =? 240 then 144 else 128) (if b =? 244 then 143 else 191)))
  else ([REPLACEMENT], None).

Fixpoint utf8_decode_from (st : option decoder) (bs : list N) : list N :=
  match bs with
  | [] => match st with Some _ => [REPLACEMENT] | None => [] end
  | b :: r =>
      match st with
      | None => let '(out, st') := lead b in out ++ utf8_decode_from st' r
      | Some d =>
          if in_range (d_lo d) (d_hi d) b
          then
            let cp := d_cp d * 64 + (b - 128) in
            match d_needed d with
            | S (S n) => utf8_decode_from (Some (MkDecoder cp (S n) 128 191)) r
            | _ => cp :: utf8_decode_from None r
            end
          else let '(out, st') := lead b in REPLACEMENT :: out ++ utf8_decode_from st' r
      end
  end.

Definition utf8_decode (bs : list N) : jsstr := code_units (utf8_decode_from None bs).

(** [new TextDecoder().decode(bytes)]: a leading byte-order mark is dropped. *)
Definition text_decode (bs : list N) : jsstr :=
  if starts_with [239; 187; 191] bs then utf8_decode (drop 3 bs) else utf8_decode bs.

Example utf8_ex :
  utf8_encode $"aé€😀" = [97; 195; 169; 226; 130; 172; 240; 159; 152; 128]
  ∧ utf8_decode [97; 195; 169; 226; 130; 172; 240; 159; 152; 128] = $"aé€😀"
  ∧ utf8_decode [226; 130; 97; 255; 237; 160; 128] = [65533; 97; 65533; 65533; 65533; 65533].
Proof. vm_compute. done. Qed.

(** * Round trip *)

Lemma in_range_true lo hi b : lo <= b <= hi → in_range lo hi b = true.
Proof. unfold in_range. intros [? ?]. apply andb_true_intro. split; by apply N.leb_le. Qed.
Lemma in_range_false lo hi b : b < lo ∨ hi < b → in_range lo hi b = false.
Proof. unfold in_range. intros [?|?]; apply andb_false_iff; [left|right]; by apply N.leb_gt. Qed.

Lemma decode_cont d b r :
  d_lo d <= b <= d_hi d →
  utf8_decode_from (Some d) (b :: r) =
    match d_needed d with
    | S (S n) => utf8_decode_from (Some (MkDecoder (d_cp d * 64 + (b - 128)) (S n) 128 191)) r
    | _ => (d_cp d * 64 + (b - 128)) :: utf8_decode_from None r
    end.
Proof. intros Hb. cbn [utf8_decode_from]. by rewrite in_range_true. Qed.

Lemma lead2 b : 194 <= b <= 223 → lead b = ([], Some (MkDecoder (b - 192) 1 128 191)).
Proof. intros H. unfold lead. rewrite (proj2 (N.ltb_ge b 128)) by lia. by rewrite in_range_true. Qed.
Lemma lead3 b : 224 <= b <= 239 →
  lead b = ([], Some (MkDecoder (b - 224) 2 (if b =? 224 then 160 else 128) (if b =? 237 then 159 else 191))).
Proof.
  intros H. unfold lead. rewrite (proj2 (N.ltb_ge b 128)), in_range_false by lia. by rewrite in_range_true.
Qed.
Lemma lead4 b : 240 <= b <= 244 →
  lead b = ([], Some (MkDecoder (b - 240) 3 (if b =? 240 then 144 else 128) (if b =? 244 then 143 else 191))).
Proof.
  intros H. unfold lead. rewrite (proj2 (N.ltb_ge b 128)), !in_range_false by lia. by rewrite in_range_true.
Qed.

Ltac divmod := Z.to_euclidean_division_equations; lia.

Lemma decode_encode_cp c r :
  is_scalar c = true → utf8_decode_from None (utf8_encode_cp c ++ r) = c :: utf8_decode_from None r.
Proof.
  intros Hc. assert (c < 55296 ∨ 57344 <= c <= 1114111) as Hr.
  { unfold is_scalar, in_range in Hc. apply orb_prop in Hc as [Hc|Hc]; btrue; lia. }
  unfold utf8_encode_cp.
  destruct (N.ltb_spec c 128); [cbn [app utf8_decode_from]; unfold lead; by rewrite (proj2 (N.ltb_lt c 128))|].
  destruct (N.ltb_spec c 2048); [|destruct (N.ltb_spec c 65536)]; cbn [app].
  - cbn [utf8_decode_from]. rewrite lead2 by (zify; divmod). cbn [app].
    rewrite in_range_true by (simpl; zify; divmod). cbn. f_equal. zify; divmod.
  - cbn [utf8_decode_from]. rewrite lead3 by (zify; divmod). cbn [app d_lo d_hi].
    rewrite in_range_true.
    2:{ destruct (N.eqb_spec (224 + c / 4096) 224), (N.eqb_spec (224 + c / 4096) 237); zify; divmod. }
    cbn [d_needed d_cp d_lo d_hi]. rewrite in_range_true by (zify; divmod). f_equal. zify; divmod.
  - cbn [utf8_decode_from]. rewrite lead4 by (zify; divmod). cbn [app d_lo d_hi].
    rewrite in_range_true.
    2:{ destruct (N.eqb_spec (240 + c / 262144) 240), (N.eqb_spec (240 + c / 262144) 244); zify; divmod. }
    cbn [d_needed d_cp d_lo d_hi]. rewrite in_range_true by (zify; divmod).
    rewrite in_range_true by (zify; divmod). f_equal. zify; divmod.
Qed.

Lemma decode_encode_cps cps r :
  Forall (λ c, is_scalar c = true) cps →
  utf8_decode_from None ((cps ≫= utf8_encode_cp) ++ r) = cps ++ utf8_decode_from None r.
Proof.
  induction 1 as [|c cps Hc _ IH]; [done|]. rewrite bind_cons, <- app_assoc, decode_encode_cp by done.
  simpl. by rewrite IH.
Qed.

Lemma scalar_of_id cps : Forall (λ c, is_scalar c = true) cps → scalar_of <$> cps = cps.
Proof. induction 1 as [|c cps Hc _ IH]; [done|]. simpl. unfold scalar_of. rewrite Hc. by f_equal. Qed.

Lemma utf8_round_trip s : well_formed s = true → utf8_decode (utf8_encode s) = s.
Proof.
  intros Hw. pose proof (code_points_scalar s Hw) as Hs. unfold utf8_decode, utf8_encode.
  rewrite scalar_of_id by done. rewrite <- (app_nil_r (_ ≫= _)), decode_encode_cps by done.
  simpl. rewrite app_nil_r. by apply code_units_points.
Qed.

Lemma encode_cp_byte c : is_scalar c = true → Forall (λ b, b < 256) (utf8_encode_cp c).
Proof.
  intros Hc. assert (c <= 1114111) as Hr.
  { unfold is_scalar, in_range in Hc. apply orb_prop in Hc as [Hc|Hc]; btrue; lia. }
  unfold utf8_encode_cp. destruct (N.ltb_spec c 128); [|destruct (N.ltb_spec c 2048); [|destruct (N.ltb_spec c 65536)]];
    repeat (apply Forall_cons; split; [zify; divmod|]); by apply Forall_nil.
Qed.

Lemma scalar_of_scalar c : is_scalar (scalar_of c) = true.
Proof. unfold scalar_of. by destruct (is_scalar c) eqn:E. Qed.

Lemma utf8_encode_bytes s : Forall (λ b, b < 256) (utf8_encode s).
Proof.
  unfold utf8_encode. induction (code_points s) as [|c l IH]; [constructor|]. cbn. apply Forall_app.
  split; [apply encode_cp_byte, scalar_of_scalar|done].
Qed.

(** Only a leading U+FEFF encodes to a leading byte-order mark. *)
Lemma encode_no_bom s :
  well_formed s = true → head s ≠ Some 65279 → text_decode (utf8_encode s) = utf8_decode (utf8_encode s).
Proof.
  intros Hw Hh. pose proof (code_points_scalar s Hw) as Hs.
  unfold utf8_encode. rewrite scalar_of_id by done.
  assert (head (code_points s) ≠ Some 65279) as Hc.
  { destruct s as [|u [|v r]]; [done|done|]. simpl in *. destruct (is_high u && is_low v) eqn:E; [|done].
    simpl. intros [= H]. lia. }
  unfold text_decode. destruct (starts_with _ _) eqn:E; [|done]. exfalso.
  destruct (code_points s) as [|c l]; [done|]. apply Hc. simpl. f_equal.
  apply Forall_cons in Hs as [Hsc _]. rewrite bind_cons in E.
  pose proof (decode_encode_cp c (l ≫= utf8_encode_cp) Hsc) as Hd.
  destruct (utf8_encode_cp c ++ (l ≫= utf8_encode_cp)) as [|b0 [|b1 [|b2 r]]]; cbn [starts_with] in E; btrue; try done.
  subst. cbn in Hd. injection Hd as Hd _. by rewrite <- Hd.
Qed.
