(* ===== verification/Base64Url.v ===== *)
(** base64url text (src/frontend/src/lib/base64url.ts), over the platform's
    [btoa], [atob], [TextEncoder] and [TextDecoder]. *)
From Stdlib Require Import NArith Lia.
From stdpp Require Import base list numbers strings.
From S2P Require Import Prelude Unicode Utf8.
Open Scope N_scope.

(** * base64 *)

(** The character of a 6-bit value, and back. *)
Definition b64_char (v : N) : N :=
  if v <? 26 then 65 + v else if v <? 52 then 71 + v else if v <? 62 then v - 4 else if v =? 62 then PLUS else SLASH.
Definition b64_val (c : N) : option N :=
  if is_upper c then Some (c - 65)
  else if is_lower c then Some (c - 71)
  else if is_digit c then Some (c + 4)
  else if c =? PLUS then Some 62
  else if c =? SLASH then Some 63
  else None.

(** Bytes as 6-bit values, high bits first; the last value is filled with zeros. *)
Fixpoint sextets (bs : list N) : list N :=
  match bs with
  | b0 :: b1 :: b2 :: r => b0 / 4 :: b0 mod 4 * 16 + b1 / 16 :: b1 mod 16 * 4 + b2 / 64 :: b2 mod 64 :: sextets r
  | [b0; b1] => [b0 / 4; b0 mod 4 * 16 + b1 / 16; b1 mod 16 * 4]
  | [b0] => [b0 / 4; b0 mod 4 * 16]
  | [] => []
  end.

(** And back; left-over bits are discarded. *)
Fixpoint unsextets (vs : list N) : list N :=
  match vs with
  | v0 :: v1 :: v2 :: v3 :: r => v0 * 4 + v1 / 16 :: v1 mod 16 * 16 + v2 / 4 :: v2 mod 4 * 64 + v3 :: unsextets r
  | [v0; v1; v2] => [v0 * 4 + v1 / 16; v1 mod 16 * 16 + v2 / 4]
  | [v0; v1] => [v0 * 4 + v1 / 16]
  | _ => []
  end.

(** [btoa] of a string of bytes. *)
Definition btoa (bs : list N) : jsstr :=
  (b64_char <$> sextets bs) ++ replicate ((3 - length bs mod 3) mod 3) EQUALS.

Inductive Base64Error := InvalidCharacterError.

Definition ascii_space (c : N) : bool := (c =? 9) || (c =? 10) || (c =? 12) || (c =? 13) || (c =? 32).

(** At most two [=] at the end of a string whose length is a multiple of four. *)
Definition strip_pad (s : jsstr) : jsstr :=
  if (length s mod 4 =? 0)%nat
  then match rev s with
       | a :: b :: r => if a =? EQUALS then rev (if b =? EQUALS then r else b :: r) else s
       | _ => s
       end
  else s.

Fixpoint all_some {A} (l : list (option A)) : option (list A) :=
  match l with
  | [] => Some []
  | Some x :: r => match all_some r with Some xs => Some (x :: xs) | None => None end
  | None :: _ => None
  end.

(** [atob] *)
Definition atob (s : jsstr) : result Base64Error (list N) :=
  let s := strip_pad (List.filter (λ c, negb (ascii_space c)) s) in
  if (length s mod 4 =? 1)%nat then Err InvalidCharacterError
  else match all_some (b64_val <$> s) with
       | Some vs => Ok (unsextets vs)
       | None => Err InvalidCharacterError
       end.

(** * The codec *)

(** [s.replace(/=+$/, '')] *)
Definition strip_equals (s : jsstr) : jsstr := rev (drop_while (λ c, c =? EQUALS) (rev s)).

Definition encodeBase64Url (text : jsstr) : jsstr :=
  let bytes := utf8_encode text in
  strip_equals (replace_units (λ c, c =? SLASH) [UNDERSCORE] (replace_units (λ c, c =? PLUS) [MINUS] (btoa bytes))).

Definition decodeBase64Url (s : jsstr) : result Base64Error jsstr :=
  let b64 := replace_units (λ c, c =? UNDERSCORE) [SLASH] (replace_units (λ c, c =? MINUS) [PLUS] s)
             ++ drop ((length s + 3) mod 4) $"===" in
  bytes ← atob b64;
  Ok (text_decode bytes).

Example base64url_ex :
  encodeBase64Url $"a?>é" = $"YT8-w6k" ∧ decodeBase64Url $"YT8-w6k" = Ok $"a?>é"
  ∧ decodeBase64Url $"YT8-w" = Err InvalidCharacterError ∧ encodeBase64Url [] = [].
Proof. vm_compute. done. Qed.

(** * Round trip *)

Lemma sextets_ind (P : list N → Prop) :
  P [] → (∀ a, P [a]) → (∀ a b, P [a; b]) → (∀ a b c r, P r → P (a :: b :: c :: r)) → ∀ l, P l.
Proof.
  intros H0 H1 H2 H3. fix go 1. intros [|a [|b [|c r]]]; [exact H0|apply H1|apply H2|]. apply H3, go.
Qed.

Lemma unsextets_sextets bs : Forall (λ b, b < 256) bs → unsextets (sextets bs) = bs.
Proof.
  induction bs as [|a|a b|a b c r IH] using sextets_ind; intros Hf; [done| | |];
    repeat match goal with H : Forall _ (_ :: _) |- _ => apply Forall_cons in H as [? H] end;
    cbn [sextets unsextets]; rewrite ?IH by done; repeat f_equal; zify; divmod.
Qed.

Lemma sextets_small bs : Forall (λ b, b < 256) bs → Forall (λ v, v < 64) (sextets bs).
Proof.
  induction bs as [|a|a b|a b c r IH] using sextets_ind; intros Hf; [constructor| | |];
    repeat match goal with H : Forall _ (_ :: _) |- _ => apply Forall_cons in H as [? H] end;
    cbn [sextets]; repeat (apply Forall_cons; split; [zify; divmod|]); auto.
Qed.

Lemma sextets_length bs :
  (length (sextets bs) + (3 - length bs mod 3) mod 3)%nat = (4 * ((length bs + 2) / 3))%nat.
Proof.
  induction bs as [|a|a b|a b c r IH] using sextets_ind; [done..|]. cbn [sextets length].
  revert IH. generalize (length (sextets r)) (length r). intros x y IH.
  replace (S (S (S y))) with (y + 1 * 3)%nat by lia. rewrite Nat.Div0.mod_add.
  replace (y + 1 * 3 + 2)%nat with (y + 2 + 1 * 3)%nat by lia. rewrite Nat.div_add by done. lia.
Qed.

Lemma b64_val_char v : v < 64 → b64_val (b64_char v) = Some v.
Proof.
  intros Hv. unfold b64_char, b64_val, is_upper, is_lower, is_digit.
  destruct (N.ltb_spec v 26); [rewrite in_range_true by lia; f_equal; lia|].
  destruct (N.ltb_spec v 52); [rewrite in_range_false, in_range_true by lia; f_equal; lia|].
  destruct (N.ltb_spec v 62); [rewrite 2!in_range_false, in_range_true by lia; f_equal; lia|].
  destruct (N.eqb_spec v 62); [by subst|]. by replace v with 63 by lia.
Qed.

(** The url-safe alphabet. *)
Definition url_char (v : N) : N := if v =? 62 then MINUS else if v =? 63 then UNDERSCORE else b64_char v.
Definition is_url_unit (c : N) : bool := is_upper c || is_lower c || is_digit c || (c =? MINUS) || (c =? UNDERSCORE).

Lemma b64_char_alnum v : v < 62 → 48 <= b64_char v <= 57 ∨ 65 <= b64_char v <= 90 ∨ 97 <= b64_char v <= 122.
Proof.
  intros Hv. unfold b64_char. destruct (N.ltb_spec v 26); [lia|]. destruct (N.ltb_spec v 52); [lia|].
  destruct (N.ltb_spec v 62); lia.
Qed.

Lemma url_char_range v : v < 64 → is_url_unit (url_char v) = true.
Proof.
  intros Hv. unfold url_char, is_url_unit. destruct (N.eqb_spec v 62); [done|]. destruct (N.eqb_spec v 63); [done|].
  destruct (b64_char_alnum v) as [H|[H|H]]; [lia| | |]; unfold is_upper, is_lower, is_digit;
    rewrite (in_range_true _ _ _ H), ?orb_true_r; done.
Qed.

Lemma replace_units_map p x s : replace_units p [x] s = (λ c, if p c then x else c) <$> s.
Proof.
  unfold replace_units. induction s as [|c s IH]; [done|]. rewrite bind_cons, fmap_cons, <- IH. by destruct (p c).
Qed.

Lemma to_url_alphabet vs k :
  Forall (λ v, v < 64) vs →
  replace_units (λ c, c =? SLASH) [UNDERSCORE]
    (replace_units (λ c, c =? PLUS) [MINUS] ((b64_char <$> vs) ++ replicate k EQUALS))
  = (url_char <$> vs) ++ replicate k EQUALS.
Proof.
  intros Hvs. rewrite !replace_units_map, !fmap_app, !fmap_replicate. f_equal.
  induction Hvs as [|v vs Hv _ IH]; [done|]. cbn [fmap list_fmap] in *. f_equal; [|done].
  unfold url_char. destruct (N.eqb_spec v 62); [by subst|]. destruct (N.eqb_spec v 63); [by subst|].
  destruct (b64_char_alnum v ltac:(lia)) as [H|[H|H]];
    rewrite (proj2 (N.eqb_neq (b64_char v) PLUS)), (proj2 (N.eqb_neq (b64_char v) SLASH)) by lia; done.
Qed.

Lemma from_url_alphabet vs :
  Forall (λ v, v < 64) vs →
  replace_units (λ c, c =? UNDERSCORE) [SLASH] (replace_units (λ c, c =? MINUS) [PLUS] (url_char <$> vs)) = b64_char <$> vs.
Proof.
  intros Hvs. rewrite !replace_units_map. induction Hvs as [|v vs Hv _ IH]; [done|].
  cbn [fmap list_fmap] in *. f_equal; [|done].
  unfold url_char. destruct (N.eqb_spec v 62); [by subst|]. destruct (N.eqb_spec v 63); [by subst|].
  destruct (b64_char_alnum v ltac:(lia)) as [H|[H|H]];
    rewrite (proj2 (N.eqb_neq (b64_char v) MINUS)), (proj2 (N.eqb_neq (b64_char v) UNDERSCORE)) by lia; done.
Qed.

Lemma strip_equals_pad s k :
  Forall (λ c, (c =? EQUALS) = false) s → strip_equals (s ++ replicate k EQUALS) = s.
Proof.
  intros Hs. unfold strip_equals. rewrite rev_app_distr. rewrite drop_while_app; [apply rev_involutive| |].
  - apply Forall_rev. by apply Forall_replicate.
  - intros x r E. apply Forall_rev in Hs. rewrite E in Hs. by apply Forall_cons in Hs as [? _].
Qed.

Lemma b64_char_plain v : v < 64 → ascii_space (b64_char v) = false ∧ (b64_char v =? EQUALS) = false.
Proof.
  intros Hv. destruct (decide (v < 62)) as [Hlt|Hge].
  - destruct (b64_char_alnum v Hlt) as [H|[H|H]]; unfold ascii_space;
      rewrite !(proj2 (N.eqb_neq (b64_char v) _)) by lia; done.
  - destruct (decide (v = 62)) as [->|]; [done|]. by replace v with 63 by lia.
Qed.

Lemma filter_plain s : Forall (λ c, ascii_space c = false) s → List.filter (λ c, negb (ascii_space c)) s = s.
Proof. induction 1 as [|c s Hc _ IH]; [done|]. simpl. rewrite Hc. simpl. by f_equal. Qed.

Lemma all_some_vals vs : Forall (λ v, v < 64) vs → all_some (b64_val <$> (b64_char <$> vs)) = Some vs.
Proof. induction 1 as [|v vs Hv _ IH]; [done|]. cbn. rewrite b64_val_char by done. cbn in IH. by rewrite IH. Qed.

(** The padding of [n] characters. *)
Lemma pad_of n k m : (n + k = 4 * m)%nat → (k < 3)%nat → drop ((n + 3) mod 4) $"===" = replicate k EQUALS.
Proof.
  intros E Hk. assert (∃ q, n = (q * 4 + (4 - k) mod 4)%nat) as [q ->].
  { destruct k as [|[|[|k]]]; [exists m|exists (m - 1)%nat|exists (m - 1)%nat|]; simpl; lia. }
  rewrite <- Nat.add_assoc, Nat.add_comm, Nat.Div0.mod_add. by destruct k as [|[|[|k]]]; [| | |lia].
Qed.

Lemma strip_pad_pad s k m :
  (length s + k = 4 * m)%nat → (k < 3)%nat → Forall (λ c, (c =? EQUALS) = false) s →
  strip_pad (s ++ replicate k EQUALS) = s.
Proof.
  intros E Hk Hs. unfold strip_pad. rewrite length_app, length_replicate, E.
  replace (4 * m)%nat with (0 + m * 4)%nat by lia. rewrite Nat.Div0.mod_add. cbn [Nat.modulo Nat.divmod Nat.eqb fst snd Nat.sub].
  apply Forall_rev in Hs. rewrite rev_app_distr. destruct k as [|[|[|k]]]; [| | |lia].
  - simpl. rewrite app_nil_r. destruct (rev s) as [|a [|b r]] eqn:Er; [done|done|].
    apply Forall_cons in Hs as [-> _]. done.
  - simpl. destruct (rev s) as [|b r] eqn:Er; [apply (f_equal (@length N)) in Er; rewrite length_rev in Er; simpl in Er; lia|].
    apply Forall_cons in Hs as [-> _]. rewrite <- Er. apply rev_involutive.
  - simpl. apply rev_involutive.
Qed.

Lemma atob_btoa bs : Forall (λ b, b < 256) bs → atob (btoa bs) = Ok bs.
Proof.
  intros Hb. pose proof (sextets_small bs Hb) as Hv. pose proof (sextets_length bs) as Hl.
  pose proof (Nat.mod_upper_bound (3 - length bs mod 3) 3 ltac:(done)) as Hk. unfold btoa, atob.
  set (k := ((3 - length bs mod 3) mod 3)%nat) in *. set (vs := sextets bs) in *.
  assert (Forall (λ c, ascii_space c = false ∧ (c =? EQUALS) = false) (b64_char <$> vs)) as Hplain.
  { apply Forall_fmap. eapply Forall_impl; [exact Hv|]. intros v. apply b64_char_plain. }
  rewrite filter_plain.
  2:{ apply Forall_app. split; [by eapply Forall_impl; [exact Hplain|]; intros ? []|by apply Forall_replicate]. }
  rewrite (strip_pad_pad _ _ ((length bs + 2) / 3)); [|by rewrite length_fmap|done|by eapply Forall_impl; [exact Hplain|]; intros ? []].
  rewrite length_fmap, all_some_vals by done.
  replace (length vs mod 4 =? 1)%nat with false; [unfold vs; by rewrite unsextets_sextets|].
  symmetry. apply Nat.eqb_neq. revert Hl Hk. generalize (length vs), ((length bs + 2) / 3)%nat. clearbody k. clear.
  intros n m E Hk Hmod. pose proof (Nat.div_mod_eq n 4) as Hn. rewrite Hmod in Hn. lia.
Qed.

Lemma decode_encode s :
  decodeBase64Url (encodeBase64Url s) = Ok (text_decode (utf8_encode s)).
Proof.
  pose proof (utf8_encode_bytes s) as Hb. pose proof (sextets_small _ Hb) as Hv. pose proof (sextets_length (utf8_encode s)) as Hl.
  pose proof (Nat.mod_upper_bound (3 - length (utf8_encode s) mod 3) 3 ltac:(done)) as Hk.
  unfold encodeBase64Url, decodeBase64Url, btoa. rewrite to_url_alphabet by done. rewrite strip_equals_pad.
  2:{ apply Forall_fmap. eapply Forall_impl; [exact Hv|]. intros v Hlt. apply url_char_range in Hlt. simpl.
      apply N.eqb_neq. intros E. by rewrite E in Hlt. }
  rewrite from_url_alphabet by done. rewrite length_fmap, (pad_of _ _ _ Hl Hk).
  change ((b64_char <$> sextets (utf8_encode s)) ++ _) with (btoa (utf8_encode s)). by rewrite atob_btoa.
Qed.

(** * Claims *)

(** C38: base64url text round-trips.  Decoding an encoding gives the text back
    for every well-formed string that does not start with a byte-order mark (an
    unpaired surrogate is sent as U+FFFD, a leading mark is dropped by the
    decoder), and the encoding only has letters, digits, [-] and [_], so it
    needs no escaping in a URL. *)
Theorem base64url_round_trip s :
  well_formed s = true → head s ≠ Some 65279 →
  decodeBase64Url (encodeBase64Url s) = Ok s ∧ Forall (λ c, is_url_unit c = true) (encodeBase64Url s).
Proof.
  intros Hw Hh. split.
  - rewrite decode_encode, encode_no_bom by done. by rewrite utf8_round_trip.
  - pose proof (sextets_small _ (utf8_encode_bytes s)) as Hv. unfold encodeBase64Url, btoa.
    rewrite to_url_alphabet by done.
    assert (Forall (λ c, is_url_unit c = true) (url_char <$> sextets (utf8_encode s))) as Hu.
    { apply Forall_fmap. eapply Forall_impl; [exact Hv|]. intros v. apply url_char_range. }
    rewrite strip_equals_pad; [done|]. eapply Forall_impl; [exact Hu|]. intros c Hc. simpl.
    apply N.eqb_neq. intros E. by rewrite E in Hc.
Qed.

Lemma base64url_round_trip_witness :
  decodeBase64Url (encodeBase64Url $"app=sshd é😀") = Ok $"app=sshd é😀".
Proof. apply (base64url_round_trip $"app=sshd é😀"); vm_compute; done. Defined.
