(* ===== verification/FormUrl.v ===== *)
(** [URLSearchParams]: the application/x-www-form-urlencoded serializer and
    parser of the URL Standard, and that the parser reads back what the
    serializer writes. *)
From Stdlib Require Import NArith Lia.
From stdpp Require Import base list numbers strings.
From S2P Require Import Prelude Unicode Utf8.
Open Scope N_scope.

(** * Serializer *)

Definition is_alnum (c : N) : bool := is_upper c || is_lower c || is_digit c.
Definition form_plain (c : N) : bool := is_alnum c || (c =? STAR) || (c =? MINUS) || (c =? DOT) || (c =? UNDERSCORE).
Definition hex_upper (n : N) : N := if n <? 10 then 48 + n else 55 + n.

Definition form_byte (b : N) : jsstr :=
  if form_plain b then [b] else if b =? SPACE then [PLUS] else [PERCENT; hex_upper (b / 16); hex_upper (b mod 16)].
Definition form_encode (s : jsstr) : jsstr := utf8_encode s ≫= form_byte.

Abbreviation params := (list (jsstr * jsstr)).

Definition form_pair (kv : jsstr * jsstr) : jsstr := form_encode kv.1 ++ [EQUALS] ++ form_encode kv.2.
Definition params_to_string (ps : params) : jsstr := join [AMP] (map form_pair ps).

(** [params.set(k, v)]: the first entry is overwritten, later ones removed. *)
Fixpoint params_remove (k : jsstr) (ps : params) : params :=
  match ps with
  | [] => []
  | (k', v') :: r => if decide (k' = k) then params_remove k r else (k', v') :: params_remove k r
  end.
Fixpoint params_set (k v : jsstr) (ps : params) : params :=
  match ps with
  | [] => [(k, v)]
  | (k', v') :: r => if decide (k' = k) then (k, v) :: params_remove k r else (k', v') :: params_set k v r
  end.

(** * Parser *)

Definition hex_val (c : N) : option N :=
  if is_digit c then Some (c - 48)
  else if in_range 65 70 c then Some (c - 55)
  else if in_range 97 102 c then Some (c - 87)
  else None.

Fixpoint percent_decode (bs : list N) : list N :=
  match bs with
  | [] => []
  | b :: r =>
      if b =? PERCENT
      then match r with
           | h :: l :: r' =>
               match hex_val h, hex_val l with
               | Some h, Some l => h * 16 + l :: percent_decode r'
               | _, _ => b :: percent_decode r
               end
           | _ => b :: percent_decode r
           end
      else b :: percent_decode r
  end.

Definition form_decode (bs : list N) : jsstr :=
  utf8_decode (percent_decode ((λ b, if b =? PLUS then SPACE else b) <$> bs)).

(** A sequence between ampersands: the name up to the first [=], the value after it. *)
Definition parse_pair (bs : list N) : jsstr * jsstr :=
  (form_decode (take_while (λ c, negb (c =? EQUALS)) bs),
   form_decode (drop 1 (drop_while (λ c, negb (c =? EQUALS)) bs))).

Definition params_parse (s : jsstr) : params :=
  map parse_pair (List.filter truthy (split_on (λ c, c =? AMP) (utf8_encode s))).

Example form_ex :
  params_to_string [($"q", $"a=b & c"); ($"é", $"100%")] = $"q=a%3Db+%26+c&%C3%A9=100%25"
  ∧ params_parse $"q=a%3Db+%26+c&%C3%A9=100%25&&x" = [($"q", $"a=b & c"); ($"é", $"100%"); ($"x", [])].
Proof. vm_compute. done. Qed.

(** * Round trip *)

Lemma hex_val_upper n : n < 16 → hex_val (hex_upper n) = Some n.
Proof.
  intros Hn. unfold hex_val, hex_upper, is_digit. destruct (N.ltb_spec n 10).
  - rewrite in_range_true by lia. f_equal. lia.
  - rewrite in_range_false, in_range_true by lia. f_equal. lia.
Qed.

Lemma alnum_ranges c : is_alnum c = true → 48 <= c <= 57 ∨ 65 <= c <= 90 ∨ 97 <= c <= 122.
Proof.
  unfold is_alnum, is_upper, is_lower, is_digit, in_range. intros Hc.
  apply orb_prop in Hc as [[Hc|Hc]%orb_prop|Hc]; btrue; lia.
Qed.

(** What the serializer emits for a byte. *)
Definition form_unit (c : N) : bool := form_plain c || (c =? PLUS) || (c =? PERCENT).

Lemma form_plain_range c :
  form_plain c = true → (48 <= c <= 57 ∨ 65 <= c <= 90 ∨ 97 <= c <= 122) ∨ c = STAR ∨ c = MINUS ∨ c = DOT ∨ c = UNDERSCORE.
Proof.
  unfold form_plain. intros Hc. apply orb_prop in Hc as [[[[Hc|Hc]%orb_prop|Hc]%orb_prop|Hc]%orb_prop|Hc];
    [left; by apply alnum_ranges|apply N.eqb_eq in Hc; subst; auto..].
Qed.

Lemma form_unit_facts c :
  form_unit c = true → c < 128 ∧ c ≠ AMP ∧ c ≠ EQUALS ∧ c ≠ QUESTION.
Proof.
  unfold form_unit. intros Hc. apply orb_prop in Hc as [[Hc|Hc]%orb_prop|Hc].
  - apply form_plain_range in Hc. lia.
  - apply N.eqb_eq in Hc. lia.
  - apply N.eqb_eq in Hc. lia.
Qed.

Lemma hex_upper_unit n : n < 16 → form_unit (hex_upper n) = true.
Proof.
  intros Hn. unfold form_unit, form_plain, is_alnum, hex_upper, is_upper, is_digit. destruct (N.ltb_spec n 10).
  - rewrite (in_range_true 48 57) by lia. by rewrite !orb_true_r.
  - by rewrite (in_range_true 65 90) by lia.
Qed.

Lemma form_byte_units b : b < 256 → Forall (λ c, form_unit c = true) (form_byte b).
Proof.
  intros Hb. unfold form_byte. destruct (form_plain b) eqn:Ep.
  - apply Forall_singleton. unfold form_unit. by rewrite Ep.
  - destruct (b =? SPACE); [by apply Forall_singleton|].
    repeat (apply Forall_cons; split; [try done; apply hex_upper_unit; zify; divmod|]). by apply Forall_nil.
Qed.

Lemma form_encode_units s : Forall (λ c, form_unit c = true) (form_encode s).
Proof.
  unfold form_encode. pose proof (utf8_encode_bytes s) as Hb. induction Hb as [|b bs Hb _ IH]; [constructor|].
  rewrite bind_cons. apply Forall_app. split; [by apply form_byte_units|done].
Qed.

Lemma form_byte_decode b r :
  b < 256 →
  percent_decode (((λ b, if b =? PLUS then SPACE else b) <$> form_byte b) ++ r) = b :: percent_decode r.
Proof.
  intros Hb. unfold form_byte. destruct (form_plain b) eqn:Ep.
  - apply form_plain_range in Ep. cbn [fmap list_fmap app]. rewrite (proj2 (N.eqb_neq b PLUS)) by lia.
    cbn [percent_decode]. by rewrite (proj2 (N.eqb_neq b PERCENT)) by lia.
  - destruct (N.eqb_spec b SPACE) as [->|Hne]; [done|].
    assert (∀ n, n < 16 → (hex_upper n =? PLUS) = false) as Hh.
    { intros n Hn. apply N.eqb_neq. unfold hex_upper. destruct (N.ltb_spec n 10); lia. }
    cbn [fmap list_fmap app]. rewrite !Hh by (zify; divmod). cbn [percent_decode].
    change (PERCENT =? PLUS) with false. cbv iota. rewrite N.eqb_refl.
    rewrite !hex_val_upper by (zify; divmod). f_equal. zify; divmod.
Qed.

Lemma form_round_trip s : well_formed s = true → form_decode (form_encode s) = s.
Proof.
  intros Hw. unfold form_decode, form_encode.
  assert (percent_decode ((λ b, if b =? PLUS then SPACE else b) <$> (utf8_encode s ≫= form_byte)) = utf8_encode s) as ->;
    [|by apply utf8_round_trip].
  pose proof (utf8_encode_bytes s) as Hb. induction Hb as [|b bs Hb _ IH]; [done|].
  rewrite bind_cons, fmap_app, form_byte_decode by done. by rewrite IH.
Qed.

Lemma utf8_encode_ascii s : Forall (λ c, c < 128) s → utf8_encode s = s.
Proof.
  unfold utf8_encode. intros Hs. assert (code_points s = s) as ->.
  { induction Hs as [|c s Hc _ IH]; [done|]. rewrite code_points_cons_low; [by rewrite IH|].
    unfold is_high. apply in_range_false. lia. }
  induction Hs as [|c s Hc _ IH]; [done|]. rewrite fmap_cons, bind_cons, IH.
  unfold scalar_of, is_scalar. rewrite (proj2 (N.ltb_lt c 55296)) by lia. cbn [orb].
  unfold utf8_encode_cp. by rewrite (proj2 (N.ltb_lt c 128)).
Qed.

Lemma form_pair_units kv : Forall (λ c, c < 128 ∧ c ≠ AMP ∧ c ≠ QUESTION) (form_pair kv).
Proof.
  assert (∀ s, Forall (λ c, c < 128 ∧ c ≠ AMP ∧ c ≠ QUESTION) (form_encode s)) as He.
  { intros s. eapply Forall_impl; [apply form_encode_units|]. intros c Hc%form_unit_facts. naive_solver. }
  unfold form_pair. apply Forall_app. split; [done|]. apply Forall_cons. by split.
Qed.

Lemma parse_form_pair kv :
  well_formed kv.1 = true → well_formed kv.2 = true → parse_pair (form_pair kv) = kv.
Proof.
  destruct kv as [k v]. simpl. intros Hk Hv. unfold parse_pair, form_pair. simpl.
  assert (Forall (λ c, negb (c =? EQUALS) = true) (form_encode k)) as Hu.
  { eapply Forall_impl; [apply form_encode_units|]. intros c Hc%form_unit_facts. simpl.
    apply negb_true_iff, N.eqb_neq. naive_solver. }
  rewrite (take_while_app _ (form_encode k)), (drop_while_app _ (form_encode k));
    [|done|by intros x r [= <- _]|done|by intros x r [= <- _]].
  cbn [drop]. by rewrite drop_0, !form_round_trip.
Qed.

Lemma join_units (P : N → Prop) c ws : P c → Forall (Forall P) ws → Forall P (join [c] ws).
Proof.
  intros Hc Hws. induction Hws as [|w ws Hw Hws IH]; [constructor|]. destruct ws as [|w' ws]; [done|].
  change (join [c] (w :: w' :: ws)) with (w ++ c :: join [c] (w' :: ws)). apply Forall_app. split; [done|].
  apply Forall_cons. by split.
Qed.

Lemma params_parse_to_string ps :
  Forall (λ kv, well_formed kv.1 = true ∧ well_formed kv.2 = true) ps → params_parse (params_to_string ps) = ps.
Proof.
  intros Hps. unfold params_parse, params_to_string.
  assert (Forall (Forall (λ c, c < 128 ∧ c ≠ AMP ∧ c ≠ QUESTION)) (map form_pair ps)) as Hu
    by (apply Forall_fmap, Forall_true; intros kv; apply form_pair_units).
  rewrite utf8_encode_ascii.
  2:{ apply join_units; [done|]. eapply Forall_impl; [exact Hu|]. intros w Hw. simpl.
      eapply Forall_impl; [exact Hw|]. naive_solver. }
  destruct ps as [|kv ps]; [done|]. rewrite split_on_join; [|done|done|].
  2:{ eapply Forall_impl; [exact Hu|]. intros w Hw. simpl. apply List.forallb_forall, List.Forall_forall.
      eapply Forall_impl; [exact Hw|]. intros c (_ & Hc & _). by apply negb_true_iff, N.eqb_neq. }
  clear Hu. induction Hps as [|x l [Hk Hv] _ IH]; [done|]. cbn [map List.filter].
  assert (truthy (form_pair x) = true) as -> by (unfold form_pair; by destruct (form_encode x.1)).
  cbn [map]. rewrite IH. by rewrite parse_form_pair.
Qed.
