(* ===== verification/UrlState.v ===== *)
(** URL state (src/frontend/src/lib/url-state.ts) and the mapping of saved
    searches onto it (features/saved-searches/savedSearchUrl.ts).

    The records are the inferred types of the zod schemas; zod's own parsing of
    raw parameters is a library's.  Objects used as maps are their own
    properties in insertion order. *)
From Stdlib Require Import Lia.
From stdpp Require Import base list numbers strings.
From S2P Require Import Prelude Unicode JsNumber FilterAst FilterLex FilterText FilterTextFacts FilterRoundTrip.
From S2P Require Import Fields FilterSem JsDate TimeRange FormUrl.

(** * Search parameters *)

Inductive QueryMode := visual | advanced.

Record ExplorerSearch := MkExplorerSearch {
  x_from : jsstr; x_to : jsstr; x_tz : option jsstr; x_q : option jsstr; x_native : option jsstr;
  x_mode : QueryMode; x_cols : option jsstr; x_split : option jsstr; x_saved : option jsstr
}.

Inductive AuditOutcome := outcome_any | outcome_success | outcome_failure.
Record AuditSearch := MkAuditSearch {
  a_from : jsstr; a_to : jsstr; a_action : option jsstr; a_actor : option jsstr; a_outcome : AuditOutcome; a_limit : jsstr
}.

(** * Columns *)

Definition parseColumns (cols : option jsstr) : list jsstr :=
  match cols with
  | None | Some [] => DEFAULT_COLUMNS
  | Some cols =>
      match List.filter truthy (map trim (split_on (λ c, (c =? COMMA)%N) cols)) with
      | [] => DEFAULT_COLUMNS
      | l => dedup l
      end
  end.

Definition formatColumns (cols : list jsstr) : option jsstr :=
  if bool_decide (cols = DEFAULT_COLUMNS) then None else Some (join [COMMA] cols).

(** * Queries *)

(** [{ dialect: 'logsql', text }] *)
Record NativeQuery := MkNativeQuery { n_text : jsstr }.

Record DecodedQuery := MkDecodedQuery { dq_filter : option FilterExpr; dq_native : option NativeQuery; dq_error : option jsstr }.

Definition error_message (e : FilterError) : jsstr := match e with FilterSyntaxError m _ => m | OutOfFuel => [] end.

Definition decodeQuery (q native : option jsstr) : DecodedQuery :=
  let '(filter, err) :=
    match parseFilter (nullish q []) with
    | Ok f => (f, None)
    | Err e => (None, Some (error_message e))
    end in
  let text := match native with Some t => trim t | None => [] end in
  MkDecodedQuery filter (if truthy text then Some (MkNativeQuery text) else None) err.

Definition encodeFilter (filter : option FilterExpr) : option jsstr := or_undef (formatFilter filter).

Record Selection := MkSelection {
  sel_from : jsstr; sel_to : jsstr; sel_tz : option jsstr; sel_filter : option FilterExpr; sel_native : option NativeQuery
}.

Definition buildSelection (start end_ : option Z) (filter : option FilterExpr) (native : option NativeQuery)
    (tz : option jsstr) : result TimeError Selection :=
  f ← toISOString start; t ← toISOString end_; Ok (MkSelection f t tz filter native).

(** * Pipes of a native query *)

Definition is_quote (c : N) : bool := (c =? DQUOTE)%N || (c =? SQUOTE)%N || (c =? BACKTICK)%N.

(** The loop: [quote] is the open literal's delimiter, [before] the text up to
    the current index.  [None] when the loop ends without a pipe. *)
Fixpoint split_loop (quote : option N) (before rest : jsstr) : option (jsstr * jsstr) :=
  match rest with
  | [] => None
  | c :: r =>
      match quote with
      | Some q =>
          if (c =? BSLASH)%N && negb (q =? BACKTICK)%N
          then match r with
               | d :: r' => split_loop quote (before ++ [c; d]) r'
               | [] => None
               end
          else if (c =? q)%N then split_loop None (before ++ [c]) r
          else split_loop quote (before ++ [c]) r
      | None =>
          if is_quote c then split_loop (Some c) (before ++ [c]) r
          else if (c =? BAR)%N then Some (before, r)
          else split_loop None (before ++ [c]) r
      end
  end.

(** The filter and the pipes. *)
Definition splitNativePipes (text : jsstr) : jsstr * jsstr :=
  match split_loop None [] text with
  | Some (f, p) => (trim f, trim p)
  | None => (trim text, [])
  end.

Definition withoutPipes (sel : option Selection) : option Selection :=
  match sel with
  | None => None
  | Some s =>
      match sel_native s with
      | None => sel
      | Some n =>
          let '(filter, pipes) := splitNativePipes (n_text n) in
          if negb (truthy pipes) then sel
          else
            let native := if truthy filter && negb (bool_decide (filter = [STAR])) then Some (MkNativeQuery filter) else None in
            Some (MkSelection (sel_from s) (sel_to s) (sel_tz s) (sel_filter s) native)
      end
  end.

(** * The router's codec *)

(** Values of search parameters. *)
Inductive jsval := VUndefined | VNull | VString (s : jsstr) | VNumber (n : Number) | VBool (b : bool).

Definition absent (v : jsval) : bool := match v with VUndefined | VNull | VString [] => true | _ => false end.
Definition js_string (v : jsval) : jsstr :=
  match v with
  | VUndefined => $"undefined" | VNull => $"null" | VString s => s | VNumber n => num_to_string n
  | VBool b => string_of_bool b
  end.

Definition cleanSearch (s : list (jsstr * jsval)) : list (jsstr * jsval) := List.filter (λ kv, negb (absent kv.2)) s.

(** [o\[k\] = v]: in place when the property exists. *)
Fixpoint obj_set {A} (o : list (jsstr * A)) (k : jsstr) (v : A) : list (jsstr * A) :=
  match o with
  | [] => [(k, v)]
  | (k', v') :: r => if decide (k' = k) then (k, v) :: r else (k', v') :: obj_set r k v
  end.

Definition parseSearchParams (searchStr : jsstr) : list (jsstr * jsstr) :=
  let ps := params_parse (if starts_with [QUESTION] searchStr then drop 1 searchStr else searchStr) in
  fold_left (λ out kv, obj_set out kv.1 kv.2) ps [].

Definition stringifySearchParams (search : list (jsstr * jsval)) : jsstr :=
  let ps := fold_left (λ ps kv, if absent kv.2 then ps else params_set kv.1 (js_string kv.2) ps) search [] in
  let s := params_to_string ps in
  if truthy s then QUESTION :: s else [].

(** * Saved searches *)

Record SavedTimeRange := MkSavedTimeRange { st_from : jsstr; st_to : jsstr; st_tz : option jsstr }.

(** The members of a saved search the mapping reads. *)
Record SavedSearch := MkSavedSearch {
  ss_id : jsstr; ss_filter : option FilterExpr; ss_native : option NativeQuery;
  ss_range : option SavedTimeRange; ss_columns : option (list jsstr)
}.

Definition nonempty_columns (c : option (list jsstr)) : option (list jsstr) :=
  match c with Some (x :: l) => Some (x :: l) | _ => None end.

Definition savedSearchToExplorerSearch (s : SavedSearch) : ExplorerSearch :=
  let q := formatFilter (ss_filter s) in
  let native := n_text <$> ss_native s in
  let has_native := match native with Some t => truthy t | None => false end in
  MkExplorerSearch
    (match ss_range s with Some r => st_from r | None => $"now-1h" end)
    (match ss_range s with Some r => st_to r | None => $"now" end)
    (match ss_range s with Some r => st_tz r | None => None end)
    (or_undef q)
    (match native with Some t => or_undef t | None => None end)
    (if has_native && negb (truthy q) then advanced else visual)
    (match nonempty_columns (ss_columns s) with Some c => formatColumns c | None => None end)
    None
    (Some (ss_id s)).

Definition isModified (s : SavedSearch) (search : ExplorerSearch) (columns : list jsstr) : bool :=
  let q := formatFilter (ss_filter s) in
  let native := match ss_native s with Some n => n_text n | None => [] end in
  let colsChanged := match nonempty_columns (ss_columns s) with
                     | Some c => negb (bool_decide (join [COMMA] c = join [COMMA] columns))
                     | None => false
                     end in
  negb (bool_decide (nullish (x_q search) [] = q)) || negb (bool_decide (nullish (x_native search) [] = native)) || colsChanged.
