(* ===== verification/UrlStateProps.v ===== *)
(** What the URL keeps: the router's codec, the column list, the filter, the
    pipes of native queries and saved searches. *)
From Stdlib Require Import Lia.
From stdpp Require Import base list numbers strings.
From S2P Require Import Prelude Unicode JsNumber FilterAst FilterLex FilterText FilterTextFacts FilterRoundTrip.
From S2P Require Import Fields FilterSem JsDate TimeRange TimeRangeProps FormUrl UrlState.

(** * The router's codec *)

Lemma obj_set_fresh {A} (o : list (jsstr * A)) k v : k ∉ o.*1 → obj_set o k v = o ++ [(k, v)].
Proof.
  induction o as [|[k' v'] o IH]; simpl; [done|]. intros Hk. rewrite not_elem_of_cons in Hk. destruct Hk as [Hne Hk].
  rewrite decide_False by done. by rewrite IH.
Qed.

Lemma params_set_fresh k v ps : k ∉ ps.*1 → params_set k v ps = ps ++ [(k, v)].
Proof.
  induction ps as [|[k' v'] o IH]; simpl; [done|]. intros Hk. rewrite not_elem_of_cons in Hk. destruct Hk as [Hne Hk].
  rewrite decide_False by done. by rewrite IH.
Qed.

Lemma build_object (ps acc : list (jsstr * jsstr)) :
  NoDup (acc.*1 ++ ps.*1) → fold_left (λ out kv, obj_set out kv.1 kv.2) ps acc = acc ++ ps.
Proof.
  revert acc. induction ps as [|[k v] ps IH]; intros acc Hd; simpl; [by rewrite app_nil_r|].
  rewrite obj_set_fresh, IH.
  - by rewrite <- app_assoc.
  - rewrite fmap_app, <- app_assoc. exact Hd.
  - apply NoDup_app in Hd as (_ & Hd & _). intros Hk. apply (Hd k Hk). left.
Qed.

(** The parameters a search object is written as. *)
Definition search_params (search : list (jsstr * jsval)) : list (jsstr * jsstr) :=
  (λ kv, (kv.1, js_string kv.2)) <$> cleanSearch search.

Lemma search_params_keys search : (search_params search).*1 `sublist_of` search.*1.
Proof.
  unfold search_params, cleanSearch. induction search as [|[k v] s IH]; simpl; [done|].
  destruct (absent v); simpl; [by apply sublist_cons|by apply sublist_skip].
Qed.

Lemma build_params search acc :
  NoDup (acc.*1 ++ (search_params search).*1) →
  fold_left (λ ps kv, if absent kv.2 then ps else params_set kv.1 (js_string kv.2) ps) search acc
  = acc ++ search_params search.
Proof.
  revert acc. unfold search_params, cleanSearch. induction search as [|[k v] s IH]; intros acc Hd; simpl; [by rewrite app_nil_r|].
  simpl in Hd. destruct (absent v) eqn:Ea; simpl in *; [by apply IH|]. rewrite params_set_fresh, IH.
  - by rewrite <- app_assoc.
  - rewrite fmap_app, <- app_assoc. exact Hd.
  - apply NoDup_app in Hd as (_ & Hd & _). intros Hk. apply (Hd k Hk). left.
Qed.

Lemma params_to_string_head ps : starts_with [QUESTION] (params_to_string ps) = false.
Proof.
  assert (Forall (λ c, c ≠ QUESTION) (params_to_string ps)) as Hu.
  { apply join_units; [done|]. apply Forall_fmap, Forall_true. intros kv. simpl.
    eapply Forall_impl; [apply form_pair_units|]. naive_solver. }
  destruct Hu as [|c r Hc _]; [done|]. cbn [starts_with]. rewrite andb_true_r. apply N.eqb_neq. congruence.
Qed.

Lemma params_to_string_nil ps : params_to_string ps = [] → ps = [].
Proof.
  unfold params_to_string. destruct ps as [|kv ps]; [done|]. rewrite map_cons, join_cons. unfold form_pair.
  by destruct (form_encode kv.1).
Qed.

Lemma parse_stringify search :
  NoDup search.*1 → Forall (λ kv, well_formed kv.1 = true ∧ well_formed kv.2 = true) (search_params search) →
  parseSearchParams (stringifySearchParams search) = search_params search.
Proof.
  intros Hd Hw. assert (NoDup (search_params search).*1) as Hd' by (eapply sublist_NoDup; [exact Hd|apply search_params_keys]).
  unfold stringifySearchParams. rewrite build_params by done. cbn [app].
  unfold parseSearchParams. destruct (params_to_string (search_params search)) as [|c r] eqn:E.
  - apply params_to_string_nil in E. by rewrite E.
  - cbn [truthy]. change (starts_with [QUESTION] (QUESTION :: c :: r)) with true. cbv iota.
    change (drop 1 (QUESTION :: c :: r)) with (drop 0 (c :: r)). rewrite drop_0, <- E.
    rewrite params_parse_to_string by done. by rewrite build_object.
Qed.

(** * Columns *)

(** A column name the codec keeps: trimmed, not empty, without commas. *)
Definition column_ok (c : jsstr) : bool :=
  truthy c && bool_decide (trim c = c) && forallb (λ u, negb (u =? COMMA)%N) c.

Lemma parse_format_columns cols :
  cols ≠ [] → NoDup cols → Forall (λ c, column_ok c = true) cols → parseColumns (formatColumns cols) = cols.
Proof.
  intros Hne Hd Hc. unfold formatColumns. case_bool_decide as E; [by rewrite E|].
  assert (map trim cols = cols ∧ Forall (λ c, truthy c = true) cols
    ∧ Forall (λ w, forallb (λ u, negb (u =? COMMA)%N) w = true) cols) as (Ht & Htr & Hf).
  { clear -Hc. induction Hc as [|c l Hc _ IH]; [done|]. unfold column_ok in Hc.
    apply andb_prop in Hc as [[? Hb%bool_decide_eq_true]%andb_prop ?]. destruct IH as (? & ? & ?).
    split_and!; [simpl; congruence|by constructor..]. }
  unfold parseColumns. destruct (join [COMMA] cols) as [|u r] eqn:Ej.
  { destruct cols as [|c l]; [done|]. apply Forall_cons in Htr as [Htr _]. rewrite join_cons in Ej. by destruct c. }
  rewrite <- Ej, split_on_join by done. rewrite Ht, filter_truthy by done.
  destruct cols; [done|]. apply dedup_from_id; [done|]. intros x _. by apply not_elem_of_nil.
Qed.

Lemma formatFilter_query f : query_ok f = true → parseFilter (formatFilter f) = Ok f.
Proof.
  destruct f as [e|]; [|reflexivity]. unfold query_ok. intros [Hc Hp]%andb_prop. rewrite parse_format by done.
  by rewrite canon_canonical.
Qed.

Lemma nullish_or_undef s : nullish (or_undef s) [] = s.
Proof. by destruct s. Qed.

(** * Pipes *)

(** Where a character of LogsQL is: outside literals, inside one, or after a
    backslash inside one. *)
Inductive literal := Outside | Inside (q : N) | Escaped (q : N).

Definition literal_step (st : literal) (c : N) : literal :=
  match st with
  | Outside => if is_quote c then Inside c else Outside
  | Inside q => if (c =? BSLASH)%N && negb (q =? BACKTICK)%N then Escaped q
                else if (c =? q)%N then Outside else Inside q
  | Escaped q => Inside q
  end.

Definition is_outside (st : literal) : bool := match st with Outside => true | _ => false end.

(** No pipe outside the literals. *)
Fixpoint pipeless (st : literal) (s : jsstr) : bool :=
  match s with
  | [] => true
  | c :: r => negb (is_outside st && (c =? BAR)%N) && pipeless (literal_step st c) r
  end.

Definition open_literal (q : option N) : literal := match q with Some q => Inside q | None => Outside end.

Lemma split_loop_spec q before rest :
  match split_loop q before rest with
  | Some (f, p) => ∃ k, rest = k ++ BAR :: p ∧ f = before ++ k ∧ pipeless (open_literal q) k = true
                        ∧ fold_left literal_step k (open_literal q) = Outside
  | None => pipeless (open_literal q) rest = true
  end.
Proof.
  remember (length rest) as n eqn:En. revert q before rest En. induction (lt_wf n) as [n _ IH].
  intros q before rest ->.
  assert (∀ q' k0 r, rest = k0 ++ r → k0 ≠ [] → pipeless (open_literal q) k0 = true →
    fold_left literal_step k0 (open_literal q) = open_literal q' →
    match split_loop q' (before ++ k0) r with
    | Some (f, p) => ∃ k, rest = k ++ BAR :: p ∧ f = before ++ k ∧ pipeless (open_literal q) k = true
                          ∧ fold_left literal_step k (open_literal q) = Outside
    | None => pipeless (open_literal q) rest = true
    end) as Hgo.
  { intros q' k0 r -> Hk0 Hp Hst. specialize (IH (length r)). rewrite length_app in IH.
    specialize (IH ltac:(destruct k0; [done|simpl; lia]) q' (before ++ k0) r eq_refl).
    assert (∀ k, pipeless (open_literal q) (k0 ++ k) = pipeless (open_literal q') k) as Happ.
    { intros k. rewrite <- Hst. revert Hp. generalize (open_literal q). clear. induction k0 as [|c k0 IH]; intros st; [done|].
      cbn [pipeless app fold_left]. intros [Hc Hp]%andb_prop. rewrite Hc. by apply IH. }
    destruct (split_loop q' (before ++ k0) r) as [[f p]|]; [|by rewrite Happ].
    destruct IH as (k & -> & -> & Hk & Hf). exists (k0 ++ k).
    rewrite Happ, fold_left_app, Hst, <- !app_assoc. done. }
  destruct rest as [|c r]; [done|]. destruct q as [q|]; cbn [split_loop].
  - destruct ((c =? BSLASH)%N && negb (q =? BACKTICK)%N) eqn:Eb.
    + destruct r as [|d r]; [done|]. apply (Hgo (Some q) [c; d] r); try done; cbn; by rewrite Eb.
    + destruct (c =? q)%N eqn:Eq; [apply (Hgo None [c] r)|apply (Hgo (Some q) [c] r)]; try done; cbn; by rewrite Eb, Eq.
  - destruct (is_quote c) eqn:Ec.
    + apply (Hgo (Some c) [c] r); try done; cbn; [|by rewrite Ec].
      unfold is_quote in Ec. destruct (N.eqb_spec c BAR); [by subst|done].
    + destruct (c =? BAR)%N eqn:Ep.
      * apply N.eqb_eq in Ep as ->. exists []. by rewrite app_nil_r.
      * apply (Hgo None [c] r); try done; cbn; [by rewrite Ep|by rewrite Ec].
Qed.

Lemma pipeless_app_l st a b : pipeless st (a ++ b) = true → pipeless st a = true.
Proof.
  revert st. induction a as [|c a IH]; intros st; [done|]. cbn [app pipeless]. intros [-> H]%andb_prop. simpl. eauto.
Qed.

Lemma pipeless_pipe st a b :
  pipeless st (a ++ BAR :: b) = true → fold_left literal_step a st = Outside → False.
Proof.
  revert st. induction a as [|c a IH]; intros st; cbn [app pipeless fold_left]; [by intros H ->|].
  intros [_ H]%andb_prop Hf. eauto.
Qed.

Lemma pipeless_split text : pipeless Outside text = true → splitNativePipes text = (trim text, []).
Proof.
  intros Hp. unfold splitNativePipes. pose proof (split_loop_spec None [] text) as H.
  destruct (split_loop None [] text) as [[f p]|]; [|done]. destruct H as (k & -> & _ & _ & Hf).
  by apply pipeless_pipe in Hp.
Qed.

Lemma pipeless_trim s : pipeless Outside s = true → pipeless Outside (trim s) = true.
Proof.
  intros Hp. destruct (trim_prefix s) as (l & r & E & Hl). rewrite E in Hp. revert Hp. generalize (trim s). clear E s. intros s.
  induction Hl as [|c l Hc _ IH]; [intros Hp; exact (pipeless_app_l _ s r Hp)|]. cbn [app pipeless]. intros [_ Hp]%andb_prop. apply IH.
  assert (literal_step Outside c = Outside) as E; [|by rewrite E in Hp]. cbn. replace (is_quote c) with false; [done|].
  symmetry. unfold is_quote, is_space in *. units.
Qed.

(** * Claims *)

(** The router's codec.  A search object written to the URL and read back
    gives exactly its present values as strings, in order: absent, null and
    empty values are left out, and every character of keys and values (of
    well-formed strings) survives the percent-encoding. *)
Theorem search_params_round_trip search :
  NoDup search.*1 → Forall (λ kv, well_formed kv.1 = true ∧ well_formed kv.2 = true) (search_params search) →
  parseSearchParams (stringifySearchParams search) = search_params search.
Proof. apply parse_stringify. Qed.

Lemma search_params_round_trip_witness :
  parseSearchParams (stringifySearchParams [($"q", VString $"a=b & é"); ($"tz", VUndefined); ($"n", VNumber (num 5)); ($"x", VString [])])
  = [($"q", $"a=b & é"); ($"n", $"5")].
Proof.
  etrans; [apply (search_params_round_trip [($"q", VString $"a=b & é"); ($"tz", VUndefined); ($"n", VNumber (num 5)); ($"x", VString [])])|].
  - vm_decide.
  - repeat constructor.
  - vm_compute. reflexivity.
Defined.

(** Columns and filter in the URL.  The column list survives formatting
    and parsing (the default list as an absent parameter) when its names are
    distinct, trimmed, non-empty and without commas; a canonical, printable
    filter survives [encodeFilter] and [decodeQuery] without an error; and any
    parameter text decodes to a query or to an error message, never both. *)
Theorem url_query_round_trip cols filter q native :
  cols ≠ [] → NoDup cols → Forall (λ c, column_ok c = true) cols → query_ok filter = true →
  parseColumns (formatColumns cols) = cols
  ∧ decodeQuery (encodeFilter filter) None = MkDecodedQuery filter None None
  ∧ (dq_error (decodeQuery q native) = None ∨ dq_filter (decodeQuery q native) = None).
Proof.
  intros Hne Hd Hc Hq. split_and!; [by apply parse_format_columns| |].
  - unfold decodeQuery, encodeFilter. rewrite nullish_or_undef, formatFilter_query by done. done.
  - unfold decodeQuery. destruct (parseFilter (nullish q [])); simpl; auto.
Qed.

Lemma url_query_round_trip_witness :
  parseColumns (formatColumns [$"timestamp"; $"labels.env"]) = [$"timestamp"; $"labels.env"].
Proof.
  apply (url_query_round_trip [$"timestamp"; $"labels.env"] None None None).
  - done.
  - vm_decide.
  - repeat constructor.
  - reflexivity.
Defined.

(** Pipes.  The split of a native query is at the first [|] outside its
    string literals (double and single quotes with backslash escapes,
    backticks without): what is before it has no such pipe and ends outside a
    literal; without one there are no pipes.  Dropping the pipes leaves a query
    with none, so doing it again changes nothing, and keeps the time range and
    the filter. *)
Theorem split_at_first_pipe text sel :
  (match split_loop None [] text with
   | Some (f, p) => text = f ++ BAR :: p ∧ pipeless Outside f = true ∧ fold_left literal_step f Outside = Outside
                    ∧ splitNativePipes text = (trim f, trim p)
   | None => pipeless Outside text = true ∧ splitNativePipes text = (trim text, [])
   end)
  ∧ withoutPipes (withoutPipes sel) = withoutPipes sel
  ∧ (sel_filter <$> withoutPipes sel) = (sel_filter <$> sel) ∧ (sel_from <$> withoutPipes sel) = (sel_from <$> sel).
Proof.
  split; [|split].
  - pose proof (split_loop_spec None [] text) as H. unfold splitNativePipes.
    destruct (split_loop None [] text) as [[f p]|]; [|done]. destruct H as (k & -> & -> & Hk & Hf). done.
  - destruct sel as [s|]; [|done]. cbn [withoutPipes]. destruct (sel_native s) as [n|] eqn:En; [|by cbn [withoutPipes]; rewrite En].
    pose proof (split_loop_spec None [] (n_text n)) as H.
    destruct (splitNativePipes (n_text n)) as [f p] eqn:E. destruct (truthy p) eqn:Ep; cbn [negb];
      [|cbn [withoutPipes]; rewrite En, E, Ep; done].
    destruct (truthy f && _); cbn [withoutPipes sel_native]; [|done]. cbn [n_text].
    assert (pipeless Outside f = true) as Hp; [|by rewrite (pipeless_split f Hp)].
    unfold splitNativePipes in E. destruct (split_loop None [] (n_text n)) as [[f' p']|]; injection E as <- <-.
    + destruct H as (k & _ & -> & Hk & _). by apply pipeless_trim.
    + done.
  - destruct sel as [s|]; [|done]. cbn [withoutPipes]. destruct (sel_native s) as [n|]; [|done].
    destruct (splitNativePipes (n_text n)) as [f p]. by destruct (negb (truthy p)).
Qed.

(** Opening a saved search.  The explorer state it maps to decodes to the
    saved filter and columns, and is not reported as modified: also for a
    native query, an empty filter and the default columns. *)
Theorem saved_search_opens_unmodified s :
  query_ok (ss_filter s) = true →
  (∀ c, nonempty_columns (ss_columns s) = Some c → NoDup c ∧ Forall (λ c, column_ok c = true) c) →
  let x := savedSearchToExplorerSearch s in
  dq_filter (decodeQuery (x_q x) (x_native x)) = ss_filter s
  ∧ dq_error (decodeQuery (x_q x) (x_native x)) = None
  ∧ (∀ c, nonempty_columns (ss_columns s) = Some c → parseColumns (x_cols x) = c)
  ∧ isModified s x (parseColumns (x_cols x)) = false.
Proof.
  intros Hq Hc x. assert (∀ c, nonempty_columns (ss_columns s) = Some c → parseColumns (x_cols x) = c) as Hcols.
  { intros c E. destruct (Hc c E) as [Hd Hok]. subst x. cbn [savedSearchToExplorerSearch x_cols]. rewrite E.
    apply parse_format_columns; [|done..]. intros ->. unfold nonempty_columns in E. by repeat case_match. }
  assert (nullish (x_native x) [] = match ss_native s with Some n => n_text n | None => [] end) as Hn.
  { subst x. cbn. destruct (ss_native s); [apply nullish_or_undef|done]. }
  split_and!; try done.
  - subst x. unfold decodeQuery. cbn. rewrite nullish_or_undef, formatFilter_query by done. done.
  - subst x. unfold decodeQuery. cbn. rewrite nullish_or_undef, formatFilter_query by done. done.
  - unfold isModified. rewrite (bool_decide_eq_true_2 _ Hn).
    assert (nullish (x_q x) [] = formatFilter (ss_filter s)) as Hxq by apply nullish_or_undef.
    rewrite (bool_decide_eq_true_2 _ Hxq). cbn [negb orb].
    destruct (nonempty_columns (ss_columns s)) as [c|] eqn:E; [|done]. rewrite (Hcols c eq_refl).
    by rewrite bool_decide_eq_true_2.
Qed.

Lemma saved_search_opens_unmodified_witness :
  isModified (MkSavedSearch $"1" (Some (FieldValueExpr op_eq $"a" $"b")) None None (Some [$"a"; $"b"]))
    (savedSearchToExplorerSearch (MkSavedSearch $"1" (Some (FieldValueExpr op_eq $"a" $"b")) None None (Some [$"a"; $"b"])))
    (parseColumns (Some $"a,b")) = false.
Proof.
  apply (saved_search_opens_unmodified (MkSavedSearch $"1" (Some (FieldValueExpr op_eq $"a" $"b")) None None (Some [$"a"; $"b"]))).
  - reflexivity.
  - intros c [= <-]. split; [vm_decide|repeat constructor].
Defined.
