(* ===== verification/SourceTemplates.v ===== *)
(** Source templates and extract rules (src/frontend/src/features/sources/
    source-form.ts, first half; the types of src/frontend/src/api/
    operations.ts).

    The module-level counter behind the keys of rules being edited is state
    passed explicitly: operations that make rules take it and return it. *)
From Stdlib Require Import Lia.
From stdpp Require Import base list numbers strings.
From S2P Require Import Prelude Unicode.

(** * API types *)

Record ExtractRule := MkExtractRule {
  er_name : option jsstr; er_contains : option jsstr; er_prefix : option jsstr; er_regex : jsstr
}.
Record TemplateField := MkTemplateField { tf_name : jsstr; tf_description : jsstr; tf_example : option jsstr }.
Record TemplateStep := MkTemplateStep {
  ts_title : jsstr; ts_body : option jsstr; ts_config : option jsstr; ts_language : option jsstr
}.
Record TemplateSetup := MkTemplateSetup {
  su_sender : jsstr; su_summary : jsstr; su_steps : option (list TemplateStep);
  su_closing : option (list TemplateStep); su_reference : option jsstr
}.
(** [json] is the JSON rule of a part or a template: its prefix, if it has one. *)
Record TemplatePart := MkTemplatePart {
  tp_id : jsstr; tp_title : jsstr; tp_description : jsstr; tp_default : option bool;
  tp_extract : option (list ExtractRule); tp_fields : option (list TemplateField);
  tp_analyses : option (list jsstr); tp_steps : option (list TemplateStep);
  tp_json : option (option jsstr)
}.
Record SourceTemplate := MkSourceTemplate {
  st_id : jsstr; st_title : jsstr; st_description : jsstr; st_extract : option (list ExtractRule);
  st_fields : option (list TemplateField); st_analyses : option (list jsstr);
  st_parts : option (list TemplatePart); st_setup : TemplateSetup; st_in_use : bool;
  st_sources : option (list jsstr); st_parts_in_use : option (list jsstr);
  st_json : option (option jsstr)
}.

(** * Extract rules being edited *)

Record ExtractRuleForm := MkExtractRuleForm {
  rf_key : jsstr; rf_name : jsstr; rf_contains : jsstr; rf_prefix : jsstr; rf_regex : jsstr
}.

(** [newExtractRule(rule)] with the counter before it: the rule and the counter after. *)
Definition newExtractRule (seq : nat) (name contains prefix regex : jsstr) : ExtractRuleForm * nat :=
  let seq' := seq + 1 in (MkExtractRuleForm ($"rule-" ++ decn seq') name contains prefix regex, seq').

(** A rule of the API as one being edited. *)
Definition ruleForm (seq : nat) (r : ExtractRule) : ExtractRuleForm * nat :=
  newExtractRule seq (nullish (er_name r) []) (nullish (er_contains r) []) (nullish (er_prefix r) []) (er_regex r).

(** [rules.map((r) => newExtractRule(...))] *)
Fixpoint ruleForms (seq : nat) (rules : list ExtractRule) : list ExtractRuleForm * nat :=
  match rules with
  | [] => ([], seq)
  | r :: rs => let '(f, seq1) := ruleForm seq r in let '(fs, seq2) := ruleForms seq1 rs in (f :: fs, seq2)
  end.

(** The start of a named group after [(?]: [P<] or [<]. *)
Definition group_start (after : jsstr) : option jsstr :=
  match after with
  | a :: r =>
      match r with
      | b :: s => if (a =? 80)%N && (b =? LESS)%N then Some s else if (a =? LESS)%N then Some r else None
      | [] => if (a =? LESS)%N then Some r else None
      end
  | [] => None
  end.

(** The scan, on the pattern from the current index; every iteration takes at
    least one character, so the length of the pattern is fuel enough. *)
Fixpoint capture_loop (fuel : nat) (inClass : bool) (rest : jsstr) (names : list jsstr) : list jsstr :=
  match fuel, rest with
  | S f, c :: r =>
      if (c =? BSLASH)%N then capture_loop f inClass (drop 1 r) names
      else if inClass then capture_loop f (negb (c =? RBRACK)%N) r names
      else if (c =? LBRACK)%N then capture_loop f true r names
      else if negb ((c =? LPAREN)%N && starts_with [QUESTION] r) then capture_loop f false r names
      else match group_start (drop 1 r) with
      | None => capture_loop f false r names
      | Some s =>
          match index_of GREATER s with
          | None => names
          | Some k =>
              let name := take k s in
              let names' := if truthy name && negb (bool_decide (name ∈ names)) then names ++ [name] else names in
              capture_loop f false (drop (k + 1) s) names'
          end
      end
  | _, _ => names
  end.

Definition captureGroupNames (regex : jsstr) : list jsstr := capture_loop (length regex) false regex [].

Definition extractFieldNames (rule : ExtractRuleForm) : list jsstr :=
  let prefix := trim (rf_prefix rule) in map (λ n, prefix ++ n) (captureGroupNames (rf_regex rule)).

(** * Templates *)

Definition TEMPLATE_NONE : jsstr := [].

Definition templateById (templates : list SourceTemplate) (id : jsstr) : option SourceTemplate :=
  if truthy id then List.find (λ t, bool_decide (st_id t = id)) templates else None.

Record Choice := MkChoice { ch_value : jsstr; ch_label : jsstr; ch_hint : jsstr }.

Definition templateChoices (templates : list SourceTemplate) : list Choice :=
  map (λ t, MkChoice (st_id t) (st_title t) (st_description t)) templates
  ++ [MkChoice TEMPLATE_NONE $"Anything else"
        $"Syslog as it arrives. Fields can still be pulled out with extract rules below."].

(** [template?.parts ?? \[\]] *)
Definition parts_of (t : option SourceTemplate) : list TemplatePart :=
  match t with Some t => nullish (st_parts t) [] | None => [] end.

Definition templateDefaultParts (t : option SourceTemplate) : list jsstr :=
  map tp_id (List.filter (λ p, nullish (tp_default p) false) (parts_of t)).

Definition resolveTemplateParts (t : option SourceTemplate) (stored : list jsstr) : list jsstr :=
  match parts_of t, stored with
  | [], _ => []
  | _, [] => templateDefaultParts t
  | parts, _ =>
      let want := map (λ id, to_lower (trim id)) stored in
      map tp_id (List.filter (λ p, bool_decide (to_lower (tp_id p) ∈ want)) parts)
  end.

Definition selectedTemplateParts (t : option SourceTemplate) (stored : list jsstr) : list TemplatePart :=
  let on := resolveTemplateParts t stored in
  List.filter (λ p, bool_decide (tp_id p ∈ on)) (parts_of t).

Definition toggleTemplatePart (t : option SourceTemplate) (stored : list jsstr) (id : jsstr) (on : bool) : list jsstr :=
  let resolved := resolveTemplateParts t stored in
  let current := if on then id :: resolved else List.filter (λ x, negb (bool_decide (x = id))) resolved in
  map tp_id (List.filter (λ p, bool_decide (tp_id p ∈ current)) (parts_of t)).

Definition templateFields (t : option SourceTemplate) (parts : list jsstr) : list TemplateField :=
  (match t with Some t => nullish (st_fields t) [] | None => [] end)
  ++ (selectedTemplateParts t parts ≫= λ p, nullish (tp_fields p) []).

Definition templateAnalyses (t : option SourceTemplate) (parts : list jsstr) : list jsstr :=
  dedup ((match t with Some t => nullish (st_analyses t) [] | None => [] end)
         ++ (selectedTemplateParts t parts ≫= λ p, nullish (tp_analyses p) [])).

Record TemplateStepGroup := MkStepGroup {
  sg_key : jsstr; sg_part : option TemplatePart; sg_steps : list TemplateStep; sg_start : nat
}.

Definition GENERATED_CONFIG_STEP : TemplateStep :=
  MkTemplateStep $"Replace nxlog.conf with this, then restart the NXLog service"
    (Some ($"Built from the parts ticked above: one input block per part, one output, and one route carrying them all. "
      ++ $"Change SYSLOGC_HOST to this server’s own name before using it — it ships as an example, and the name has to "
      ++ $"match the TLS certificate or NXLog refuses the connection, which looks like nothing arriving rather than like "
      ++ $"a mistake. Then restart with: Restart-Service nxlog"))
    None (Some $"apache").

(** The runs of steps, before numbering. *)
Definition step_runs (t : SourceTemplate) (parts : list jsstr) : list (jsstr * option TemplatePart * list TemplateStep) :=
  let run := λ key part steps, match steps with [] => [] | _ => [(key, part, steps)] end in
  run $"setup" None (nullish (su_steps (st_setup t)) [])
  ++ (selectedTemplateParts (Some t) parts ≫= λ p, run ($"part:" ++ tp_id p) (Some p) (nullish (tp_steps p) []))
  ++ (match nullish (st_parts t) [] with [] => [] | _ => [($"config", None, [GENERATED_CONFIG_STEP])] end)
  ++ run $"closing" None (nullish (su_closing (st_setup t)) []).

(** The reduction that numbers the groups. *)
Fixpoint number_runs (start : nat) (runs : list (jsstr * option TemplatePart * list TemplateStep)) : list TemplateStepGroup :=
  match runs with
  | [] => []
  | (key, part, steps) :: r => MkStepGroup key part steps start :: number_runs (start + length steps) r
  end.

Definition templateSteps (t : SourceTemplate) (parts : list jsstr) : list TemplateStepGroup :=
  number_runs 0 (step_runs t parts).

Definition CONFIG_LANGUAGES : list (jsstr * jsstr) :=
  [($"apache", $"configuration file"); ($"ini", $"configuration file"); ($"batch", $"Windows commands");
   ($"powershell", $"PowerShell"); ($"shell", $"shell commands"); ($"sh", $"shell commands");
   ($"bash", $"shell commands"); ($"yaml", $"YAML"); ($"json", $"JSON"); ($"xml", $"XML"); ($"sql", $"SQL")].

Definition configLanguageLabel (language : option jsstr) : jsstr :=
  let key := match language with Some l => to_lower (trim l) | None => [] end in
  match assoc_get CONFIG_LANGUAGES key with Some l => l | None => or_else key $"configuration" end.

Definition sameRule (a : ExtractRuleForm) (b : ExtractRule) : bool :=
  bool_decide (trim (rf_regex a) = trim (er_regex b)) && bool_decide (trim (rf_prefix a) = trim (nullish (er_prefix b) [])).

(** [template?.extract ?? \[\]] *)
Definition extract_of (t : option SourceTemplate) : list ExtractRule :=
  match t with Some t => nullish (st_extract t) [] | None => [] end.

(** The rules of [applyTemplate]: those kept and those added, and the counter. *)
Definition applyTemplateRules (seq : nat) (rules : list ExtractRuleForm) (next previous : option SourceTemplate) :
    list ExtractRuleForm * nat :=
  let kept := List.filter (λ r, negb (existsb (sameRule r) (extract_of previous))) rules in
  let '(added, seq') := ruleForms seq (List.filter (λ r, negb (existsb (λ k, sameRule k r) kept)) (extract_of next)) in
  (added ++ kept, seq').

(** * Facts *)

Lemma ruleForms_app seq a b :
  ruleForms seq (a ++ b) =
    let '(fa, s1) := ruleForms seq a in let '(fb, s2) := ruleForms s1 b in (fa ++ fb, s2).
Proof.
  revert seq. induction a as [|r a IH]; intros seq; simpl; [by destruct (ruleForms seq b)|].
  rewrite IH. destruct (ruleForms (seq + 1) a) as [fa s1]. by destruct (ruleForms s1 b).
Qed.

(** What is edited of a rule, its key apart. *)
Definition rule_content (f : ExtractRuleForm) : jsstr * jsstr * jsstr * jsstr :=
  (rf_name f, rf_contains f, rf_prefix f, rf_regex f).
Definition rule_of (r : ExtractRule) : jsstr * jsstr * jsstr * jsstr :=
  (nullish (er_name r) [], nullish (er_contains r) [], nullish (er_prefix r) [], er_regex r).

Lemma ruleForms_content seq rules : map rule_content (ruleForms seq rules).1 = map rule_of rules.
Proof.
  revert seq. induction rules as [|r rules IH]; intros seq; simpl; [done|].
  specialize (IH (seq + 1)). destruct (ruleForms (seq + 1) rules). simpl in *. by f_equal.
Qed.

Lemma sameRule_form seq r : sameRule (ruleForm seq r).1 r = true.
Proof. unfold sameRule. simpl. by rewrite !bool_decide_eq_true_2. Qed.

Lemma group_start_length a s : group_start a = Some s → length s ≤ length a.
Proof. unfold group_start. repeat case_match; intros; simplify_eq/=; lia. Qed.

(** More fuel than pattern makes no difference: the scan always finishes. *)
Lemma capture_loop_fuel f1 f2 b rest names :
  length rest ≤ f1 → length rest ≤ f2 → capture_loop f1 b rest names = capture_loop f2 b rest names.
Proof.
  revert f2 b rest names. induction f1 as [|f1 IH]; intros [|f2] b [|c r] names H1 H2; simpl in H1, H2; try lia; try done.
  assert (∀ k, length (drop k r) ≤ length r) as Hd by (intros k; rewrite length_drop; lia).
  cbn [capture_loop]. repeat case_match; try done; apply IH; rewrite ?length_drop; try lia.
  all: match goal with E : group_start _ = Some _ |- _ => apply group_start_length in E end;
    specialize (Hd 1); lia.
Qed.

(** The names found are names: not empty, and each only once. *)
Lemma capture_loop_names f b rest names :
  NoDup names → Forall (λ n, truthy n = true) names →
  NoDup (capture_loop f b rest names) ∧ Forall (λ n, truthy n = true) (capture_loop f b rest names).
Proof.
  revert b rest names. induction f as [|f IH]; intros b [|c r] names Hd Ht; try done.
  cbn [capture_loop]. repeat case_match; try done; try (by apply IH).
  match goal with H : (_ && _) = true |- _ => apply andb_prop in H as [Htr Hn] end.
  apply negb_true_iff, bool_decide_eq_false in Hn. apply IH.
  - apply NoDup_app. split_and!; [done| |apply NoDup_singleton]. by intros x Hx ->%list_elem_of_singleton.
  - apply Forall_app. by rewrite Forall_singleton.
Qed.

Lemma templateDefaultParts_sub t x : x ∈ templateDefaultParts t → x ∈ map tp_id (parts_of t).
Proof.
  unfold templateDefaultParts. rewrite !list_elem_of_In, !in_map_iff. intros (p & <- & Hp).
  apply filter_In in Hp as [Hp _]. eauto.
Qed.

Lemma resolve_sub t stored x : x ∈ resolveTemplateParts t stored → x ∈ map tp_id (parts_of t).
Proof.
  unfold resolveTemplateParts. destruct (parts_of t) as [|p ps] eqn:E; [by intros ?%elem_of_nil|].
  destruct stored as [|i is']; [rewrite <- E; apply templateDefaultParts_sub|].
  rewrite !list_elem_of_In, !in_map_iff. intros (q & <- & Hq). apply filter_In in Hq as [Hq _]. eauto.
Qed.

Lemma toggle_mem t stored id on x :
  x ∈ toggleTemplatePart t stored id on ↔
  x ∈ map tp_id (parts_of t) ∧ (if decide (x = id) then on = true else x ∈ resolveTemplateParts t stored).
Proof.
  unfold toggleTemplatePart. rewrite !list_elem_of_In, !in_map_iff. split.
  - intros (p & <- & Hp). apply filter_In in Hp as [Hp Hin]. apply bool_decide_eq_true in Hin.
    split; [eauto|]. destruct on; case_decide as Hx; try done.
    + by apply elem_of_cons in Hin as [?|?].
    + apply list_elem_of_In, filter_In in Hin as [_ Hneg]. apply negb_true_iff, bool_decide_eq_false in Hneg. done.
    + by apply list_elem_of_In, filter_In in Hin as [Hin%list_elem_of_In _].
  - intros [(p & <- & Hp) Hx]. exists p. split; [done|]. apply filter_In. split; [done|].
    apply bool_decide_eq_true. case_decide as He.
    + subst. left.
    + destruct on; [by right|]. apply list_elem_of_In, filter_In. split; [by apply list_elem_of_In|].
      by apply negb_true_iff, bool_decide_eq_false.
Qed.
