(* ===== verification/SourceForm.v ===== *)
(** The source editor's form (src/frontend/src/features/sources/
    source-form.ts): the form state, its conversion from and to the stored
    configuration, and the errors it reports.

    Counts in the configuration are numbers of the language.  [errors] is
    mutated by the helpers of [formToConfig]; here it is passed through them. *)
From Stdlib Require Import Lia ZArith.
From stdpp Require Import base list numbers strings.
From S2P Require Import Prelude Unicode JsNumber FilterLex UrlState SourceTemplates.

(** * Configuration *)

Inductive SourceType := ty_syslog | ty_http_json.
Inductive Protocol := pr_udp | pr_tcp | pr_tls.
Inductive LogFormat := fm_auto | fm_rfc5424 | fm_rfc3164.
Inductive RawMessage := rm_always | rm_on_error | rm_never.
Inductive HostnameFallback := hf_none | hf_ip.
Inductive SdFlatten := sd_full | sd_short.
Inductive Framing := fr_auto | fr_octet_counting | fr_lf | fr_nul.
Inductive TlsVersion := tls_1_2 | tls_1_3.
Inductive ClientAuth := ca_none | ca_request | ca_require_and_verify.

Record SourceACMEConfig := MkAcme {
  ac_enabled : option bool; ac_domains : option (list jsstr); ac_email : option jsstr;
  ac_staging : option bool; ac_accept_terms : option bool; ac_skip_preflight : option bool
}.
Record SourceTLSConfig := MkTls {
  tl_cert_file : option jsstr; tl_key_file : option jsstr; tl_cert : option jsstr; tl_key : option jsstr;
  tl_min_version : option TlsVersion; tl_client_auth : option ClientAuth;
  tl_client_ca_file : option jsstr; tl_client_ca : option jsstr; tl_acme : option SourceACMEConfig
}.
Record SourceUDPConfig := MkUdp { ud_sockets : option Number; ud_read_buffer_bytes : option jsstr }.

Record SourceConfig := MkSourceConfig {
  sc_name : jsstr; sc_type : SourceType; sc_protocol : option Protocol; sc_address : option jsstr;
  sc_format : option LogFormat; sc_timezone : option jsstr; sc_allowed_cidrs : option (list jsstr);
  sc_max_message_bytes : option jsstr; sc_raw_message : option RawMessage;
  sc_hostname_fallback : option HostnameFallback; sc_sd_flatten : option SdFlatten;
  sc_labels : option (list (jsstr * jsstr)); sc_framing : option Framing; sc_max_connections : option Number;
  sc_idle_timeout : option jsstr; sc_udp : option SourceUDPConfig; sc_tls : option SourceTLSConfig;
  sc_extract : option (list ExtractRule); sc_template : option jsstr; sc_template_parts : option (list jsstr)
}.

(** The members of a managed source the form reads. *)
Record ManagedSource := MkManagedSource {
  ms_id : option jsstr; ms_config : SourceConfig; ms_enabled : bool; ms_key_stored : option bool
}.

(** * Form state *)

Inductive TlsMode := mode_acme | mode_paste | mode_files.

Record SourceFormState := MkSourceForm {
  f_name : jsstr; f_type : SourceType; f_enabled : bool; f_protocol : Protocol; f_address : jsstr;
  f_format : LogFormat; f_timezone : jsstr; f_allowed_cidrs : jsstr; f_max_message_bytes : jsstr;
  f_raw_message : RawMessage; f_hostname_fallback : HostnameFallback; f_sd_flatten : SdFlatten;
  f_labels : jsstr; f_framing : Framing; f_max_connections : jsstr; f_idle_timeout : jsstr;
  f_udp_sockets : jsstr; f_udp_read_buffer_bytes : jsstr; f_tls_mode : TlsMode; f_tls_cert_file : jsstr;
  f_tls_key_file : jsstr; f_tls_cert : jsstr; f_tls_key : jsstr; f_tls_key_stored : bool;
  f_tls_min_version : TlsVersion; f_tls_client_auth : ClientAuth; f_tls_client_ca_file : jsstr;
  f_tls_client_ca : jsstr; f_tls_acme_domains : jsstr; f_tls_acme_email : jsstr; f_tls_acme_staging : bool;
  f_tls_acme_accept_terms : bool; f_tls_acme_skip_preflight : bool; f_extract : list ExtractRuleForm;
  f_template : jsstr; f_template_parts : list jsstr
}.

Definition DEFAULT_SOURCE_FORM : SourceFormState := {|
  f_name := []; f_type := ty_syslog; f_enabled := true; f_protocol := pr_udp; f_address := $":5514";
  f_format := fm_auto; f_timezone := $"UTC"; f_allowed_cidrs := []; f_max_message_bytes := [];
  f_raw_message := rm_on_error; f_hostname_fallback := hf_none; f_sd_flatten := sd_full; f_labels := [];
  f_framing := fr_auto; f_max_connections := []; f_idle_timeout := []; f_udp_sockets := [];
  f_udp_read_buffer_bytes := []; f_tls_mode := mode_paste; f_tls_cert_file := []; f_tls_key_file := [];
  f_tls_cert := []; f_tls_key := []; f_tls_key_stored := false; f_tls_min_version := tls_1_2;
  f_tls_client_auth := ca_none; f_tls_client_ca_file := []; f_tls_client_ca := []; f_tls_acme_domains := [];
  f_tls_acme_email := []; f_tls_acme_staging := true; f_tls_acme_accept_terms := false;
  f_tls_acme_skip_preflight := false; f_extract := []; f_template := TEMPLATE_NONE; f_template_parts := [] |}.

(** [keyof SourceFormState] *)
Inductive SourceFormField :=
| K_name | K_type | K_enabled | K_protocol | K_address | K_format | K_timezone | K_allowed_cidrs
| K_max_message_bytes | K_raw_message | K_hostname_fallback | K_sd_flatten | K_labels | K_framing
| K_max_connections | K_idle_timeout | K_udp_sockets | K_udp_read_buffer_bytes | K_tls_mode | K_tls_cert_file
| K_tls_key_file | K_tls_cert | K_tls_key | K_tls_key_stored | K_tls_min_version | K_tls_client_auth
| K_tls_client_ca_file | K_tls_client_ca | K_tls_acme_domains | K_tls_acme_email | K_tls_acme_staging
| K_tls_acme_accept_terms | K_tls_acme_skip_preflight | K_extract | K_template | K_template_parts.
#[export] Instance SourceFormField_eq_dec : EqDecision SourceFormField.
Proof. solve_decision. Defined.

(** [applyTemplate]: the rules, the template and its default parts. *)
Definition applyTemplate (seq : nat) (form : SourceFormState) (next previous : option SourceTemplate) :
    SourceFormState * nat :=
  let '(rules, seq') := applyTemplateRules seq (f_extract form) next previous in
  ({| f_name := f_name form; f_type := f_type form; f_enabled := f_enabled form; f_protocol := f_protocol form;
      f_address := f_address form; f_format := f_format form; f_timezone := f_timezone form;
      f_allowed_cidrs := f_allowed_cidrs form; f_max_message_bytes := f_max_message_bytes form;
      f_raw_message := f_raw_message form; f_hostname_fallback := f_hostname_fallback form;
      f_sd_flatten := f_sd_flatten form; f_labels := f_labels form; f_framing := f_framing form;
      f_max_connections := f_max_connections form; f_idle_timeout := f_idle_timeout form;
      f_udp_sockets := f_udp_sockets form; f_udp_read_buffer_bytes := f_udp_read_buffer_bytes form;
      f_tls_mode := f_tls_mode form; f_tls_cert_file := f_tls_cert_file form; f_tls_key_file := f_tls_key_file form;
      f_tls_cert := f_tls_cert form; f_tls_key := f_tls_key form; f_tls_key_stored := f_tls_key_stored form;
      f_tls_min_version := f_tls_min_version form; f_tls_client_auth := f_tls_client_auth form;
      f_tls_client_ca_file := f_tls_client_ca_file form; f_tls_client_ca := f_tls_client_ca form;
      f_tls_acme_domains := f_tls_acme_domains form; f_tls_acme_email := f_tls_acme_email form;
      f_tls_acme_staging := f_tls_acme_staging form; f_tls_acme_accept_terms := f_tls_acme_accept_terms form;
      f_tls_acme_skip_preflight := f_tls_acme_skip_preflight form; f_extract := rules;
      f_template := match next with Some t => st_id t | None => TEMPLATE_NONE end;
      f_template_parts := templateDefaultParts next |}, seq').

(** * Sections *)

Record Sections := MkSections { s_network : bool; s_stream : bool; s_udp : bool; s_tls : bool }.

Definition sourceSections (ty : SourceType) (pr : Protocol) : Sections :=
  let syslog := match ty with ty_syslog => true | _ => false end in
  MkSections syslog
    (syslog && match pr with pr_tcp | pr_tls => true | _ => false end)
    (syslog && match pr with pr_udp => true | _ => false end)
    (syslog && match pr with pr_tls => true | _ => false end).

(** * From the configuration *)

(** [x ?? ''] *)
Abbreviation orEmpty o := (nullish o []).
Definition truthy_opt (o : option jsstr) : bool := match o with Some s => truthy s | None => false end.

Definition tlsMode (tls : option SourceTLSConfig) (keyStored : bool) : TlsMode :=
  if match tls with
     | Some t => match tl_acme t with Some a => nullish (ac_enabled a) false | None => false end
     | None => false
     end then mode_acme
  else if truthy (trim (match tls with Some t => orEmpty (tl_cert t) | None => [] end)) || keyStored then mode_paste
  else if match tls with Some t => truthy_opt (tl_cert_file t) || truthy_opt (tl_key_file t) | None => false end then mode_files
  else f_tls_mode DEFAULT_SOURCE_FORM.

(** [n ? String(n) : ''] *)
Definition count_string (n : option Number) : jsstr :=
  match n with Some n => if neq n (num 0) || isNaN n then [] else num_to_string n | None => [] end.

(** The form of a source, its extract rules being given. *)
Definition configForm (source : ManagedSource) (extract : list ExtractRuleForm) : SourceFormState :=
  let c := ms_config source in
  let tls {A} (get : SourceTLSConfig → option A) : option A := match sc_tls c with Some t => get t | None => None end in
  let acme := tls tl_acme in
  let of_acme {A} (get : SourceACMEConfig → option A) : option A := match acme with Some a => get a | None => None end in
  {| f_name := sc_name c; f_type := sc_type c; f_enabled := ms_enabled source;
      f_protocol := nullish (sc_protocol c) pr_udp; f_address := orEmpty (sc_address c);
      f_format := nullish (sc_format c) fm_auto; f_timezone := nullish (sc_timezone c) $"UTC";
      f_allowed_cidrs := join [LF] (nullish (sc_allowed_cidrs c) []);
      f_max_message_bytes := orEmpty (sc_max_message_bytes c);
      f_raw_message := nullish (sc_raw_message c) rm_on_error;
      f_hostname_fallback := nullish (sc_hostname_fallback c) hf_none;
      f_sd_flatten := nullish (sc_sd_flatten c) sd_full;
      f_labels := join [LF] (map (λ kv, kv.1 ++ [EQUALS] ++ kv.2) (nullish (sc_labels c) []));
      f_framing := nullish (sc_framing c) fr_auto; f_max_connections := count_string (sc_max_connections c);
      f_idle_timeout := orEmpty (sc_idle_timeout c);
      f_udp_sockets := count_string (match sc_udp c with Some u => ud_sockets u | None => None end);
      f_udp_read_buffer_bytes := orEmpty (match sc_udp c with Some u => ud_read_buffer_bytes u | None => None end);
      f_tls_mode := tlsMode (sc_tls c) (nullish (ms_key_stored source) false);
      f_tls_cert_file := orEmpty (tls tl_cert_file); f_tls_key_file := orEmpty (tls tl_key_file);
      f_tls_cert := orEmpty (tls tl_cert); f_tls_key := []; f_tls_key_stored := nullish (ms_key_stored source) false;
      f_tls_min_version := nullish (tls tl_min_version) tls_1_2;
      f_tls_client_auth := nullish (tls tl_client_auth) ca_none;
      f_tls_client_ca_file := orEmpty (tls tl_client_ca_file); f_tls_client_ca := orEmpty (tls tl_client_ca);
      f_tls_acme_domains := join [LF] (nullish (of_acme ac_domains) []);
      f_tls_acme_email := orEmpty (of_acme ac_email);
      f_tls_acme_staging := if nullish (of_acme ac_enabled) false then nullish (of_acme ac_staging) false
                            else f_tls_acme_staging DEFAULT_SOURCE_FORM;
      f_tls_acme_accept_terms := nullish (of_acme ac_accept_terms) false;
      f_tls_acme_skip_preflight := nullish (of_acme ac_skip_preflight) false;
      f_extract := extract; f_template := nullish (sc_template c) TEMPLATE_NONE;
      f_template_parts := nullish (sc_template_parts c) [] |}.

Definition configToForm (seq : nat) (source : ManagedSource) : SourceFormState * nat :=
  let '(extract, seq') := ruleForms seq (nullish (sc_extract (ms_config source)) []) in
  (configForm source extract, seq').

(** * Errors *)

Record SourceErrors := MkErrors {
  e_fields : list (SourceFormField * jsstr); e_rules : list (nat * jsstr); e_general : list jsstr
}.
Definition emptySourceErrors : SourceErrors := MkErrors [] [] [].

Definition setField (e : SourceErrors) (k : SourceFormField) (m : jsstr) : SourceErrors :=
  MkErrors (assoc_set (e_fields e) k m) (e_rules e) (e_general e).
Definition setRule (e : SourceErrors) (i : nat) (m : jsstr) : SourceErrors :=
  MkErrors (e_fields e) (assoc_set (e_rules e) i m) (e_general e).
Definition pushGeneral (e : SourceErrors) (m : jsstr) : SourceErrors :=
  MkErrors (e_fields e) (e_rules e) (e_general e ++ [m]).

Definition hasErrors (e : SourceErrors) : bool :=
  match e_general e, e_fields e, e_rules e with [], [], [] => false | _, _, _ => true end.

(** * To the configuration *)

Definition is_line_sep (c : N) : bool := (c =? LF)%N || (c =? COMMA)%N.
Definition lines (text : jsstr) : list jsstr := List.filter truthy (map trim (split_on is_line_sep text)).

Definition parseCount (value : jsstr) (field : SourceFormField) (e : SourceErrors) : option Number * SourceErrors :=
  let t := trim value in
  if negb (truthy t) then (None, e)
  else
    let n := str_to_number t in
    if negb (isInteger n) || nlt n (num 0) then (None, setField e field $"Must be a whole number of 0 or more.")
    else (Some n, e).

(** The lines of the labels field, from the labels read so far. *)
Fixpoint labels_loop (ls : list jsstr) (out : list (jsstr * jsstr)) : result jsstr (list (jsstr * jsstr)) :=
  match ls with
  | [] => Ok out
  | line :: r =>
      let t := trim line in
      if negb (truthy t) then labels_loop r out
      else match index_of EQUALS t with
      | Some (S k) => labels_loop r (assoc_set out (trim (take (S k) t)) (trim (drop (S (S k)) t)))
      | _ => Err t
      end
  end.

Definition parseLabels (text : jsstr) (e : SourceErrors) : option (list (jsstr * jsstr)) * SourceErrors :=
  match labels_loop (split_on (λ c, (c =? LF)%N) text) [] with
  | Err t => (None, setField e K_labels ($"Use one key=value per line (“" ++ t ++ $"” has no key)."))
  | Ok [] => (None, e)
  | Ok out => (Some out, e)
  end.

(** [if (cond) errors.fields\[k\] = m] *)
Definition require (ok : bool) (k : SourceFormField) (m : jsstr) (e : SourceErrors) : SourceErrors :=
  if ok then e else setField e k m.

Definition tlsConfig (f : SourceFormState) (e : SourceErrors) : SourceTLSConfig * SourceErrors :=
  let ca := trim (match f_tls_mode f with mode_files => f_tls_client_ca_file f | _ => f_tls_client_ca f end) in
  let ca_file := match f_tls_mode f with mode_files => or_undef ca | _ => None end in
  let ca_pem := match f_tls_mode f with mode_files => None | _ => or_undef ca end in
  let tls cert_file key_file cert key acme :=
    MkTls cert_file key_file cert key (Some (f_tls_min_version f)) (Some (f_tls_client_auth f)) ca_file ca_pem acme in
  match f_tls_mode f with
  | mode_acme =>
      let domains := lines (f_tls_acme_domains f) in
      let e := require (negb (bool_decide (domains = []))) K_tls_acme_domains
                 $"At least one hostname is required to ask for a certificate." e in
      let e := require (f_tls_acme_accept_terms f) K_tls_acme_accept_terms
                 $"Asking an authority for a certificate accepts its subscriber agreement." e in
      (tls None None None None
         (Some (MkAcme (Some true) (Some domains) (or_undef (trim (f_tls_acme_email f))) (Some (f_tls_acme_staging f))
                  (Some (f_tls_acme_accept_terms f)) (Some (f_tls_acme_skip_preflight f)))), e)
  | mode_paste =>
      let cert := trim (f_tls_cert f) in
      let key := trim (f_tls_key f) in
      let e := if negb (truthy cert) then setField e K_tls_cert $"The certificate is required; paste it in PEM form."
               else if negb (truthy key) && negb (f_tls_key_stored f)
               then setField e K_tls_key $"The private key for this certificate is required." else e in
      (tls None None (or_undef cert) (or_undef key) None, e)
  | mode_files =>
      let cert := trim (f_tls_cert_file f) in
      let key := trim (f_tls_key_file f) in
      let e := require (truthy cert) K_tls_cert_file $"A path on the Syslogc host is required." e in
      let e := require (truthy key) K_tls_key_file $"A path on the Syslogc host is required." e in
      (tls (or_undef cert) (or_undef key) None None None, e)
  end.

(** One rule of the form, at its position. *)
Definition extractRule (i : nat) (r : ExtractRuleForm) (e : SourceErrors) : ExtractRule * SourceErrors :=
  let regex := trim (rf_regex r) in
  let e := if negb (truthy regex) then setRule e i $"A pattern is required."
           else match captureGroupNames regex with
                | [] => setRule e i $"The pattern has no named capture groups, so it would produce no fields."
                | _ => e
                end in
  (MkExtractRule (or_undef (trim (rf_name r))) (if truthy (trim (rf_contains r)) then Some (rf_contains r) else None)
     (or_undef (trim (rf_prefix r))) regex, e).

Fixpoint extractRules_from (i : nat) (forms : list ExtractRuleForm) (e : SourceErrors) : list ExtractRule * SourceErrors :=
  match forms with
  | [] => ([], e)
  | r :: rs =>
      let '(rule, e) := extractRule i r e in
      let '(rules, e) := extractRules_from (S i) rs e in
      (rule :: rules, e)
  end.
Definition extractRules (forms : list ExtractRuleForm) (e : SourceErrors) : list ExtractRule * SourceErrors :=
  extractRules_from 0 forms e.

(** [if (l.length) config.x = l] *)
Definition some_list {A} (l : list A) : option (list A) := match l with [] => None | _ => Some l end.

Definition formToConfig (f : SourceFormState) : SourceConfig * SourceErrors :=
  let s := sourceSections (f_type f) (f_protocol f) in
  let e := emptySourceErrors in
  let name := trim (f_name f) in
  let e := require (truthy name) K_name $"Name is required." e in
  let address := trim (f_address f) in
  let e := require (negb (s_network s) || truthy address) K_address $"Address is required." e in
  let '(labels, e) := parseLabels (f_labels f) e in
  let '(max, e) := if s_stream s then parseCount (f_max_connections f) K_max_connections e else (None, e) in
  let '(sockets, e) := if s_udp s then parseCount (f_udp_sockets f) K_udp_sockets e else (None, e) in
  let buffer := trim (f_udp_read_buffer_bytes f) in
  let '(tls, e) := if s_tls s then let '(t, e) := tlsConfig f e in (Some t, e) else (None, e) in
  let '(extract, e) := extractRules (f_extract f) e in
  (MkSourceConfig name (f_type f)
     (if s_network s then Some (f_protocol f) else None)
     (if s_network s then Some address else None)
     (Some (f_format f)) (Some (or_else (trim (f_timezone f)) $"UTC"))
     (some_list (lines (f_allowed_cidrs f))) (or_undef (trim (f_max_message_bytes f)))
     (Some (f_raw_message f)) (Some (f_hostname_fallback f)) (Some (f_sd_flatten f)) labels
     (if s_stream s then Some (f_framing f) else None) max
     (if s_stream s then or_undef (trim (f_idle_timeout f)) else None)
     (if s_udp s && (match sockets with Some _ => true | None => false end || truthy buffer)
      then Some (MkUdp sockets (or_undef buffer)) else None)
     tls (some_list extract) (or_undef (f_template f))
     (if truthy (f_template f) then some_list (f_template_parts f) else None), e).

(** * Problems reported by the server *)

Definition CONFIG_FIELD : list (jsstr * SourceFormField) :=
  [($"name", K_name); ($"template", K_template); ($"type", K_type); ($"protocol", K_protocol); ($"address", K_address);
   ($"format", K_format); ($"timezone", K_timezone); ($"allowed_cidrs", K_allowed_cidrs);
   ($"max_message_bytes", K_max_message_bytes); ($"raw_message", K_raw_message);
   ($"hostname_fallback", K_hostname_fallback); ($"sd_flatten", K_sd_flatten); ($"labels", K_labels);
   ($"framing", K_framing); ($"max_connections", K_max_connections); ($"idle_timeout", K_idle_timeout);
   ($"udp.sockets", K_udp_sockets); ($"udp.read_buffer_bytes", K_udp_read_buffer_bytes); ($"tls", K_tls_mode);
   ($"tls.cert_file", K_tls_cert_file); ($"tls.key_file", K_tls_key_file); ($"tls.cert", K_tls_cert);
   ($"tls.key", K_tls_key); ($"tls.min_version", K_tls_min_version); ($"tls.client_auth", K_tls_client_auth);
   ($"tls.client_ca_file", K_tls_client_ca_file); ($"tls.client_ca", K_tls_client_ca);
   ($"tls.acme.domains", K_tls_acme_domains); ($"tls.acme.email", K_tls_acme_email);
   ($"tls.acme.accept_terms", K_tls_acme_accept_terms)].

(** The longest prefix of the path that names a field, from [n] parts down. *)
Fixpoint configField_from (n : nat) (parts : list jsstr) : option SourceFormField :=
  match n with
  | 0 => None
  | S n' => match assoc_get CONFIG_FIELD (join [DOT] (take n parts)) with
            | Some f => Some f
            | None => configField_from n' parts
            end
  end.
Definition configField (key : jsstr) : option SourceFormField :=
  let parts := split_on (λ c, (c =? DOT)%N) key in configField_from (length parts) parts.

Definition addFieldError (e : SourceErrors) (k : SourceFormField) (m : jsstr) : SourceErrors :=
  setField e k (match assoc_get (e_fields e) k with
                | Some ex => if truthy ex then ex ++ [SPACE] ++ m else m
                | None => m
                end).
Definition addRuleError (e : SourceErrors) (i : nat) (m : jsstr) : SourceErrors :=
  setRule e i (match assoc_get (e_rules e) i with
               | Some ex => if truthy ex then ex ++ [SPACE] ++ m else m
               | None => m
               end).

(** [l.findIndex(p)] *)
Fixpoint find_index {A} (p : A → bool) (l : list A) : option nat :=
  match l with
  | [] => None
  | x :: r => if p x then Some 0 else S <$> find_index p r
  end.

(** [/^rule-(\d+)$/]: the position, from 0; positions beyond any list are not
    distinguished. *)
Definition rule_number (id : jsstr) : option nat :=
  if starts_with $"rule-" id && truthy (drop 5 id) && forallb is_digit (drop 5 id)
  then match digits_val (drop 5 id) with N0 => None | n => Some (N.to_nat (n - 1)) end
  else None.

(** Rules are known by their names here. *)
Definition extractRuleIndex (rules : list jsstr) (id : jsstr) : option nat :=
  match find_index (λ name, bool_decide (trim name = id)) rules with
  | Some i => Some i
  | None => match rule_number id with
            | Some i => if i <? length rules then Some i else None
            | None => None
            end
  end.

(** [s.split(/;\s*/)] *)
Fixpoint split_clauses_go (skip : bool) (s : jsstr) : list jsstr :=
  match s with
  | [] => [[]]
  | c :: r =>
      if skip && is_space c then split_clauses_go true r
      else if (c =? SEMI)%N then [] :: split_clauses_go true r
      else match split_clauses_go false r with
           | [] => [[c]]
           | w :: ws => (c :: w) :: ws
           end
  end.
Definition split_clauses (s : jsstr) : list jsstr := split_clauses_go false s.

(** [/^extract (\S+?):\s*(.+)$/] after [extract ]: the rule and the message. *)
Fixpoint extract_clause (acc s : jsstr) : option (jsstr * jsstr) :=
  match s with
  | [] => None
  | c :: r =>
      let rest := drop_while is_space r in
      if (c =? COLON)%N && truthy acc && truthy rest && forallb (λ u, negb (is_line_terminator u)) rest
      then Some (acc, rest)
      else if is_space c then None
      else extract_clause (acc ++ [c]) r
  end.
Definition EXTRACT_RE (text : jsstr) : option (jsstr * jsstr) :=
  if starts_with $"extract " text then extract_clause [] (drop 8 text) else None.

(** [/^(\[a-z_\]+(?:\.\[a-z_\]+){0,2})/] *)
Definition is_key_unit (c : N) : bool := is_lower c || (c =? UNDERSCORE)%N.
Fixpoint key_tail (n : nat) (s : jsstr) : jsstr :=
  match n, s with
  | S n', d :: r =>
      if (d =? DOT)%N
      then match take_while is_key_unit r with
           | [] => []
           | w => [DOT] ++ w ++ key_tail n' (drop_while is_key_unit r)
           end
      else []
  | _, _ => []
  end.
Definition KEY_RE (text : jsstr) : option jsstr :=
  match take_while is_key_unit text with
  | [] => None
  | w => Some (w ++ key_tail 2 (drop_while is_key_unit text))
  end.

Definition strip_prefix (p s : jsstr) : jsstr := if starts_with p s then drop (length p) s else s.

(** [clause.replace(/^source:\s*/, '').trim()] *)
Definition clause_text (clause : jsstr) : jsstr :=
  trim (if starts_with $"source:" clause then drop_while is_space (drop 7 clause) else clause).

Definition place_clause (rules : list jsstr) (e : SourceErrors) (clause : jsstr) : SourceErrors :=
  let text := clause_text clause in
  if negb (truthy text) then e
  else
    let fallback :=
      match (k ← KEY_RE text; configField k) with
      | Some field => addFieldError e field text
      | None => pushGeneral e text
      end in
    match EXTRACT_RE text with
    | Some (id, msg) =>
        match extractRuleIndex rules id with
        | Some at_ => addRuleError e at_ msg
        | None => fallback
        end
    | None => fallback
    end.

Record ProblemEntry := MkEntry { pe_pointer : option jsstr; pe_message : option jsstr }.
Record Problem := MkSourceProblem { pb_detail : option jsstr; pb_errors : option (list ProblemEntry) }.

(** [pointer.replace(/^\/?config\/?/, '')] *)
Definition config_path (pointer : jsstr) : jsstr :=
  let p := strip_prefix [SLASH] pointer in
  if starts_with $"config" p then strip_prefix [SLASH] (drop 6 p) else pointer.

Definition place_entry (rules : list jsstr) (e : SourceErrors) (entry : jsstr * jsstr) : SourceErrors :=
  let path := config_path entry.1 in
  let direct := if truthy path then configField (replace_units (λ c, (c =? SLASH)%N) [DOT] path) else None in
  match direct with
  | Some field => addFieldError e field entry.2
  | None => fold_left (place_clause rules) (split_clauses entry.2) e
  end.

(** The pointer and message of every entry of a problem. *)
Definition problem_entries (problem : option Problem) (fallback : jsstr) : list (jsstr * jsstr) :=
  let detail := match problem with Some p => nullish (pb_detail p) fallback | None => fallback end in
  match problem with
  | Some p =>
      match pb_errors p with
      | Some (x :: l) => map (λ e, (orEmpty (pe_pointer e), or_else (orEmpty (pe_message e)) detail)) (x :: l)
      | _ => [([], detail)]
      end
  | None => [([], detail)]
  end.

Definition sourceProblemErrors (problem : option Problem) (fallback : jsstr) (rules : list jsstr) : SourceErrors :=
  let e := fold_left (place_entry rules) (problem_entries problem fallback) emptySourceErrors in
  if hasErrors e then e else pushGeneral e fallback.

(** * Routes and links *)

Definition sourceRouteId (s : ManagedSource) : jsstr :=
  match ms_id s with Some i => i | None => $"file:" ++ sc_name (ms_config s) end.

Inductive RouteKind := route_new | route_file | route_managed.
Definition parseSourceRouteId (param : jsstr) : RouteKind * jsstr :=
  if decide (param = $"new") then (route_new, [])
  else if starts_with $"file:" param then (route_file, drop 5 param)
  else (route_managed, param).

Definition sourceExplorerSearch (name : jsstr) : ExplorerSearch :=
  MkExplorerSearch $"now-1h" $"now" None (Some ($"source=" ++ quote name)) None visual None None None.

(** * Certificates *)

Definition CERT_EXPIRY_WARNING_DAYS : Z := 30.

Inductive Tone := tone_ok | tone_warn | tone_fail | tone_idle.

(** The certificate's validity as [Date.parse] reads it, and what else is read of it. *)
Record CertificateInfo := MkCertificate {
  ci_not_before : option Z; ci_not_after : option Z; ci_self_signed : bool; ci_chain : Z
}.
Record CertificateStatus := MkCertStatus {
  cs_daysRemaining : option Z; cs_expired : bool; cs_attention : bool; cs_tone : Tone; cs_notes : list jsstr
}.

Definition certificateStatus (cert : CertificateInfo) (now : Z) : CertificateStatus :=
  let ms := (λ t, t - now)%Z <$> ci_not_after cert in
  let days := (λ t, t / 86400000)%Z <$> ms in
  let expired := match ms with Some m => (m <=? 0)%Z | None => false end in
  let early := match ci_not_before cert with Some b => (now <? b)%Z | None => false end in
  let soon := negb expired && match days with Some d => (d <? CERT_EXPIRY_WARNING_DAYS)%Z | None => false end in
  let d := nullish days 0%Z in
  let validity :=
    if expired then [$"This certificate has expired. Senders are refusing the connection until it is replaced."]
    else if early then [$"This certificate is not valid yet, so senders will refuse it until its start date."]
    else if soon
    then [if (d <=? 0)%Z
          then $"This certificate expires today. Replace it now, or senders will start refusing the connection."
          else $"This certificate expires in " ++ decz d ++ [SPACE] ++ (if (d =? 1)%Z then $"day" else $"days")
               ++ $". Replace it before then."]
    else [] in
  let trust :=
    if ci_self_signed cert then [$"Self-signed: every sender has to be told to trust this certificate specifically."]
    else if (ci_chain cert <=? 1)%Z
    then [$"Only one certificate was pasted. An authority-issued certificate usually needs its intermediates too."]
    else [] in
  MkCertStatus days expired (expired || early || soon)
    (if expired || early then tone_fail else if soon then tone_warn else tone_ok) (validity ++ trust).

Inductive AcmeState := acme_none | acme_pending | acme_staging | acme_ready | acme_failed.
Record AcmeStatus := MkAcmeStatus { as_state : AcmeState; as_label : jsstr; as_tone : Tone }.
Record SourceACMEStatus := MkSourceAcme {
  sa_staging : bool; sa_obtained : option (list (jsstr * jsstr)); sa_error : option jsstr
}.

Definition acmeStatus (acme : option SourceACMEStatus) : AcmeStatus :=
  match acme with
  | None => MkAcmeStatus acme_none $"not using Let’s Encrypt" tone_idle
  | Some a =>
      match nullish (sa_obtained a) [] with
      | _ :: _ =>
          if sa_staging a then MkAcmeStatus acme_staging $"staging certificate" tone_warn
          else MkAcmeStatus acme_ready $"certificate obtained" tone_ok
      | [] =>
          if truthy (trim (orEmpty (sa_error a))) then MkAcmeStatus acme_failed $"no certificate" tone_fail
          else MkAcmeStatus acme_pending $"no certificate yet" tone_idle
      end
  end.

Definition rawMessageHint (policy : RawMessage) (hasExtractRules : bool) : jsstr :=
  match policy with
  | rm_always =>
      $"Every message is stored exactly as it arrived, alongside the parsed fields. "
      ++ $"This is what you need while writing extract rules, and it roughly doubles what this source costs to store."
  | rm_never =>
      if hasExtractRules
      then $"Originals are discarded, so there is nothing to check an extract rule against when one stops matching. "
           ++ $"Keep them always while you are working on the rules."
      else $"Originals are discarded. Nothing can be recovered from a message that parsed into the wrong fields."
  | rm_on_error =>
      $"Originals are kept only for messages that failed to parse. "
      ++ $"Choose " ++ [DQUOTE] ++ $"always" ++ [DQUOTE]
      ++ $" while writing extract rules or mapping attributes — it is what you test them against."
  end.

Inductive SourceState := state_running | state_stopped | state_error | state_disabled.
Definition sourceStateTone (state : option SourceState) : Tone :=
  match state with
  | Some state_running => tone_ok
  | Some state_error => tone_fail
  | Some state_stopped => tone_warn
  | _ => tone_idle
  end.

Example problem_ex :
  sourceProblemErrors
    (Some (MkSourceProblem (Some $"source: address is taken; tls.acme.domains: none; extract dns: bad; extract rule-2: worse; what") None))
    $"failed" [$"dns"; []]
  = MkErrors [(K_address, $"address is taken"); (K_tls_acme_domains, $"tls.acme.domains: none")]
      [(0, $"bad"); (1, $"worse")] [$"what"].
Proof. vm_compute. reflexivity. Qed.
