(* ===== verification/JsNumberFacts.v ===== *)
(** Integers are exact: the numbers of the language that are integers below
    2^53 behave as [Z], and printing one and reading it back gives it again. *)
From Stdlib Require Import ZArith NArith Lia.
From Stdlib Require Import SpecFloat.
From stdpp Require Import base list numbers strings.
From S2P Require Import Prelude Unicode JsNumber.
Open Scope Z_scope.

(** * The binary representation of a small integer *)

Lemma digits2_shift p d : Zpos (digits2_pos (Pos.iter xO p d)) = Zpos (digits2_pos p) + Zpos d.
Proof.
  induction d as [|d IH] using Pos.peano_ind; [simpl; lia|]. rewrite Pos.iter_succ. simpl. lia.
Qed.

Lemma iter_xO_value p d : Zpos (Pos.iter xO p d) = Zpos p * 2 ^ Zpos d.
Proof.
  induction d as [|d IH] using Pos.peano_ind; [simpl; lia|]. rewrite Pos.iter_succ, Pos2Z.inj_succ, Z.pow_succ_r by lia.
  rewrite (Pos2Z.inj_xO (Pos.iter xO p d)). lia.
Qed.

Lemma digits2_bound p : 2 ^ (Zpos (digits2_pos p) - 1) <= Zpos p < 2 ^ Zpos (digits2_pos p).
Proof.
  induction p as [p IH|p IH|]; [| |simpl; lia];
    cbn [digits2_pos]; rewrite Pos2Z.inj_succ; (rewrite (Pos2Z.inj_xI p) || rewrite (Pos2Z.inj_xO p));
    rewrite Z.pow_succ_r by lia;
    replace (Z.succ (Zpos (digits2_pos p)) - 1) with (Z.succ (Zpos (digits2_pos p) - 1)) by lia;
    rewrite Z.pow_succ_r by lia; lia.
Qed.

Lemma digits2_le p k : Zpos p < 2 ^ k → Zpos (digits2_pos p) <= k.
Proof.
  intros H. destruct (Z.le_gt_cases (Zpos (digits2_pos p)) k); [done|].
  pose proof (digits2_bound p) as [Hl _].
  assert (2 ^ k <= 2 ^ (Zpos (digits2_pos p) - 1)) by (apply Z.pow_le_mono_r; lia). lia.
Qed.

Lemma shr_fexp_normal m e :
  Zpos (digits2_pos m) = 53 → -1074 <= e →
  shr_fexp 53 1024 (Zpos m) e loc_Exact = (Build_shr_record (Zpos m) false false, e).
Proof.
  intros Hm He. unfold shr_fexp, Zdigits2, fexp, emin. rewrite Hm.
  replace (Z.max (53 + e - 53) (3 - 1024 - 53) - e) with 0 by lia. done.
Qed.

Lemma round_normal m e :
  Zpos (digits2_pos m) = 53 → -1074 <= e <= 971 →
  binary_round_aux 53 1024 false (Zpos m) e loc_Exact = S754_finite false m e.
Proof.
  intros Hm He. unfold binary_round_aux. rewrite shr_fexp_normal by (done || lia). simpl.
  rewrite shr_fexp_normal by (done || lia). simpl. by replace (e <=? 1024 - 53) with true by lia.
Qed.

Lemma num_pos p :
  Zpos p < 2 ^ 53 →
  ∃ m e, num (Zpos p) = S754_finite false m e ∧ -53 <= e <= 0 ∧ Zpos m = Zpos p * 2 ^ (- e).
Proof.
  intros Hp. apply digits2_le in Hp. unfold num, binary_normalize, binary_round, fexp, emin, shl_align.
  set (d := Zpos (digits2_pos p)) in *. assert (1 <= d) by lia.
  replace (Z.max (d + 0 - 53) (3 - 1024 - 53) - 0) with (d - 53) by lia.
  replace (Z.max (d + 0 - 53) (3 - 1024 - 53)) with (d - 53) by lia.
  destruct (d - 53) as [|q|q] eqn:E; [|lia|].
  - exists p, 0. rewrite round_normal by lia. split_and!; [done|lia|lia|]. rewrite Z.mul_1_r. done.
  - exists (Pos.iter xO p q), (Zneg q). rewrite round_normal; [|rewrite digits2_shift; lia|lia].
    split_and!; [done|lia|lia|]. rewrite iter_xO_value. done.
Qed.

Lemma to_integer_num z : 0 <= z < 2 ^ 53 → to_integer (num z) = Some z.
Proof.
  intros Hz. destruct z as [|p|p]; [done| |lia].
  destruct (num_pos p) as (m & e & -> & He & Hm); [lia|]. cbn [to_integer fmap option_fmap option_map].
  destruct (Z.leb_spec 0 e).
  - replace e with 0 in * by lia. rewrite Hm. simpl. f_equal. lia.
  - rewrite Hm, Z.mod_mul, Z.div_mul by (apply Z.pow_nonzero; lia). done.
Qed.

Lemma num_inj a b : 0 <= a < 2 ^ 53 → 0 <= b < 2 ^ 53 → num a = num b → a = b.
Proof. intros Ha Hb E. apply (f_equal to_integer) in E. rewrite !to_integer_num in E by done. congruence. Qed.

Lemma neq_num a b : 0 <= a < 2 ^ 53 → 0 <= b < 2 ^ 53 → neq (num a) (num b) = (a =? b).
Proof.
  intros Ha Hb. destruct (Z.eqb_spec a b) as [->|Hne].
  - unfold neq, SFeqb. destruct b as [|p|p]; [done| |lia]. destruct (num_pos p) as (m & e & -> & _); [lia|].
    simpl. rewrite Z.compare_refl. by rewrite Pos.compare_cont_refl.
  - destruct (neq (num a) (num b)) eqn:E; [|done]. exfalso. apply Hne, num_inj; [done..|].
    unfold neq, SFeqb in E. destruct a as [|p|p], b as [|q|q]; try lia; try done.
    + destruct (num_pos q) as (m & e & H & _); [lia|]. by rewrite H in E.
    + destruct (num_pos p) as (m & e & H & _); [lia|]. by rewrite H in E.
    + destruct (num_pos p) as (m & e & Hp & _); [lia|]. destruct (num_pos q) as (m' & e' & Hq & _); [lia|].
      rewrite Hp, Hq in *. simpl in E. destruct (Z.compare_spec e e'); try done. subst.
      destruct (Pos.compare_cont Eq m m') eqn:Ec; try done. apply Pos.compare_eq in Ec. by subst.
Qed.

(** The same, with the mantissa known to be normal. *)
Lemma num_normal p :
  Zpos p < 2 ^ 53 →
  ∃ m e, num (Zpos p) = S754_finite false m e ∧ -53 <= e <= 0 ∧ Zpos m = Zpos p * 2 ^ (- e) ∧ 2 ^ 52 <= Zpos m < 2 ^ 53.
Proof.
  intros Hp. destruct (num_pos p Hp) as (m & e & E & He & Hm). exists m, e. split_and!; try done; try lia.
  all: assert (Zpos (digits2_pos m) = 53) as Hd; [|pose proof (digits2_bound m) as Hb; rewrite Hd in Hb; lia].
  all: revert E; apply digits2_le in Hp; unfold num, binary_normalize, binary_round, fexp, emin, shl_align;
    set (d := Zpos (digits2_pos p)) in *; assert (1 <= d) by lia;
    replace (Z.max (d + 0 - 53) (3 - 1024 - 53) - 0) with (d - 53) by lia;
    replace (Z.max (d + 0 - 53) (3 - 1024 - 53)) with (d - 53) by lia;
    destruct (d - 53) as [|q|q] eqn:E; [|lia|]; rewrite round_normal by (rewrite ?digits2_shift; lia);
    intros [= <- <-]; rewrite ?digits2_shift; lia.
Qed.

Lemma nlt_num a b : 0 <= a < 2 ^ 53 → 0 <= b < 2 ^ 53 → nlt (num a) (num b) = (a <? b).
Proof.
  intros Ha Hb. unfold nlt, SFltb. destruct a as [|p|p], b as [|q|q]; try lia; try done.
  - destruct (num_normal q) as (m & e & -> & _); [lia|done].
  - destruct (num_normal p) as (m & e & -> & _); [lia|done].
  - destruct (num_normal p) as (m & e & -> & He & Hm & Hr); [lia|].
    destruct (num_normal q) as (m' & e' & -> & He' & Hm' & Hr'); [lia|]. cbn [SFcompare].
    assert (∀ x y, x < y → 2 * 2 ^ (- y) <= 2 ^ (- x) ∨ 0 < y) as Hpow.
    { intros x y Hxy. destruct (Z.le_gt_cases y 0); [left|by right]. rewrite <- Z.pow_succ_r by lia. apply Z.pow_le_mono_r; lia. }
    destruct (Z.compare_spec e e') as [->|Hlt|Hlt].
    + change (Pos.compare_cont Eq m m') with (Pos.compare m m').
      assert (0 < 2 ^ (- e')) by (apply Z.pow_pos_nonneg; lia).
      destruct (Pos.compare_spec m m'); symmetry; [apply Z.ltb_ge|apply Z.ltb_lt|apply Z.ltb_ge]; subst; nia.
    + destruct (Hpow e e' Hlt); [|lia]. symmetry. apply Z.ltb_lt. nia.
    + destruct (Hpow e' e Hlt); [|lia]. symmetry. apply Z.ltb_ge. nia.
Qed.

(** * Printing *)

Lemma scaled_floor_num p m e k :
  Zpos m = Zpos p * 2 ^ (- e) → e <= 0 →
  scaled_floor m e k = if 0 <=? k then Zpos p * 10 ^ k else Zpos p / 10 ^ (- k).
Proof.
  intros Hm He. unfold scaled_floor. assert (0 < 2 ^ (- e)) as H2 by (apply Z.pow_pos_nonneg; lia).
  destruct (Z.leb_spec 0 e) as [H0|H0].
  - replace e with 0 in * by lia. rewrite Hm. change (2 ^ - 0) with 1. change (2 ^ 0) with 1. rewrite !Z.mul_1_r, ?Z.mul_1_l.
    destruct (Z.leb_spec 0 k); [by rewrite Z.div_1_r|]. by rewrite Z.mul_1_r.
  - rewrite Hm, Z.mul_1_r. destruct (Z.leb_spec 0 k).
    + rewrite Z.mul_1_r. replace (Zpos p * 2 ^ (- e) * 10 ^ k) with (Zpos p * 10 ^ k * 2 ^ (- e)) by lia.
      by rewrite Z.div_mul by lia.
    + rewrite Z.mul_1_r, Z.mul_comm with (n := 2 ^ (- e)). apply Z.div_mul_cancel_r; [|lia]. apply Z.pow_nonzero; lia.
Qed.

Section decimal.
Local Open Scope N_scope.

Lemma dec_go_fuel f1 f2 n acc :
  (N.size_nat n < f1)%nat → (N.size_nat n < f2)%nat → dec_go f1 n acc = dec_go f2 n acc.
Proof.
  revert f2 n acc. induction f1 as [|f1 IH]; intros [|f2] n acc H1 H2; try lia. cbn [dec_go].
  destruct (N.eqb_spec (n / 10) 0); [done|].
  assert (n / 10 <= n / 2) as Hle by (apply N.div_le_compat_l; lia).
  apply size_nat_half in Hle; [|by intros ->]. apply IH; lia.
Qed.

Lemma dec_go_acc f n acc : dec_go f n acc = dec_go f n [] ++ acc.
Proof.
  revert n acc. induction f as [|f IH]; intros n acc; [done|]. cbn [dec_go]. case_match; [done|].
  rewrite IH. rewrite (IH _ [_]). by rewrite <- app_assoc.
Qed.

Lemma dec_snoc n d : 0 < n → d < 10 → dec (n * 10 + d) = dec n ++ [48 + d].
Proof.
  intros Hn Hd. assert ((n * 10 + d) / 10 = n ∧ (n * 10 + d) mod 10 = d) as [Ediv Emod].
  { split; [rewrite N.div_add_l, N.div_small by lia; lia|].
    rewrite (N.add_comm (n * 10)), N.Div0.mod_add. by apply N.mod_small. }
  unfold dec at 1. cbn [dec_go]. rewrite Ediv, Emod.
  replace (n =? 0) with false by (symmetry; apply N.eqb_neq; lia). rewrite dec_go_acc. f_equal. unfold dec.
  apply dec_go_fuel; [|lia].
  assert (n <= (n * 10 + d) / 2) as Hle by (apply N.div_le_lower_bound; lia).
  apply size_nat_half in Hle; lia.
Qed.

Lemma dec_mul_pow n j : 0 < n → dec (n * 10 ^ N.of_nat j) = dec n ++ replicate j 48.
Proof.
  intros Hn. induction j as [|j IH]; [by rewrite N.mul_1_r, app_nil_r|].
  rewrite Nat2N.inj_succ, N.pow_succ_r'. replace (n * (10 * 10 ^ N.of_nat j)) with (n * 10 ^ N.of_nat j * 10 + 0) by lia.
  rewrite dec_snoc; [|apply N.mul_pos_pos; [done|]; apply N.neq_0_lt_0, N.pow_nonzero; done|done]. rewrite IH.
  change (48 + 0) with 48. by rewrite <- app_assoc, <- replicate_cons_app.
Qed.

Lemma digits_val_bound ds : forallb is_digit ds = true → digits_val ds < 10 ^ N.of_nat (length ds).
Proof.
  induction ds as [|c ds IH] using rev_ind; [done|]. rewrite forallb_app, digits_val_snoc, length_app.
  intros [Hd Hc]%andb_prop. specialize (IH Hd). cbn in Hc. rewrite andb_true_r in Hc. unfold is_digit, in_range in Hc. btrue.
  cbn [length]. rewrite Nat.add_1_r, Nat2N.inj_succ, N.pow_succ_r'. lia.
Qed.

(** A positive number has as many digits as its size says. *)
Lemma dec_length_bounds n : 0 < n → 10 ^ N.of_nat (length (dec n) - 1) <= n < 10 ^ N.of_nat (length (dec n)).
Proof.
  intros Hn. split.
  - destruct (N.le_gt_cases (10 ^ N.of_nat (length (dec n) - 1)) n) as [|Hlt]; [done|].
    destruct (length (dec n) - 1)%nat as [|k] eqn:E; [simpl in Hlt; lia|]. apply dec_length in Hlt. lia.
  - rewrite <- (dec_val n) at 1. apply digits_val_bound, dec_digits.
Qed.

Lemma dec_length_unique n k : 10 ^ N.of_nat k <= n < 10 ^ N.of_nat (S k) → length (dec n) = S k.
Proof.
  intros [Hl Hu]. assert (0 < n) as Hn. { eapply N.lt_le_trans; [|exact Hl]. apply N.neq_0_lt_0, N.pow_nonzero. done. }
  pose proof (dec_length_bounds n Hn) as [Hl' Hu']. pose proof (dec_length n k Hu).
  destruct (Nat.le_gt_cases (S k) (length (dec n))); [lia|]. exfalso.
  assert (10 ^ N.of_nat (length (dec n)) <= 10 ^ N.of_nat k) by (apply N.pow_le_mono_r; lia). lia.
Qed.
End decimal.

(** * Reading digits *)

Lemma digit_facts c : is_digit c = true → is_space c = false ∧ (48 <= c <= 57)%N.
Proof.
  unfold is_digit, in_range. intros Hc. btrue. split; [|lia]. unfold is_space. units.
Qed.

Lemma trim_digits ds : forallb is_digit ds = true → trim ds = ds.
Proof.
  intros Hd. assert (∀ l, forallb is_digit l = true → drop_while is_space l = l) as Hdw.
  { intros [|c l]; [done|]. simpl. intros [Hc _]%andb_prop. by destruct (digit_facts c Hc) as [-> _]. }
  unfold trim, trim_end, trim_start. rewrite (Hdw ds Hd), Hdw; [apply rev_involutive|].
  apply List.forallb_forall. intros x Hx. apply in_rev in Hx. by eapply List.forallb_forall in Hd.
Qed.

Lemma take_all_digits ds : forallb is_digit ds = true → take_while is_digit ds = ds ∧ drop_while is_digit ds = [].
Proof.
  induction ds as [|c ds IH]; [done|]. simpl. intros [-> Hd]%andb_prop. destruct (IH Hd) as [-> ->]. done.
Qed.

Lemma unsigned_digits ds :
  ds ≠ [] → forallb is_digit ds = true → unsigned_decimal ds = num_of_decimal (digits_val ds) 0.
Proof.
  intros Hne Hd. unfold unsigned_decimal. destruct (take_all_digits ds Hd) as [-> ->].
  rewrite decide_False; [|intros ->; vm_compute in Hd; discriminate Hd]. rewrite app_nil_r. by destruct ds.
Qed.

Lemma num_of_decimal_int n k : (0 < n)%N → 0 <= k → num_of_decimal n k = num (Z.of_N n * 10 ^ k).
Proof. intros Hn Hk. destruct n; [done|]. unfold num_of_decimal. by rewrite (proj2 (Z.leb_le 0 k) Hk). Qed.

Lemma str_to_number_digits ds :
  ds ≠ [] → forallb is_digit ds = true → str_to_number ds = num (Z.of_N (digits_val ds)).
Proof.
  intros Hne Hd. assert (num_of_decimal (digits_val ds) 0 = num (Z.of_N (digits_val ds))) as <-.
  { destruct (digits_val ds) eqn:E; [done|]. rewrite num_of_decimal_int by lia. f_equal. lia. }
  rewrite <- (unsigned_digits ds Hne Hd). unfold str_to_number. rewrite (trim_digits ds Hd).
  destruct ds as [|c r]; [done|]. simpl in Hd. apply andb_prop in Hd as [Hc Hr].
  destruct (digit_facts c Hc) as [_ Hcr]. rewrite (proj2 (N.eqb_neq c MINUS)), (proj2 (N.eqb_neq c PLUS)) by lia.
  destruct r as [|x r]; [done|]. simpl in Hr. apply andb_prop in Hr as [Hx _]. destruct (digit_facts x Hx) as [_ Hxr].
  rewrite !(proj2 (N.eqb_neq x _)) by lia. by rewrite !andb_false_r.
Qed.

Lemma str_to_number_dec n : str_to_number (dec n) = num (Z.of_N n).
Proof. rewrite str_to_number_digits by (apply dec_nonempty || apply dec_digits). by rewrite dec_val. Qed.

(** * Printing an integer *)

Section printing.
Context (p m : positive) (e : Z) (Hp : Zpos p < 2 ^ 52) (Hx : num (Zpos p) = S754_finite false m e)
  (He : e <= 0) (Hm : Zpos m = Zpos p * 2 ^ (- e)).

Let n : Z := Z.of_nat (length (dec (Npos p))).

Lemma pow10_bounds : 10 ^ (n - 1) <= Zpos p < 10 ^ n ∧ 1 <= n <= 16.
Proof.
  pose proof (dec_length_bounds (Npos p) ltac:(lia)) as [Hl Hu]. pose proof (dec_nonempty (Npos p)) as Hne.
  assert (1 <= n) as H1 by (unfold n; destruct (dec (Npos p)); [done|simpl; lia]).
  apply N2Z.inj_le in Hl. apply N2Z.inj_lt in Hu. rewrite N2Z.inj_pow, nat_N_Z in Hl, Hu.
  replace (Z.of_nat (length (dec (Npos p)) - 1)) with (n - 1) in Hl by lia. simpl Z.of_N in *.
  split_and!; [exact Hl|exact Hu|done|].
  destruct (Z.le_gt_cases n 16); [done|]. assert (10 ^ 16 <= 10 ^ (n - 1)) by (apply Z.pow_le_mono_r; lia). lia.
Qed.

Lemma decimal_exponent_num : decimal_exponent m e = n.
Proof.
  unfold decimal_exponent. rewrite (scaled_floor_num p m e 0 Hm He). simpl. by rewrite Pos.mul_1_r.
Qed.

(** The [k] leading digits, and whether they are all of the number. *)
Lemma shortest_loop_num f k :
  1 <= k <= n → n - k < Z.of_nat f →
  ∃ k', k <= k' <= n ∧ shortest_loop (num (Zpos p)) m e n f k = (Zpos p / 10 ^ (n - k'), n)
        ∧ Zpos p / 10 ^ (n - k') * 10 ^ (n - k') = Zpos p.
Proof.
  destruct pow10_bounds as [[Hl Hu] Hn]. revert k. induction f as [|f IH]; intros k Hk Hf; [lia|]. cbn [shortest_loop].
  assert (scaled_floor m e (k - n) = Zpos p / 10 ^ (n - k)) as ->.
  { rewrite (scaled_floor_num p m e _ Hm He). destruct (Z.leb_spec 0 (k - n)); [|by replace (- (k - n)) with (n - k) by lia].
    replace (k - n) with 0 by lia. replace (n - k) with 0 by lia. by rewrite Z.div_1_r, Z.mul_1_r. }
  set (w := 10 ^ (n - k)). assert (0 < w) as Hw by (apply Z.pow_pos_nonneg; lia).
  assert (w <= Zpos p) as Hwp by (transitivity (10 ^ (n - 1)); [apply Z.pow_le_mono_r; lia|done]).
  set (s := Zpos p / w). pose proof (Z.div_mod (Zpos p) w ltac:(lia)) as Hdm.
  pose proof (Z.mod_pos_bound (Zpos p) w Hw) as Hmod. fold s in Hdm.
  assert (0 < s) as Hs by (unfold s; apply Z.div_str_pos; lia).
  assert (∀ t, 0 < t → t * w < 2 ^ 53 → neq (num_of_decimal (Z.to_N t) (n - k)) (num (Zpos p)) = (t * w =? Zpos p)) as Hok.
  { intros t Ht Htw. rewrite num_of_decimal_int, Z2N.id by lia. fold w. apply neq_num; lia. }
  rewrite !Hok by lia. replace ((s + 1) * w =? Zpos p) with false by lia. cbn [negb orb]. rewrite andb_true_r.
  destruct (Z.eqb_spec (s * w) (Zpos p)) as [E|E].
  - exists k. split_and!; [lia..|done|done].
  - assert (k ≠ n) as Hkn. { intros ->. apply E. unfold s, w. replace (n - n) with 0 by lia. rewrite Z.div_1_r. lia. }
    destruct (IH (k + 1)) as (k' & Hk' & E1 & E2); [lia|lia|]. exists k'. split_and!; [lia|lia|done|done].
Qed.

Lemma num_to_string_pos : num_to_string (num (Zpos p)) = dec (Npos p).
Proof.
  destruct pow10_bounds as [[Hl Hu] Hn]. rewrite Hx. cbn [num_to_string]. unfold shortest_digits. rewrite decimal_exponent_num.
  rewrite <- Hx. destruct (shortest_loop_num 17 1) as (k & Hk & -> & E); [lia|lia|].
  set (w := 10 ^ (n - k)) in *. assert (0 < w) as Hw by (apply Z.pow_pos_nonneg; lia).
  set (s := Zpos p / w) in *. assert (0 < s) as Hs by lia.
  assert (Npos p = (Z.to_N s * 10 ^ N.of_nat (Z.to_nat (n - k)))%N) as Ep.
  { apply N2Z.inj. rewrite N2Z.inj_mul, N2Z.inj_pow, nat_N_Z, Z2N.id, Z2Nat.id by lia. fold w. simpl. lia. }
  assert (dec (Npos p) = dec (Z.to_N s) ++ replicate (Z.to_nat (n - k)) 48%N) as Ed by (rewrite Ep at 1; apply dec_mul_pow; lia).
  assert (Z.of_nat (length (dec (Z.to_N s))) = k) as Hlen.
  { apply (f_equal length) in Ed. rewrite length_app, length_replicate in Ed. unfold n in *. lia. }
  rewrite Hlen. replace ((k <=? n) && (n <=? 21)) with true by lia. by rewrite Ed.
Qed.
End printing.

Lemma num_to_string_num z : 0 <= z < 2 ^ 52 → num_to_string (num z) = dec (Z.to_N z).
Proof.
  intros Hz. destruct z as [|p|p]; [done| |lia]. destruct (num_pos p) as (m & e & Hx & He & Hm); [lia|].
  apply (num_to_string_pos p m e); (done || lia).
Qed.

(** [Number(String(n))] is [n]. *)
Lemma number_round_trip z : 0 <= z < 2 ^ 52 → str_to_number (num_to_string (num z)) = num z.
Proof. intros Hz. rewrite num_to_string_num by done. rewrite str_to_number_dec. by rewrite Z2N.id by lia. Qed.
