(* ===== verification/JsExact.v ===== *)
(** Exact arithmetic: sums, products, exact quotients and remainders of integers
    below 2^53 are those of [Z], because a value that is such an integer is
    represented in one way only. *)
From Stdlib Require Import ZArith NArith Lia.
From Stdlib Require Import SpecFloat.
From stdpp Require Import base list numbers strings.
From S2P Require Import Prelude JsNumber JsNumberFacts.
Open Scope Z_scope.

Example nmod_ex : nmod (num 7) (num 4) = num 3 ∧ nmod (num_of_decimal 55 (-1)) (num 2) = num_of_decimal 15 (-1).
Proof. split; vm_compute; reflexivity. Qed.

(** * Rounding a value that is an integer *)

Lemma shr_exact n m :
  SpecFloat.iter_pos shr_1 n (Build_shr_record (Zpos (Pos.iter xO m n)) false false) = Build_shr_record (Zpos m) false false.
Proof.
  revert m. induction n as [n IH|n IH|]; intros m; [| |done]; cbn [SpecFloat.iter_pos Pos.iter shr_1 orb]; by rewrite IH, IH.
Qed.

(** One representation: a normal mantissa with the value of [p]. *)
Lemma num_unique p m e : Zpos p < 2 ^ 53 → e <= 0 → Zpos m = Zpos p * 2 ^ (- e) → Zpos (digits2_pos m) = 53 →
  num (Zpos p) = S754_finite false m e.
Proof.
  intros Hp He Hm Hd. destruct (num_normal p Hp) as (m' & e' & -> & He' & Hm' & Hr').
  pose proof (digits2_bound m) as Hb. rewrite Hd in Hb. change (53 - 1) with 52 in Hb.
  assert (e' = e) as ->; [|f_equal; lia].
  destruct (Z.lt_trichotomy (- e) (- e')) as [H|[H|H]]; [exfalso|lia|exfalso].
  - replace (- e') with (- e + 1 + (- e' + e - 1)) in Hm' by lia. rewrite !Z.pow_add_r in Hm' by lia.
    assert (0 < 2 ^ (- e' + e - 1)) by (apply Z.pow_pos_nonneg; lia). nia.
  - replace (- e) with (- e' + 1 + (- e + e' - 1)) in Hm by lia. rewrite !Z.pow_add_r in Hm by lia.
    assert (0 < 2 ^ (- e + e' - 1)) by (apply Z.pow_pos_nonneg; lia). nia.
Qed.

Lemma digits_of p k m : Zpos m = Zpos p * 2 ^ k → 0 <= k → Zpos (digits2_pos m) = Zpos (digits2_pos p) + k.
Proof.
  intros Hm Hk. destruct k as [|k|]; [|rewrite <- iter_xO_value in Hm; injection Hm as ->; apply digits2_shift|lia].
  rewrite Z.mul_1_r in Hm. injection Hm as ->. lia.
Qed.

Lemma round_value q e p : Zpos p < 2 ^ 53 → -1000 <= e <= 0 → Zpos q = Zpos p * 2 ^ (- e) → 53 <= Zpos (digits2_pos q) →
  binary_round_aux 53 1024 false (Zpos q) e loc_Exact = num (Zpos p).
Proof.
  intros Hp He Hq Hd. pose proof (digits_of _ _ _ Hq ltac:(lia)) as Hdq. pose proof (digits2_le _ _ Hp) as Hdp.
  destruct (Zpos (digits2_pos q) - 53) as [|n|] eqn:En; [|  |lia].
  - rewrite round_normal by lia. symmetry. apply num_unique; lia.
  - assert (∃ m, q = Pos.iter xO m n) as [m ->].
    { exists (Z.to_pos (Zpos p * 2 ^ (- e - Zpos n))).
      assert (0 < 2 ^ (- e - Zpos n)) by (apply Z.pow_pos_nonneg; lia).
      apply Pos2Z.inj. rewrite iter_xO_value, Z2Pos.id by lia. rewrite Hq, <- Z.mul_assoc, <- Z.pow_add_r by lia.
      f_equal. f_equal. lia. }
    rewrite digits2_shift in *. rewrite iter_xO_value in Hq.
    assert (Zpos m = Zpos p * 2 ^ (- (e + Zpos n))) as Hm.
    { replace (- e) with (- (e + Zpos n) + Zpos n) in Hq by lia. rewrite Z.pow_add_r, Z.mul_assoc in Hq by lia.
      assert (0 < 2 ^ Zpos n) by (apply Z.pow_pos_nonneg; lia). nia. }
    rewrite (num_unique p m (e + Zpos n)) by lia. rewrite <- (round_normal m (e + Zpos n)) by lia.
    unfold binary_round_aux at 1. unfold shr_fexp at 1. cbn [Zdigits2 shr_record_of_loc]. unfold fexp, emin.
    rewrite digits2_shift. replace (Z.max _ _ - e) with (Zpos n) by lia. cbn [shr]. rewrite shr_exact. cbn [shr_m loc_of_shr_record round_nearest_even].
    rewrite round_normal, shr_fexp_normal by lia. cbn [shr_m]. by replace (e + Zpos n <=? 1024 - 53) with true by lia.
Qed.

Lemma normalize_value m e p z : Zpos p < 2 ^ 53 → -1000 <= e <= 0 → m = Zpos p * 2 ^ (- e) →
  binary_normalize 53 1024 m e z = num (Zpos p).
Proof.
  intros Hp He Hm. assert (0 < 2 ^ (- e)) as Hpow by (apply Z.pow_pos_nonneg; lia).
  destruct m as [|m|m]; [nia| |nia]. clear Hpow. pose proof (digits_of _ _ _ Hm ltac:(lia)) as Hdq. pose proof (digits2_le _ _ Hp) as Hdp.
  unfold binary_normalize, binary_round, shl_align, fexp, emin.
  replace (Z.max (Zpos (digits2_pos m) + e - 53) (3 - 1024 - 53)) with (Zpos (digits2_pos m) + e - 53) by lia.
  replace (Zpos (digits2_pos m) + e - 53 - e) with (Zpos (digits2_pos m) - 53) by lia.
  destruct (Zpos (digits2_pos m) - 53) as [|n|n] eqn:En; [apply round_value; lia|apply round_value; lia|].
  replace (Zpos (digits2_pos m) + e - 53) with (e - Zpos n) by lia.
  apply round_value; [lia|lia| |rewrite digits2_shift; lia].
  rewrite iter_xO_value, Hm, <- Z.mul_assoc, <- Z.pow_add_r by lia. f_equal. f_equal. lia.
Qed.

(** * The operations *)

Lemma digits2_ge q k : 0 <= k → 2 ^ k <= Zpos q → k < Zpos (digits2_pos q).
Proof.
  intros Hk Hq. apply Z.nle_gt. intros Hs. pose proof (digits2_bound q) as [_ Hu].
  assert (2 ^ Zpos (digits2_pos q) <= 2 ^ k) by (apply Z.pow_le_mono_r; lia). lia.
Qed.
Lemma normal_digits q : 2 ^ 52 <= Zpos q < 2 ^ 53 → Zpos (digits2_pos q) = 53.
Proof. intros Hq. pose proof (digits2_ge q 52 ltac:(lia) ltac:(lia)). pose proof (digits2_le q 53 ltac:(lia)). lia. Qed.

Lemma align_value m e ez p : ez <= e <= 0 → Zpos m = Zpos p * 2 ^ (- e) → Zpos (fst (shl_align m e ez)) = Zpos p * 2 ^ (- ez).
Proof.
  intros He Hm. unfold shl_align. destruct (ez - e) as [|d|d] eqn:E; cbn [fst]; [by replace ez with e by lia|lia|].
  rewrite iter_xO_value, Hm, <- Z.mul_assoc, <- Z.pow_add_r by lia. f_equal. f_equal. lia.
Qed.

Lemma nadd_num a b : 0 <= a → 0 <= b → a + b < 2 ^ 53 → nadd (num a) (num b) = num (a + b).
Proof.
  intros Ha Hb H. destruct a as [|a|a], b as [|b|b]; try lia; try done.
  - rewrite Z.add_0_l. destruct (num_pos b) as (m & e & -> & _); [lia|done].
  - rewrite Z.add_0_r. destruct (num_pos a) as (m & e & -> & _); [lia|done].
  - destruct (num_pos a) as (m & e & -> & He & Hm); [lia|]. destruct (num_pos b) as (m' & e' & -> & He' & Hm'); [lia|].
    unfold nadd, SFadd. cbv zeta. cbn [cond_Zopp]. rewrite (align_value m e _ a), (align_value m' e' _ b) by lia.
    rewrite <- Z.mul_add_distr_r. apply (normalize_value _ _ (a + b)); lia.
Qed.

Lemma nmul_num a b : 0 <= a → 0 <= b → a < 2 ^ 53 → b < 2 ^ 53 → a * b < 2 ^ 53 → nmul (num a) (num b) = num (a * b).
Proof.
  intros Ha Hb La Lb H. destruct a as [|a|a], b as [|b|b]; try lia; try done.
  - destruct (num_pos b) as (m & e & -> & _); [lia|done].
  - destruct (num_pos a) as (m & e & -> & _); [lia|done].
  - destruct (num_normal a) as (m & e & -> & He & Hm & Hr); [lia|]. destruct (num_normal b) as (m' & e' & -> & He' & Hm' & Hr'); [lia|].
    apply (round_value (m * m') (e + e') (a * b)); [lia|lia| |].
    + rewrite Pos2Z.inj_mul, Hm, Hm'. replace (- (e + e')) with (- e + - e') by lia. rewrite Z.pow_add_r by lia. lia.
    + enough (52 < Zpos (digits2_pos (m * m'))) by lia. apply digits2_ge; nia.
Qed.

(** An exact quotient. *)
Lemma ndiv_num k b : 0 <= k → 0 < b → k * b < 2 ^ 53 → b < 2 ^ 53 → ndiv (num (k * b)) (num b) = num k.
Proof.
  intros Hk Hb H Lb. destruct k as [|k|k]; [| |lia]; (destruct b as [|b|b]; [lia| |lia]).
  - destruct (num_pos b) as (m & e & -> & _); [lia|done].
  - change (Zpos k * Zpos b) with (Zpos (k * b)) in *. destruct (num_normal (k * b)) as (m & e & -> & He & Hm & Hr); [lia|].
    destruct (num_normal b) as (m' & e' & -> & He' & Hm' & Hr'); [lia|].
    unfold ndiv, SFdiv, SFdiv_core_binary, Zdigits2, fexp, emin. rewrite (normal_digits m Hr), (normal_digits m' Hr').
    replace (Z.min (Z.max (53 + e - (53 + e') - 53) (3 - 1024 - 53)) (e - e')) with (e - e' - 53) by lia.
    replace (e - e' - (e - e' - 53)) with 53 by lia. cbv zeta. rewrite Z.shiftl_mul_pow2 by lia.
    assert (Zpos m * 2 ^ 53 = Zpos k * 2 ^ (53 - e + e') * Zpos m') as Eq.
    { rewrite Hm, Hm', Pos2Z.inj_mul. replace (Zpos k * 2 ^ (53 - e + e') * (Zpos b * 2 ^ (- e')))
        with (Zpos k * Zpos b * (2 ^ (53 - e + e') * 2 ^ (- e'))) by ring.
      rewrite <- Z.mul_assoc, <- !Z.pow_add_r by lia. f_equal. f_equal. lia. }
    rewrite Eq. pose proof (Z_div_mod (Zpos k * 2 ^ (53 - e + e') * Zpos m') (Zpos m') ltac:(lia)) as Hdiv.
    destruct (Z.div_eucl _ _) as [q r]. destruct Hdiv as [Hq Hlt].
    set (Q := Zpos k * 2 ^ (53 - e + e')) in *. assert (Zpos m' * (Q - q) = r) as HQ by (rewrite Z.mul_sub_distr_l; lia).
    assert (Q - q = 0) as HQ0 by nia. assert (q = Q ∧ r = 0) as [-> ->] by lia. subst Q.
    replace (new_location (Zpos m') 0) with loc_Exact by (unfold new_location; by destruct (Z.even _)).
    assert (0 < 2 ^ (53 - e + e')) by (apply Z.pow_pos_nonneg; lia).
    destruct (Zpos k * 2 ^ (53 - e + e')) as [|q|q] eqn:Eq'; [lia| |lia].
    apply (round_value q (e - e' - 53) k); [nia|lia|rewrite <- Eq'; f_equal; f_equal; lia|].
    enough (52 < Zpos (digits2_pos q)) by lia. apply digits2_ge; nia.
Qed.

(** A remainder is that of the integers. *)
Lemma nmod_num a b : 0 <= a → 0 < b → a < 2 ^ 53 → b < 2 ^ 53 → nmod (num a) (num b) = num (a mod b).
Proof.
  intros Ha Hb La Lb. destruct b as [|b|b]; [lia| |lia]. destruct a as [|a|a]; [| |lia].
  - destruct (num_pos b) as (m & e & -> & _); [lia|done].
  - destruct (num_pos a) as (m & e & -> & He & Hm); [lia|]. destruct (num_pos b) as (m' & e' & -> & He' & Hm'); [lia|].
    cbn [nmod]. set (ez := Z.min e e').
    assert (∀ x y z, y <= 0 → ez <= y → Zpos x = z * 2 ^ (- y) → Zpos x * 2 ^ (y - ez) = z * 2 ^ (- ez)) as Hs.
    { intros x y z Hy Hz ->. rewrite <- Z.mul_assoc, <- Z.pow_add_r by lia. f_equal. f_equal. lia. }
    rewrite (Hs m e (Zpos a)), (Hs m' e' (Zpos b)) by lia.
    assert (0 < 2 ^ (- ez)) by (apply Z.pow_pos_nonneg; lia). rewrite Z.mul_mod_distr_r by lia.
    pose proof (Z.mod_pos_bound (Zpos a) (Zpos b) ltac:(lia)) as Hmod.
    destruct (Zpos a mod Zpos b) as [|r|r] eqn:Er; [done| |lia].
    destruct (Z.eqb_spec (Zpos r * 2 ^ (- ez)) 0); [nia|]. apply (normalize_value _ _ r); [lia|lia|done].
Qed.
