(* ===== verification/SourceFormProps.v ===== *)
(** What the source editor guarantees: what it accepts is a complete
    configuration, saving is stable, and no complaint of the server is lost. *)
From Stdlib Require Import Lia ZArith SpecFloat.
From stdpp Require Import base list numbers strings.
From S2P Require Import Prelude Unicode JsNumber JsNumberFacts FilterAst FilterLex FilterText FilterTextFacts FilterRoundTrip.
From S2P Require Import Fields UrlState SourceTemplates SourceForm.

(** * Errors only accumulate *)

Lemma hasErrors_false e : hasErrors e = false ↔ e = emptySourceErrors.
Proof. destruct e as [[|? ?] [|? ?] [|? ?]]; unfold hasErrors; simpl; split; intros H; by inversion H. Qed.

Lemma setField_errors e k m : hasErrors (setField e k m) = true.
Proof.
  unfold hasErrors, setField. simpl. pose proof (assoc_set_ne (e_fields e) k m).
  destruct (e_general e); [|done]. by destruct (assoc_set (e_fields e) k m).
Qed.
Lemma setRule_errors e i m : hasErrors (setRule e i m) = true.
Proof.
  unfold hasErrors, setRule. simpl. pose proof (assoc_set_ne (e_rules e) i m).
  destruct (e_general e); [|done]. destruct (e_fields e); [|done]. by destruct (assoc_set (e_rules e) i m).
Qed.

Lemma require_clean ok k m e : hasErrors (require ok k m e) = false → ok = true ∧ hasErrors e = false.
Proof. unfold require. destruct ok; [done|]. by rewrite setField_errors. Qed.

Lemma parseLabels_clean text e x e' :
  parseLabels text e = (x, e') → hasErrors e' = false →
  e' = e ∧ ∃ out, labels_loop (split_on (λ c, (c =? LF)%N) text) [] = Ok out ∧ x = some_list out.
Proof.
  unfold parseLabels. destruct (labels_loop _ _) as [out|t].
  - destruct out; intros [= <- <-] _; eauto.
  - intros [= <- <-]. by rewrite setField_errors.
Qed.

Lemma parseCount_clean v k e x e' :
  parseCount v k e = (x, e') → hasErrors e' = false →
  e' = e ∧ x = (if truthy (trim v) then Some (str_to_number (trim v)) else None)
  ∧ (∀ n, x = Some n → isInteger n = true ∧ nlt n (num 0) = false).
Proof.
  unfold parseCount. destruct (truthy (trim v)); simpl; [|by intros [= <- <-]].
  destruct (negb (isInteger _) || nlt _ _) eqn:E; [intros [= <- <-]; by rewrite setField_errors|].
  intros [= <- <-] _. split_and!; [done..|]. intros n [= <-]. by btrue.
Qed.

(** What an accepted TLS section is. *)
Definition tls_complete (f : SourceFormState) : Prop :=
  match f_tls_mode f with
  | mode_acme => lines (f_tls_acme_domains f) ≠ [] ∧ f_tls_acme_accept_terms f = true
  | mode_paste => truthy (trim (f_tls_cert f)) = true ∧ (truthy (trim (f_tls_key f)) = true ∨ f_tls_key_stored f = true)
  | mode_files => truthy (trim (f_tls_cert_file f)) = true ∧ truthy (trim (f_tls_key_file f)) = true
  end.

Lemma tlsConfig_clean f e t e' :
  tlsConfig f e = (t, e') → hasErrors e' = false → e' = e ∧ tls_complete f ∧ t = (tlsConfig f emptySourceErrors).1.
Proof.
  unfold tlsConfig, tls_complete. destruct (f_tls_mode f).
  - intros [= <- <-] H. apply require_clean in H as [H1 H]. apply require_clean in H as [H2 H].
    rewrite H1. unfold require at 1. rewrite H2. split_and!; [done| |done|done].
    by apply negb_true_iff, bool_decide_eq_false in H2.
  - destruct (truthy (trim (f_tls_cert f))); simpl; [|intros [= <- <-]; by rewrite setField_errors].
    destruct (truthy (trim (f_tls_key f))); simpl; [intros [= <- <-]; auto|].
    destruct (f_tls_key_stored f); simpl; intros [= <- <-]; [auto|]. by rewrite setField_errors.
  - intros [= <- <-] H. apply require_clean in H as [H1 H]. apply require_clean in H as [H2 H].
    rewrite H1. unfold require at 1. rewrite H2. done.
Qed.

(** A rule the editor accepts. *)
Definition rule_complete (r : ExtractRuleForm) : Prop := captureGroupNames (trim (rf_regex r)) ≠ [].

Lemma extractRules_clean i forms e x e' :
  extractRules_from i forms e = (x, e') → hasErrors e' = false →
  e' = e ∧ Forall rule_complete forms ∧ x = map (λ r, (extractRule 0 r emptySourceErrors).1) forms.
Proof.
  revert i e x. induction forms as [|r forms IH]; intros i e x; [by intros [= <- <-]|].
  cbn [extractRules_from]. unfold extractRule at 1.
  set (e1 := if negb _ then _ else _). destruct (extractRules_from (S i) forms e1) as [rs e2] eqn:E.
  intros [= <- <-] He. destruct (IH _ _ _ E He) as (-> & Hf & ->). clear IH E.
  assert (e1 = e ∧ rule_complete r) as [-> Hr]; [|split_and!; [done|by constructor|done]].
  unfold e1 in *. unfold rule_complete. destruct (truthy (trim (rf_regex r))) eqn:Et; simpl in *; [|by rewrite setRule_errors in He].
  destruct (captureGroupNames (trim (rf_regex r))); [by rewrite setRule_errors in He|done].
Qed.

(** * An accepted form *)

(** What a form without errors satisfies, and the configuration it gives. *)
Record accepted (f : SourceFormState) (labels : list (jsstr * jsstr)) : Prop := {
  acc_name : truthy (trim (f_name f)) = true;
  acc_address : s_network (sourceSections (f_type f) (f_protocol f)) = true → truthy (trim (f_address f)) = true;
  acc_labels : labels_loop (split_on (λ c, (c =? LF)%N) (f_labels f)) [] = Ok labels;
  acc_tls : s_tls (sourceSections (f_type f) (f_protocol f)) = true → tls_complete f;
  acc_rules : Forall rule_complete (f_extract f)
}.

(** [parseCount] of a field without errors. *)
Definition count_of (v : jsstr) : option Number := if truthy (trim v) then Some (str_to_number (trim v)) else None.

Definition accepted_config (f : SourceFormState) (labels : list (jsstr * jsstr)) : SourceConfig :=
  let s := sourceSections (f_type f) (f_protocol f) in
  let sockets := if s_udp s then count_of (f_udp_sockets f) else None in
  let buffer := trim (f_udp_read_buffer_bytes f) in
  MkSourceConfig (trim (f_name f)) (f_type f)
     (if s_network s then Some (f_protocol f) else None)
     (if s_network s then Some (trim (f_address f)) else None)
     (Some (f_format f)) (Some (or_else (trim (f_timezone f)) $"UTC"))
     (some_list (lines (f_allowed_cidrs f))) (or_undef (trim (f_max_message_bytes f)))
     (Some (f_raw_message f)) (Some (f_hostname_fallback f)) (Some (f_sd_flatten f)) (some_list labels)
     (if s_stream s then Some (f_framing f) else None)
     (if s_stream s then count_of (f_max_connections f) else None)
     (if s_stream s then or_undef (trim (f_idle_timeout f)) else None)
     (if s_udp s && (match sockets with Some _ => true | None => false end || truthy buffer)
      then Some (MkUdp sockets (or_undef buffer)) else None)
     (if s_tls s then Some (tlsConfig f emptySourceErrors).1 else None)
     (some_list (map (λ r, (extractRule 0 r emptySourceErrors).1) (f_extract f))) (or_undef (f_template f))
     (if truthy (f_template f) then some_list (f_template_parts f) else None).

Lemma formToConfig_accepted f c e :
  formToConfig f = (c, e) → hasErrors e = false →
  e = emptySourceErrors ∧ ∃ labels, accepted f labels ∧ c = accepted_config f labels
  ∧ (∀ n, sc_max_connections c = Some n → isInteger n = true ∧ nlt n (num 0) = false).
Proof.
  unfold formToConfig. set (s := sourceSections (f_type f) (f_protocol f)).
  set (e1 := require _ K_name _ _). set (e2 := require _ K_address _ e1).
  destruct (parseLabels (f_labels f) e2) as [labels e3] eqn:E3.
  destruct (if s_stream s then parseCount (f_max_connections f) K_max_connections e3 else (None, e3)) as [mx e4] eqn:E4.
  destruct (if s_udp s then parseCount (f_udp_sockets f) K_udp_sockets e4 else (None, e4)) as [so e5] eqn:E5.
  destruct (if s_tls s then let '(t, e) := tlsConfig f e5 in (Some t, e) else (None, e5)) as [tls e6] eqn:E6.
  destruct (extractRules (f_extract f) e6) as [ex e7] eqn:E7. intros [= <- <-] He.
  destruct (extractRules_clean _ _ _ _ _ E7 He) as (-> & Hrules & ->).
  assert (e6 = e5 ∧ (s_tls s = true → tls_complete f) ∧ tls = if s_tls s then Some (tlsConfig f emptySourceErrors).1 else None)
    as (-> & Htls & ->).
  { destruct (s_tls s); [|by injection E6 as <- <-]. destruct (tlsConfig f e5) as [t e'] eqn:Et. injection E6 as <- <-.
    destruct (tlsConfig_clean _ _ _ _ Et He) as (-> & ? & ->). done. }
  assert (e5 = e4 ∧ so = if s_udp s then count_of (f_udp_sockets f) else None) as (-> & ->).
  { destruct (s_udp s); [|by injection E5 as <- <-]. by destruct (parseCount_clean _ _ _ _ _ E5 He) as (-> & -> & _). }
  assert (e4 = e3 ∧ mx = (if s_stream s then count_of (f_max_connections f) else None)
    ∧ ∀ n, mx = Some n → isInteger n = true ∧ nlt n (num 0) = false) as (-> & -> & Hmx).
  { destruct (s_stream s); [|by injection E4 as <- <-]. by destruct (parseCount_clean _ _ _ _ _ E4 He) as (-> & -> & ?). }
  destruct (parseLabels_clean _ _ _ _ E3 He) as (-> & out & Hout & ->).
  pose proof (proj1 (hasErrors_false _) He) as Hempty.
  apply require_clean in He as [Hadr He]. apply require_clean in He as [Hname _].
  split; [done|]. exists out. split; [|done]. constructor; try done.
  intros Hn. fold s in Hn. rewrite Hn in Hadr. done.
Qed.

Lemma formToConfig_complete f labels :
  accepted f labels →
  (∀ n, s_stream (sourceSections (f_type f) (f_protocol f)) = true → count_of (f_max_connections f) = Some n →
     isInteger n = true ∧ nlt n (num 0) = false) →
  (∀ n, s_udp (sourceSections (f_type f) (f_protocol f)) = true → count_of (f_udp_sockets f) = Some n →
     isInteger n = true ∧ nlt n (num 0) = false) →
  formToConfig f = (accepted_config f labels, emptySourceErrors).
Proof.
  intros [Hname Hadr Hlab Htls Hrules] Hmx Hso. unfold formToConfig, accepted_config.
  set (s := sourceSections (f_type f) (f_protocol f)) in *.
  assert (∀ v k (b : bool), (∀ n, b = true → count_of v = Some n → isInteger n = true ∧ nlt n (num 0) = false) →
    (if b then parseCount v k emptySourceErrors else (None, emptySourceErrors)) = (if b then count_of v else None, emptySourceErrors)) as Hcount.
  { intros v k [] Hv; [|done]. unfold parseCount, count_of in *. destruct (truthy (trim v)); [|done]. cbn [negb].
    destruct (Hv _ eq_refl eq_refl) as [-> ->]. done. }
  rewrite Hname. cbn [require]. assert (negb (s_network s) || truthy (trim (f_address f)) = true) as ->
    by (destruct (s_network s); [by apply Hadr|done]). cbn [require].
  unfold parseLabels. rewrite Hlab.
  assert ((match labels with [] => (None, emptySourceErrors) | _ => (Some labels, emptySourceErrors) end)
    = (some_list labels, emptySourceErrors)) as -> by (by destruct labels).
  rewrite (Hcount _ K_max_connections (s_stream s) Hmx), (Hcount _ K_udp_sockets (s_udp s) Hso).
  assert ((if s_tls s then let '(t, e) := tlsConfig f emptySourceErrors in (Some t, e) else (None, emptySourceErrors))
    = (if s_tls s then Some (tlsConfig f emptySourceErrors).1 else None, emptySourceErrors)) as ->.
  { destruct (s_tls s); [|done]. specialize (Htls eq_refl). unfold tlsConfig, tls_complete in *. destruct (f_tls_mode f); simpl.
    - destruct Htls as [Hd ->]. rewrite bool_decide_eq_false_2 by done. done.
    - destruct Htls as [-> [->| ->]]; simpl; [done|]. by rewrite andb_false_r.
    - destruct Htls as [-> ->]. done. }
  assert (∀ i, extractRules_from i (f_extract f) emptySourceErrors
    = (map (λ r, (extractRule 0 r emptySourceErrors).1) (f_extract f), emptySourceErrors)) as Hex.
  { clear -Hrules. induction Hrules as [|r l Hr _ IH]; intros i; [done|]. cbn [extractRules_from map].
    unfold rule_complete in Hr. unfold extractRule at 1. destruct (trim (rf_regex r)) eqn:Et; [done|]. simpl negb. cbv iota.
    destruct (captureGroupNames _) eqn:Ec; [done|]. rewrite IH. f_equal. f_equal. unfold extractRule. simpl. by rewrite Et. }
  unfold extractRules. by rewrite Hex.
Qed.

(** * Reading back what was written *)

Definition line_ok (w : jsstr) : bool := truthy w && bool_decide (trim w = w) && forallb (λ c, negb (is_line_sep c)) w.

Lemma lines_ok text : Forall (λ w, line_ok w = true) (lines text).
Proof.
  unfold lines. pose proof (split_on_units is_line_sep text) as Hu. induction Hu as [|w ws Hw _ IH]; [constructor|].
  cbn [map List.filter]. destruct (truthy (trim w)) eqn:Et; [|done]. constructor; [|done].
  unfold line_ok. rewrite Et, (trim_units _ _ Hw), bool_decide_eq_true_2 by apply trim_idem. done.
Qed.

Lemma lines_join l : Forall (λ w, line_ok w = true) l → lines (join [LF] l) = l.
Proof.
  intros Hl. destruct l as [|w l]; [done|].
  assert (map trim (w :: l) = w :: l ∧ Forall (λ c, truthy c = true) (w :: l)
    ∧ Forall (λ w, forallb (λ u, negb (is_line_sep u)) w = true) (w :: l)) as (Ht & Htr & Hf).
  { induction Hl as [|x k Hx _ IH]; [done|]. unfold line_ok in Hx.
    apply andb_prop in Hx as [[? Hb%bool_decide_eq_true]%andb_prop ?]. destruct IH as (? & ? & ?).
    split_and!; [simpl; congruence|by constructor..]. }
  unfold lines. rewrite split_on_join by done. rewrite Ht. by apply filter_truthy.
Qed.

Lemma lines_some l : Forall (λ w, line_ok w = true) l → lines (join [LF] (nullish (some_list l) [])) = l.
Proof. intros Hl. destruct l; [done|]. by apply lines_join. Qed.

(** A label as the editor reads one. *)
Definition label_ok (kv : jsstr * jsstr) : bool :=
  truthy kv.1 && bool_decide (trim kv.1 = kv.1) && bool_decide (trim kv.2 = kv.2)
  && forallb (λ d, negb (EQUALS =? d)%N) kv.1 && forallb (λ c, negb (c =? LF)%N) (kv.1 ++ kv.2).

Lemma assoc_set_label (out : list (jsstr * jsstr)) k v :
  Forall (λ kv, label_ok kv = true) out → label_ok (k, v) = true → Forall (λ kv, label_ok kv = true) (assoc_set out k v).
Proof.
  induction 1 as [|[k' v'] out H Hout IH]; intros Hkv; simpl; [by constructor|]. case_decide; constructor; auto.
Qed.

Lemma labels_loop_ok ls acc out :
  Forall (λ w, forallb (λ c, negb (c =? LF)%N) w = true) ls → Forall (λ kv, label_ok kv = true) acc → NoDup acc.*1 →
  labels_loop ls acc = Ok out → Forall (λ kv, label_ok kv = true) out ∧ NoDup out.*1.
Proof.
  intros Hls. revert acc. induction Hls as [|line ls Hline _ IH]; intros acc Hacc Hd; [by intros [= <-]|].
  cbn [labels_loop]. destruct (truthy (trim line)) eqn:Et; cbn [negb]; [|by apply IH].
  destruct (index_of EQUALS (trim line)) as [[|k]|] eqn:Ei; try done.
  apply trim_units in Hline. intros Hgo. eapply (IH _ (assoc_set_label _ _ _ Hacc _) (assoc_set_nodup _ _ _ Hd)), Hgo. Unshelve.
  unfold label_ok. cbn [fst snd].
  assert (forallb (λ c, negb (c =? LF)%N) (take (S k) (trim line)) = true
    ∧ forallb (λ c, negb (c =? LF)%N) (drop (S (S k)) (trim line)) = true) as [Hlf1 Hlf2].
  { split; [rewrite <- (take_drop (S k) (trim line)) in Hline|rewrite <- (take_drop (S (S k)) (trim line)) in Hline];
      rewrite forallb_app in Hline; by apply andb_prop in Hline as [? ?]. }
  rewrite forallb_app, (trim_units _ _ Hlf1), (trim_units _ _ Hlf2), (trim_units _ _ (index_of_take _ _ _ Ei)).
  rewrite !bool_decide_eq_true_2 by apply trim_idem. rewrite !andb_true_r.
  destruct (trim line) as [|c r] eqn:El; [done|]. pose proof (trim_head _ _ _ El) as Hc. cbn [take].
  destruct (trim (c :: take k r)) eqn:Ek; [|done]. apply trim_nil in Ek. apply Forall_cons in Ek as [Ek _]. congruence.
Qed.

(** The line of a label, and that it is read back. *)
Definition label_line (kv : jsstr * jsstr) : jsstr := kv.1 ++ [EQUALS] ++ kv.2.

Lemma label_line_read kv ls acc :
  label_ok kv = true → labels_loop (label_line kv :: ls) acc = labels_loop ls (assoc_set acc kv.1 kv.2).
Proof.
  destruct kv as [k v]. unfold label_ok, label_line. cbn [fst snd]. intros H.
  apply andb_prop in H as [[[[Hk Htk%bool_decide_eq_true]%andb_prop Htv%bool_decide_eq_true]%andb_prop Heq]%andb_prop _].
  cbn [labels_loop app]. rewrite trim_app; [|done|by destruct k|done|done].
  rewrite index_of_app by done. destruct k as [|c k]; [done|]. cbn [length app truthy negb].
  change (c :: k ++ EQUALS :: v) with ((c :: k) ++ EQUALS :: v).
  rewrite (take_app_length' (c :: k)) by done.
  replace ((c :: k) ++ EQUALS :: v) with (((c :: k) ++ [EQUALS]) ++ v) by (by rewrite <- app_assoc).
  rewrite (drop_app_length' ((c :: k) ++ [EQUALS])) by (rewrite length_app; simpl; lia). by rewrite Htk, Htv.
Qed.

Lemma assoc_set_fresh (out : list (jsstr * jsstr)) k v : k ∉ out.*1 → assoc_set out k v = out ++ [(k, v)].
Proof.
  induction out as [|[k' v'] out IH]; simpl; [done|]. rewrite not_elem_of_cons. intros [Hne Hk].
  rewrite decide_False by done. by rewrite IH.
Qed.

Lemma labels_loop_lines l acc :
  Forall (λ kv, label_ok kv = true) l → NoDup (acc.*1 ++ l.*1) → labels_loop (map label_line l) acc = Ok (acc ++ l).
Proof.
  intros Hl. revert acc. induction Hl as [|[k v] l Hkv _ IH]; intros acc Hd; [by rewrite app_nil_r|].
  rewrite map_cons, label_line_read by done. cbn [fst snd].
  rewrite assoc_set_fresh, IH; [by rewrite <- app_assoc| |].
  - rewrite fmap_app, <- app_assoc. exact Hd.
  - apply NoDup_app in Hd as (_ & Hd & _). intros Hk. apply (Hd k Hk). left.
Qed.

Lemma labels_round text out :
  labels_loop (split_on (λ c, (c =? LF)%N) text) [] = Ok out →
  labels_loop (split_on (λ c, (c =? LF)%N) (join [LF] (map label_line (nullish (some_list out) [])))) [] = Ok out.
Proof.
  intros H. apply labels_loop_ok in H as [Hok Hd]; [|apply split_on_units|constructor|constructor].
  destruct out as [|kv out]; [done|]. cbn [some_list nullish]. rewrite split_on_join; [by apply labels_loop_lines|done|done|].
  apply Forall_fmap. eapply Forall_impl; [exact Hok|]. intros [k v]. unfold label_ok, label_line. simpl.
  intros [_ H]%andb_prop. rewrite forallb_app in *. apply andb_prop in H as [-> H]. simpl. done.
Qed.

Lemma trim_orEmpty s : trim (orEmpty (or_undef (trim s))) = trim s.
Proof. destruct (trim s) as [|c r] eqn:E; [done|]. cbn [or_undef truthy nullish]. rewrite <- E. apply trim_idem. Qed.

Lemma orEmpty_undef s : orEmpty (or_undef s) = s.
Proof. by destruct s. Qed.

(** * Saving again *)

(** What the server returns of a stored configuration: the private key stays there. *)
Definition stored_tls (t : SourceTLSConfig) : SourceTLSConfig :=
  MkTls (tl_cert_file t) (tl_key_file t) (tl_cert t) None (tl_min_version t) (tl_client_auth t) (tl_client_ca_file t)
    (tl_client_ca t) (tl_acme t).
Definition stored_config (c : SourceConfig) : SourceConfig :=
  MkSourceConfig (sc_name c) (sc_type c) (sc_protocol c) (sc_address c) (sc_format c) (sc_timezone c) (sc_allowed_cidrs c)
    (sc_max_message_bytes c) (sc_raw_message c) (sc_hostname_fallback c) (sc_sd_flatten c) (sc_labels c) (sc_framing c)
    (sc_max_connections c) (sc_idle_timeout c) (sc_udp c) (stored_tls <$> sc_tls c) (sc_extract c) (sc_template c)
    (sc_template_parts c).

(** Whether the server holds a key after the form was saved. *)
Definition key_held (f : SourceFormState) (ks : bool) : Prop :=
  match f_tls_mode f with mode_paste => ks = true | mode_files => ks = false | mode_acme => True end.

(** A count the editor can show: not zero, which it shows as an empty field. *)
Definition count_small (n : Number) : Prop := ∃ z, (0 < z < 2 ^ 52)%Z ∧ n = num z.

Lemma count_small_valid n : count_small n → isInteger n = true ∧ nlt n (num 0) = false.
Proof.
  intros (z & Hz & ->). unfold isInteger. rewrite to_integer_num by lia. split; [done|].
  destruct z as [|p|p]; [lia| |lia]. destruct (num_pos p) as (m & e & -> & _); [lia|done].
Qed.

Lemma count_round n : count_small n → count_of (count_string (Some n)) = Some n.
Proof.
  intros (z & Hz & ->). unfold count_string. rewrite neq_num by lia. replace (z =? 0)%Z with false by lia.
  assert (isNaN (num z) = false) as -> by (destruct z as [|p|p]; [lia| |lia]; by destruct (num_pos p) as (m & e & -> & _); [lia|]).
  cbn [orb]. rewrite num_to_string_num by lia. unfold count_of. rewrite trim_digits by apply dec_digits.
  rewrite str_to_number_dec, Z2N.id by lia. pose proof (dec_nonempty (Z.to_N z)). by destruct (dec (Z.to_N z)).
Qed.

Lemma count_string_round o : (∀ n, o = Some n → count_small n) → count_of (count_string o) = o.
Proof. destruct o as [n|]; [|done]. intros H. by apply count_round, H. Qed.

#[local] Arguments lines : simpl never.
#[local] Arguments trim : simpl never.
#[local] Arguments join : simpl never.

Lemma tls_round f f2 ks :
  tls_complete f → key_held f ks →
  let t := stored_tls (tlsConfig f emptySourceErrors).1 in
  let acme {A} (get : SourceACMEConfig → option A) : option A := match tl_acme t with Some a => get a | None => None end in
  f_tls_mode f2 = tlsMode (Some t) ks → f_tls_cert_file f2 = orEmpty (tl_cert_file t) →
  f_tls_key_file f2 = orEmpty (tl_key_file t) → f_tls_cert f2 = orEmpty (tl_cert t) → f_tls_key f2 = [] →
  f_tls_key_stored f2 = ks → f_tls_min_version f2 = f_tls_min_version f → f_tls_client_auth f2 = f_tls_client_auth f →
  f_tls_client_ca_file f2 = orEmpty (tl_client_ca_file t) → f_tls_client_ca f2 = orEmpty (tl_client_ca t) →
  f_tls_acme_domains f2 = join [LF] (nullish (acme ac_domains) []) → f_tls_acme_email f2 = orEmpty (acme ac_email) →
  f_tls_acme_staging f2 = (if nullish (acme ac_enabled) false then nullish (acme ac_staging) false else true) →
  f_tls_acme_accept_terms f2 = nullish (acme ac_accept_terms) false →
  f_tls_acme_skip_preflight f2 = nullish (acme ac_skip_preflight) false →
  tls_complete f2 ∧ (tlsConfig f2 emptySourceErrors).1 = t.
Proof.
  intros Hc Hk t acme Hm Hcf Hkf Hce Hke Hks Hmv Hcau Hcaf Hca Hd Hem Hst Hat Hsp. subst acme t.
  unfold tls_complete, key_held, tlsMode in *. unfold tlsConfig at 1.
  rewrite Hcf, Hkf, Hce, Hke, Hks, Hmv, Hcau, Hcaf, Hca, Hd, Hem, Hst, Hat, Hsp.
  unfold tlsConfig in *. destruct (f_tls_mode f); cbn in Hm; rewrite Hm; clear Hm Hcf Hkf Hce Hke Hks Hmv Hcau Hcaf Hca Hd Hem Hst Hat Hsp.
  - destruct Hc as [Hdom Hterms]. cbn. rewrite lines_join by apply lines_ok. rewrite !trim_orEmpty, Hterms. done.
  - destruct Hc as [Hcert Hkey]. subst ks. rewrite orb_true_r. cbn. rewrite !trim_orEmpty, Hcert. auto.
  - destruct Hc as [Hcert Hkey]. subst ks. cbn.
    assert (truthy_opt (or_undef (trim (f_tls_cert_file f))) = true) as -> by (by destruct (trim (f_tls_cert_file f))).
    change (trim []) with (@nil N). cbn. rewrite !trim_orEmpty, Hcert, Hkey. done.
Qed.

(** The rule sent depends on what is edited of it only. *)
Definition rule_out (x : jsstr * jsstr * jsstr * jsstr) : ExtractRule :=
  let '(name, contains, prefix, regex) := x in
  MkExtractRule (or_undef (trim name)) (if truthy (trim contains) then Some contains else None) (or_undef (trim prefix)) (trim regex).

Lemma rule_out_content r e : (extractRule 0 r e).1 = rule_out (rule_content r).
Proof. reflexivity. Qed.

Lemma rule_out_of x : rule_out (rule_of (rule_out x)) = rule_out x.
Proof.
  destruct x as [[[name contains] prefix] regex]. unfold rule_out, rule_of. cbn [er_name er_contains er_prefix er_regex].
  rewrite !trim_orEmpty, trim_idem. f_equal.
  destruct (truthy (trim contains)) eqn:E; cbn [nullish]; [by rewrite E|]. change (trim []) with (@nil N). done.
Qed.

Lemma rules_round seq forms :
  Forall rule_complete forms →
  let rules := map (λ r, (extractRule 0 r emptySourceErrors).1) forms in
  Forall rule_complete (ruleForms seq rules).1
  ∧ map (λ r, (extractRule 0 r emptySourceErrors).1) (ruleForms seq rules).1 = rules.
Proof.
  intros Hf rules. pose proof (ruleForms_content seq rules) as Hc. split.
  - assert (Forall (λ x, captureGroupNames (trim x.2) ≠ []) (map rule_content (ruleForms seq rules).1)) as H.
    { rewrite Hc. subst rules. rewrite !Forall_fmap. eapply Forall_impl; [exact Hf|]. intros r Hr. cbn. by rewrite trim_idem. }
    rewrite Forall_fmap in H. eapply Forall_impl; [exact H|]. done.
  - etrans; [apply (map_ext _ (λ r, rule_out (rule_content r))); reflexivity|].
    rewrite <- (map_map rule_content rule_out), Hc. subst rules. rewrite !map_map. apply map_ext. intros r.
    rewrite rule_out_content. apply rule_out_of.
Qed.

Lemma some_list_nullish {A} (l : list A) : nullish (some_list l) [] = l.
Proof. by destruct l. Qed.

Lemma configToForm_form seq source :
  (configToForm seq source).1 = configForm source (ruleForms seq (nullish (sc_extract (ms_config source)) [])).1.
Proof. unfold configToForm. by destruct (ruleForms seq _). Qed.

(** The sections do not depend on the protocol shown for a source without one. *)
Lemma sections_round ty pr :
  sourceSections ty (nullish (if s_network (sourceSections ty pr) then Some pr else None) pr_udp) = sourceSections ty pr.
Proof. by destruct ty, pr. Qed.

Lemma or_else_round s d : trim d = d → d ≠ [] → or_else (trim (or_else (trim s) d)) d = or_else (trim s) d.
Proof.
  intros Hd Hne. unfold or_else. destruct (truthy (trim s)) eqn:E; [by rewrite trim_idem, E|]. rewrite Hd. by destruct d.
Qed.

(** The members of the reopened form, by the sections the form was saved with. *)
Record reopened (f : SourceFormState) (s : Sections) (labels : list (jsstr * jsstr)) (udp : option SourceUDPConfig)
    (ks : bool) (f2 : SourceFormState) : Prop := {
  ro_name : f_name f2 = trim (f_name f);
  ro_type : f_type f2 = f_type f;
  ro_protocol : f_protocol f2 = nullish (if s_network s then Some (f_protocol f) else None) pr_udp;
  ro_address : f_address f2 = orEmpty (if s_network s then Some (trim (f_address f)) else None);
  ro_format : f_format f2 = f_format f;
  ro_timezone : f_timezone f2 = or_else (trim (f_timezone f)) $"UTC";
  ro_cidrs : f_allowed_cidrs f2 = join [LF] (nullish (some_list (lines (f_allowed_cidrs f))) []);
  ro_bytes : f_max_message_bytes f2 = orEmpty (or_undef (trim (f_max_message_bytes f)));
  ro_raw : f_raw_message f2 = f_raw_message f;
  ro_host : f_hostname_fallback f2 = f_hostname_fallback f;
  ro_sd : f_sd_flatten f2 = f_sd_flatten f;
  ro_labels : f_labels f2 = join [LF] (map label_line (nullish (some_list labels) []));
  ro_framing : f_framing f2 = nullish (if s_stream s then Some (f_framing f) else None) fr_auto;
  ro_max : f_max_connections f2 = count_string (if s_stream s then count_of (f_max_connections f) else None);
  ro_idle : f_idle_timeout f2 = orEmpty (if s_stream s then or_undef (trim (f_idle_timeout f)) else None);
  ro_sockets : f_udp_sockets f2 = count_string (match udp with Some u => ud_sockets u | None => None end);
  ro_buffer : f_udp_read_buffer_bytes f2 = orEmpty (match udp with Some u => ud_read_buffer_bytes u | None => None end);
  ro_template : f_template f2 = nullish (or_undef (f_template f)) [];
  ro_parts : f_template_parts f2 = nullish (if truthy (f_template f) then some_list (f_template_parts f) else None) [];
  ro_tls : s_tls s = true → tls_complete f → key_held f ks →
    tls_complete f2 ∧ (tlsConfig f2 emptySourceErrors).1 = stored_tls (tlsConfig f emptySourceErrors).1
}.

Lemma reopened_form f labels id ks ex :
  let s := sourceSections (f_type f) (f_protocol f) in
  let c := accepted_config f labels in
  reopened f s labels (sc_udp c) ks (configForm (MkManagedSource id (stored_config c) (f_enabled f) (Some ks)) ex).
Proof.
  intros s c. constructor; try reflexivity. intros Htls Hc Hk.
  apply (tls_round f _ ks Hc Hk); unfold c, accepted_config; fold s; cbn -[tlsConfig stored_tls tlsMode s]; rewrite ?Htls;
    first [reflexivity | unfold tlsConfig; by destruct (f_tls_mode f)].
Qed.

Lemma reopened_config f labels ks f2 :
  let s := sourceSections (f_type f) (f_protocol f) in
  let c := accepted_config f labels in
  reopened f s labels (sc_udp c) ks f2 →
  sourceSections (f_type f2) (f_protocol f2) = s →
  (s_stream s = true → count_of (f_max_connections f2) = count_of (f_max_connections f)) →
  count_of (f_udp_sockets f2) = (match sc_udp c with Some u => ud_sockets u | None => None end) →
  (s_tls s = true → (tlsConfig f2 emptySourceErrors).1 = stored_tls (tlsConfig f emptySourceErrors).1) →
  map (λ r, (extractRule 0 r emptySourceErrors).1) (f_extract f2) = map (λ r, (extractRule 0 r emptySourceErrors).1) (f_extract f) →
  accepted_config f2 labels = stored_config c.
Proof.
  intros s c [En Ety Epr Ead Efo Etz Eci Eby Era Eho Esd Ela Efr Emx Eid Eso Ebu Ete Epa _] Esec Hmx Hso Htls Hex.
  unfold accepted_config. rewrite Esec, Hex. subst c. unfold stored_config, accepted_config in *. cbn [sc_name sc_type sc_protocol sc_address
    sc_format sc_timezone sc_allowed_cidrs sc_max_message_bytes sc_raw_message sc_hostname_fallback sc_sd_flatten sc_labels sc_framing
    sc_max_connections sc_idle_timeout sc_udp sc_tls sc_extract sc_template sc_template_parts] in *.
  fold s in Hso, Eso, Ebu. fold s. rewrite En, Ety, Efo, Etz, Eci, Eby, Era, Eho, Esd, Ete, Epa. f_equal.
  - apply trim_idem.
  - rewrite Epr. by destruct (s_network s).
  - rewrite Ead. destruct (s_network s); [|done]. cbn [nullish]. by rewrite trim_idem.
  - f_equal. by apply or_else_round.
  - f_equal. apply lines_some, lines_ok.
  - by rewrite trim_orEmpty.
  - rewrite Efr. by destruct (s_stream s).
  - destruct (s_stream s); [auto|done].
  - rewrite Eid. destruct (s_stream s); [|done]. by rewrite trim_orEmpty.
  - rewrite Hso, Ebu. destruct (s_udp s); [|done]. cbn [andb].
    destruct (count_of (f_udp_sockets f)) as [n|], (truthy (trim (f_udp_read_buffer_bytes f))) eqn:Eb; cbn [orb ud_sockets ud_read_buffer_bytes];
      rewrite ?trim_orEmpty, ?Eb; done.
  - destruct (s_tls s); [|done]. cbn. by rewrite Htls.
  - by destruct (f_template f).
  - destruct (f_template f); [done|]. cbn. by rewrite some_list_nullish.
Qed.

Lemma save_stable f labels seq id ks :
  accepted f labels →
  let c := accepted_config f labels in
  (∀ n, sc_max_connections c = Some n → count_small n) →
  (∀ u n, sc_udp c = Some u → ud_sockets u = Some n → count_small n) →
  (s_tls (sourceSections (f_type f) (f_protocol f)) = true → key_held f ks) →
  formToConfig (configToForm seq (MkManagedSource id (stored_config c) (f_enabled f) (Some ks))).1
  = (stored_config c, emptySourceErrors).
Proof.
  intros [Hname Hadr Hlab Htls Hrules] c Hmx Hso Hks. rewrite configToForm_form.
  cbn [ms_config sc_extract stored_config]. unfold c at 2. cbn [accepted_config sc_extract]. rewrite some_list_nullish.
  destruct (rules_round seq (f_extract f) Hrules) as [Hr1 Hr2].
  set (ex := (ruleForms seq _).1) in *.
  pose proof (reopened_form f labels id ks ex) as Hro. cbv zeta in Hro. fold c in Hro.
  assert (f_extract (configForm (MkManagedSource id (stored_config c) (f_enabled f) (Some ks)) ex) = ex) as Eex by done.
  revert Hro Eex. generalize (configForm (MkManagedSource id (stored_config c) (f_enabled f) (Some ks)) ex). intros f2 Hro Eex.
  pose proof Hro as [En Ety Epr Ead Efo Etz Eci Eby Era Eho Esd Ela Efr Emx Eid Eso Ebu Ete Epa Etl].
  assert (sourceSections (f_type f2) (f_protocol f2) = sourceSections (f_type f) (f_protocol f)) as Esec
    by (rewrite Ety, Epr; apply sections_round).
  set (s := sourceSections (f_type f) (f_protocol f)) in *.
  assert (s_tls s = true → tls_complete f2 ∧ (tlsConfig f2 emptySourceErrors).1 = stored_tls (tlsConfig f emptySourceErrors).1) as Htls2 by auto.
  assert (count_of (f_max_connections f2) = if s_stream s then count_of (f_max_connections f) else None) as Hmx2
    by (rewrite Emx; apply count_string_round, Hmx).
  set (so := match sc_udp c with Some u => ud_sockets u | None => None end) in *.
  assert (count_of (f_udp_sockets f2) = so) as Hso2.
  { rewrite Eso. apply count_string_round. intros n. unfold so. destruct (sc_udp c) as [u|] eqn:Eu; [|done]. by apply Hso. }
  rewrite (formToConfig_complete f2 labels).
  - f_equal. apply (reopened_config f labels ks f2 Hro Esec); [|done|intros Ht; by apply Htls2|by rewrite Eex].
    intros Hst. fold s in Hst. by rewrite Hmx2, Hst.
  - constructor.
    + rewrite En, trim_idem. done.
    + rewrite Esec. intros Hn. rewrite Ead, Hn. cbn [nullish]. rewrite trim_idem. auto.
    + rewrite Ela. by apply (labels_round (f_labels f)).
    + rewrite Esec. intros Ht. by apply Htls2.
    + by rewrite Eex.
  - intros n Hst. rewrite Hmx2. intros E. by apply count_small_valid, Hmx.
  - intros n Hst. rewrite Hso2. intros E. apply count_small_valid. unfold so in E. destruct (sc_udp c) as [u|]; [|done]. by apply (Hso u).
Qed.

(** * No complaint is lost *)

Lemma starts_with_app t a b : starts_with t a = true → starts_with t (a ++ b) = true.
Proof.
  revert a. induction t as [|c t IH]; intros [|d a]; simpl; try done. intros [-> H]%andb_prop. simpl. auto.
Qed.
Lemma includes_app_l t a b : includes t a = true → includes t (a ++ b) = true.
Proof.
  induction a as [|c a IH]; cbn [includes app].
  - rewrite orb_false_r. destruct t; [|done]. by destruct b.
  - intros [H|H]%orb_prop; apply orb_true_iff; [left|right; auto]. by apply (starts_with_app t (c :: a)).
Qed.
Lemma includes_app_r t a b : includes t b = true → includes t (a ++ b) = true.
Proof. induction a as [|c a IH]; [done|]. intros H. cbn [app includes]. rewrite IH by done. apply orb_true_r. Qed.
Lemma starts_with_refl t : starts_with t t = true.
Proof. induction t as [|c t IH]; [done|]. simpl. by rewrite N.eqb_refl. Qed.
Lemma includes_refl t : includes t t = true.
Proof. destruct t; [done|]. unfold includes. fold includes. by rewrite starts_with_refl. Qed.

Lemma starts_with_split t s : starts_with t s = true ↔ ∃ r, s = t ++ r.
Proof.
  revert s. induction t as [|c t IH]; intros s; simpl; [naive_solver|]. destruct s as [|d s]; [naive_solver|].
  rewrite andb_true_iff, N.eqb_eq, IH. naive_solver.
Qed.
Lemma includes_split t s : includes t s = true ↔ ∃ l r, s = l ++ t ++ r.
Proof.
  split.
  - induction s as [|c s IH]; cbn [includes]; rewrite orb_true_iff, starts_with_split.
    + intros [[r H]|]; [exists [], r; done|done].
    + intros [[r H]|(l & r & ->)%IH]; [exists [], r; done|exists (c :: l), r; done].
  - intros (l & r & ->). apply includes_app_r, includes_app_l, includes_refl.
Qed.
Lemma includes_trans a b c : includes a b = true → includes b c = true → includes a c = true.
Proof.
  intros (l & r & ->)%includes_split (l' & r' & ->)%includes_split. apply includes_split.
  exists (l' ++ l), (r ++ r'). by rewrite <- !app_assoc.
Qed.

(** The text is shown somewhere in the editor. *)
Definition mentions (e : SourceErrors) (t : jsstr) : Prop :=
  (∃ k m, assoc_get (e_fields e) k = Some m ∧ includes t m = true)
  ∨ (∃ i m, assoc_get (e_rules e) i = Some m ∧ includes t m = true)
  ∨ (∃ m, m ∈ e_general e ∧ includes t m = true).

(** Appending to what is there keeps it and adds the new text. *)
Lemma append_message o m t :
  let m' := match o with Some ex => if truthy ex then ex ++ [SPACE] ++ m else m | None => m end in
  includes m m' = true ∧ (∀ ex, o = Some ex → includes t ex = true → includes t m' = true).
Proof.
  intros m'. subst m'. destruct o as [[|c ex]|]; cbn [truthy]; split; try apply includes_refl.
  - intros ex [= <-]. destruct t; [|done]. by destruct m.
  - apply includes_app_r, (includes_app_r m [SPACE]), includes_refl.
  - intros ex' [= <-] H. by apply includes_app_l.
  - done.
Qed.

Lemma addFieldError_mentions e k m t : mentions e t ∨ t = m → mentions (addFieldError e k m) t.
Proof.
  unfold addFieldError, mentions, setField. cbn [e_fields e_rules e_general].
  destruct (append_message (assoc_get (e_fields e) k) m t) as [Hm Hold]. intros [[(k' & x & E & H)|Hr]| ->].
  - left. destruct (decide (k = k')) as [->|Hne]; [|exists k', x; by rewrite assoc_get_set_ne].
    eexists k', _. rewrite assoc_get_set_eq. split; [done|]. by apply (Hold x).
  - by right.
  - left. eexists k, _. by rewrite assoc_get_set_eq.
Qed.
Lemma addRuleError_mentions e i m t : mentions e t ∨ t = m → mentions (addRuleError e i m) t.
Proof.
  unfold addRuleError, mentions, setRule. cbn [e_fields e_rules e_general].
  destruct (append_message (assoc_get (e_rules e) i) m t) as [Hm Hold]. intros [[Hf|[(k' & x & E & H)|Hr]]| ->].
  - by left.
  - right; left. destruct (decide (i = k')) as [->|Hne]; [|exists k', x; by rewrite assoc_get_set_ne].
    eexists k', _. rewrite assoc_get_set_eq. split; [done|]. by apply (Hold x).
  - by right; right.
  - right; left. eexists i, _. by rewrite assoc_get_set_eq.
Qed.
Lemma pushGeneral_mentions e m t : mentions e t ∨ t = m → mentions (pushGeneral e m) t.
Proof.
  unfold pushGeneral, mentions. cbn [e_fields e_rules e_general]. intros [[Hf|[Hr|(x & E & H)]]| ->].
  - by left.
  - by right; left.
  - right; right. exists x. split; [|done]. apply elem_of_app. by left.
  - right; right. exists m. split; [|apply includes_refl]. apply elem_of_app. right. by apply list_elem_of_singleton.
Qed.

(** What is shown of a clause: a rule's message without the rule's name. *)
Definition shown (rules : list jsstr) (text : jsstr) : jsstr :=
  match EXTRACT_RE text with
  | Some (id, msg) => match extractRuleIndex rules id with Some _ => msg | None => text end
  | None => text
  end.

(** The complaints of an entry: its message, when its pointer names a field, and
    otherwise the clauses of its message. *)
Definition complaints (rules : list jsstr) (entry : jsstr * jsstr) : list jsstr :=
  let path := config_path entry.1 in
  match (if truthy path then configField (replace_units (λ c, (c =? SLASH)%N) [DOT] path) else None) with
  | Some _ => [entry.2]
  | None => map (shown rules) (List.filter truthy (map clause_text (split_clauses entry.2)))
  end.

Lemma place_clause_mentions rules e clause t :
  mentions e t ∨ (truthy (clause_text clause) = true ∧ t = shown rules (clause_text clause)) →
  mentions (place_clause rules e clause) t.
Proof.
  unfold place_clause, shown. destruct (truthy (clause_text clause)); cbn [negb]; [|naive_solver].
  intros Ht. assert (mentions e t ∨ t = shown rules (clause_text clause)) as Ht' by naive_solver. clear Ht.
  unfold shown in Ht'. set (text := clause_text clause) in *.
  assert (∀ x, mentions e t ∨ t = x → mentions match (k ← KEY_RE text; configField k) with
    | Some field => addFieldError e field x | None => pushGeneral e x end t) as Hfall.
  { clear Ht'. intros x Hx. destruct (k ← KEY_RE text; configField k); [by apply addFieldError_mentions|by apply pushGeneral_mentions]. }
  destruct (EXTRACT_RE text) as [[id msg]|]; [|by apply Hfall].
  destruct (extractRuleIndex rules id); [by apply addRuleError_mentions|by apply Hfall].
Qed.

Lemma place_clauses_mentions rules clauses e t :
  mentions e t ∨ t ∈ map (shown rules) (List.filter truthy (map clause_text clauses)) →
  mentions (fold_left (place_clause rules) clauses e) t.
Proof.
  revert e. induction clauses as [|c clauses IH]; intros e; simpl; [intros [?|?%elem_of_nil]; done|].
  intros Ht. apply IH. destruct (truthy (clause_text c)) eqn:E; simpl in Ht.
  - rewrite elem_of_cons in Ht. destruct Ht as [?|[?|?]]; [left|left|by right]; apply place_clause_mentions; auto.
  - destruct Ht as [?|?]; [left|by right]. apply place_clause_mentions. auto.
Qed.

Lemma place_entry_mentions rules e entry t :
  mentions e t ∨ t ∈ complaints rules entry → mentions (place_entry rules e entry) t.
Proof.
  unfold place_entry, complaints. cbv zeta. case_match.
  - rewrite list_elem_of_singleton. apply addFieldError_mentions.
  - apply place_clauses_mentions.
Qed.

Lemma place_entries_mentions rules entries e t :
  mentions e t ∨ (∃ entry, entry ∈ entries ∧ t ∈ complaints rules entry) →
  mentions (fold_left (place_entry rules) entries e) t.
Proof.
  revert e. induction entries as [|x entries IH]; intros e; simpl.
  - intros [?|(? & ?%elem_of_nil & _)]; done.
  - intros Ht. apply IH. destruct Ht as [?|(y & [->|Hy]%elem_of_cons & ?)]; [left|left|right; eauto];
      apply place_entry_mentions; auto.
Qed.

Lemma mentions_empty t : ¬ mentions emptySourceErrors t.
Proof. unfold mentions. cbn. intros [(?&?&H&_)|[(?&?&H&_)|(?&H&_)]]; [done|done|]. by apply elem_of_nil in H. Qed.

Lemma mentions_hasErrors e t : mentions e t → hasErrors e = true.
Proof.
  intros H. destruct (hasErrors e) eqn:E; [done|]. apply hasErrors_false in E as ->. by apply mentions_empty in H.
Qed.
