(* ===== verification/SourceClaims.v ===== *)
(** The claims about sources: template parts and rules, the configuration an
    accepted form gives, saving it again, the server's complaints, and the
    links to a source and to its logs. *)
From Stdlib Require Import Lia ZArith.
From stdpp Require Import base list numbers strings.
From S2P Require Import Prelude Unicode JsNumber FilterAst FilterLex FilterText FilterTextFacts FilterRoundTrip.
From S2P Require Import UrlState SourceTemplates SourceForm SourceFormProps.

(** * Template parts *)

(** The ids a template gives its parts: no blanks around them, and distinct
    also when case is ignored. *)
Definition parts_distinct (t : option SourceTemplate) : Prop :=
  Forall (λ p, trim (tp_id p) = tp_id p) (parts_of t) ∧ NoDup (map (λ p, to_lower (tp_id p)) (parts_of t)).

Lemma map_filter_sublist {A B} (f : A → B) (P : A → bool) l : sublist (map f (List.filter P l)) (map f l).
Proof. induction l as [|x l IH]; simpl; [done|]. destruct (P x); simpl; by constructor. Qed.

Lemma filter_ext_elem {A} (P Q : A → bool) l : (∀ x, x ∈ l → P x = Q x) → List.filter P l = List.filter Q l.
Proof.
  induction l as [|x l IH]; intros H; [done|]. simpl. rewrite (H x) by left. rewrite IH; [done|]. intros y Hy. apply H. by right.
Qed.

Lemma NoDup_map_inj {A B} (f : A → B) l x y : NoDup (map f l) → x ∈ l → y ∈ l → f x = f y → x = y.
Proof.
  induction l as [|z l IH]; simpl; [by intros _ ?%elem_of_nil|]. intros [Hz Hd]%NoDup_cons Hx Hy E.
  assert (∀ w, w ∈ l → f w ∈ map f l) as Hin by (intros w Hw; apply list_elem_of_fmap; eauto).
  apply elem_of_cons in Hx as [->|Hx], Hy as [->|Hy]; try done.
  - destruct Hz. rewrite E. auto.
  - destruct Hz. rewrite <- E. auto.
  - auto.
Qed.

(** A stored choice that names parts of the template resolves to them. *)
Lemma resolve_filter t (P : TemplatePart → bool) :
  parts_distinct t → let out := map tp_id (List.filter P (parts_of t)) in
  out ≠ [] → resolveTemplateParts t out = out.
Proof.
  intros [Htrim Hd] out Hne. unfold resolveTemplateParts.
  destruct (parts_of t) as [|p0 ps] eqn:Ep; [done|]. destruct out as [|o os] eqn:Eo; [done|]. rewrite <- Eo.
  subst out. f_equal. rewrite Forall_forall in Htrim.
  assert (∀ p, p ∈ p0 :: ps → (to_lower (tp_id p) ∈ map (λ id, to_lower (trim id)) (o :: os) ↔ P p = true)) as Hp.
  { intros p Hp. rewrite <- Eo. rewrite map_map. split.
    - intros (q & E & Hq)%list_elem_of_fmap. apply list_elem_of_In, filter_In in Hq as [Hq%list_elem_of_In HP].
      rewrite (Htrim q Hq) in E. by rewrite (NoDup_map_inj _ _ p q Hd Hp Hq E).
    - intros HP. apply list_elem_of_fmap. exists p. rewrite (Htrim p Hp). split; [done|].
      apply list_elem_of_In, filter_In. split; [by apply list_elem_of_In|done]. }
  apply filter_ext_elem. intros p Hin. specialize (Hp p Hin). rewrite Eo.
  destruct (P p); [by apply bool_decide_eq_true, Hp|]. apply bool_decide_eq_false. naive_solver.
Qed.

(** Ticking or unticking a part changes that part and no other, and keeps
    the template's order; what is stored reads back as what was shown, except
    that unticking the last part stores an empty list, which reads back as the
    template's defaults. *)
Theorem template_part_toggle t stored id on :
  parts_distinct t →
  let out := toggleTemplatePart t stored id on in
  (∀ x, x ∈ out ↔ x ∈ map tp_id (parts_of t)
        ∧ (if decide (x = id) then on = true else x ∈ resolveTemplateParts t stored))
  ∧ sublist out (map tp_id (parts_of t))
  ∧ resolveTemplateParts t out = (match out with [] => templateDefaultParts t | _ => out end).
Proof.
  intros Hd out. split_and!.
  - intros x. apply toggle_mem.
  - apply map_filter_sublist.
  - destruct out as [|o os] eqn:Eo.
    + unfold resolveTemplateParts, templateDefaultParts. by destruct (parts_of t).
    + rewrite <- Eo. subst out. apply resolve_filter; [done|]. fold (toggleTemplatePart t stored id on). by rewrite Eo.
Qed.

Definition demo_part (id : jsstr) (default : bool) : TemplatePart :=
  MkTemplatePart id id [] (Some default) None None None None None.
Definition demo_template (rules : list ExtractRule) (parts : list TemplatePart) : SourceTemplate :=
  MkSourceTemplate $"windows" $"Windows" [] (Some rules) None None (Some parts) (MkTemplateSetup [] [] None None None) false None None None.

Lemma template_part_toggle_witness :
  let t := Some (demo_template [] [demo_part $"security" true; demo_part $"mssql" false; demo_part $"iis" false]) in
  toggleTemplatePart t [] $"iis" true = [$"security"; $"iis"]
  ∧ resolveTemplateParts t (toggleTemplatePart t [] $"iis" true) = toggleTemplatePart t [] $"iis" true.
Proof.
  intros t. split; [vm_compute; reflexivity|].
  assert (parts_distinct t) as Hd.
  { split; [repeat constructor; vm_compute; reflexivity|]. vm_decide. }
  destruct (template_part_toggle t [] $"iis" true Hd) as (_ & _ & H). rewrite H. vm_compute. reflexivity.
Defined.

(** * Template rules *)

Definition belongs (t : option SourceTemplate) (r : ExtractRuleForm) : bool := existsb (sameRule r) (extract_of t).

Lemma ruleForms_same seq rules :
  (∀ f, f ∈ (ruleForms seq rules).1 → ∃ r, r ∈ rules ∧ sameRule f r = true)
  ∧ (∀ r, r ∈ rules → ∃ f, f ∈ (ruleForms seq rules).1 ∧ sameRule f r = true).
Proof.
  revert seq. induction rules as [|r rules IH]; intros seq.
  - split; intros x H; by apply elem_of_nil in H.
  - cbn [ruleForms]. destruct (ruleForm seq r) as [f seq1] eqn:Ef.
    pose proof (sameRule_form seq r) as Hs. rewrite Ef in Hs. simpl in Hs.
    destruct (IH seq1) as [IH1 IH2]. destruct (ruleForms seq1 rules) as [fs seq2]. simpl in *. split.
    + intros g [->|Hg]%elem_of_cons; [exists r; split; [left|done]|].
      destruct (IH1 g Hg) as (r' & ? & ?). exists r'. split; [by right|done].
    + intros r' [->|Hr]%elem_of_cons; [exists f; split; [left|done]|].
      destruct (IH2 r' Hr) as (f' & ? & ?). exists f'. split; [by right|done].
Qed.

Lemma applyTemplate_rules seq form next previous :
  ∃ added, f_extract (applyTemplate seq form next previous).1
    = added ++ List.filter (λ r, negb (belongs previous r)) (f_extract form)
  ∧ (∀ f, f ∈ added → belongs next f = true)
  ∧ (∀ r, r ∈ extract_of next → ∃ f, f ∈ f_extract (applyTemplate seq form next previous).1 ∧ sameRule f r = true).
Proof.
  unfold applyTemplate, applyTemplateRules, belongs.
  set (kept := List.filter _ (f_extract form)).
  set (new := List.filter _ (extract_of next)).
  destruct (ruleForms_same seq new) as [H1 H2]. destruct (ruleForms seq new) as [added seq']. simpl in *.
  exists added. split_and!; [done| |].
  - intros f (r & Hr & Hs)%H1. apply list_elem_of_In, filter_In in Hr as [Hr _]. apply existsb_exists. eauto.
  - intros r Hr. destruct (existsb (λ k, sameRule k r) kept) eqn:Ek.
    + apply existsb_exists in Ek as (f & Hf & Hs). exists f. split; [|done]. apply elem_of_app. right. by apply list_elem_of_In.
    + destruct (H2 r) as (f & Hf & Hs); [|exists f; split; [apply elem_of_app; by left|done]].
      apply list_elem_of_In, filter_In. split; [by apply list_elem_of_In|]. by rewrite Ek.
Qed.

Lemma filter_filter {A} (P Q : A → bool) l : List.filter P (List.filter Q l) = List.filter (λ x, P x && Q x) l.
Proof. induction l as [|x l IH]; [done|]. simpl. destruct (Q x), (P x) eqn:E; simpl; rewrite ?E, ?IH; done. Qed.

(** Choosing a template puts its rules in front of the ones written by
    hand, which keep their order; every rule of the template is then there.
    Taking the template back leaves exactly the rules that belonged neither to
    it nor to the template before it. *)
Theorem template_rules_switch seq seq2 form next previous :
  let form' := (applyTemplate seq form next previous).1 in
  (∃ added, f_extract form' = added ++ List.filter (λ r, negb (belongs previous r)) (f_extract form)
     ∧ (∀ f, f ∈ added → belongs next f = true))
  ∧ (∀ r, r ∈ extract_of next → ∃ f, f ∈ f_extract form' ∧ sameRule f r = true)
  ∧ f_extract (applyTemplate seq2 form' None next).1
    = List.filter (λ r, negb (belongs next r) && negb (belongs previous r)) (f_extract form).
Proof.
  intros form'. destruct (applyTemplate_rules seq form next previous) as (added & E & Hadd & Hall).
  fold form' in E, Hall. split_and!; [eauto|done|].
  destruct (applyTemplate_rules seq2 form' None next) as (added2 & E2 & Hadd2 & _). rewrite E2.
  destruct added2 as [|a added2]; [|exfalso; specialize (Hadd2 a (list_elem_of_here _ _)); done].
  rewrite E, List.filter_app. cbn [app]. rewrite (filter_ext_elem _ (λ _, false) added).
  - assert (∀ l : list ExtractRuleForm, List.filter (λ _, false) l = []) as -> by (by intros l; induction l).
    apply filter_filter.
  - intros f Hf. by rewrite (Hadd f Hf).
Qed.

(** * The configuration of an accepted form *)

(** A TLS section has material of exactly one kind, all of it: a certificate to
    be asked for, a pasted one, or files; the pasted key may be the stored one. *)
Definition tls_material (t : SourceTLSConfig) (keyStored : bool) : Prop :=
  match tl_acme t with
  | Some a =>
      ac_enabled a = Some true ∧ ac_accept_terms a = Some true
      ∧ (∃ d ds, ac_domains a = Some (d :: ds))
      ∧ tl_cert t = None ∧ tl_key t = None ∧ tl_cert_file t = None ∧ tl_key_file t = None
  | None =>
      (∃ cert, tl_cert t = Some cert ∧ cert ≠ [] ∧ tl_cert_file t = None ∧ tl_key_file t = None
         ∧ match tl_key t with Some key => key ≠ [] | None => keyStored = true end)
      ∨ (∃ cert key, tl_cert_file t = Some cert ∧ tl_key_file t = Some key ∧ cert ≠ [] ∧ key ≠ []
           ∧ tl_cert t = None ∧ tl_key t = None)
  end.

Lemma or_undef_truthy s : truthy s = true → or_undef s = Some s ∧ s ≠ [].
Proof. by destruct s. Qed.

Lemma tls_complete_material f : tls_complete f → tls_material (tlsConfig f emptySourceErrors).1 (f_tls_key_stored f).
Proof.
  unfold tls_complete, tls_material, tlsConfig. destruct (f_tls_mode f); cbn.
  - intros [Hd ->]. split_and!; try done. destruct (lines (f_tls_acme_domains f)) as [|d ds]; [done|eauto].
  - intros [[-> Hc]%or_undef_truthy Hk]. left. eexists. split_and!; try done.
    destruct Hk as [[-> Hk]%or_undef_truthy| ->]; [done|]. unfold or_undef. by destruct (trim (f_tls_key f)).
  - intros [[-> Hc]%or_undef_truthy [-> Hk]%or_undef_truthy]. right. eauto 10.
Qed.

(** What the server needs of a configuration. *)
Record config_complete (f : SourceFormState) (c : SourceConfig) : Prop := {
  cc_name : sc_name c = trim (f_name f) ∧ sc_name c ≠ [];
  cc_syslog : f_type f = ty_syslog →
    sc_protocol c = Some (f_protocol f) ∧ ∃ a, sc_address c = Some a ∧ a ≠ [];
  cc_http : f_type f = ty_http_json →
    sc_protocol c = None ∧ sc_address c = None ∧ sc_framing c = None ∧ sc_max_connections c = None
    ∧ sc_idle_timeout c = None ∧ sc_udp c = None ∧ sc_tls c = None;
  cc_tls : match sc_tls c with
           | Some t => f_type f = ty_syslog ∧ f_protocol f = pr_tls ∧ tls_material t (f_tls_key_stored f)
           | None => f_type f = ty_http_json ∨ f_protocol f ≠ pr_tls
           end;
  cc_count : ∀ n, sc_max_connections c = Some n → isInteger n = true ∧ nlt n (num 0) = false;
  cc_rules : Forall (λ r, captureGroupNames (er_regex r) ≠ []) (nullish (sc_extract c) [])
}.

(** A form without errors gives a complete configuration: it is named,
    a syslog source has an address, an HTTP source carries nothing of the
    network sections, a TLS source has certificate material of exactly one
    kind, counts are non-negative integers, and every extract rule produces
    fields. *)
Theorem accepted_form_complete f c e :
  formToConfig f = (c, e) → hasErrors e = false → config_complete f c.
Proof.
  intros E He. destruct (formToConfig_accepted f c e E He) as (_ & labels & Hacc & -> & Hn).
  destruct Hacc as [Hname Hadr _ Htls Hrules]. constructor; try done.
  - split; [done|]. cbn. by destruct (trim (f_name f)).
  - intros Ety. unfold sourceSections in *. rewrite Ety in *. cbn in *. rewrite Ety. cbn. split; [done|].
    eexists. split; [done|]. specialize (Hadr eq_refl). by destruct (trim (f_address f)).
  - intros Ety. unfold accepted_config. rewrite Ety. done.
  - unfold accepted_config. destruct (f_type f) eqn:Ety; [|by left]. destruct (f_protocol f) eqn:Epr; cbn -[tlsConfig];
      [by right|by right|]. split_and!; [done..|]. by apply tls_complete_material, Htls.
  - unfold accepted_config. cbn [sc_extract]. rewrite some_list_nullish. apply Forall_fmap.
    eapply Forall_impl; [exact Hrules|]. intros r Hr. exact Hr.
Qed.

Definition demo_form : SourceFormState :=
  configForm (MkManagedSource None
    (MkSourceConfig $"edge" ty_syslog (Some pr_tls) (Some $":6514") None None (Some [$"10.0.0.0/8"]) None None None None
       (Some [($"site", $"hq")]) None (Some (num 200)) None None
       (Some (MkTls None None (Some $"CERT") None None None None None None))
       None None None) true (Some true)) [MkExtractRuleForm $"rule-1" $"user" [] $"u_" $"user=(?P<name>\w+)"].

Lemma accepted_form_complete_witness :
  ∃ c, formToConfig demo_form = (c, emptySourceErrors) ∧ config_complete demo_form c ∧ sc_tls c ≠ None.
Proof.
  eexists. split; [vm_compute; reflexivity|]. split; [|done].
  apply (accepted_form_complete _ _ emptySourceErrors); vm_compute; reflexivity.
Defined.

(** Saving a source, opening it again and saving it unchanged sends the
    configuration that is stored: whatever was accepted reads back to a form
    that is accepted, and gives the same configuration (the private key, which
    the server does not return, is left out and stays the stored one).  Counts
    are not zero, which the form shows as unset, and below 2^52. *)
Theorem source_save_stable f c e seq id ks :
  formToConfig f = (c, e) → hasErrors e = false →
  (∀ n, sc_max_connections c = Some n → count_small n) →
  (∀ u n, sc_udp c = Some u → ud_sockets u = Some n → count_small n) →
  (sc_tls c ≠ None → key_held f ks) →
  formToConfig (configToForm seq (MkManagedSource id (stored_config c) (f_enabled f) (Some ks))).1
  = (stored_config c, emptySourceErrors).
Proof.
  intros E He Hmx Hso Hk. destruct (formToConfig_accepted f c e E He) as (_ & labels & Hacc & -> & _).
  apply save_stable; try done. intros Hs. apply Hk. unfold accepted_config. cbn [sc_tls]. by rewrite Hs.
Qed.

Lemma source_save_stable_witness :
  ∃ c, formToConfig demo_form = (c, emptySourceErrors)
  ∧ formToConfig (configToForm 7 (MkManagedSource (Some $"42") (stored_config c) true (Some true))).1
    = (stored_config c, emptySourceErrors).
Proof.
  eexists. split; [vm_compute; reflexivity|].
  apply (source_save_stable demo_form _ emptySourceErrors 7 (Some $"42") true).
  - vm_compute. reflexivity.
  - reflexivity.
  - cbn [sc_max_connections]. intros n [= <-]. exists 200%Z. split; [lia|vm_compute; reflexivity].
  - intros u n [=].
  - intros _. reflexivity.
Defined.

(** * Complaints *)

(** No complaint of the server is lost.  After a refused save the editor
    always shows an error, and every complaint of every entry of the problem
    (the message of an entry that points at a field, and otherwise each clause
    of its message) is shown at a field, at a rule or in general. *)
Theorem complaints_shown problem fallback rules :
  let e := sourceProblemErrors problem fallback rules in
  hasErrors e = true
  ∧ (∀ entry t, entry ∈ problem_entries problem fallback → t ∈ complaints rules entry → mentions e t).
Proof.
  intros e'. unfold sourceProblemErrors in e'. set (e := fold_left _ _ _) in e'. subst e'.
  assert (∀ t, mentions e t → mentions (if hasErrors e then e else pushGeneral e fallback) t) as Hkeep.
  { intros t H. by rewrite (mentions_hasErrors _ _ H). }
  split.
  - destruct (hasErrors e) eqn:E; [done|]. apply hasErrors_false in E. by rewrite E.
  - intros entry t Hin Ht. apply Hkeep, place_entries_mentions. eauto.
Qed.

(** * Links *)

(** A managed source's id names neither the new-source page nor a file source. *)
Definition managed_id (id : jsstr) : bool := negb (bool_decide (id = $"new")) && negb (starts_with $"file:" id).

Lemma starts_with_drop p s : starts_with p (p ++ s) = true ∧ drop (length p) (p ++ s) = s.
Proof. split; [induction p as [|c p IH]; [done|]; simpl; by rewrite N.eqb_refl|apply drop_app_length]. Qed.

Lemma source_query_text name : $"source=" ++ quote name = formatFilter (Some (FieldValueExpr op_eq $"source" name)).
Proof. unfold formatFilter. cbn [fmt]. assert (quote $"source" = $"source") as -> by (vm_compute; reflexivity). done. Qed.

(** The links of a source.  The route of a source leads back to it: to its
    id when it is managed, and to its name when it comes from the file.  The
    explorer link of a source named anything at all parses as the one filter
    [source = name]. *)
Theorem source_links s :
  (∀ id, ms_id s = Some id → managed_id id = true → parseSourceRouteId (sourceRouteId s) = (route_managed, id))
  ∧ (ms_id s = None → parseSourceRouteId (sourceRouteId s) = (route_file, sc_name (ms_config s)))
  ∧ (∀ name, x_q (sourceExplorerSearch name)
       = Some (formatFilter (Some (FieldValueExpr op_eq $"source" name)))
     ∧ parseFilter (nullish (x_q (sourceExplorerSearch name)) []) = Ok (Some (FieldValueExpr op_eq $"source" name))).
Proof.
  split_and!.
  - unfold sourceRouteId, parseSourceRouteId, managed_id. intros id -> H. btrue.
    match goal with H : bool_decide _ = false |- _ => apply bool_decide_eq_false in H end.
    rewrite decide_False by done. by case_match.
  - unfold sourceRouteId, parseSourceRouteId. intros ->. rewrite decide_False by (lits; intros [=]).
    destruct (starts_with_drop $"file:" (sc_name (ms_config s))) as [-> H]. by rewrite <- H at 2.
  - intros name. cbn [sourceExplorerSearch x_q nullish]. rewrite source_query_text. split; [done|].
    by rewrite parse_format.
Qed.
