(* ===== verification/Severity.v ===== *)
(** Severities and the colours derived from them
    (src/frontend/src/lib/severity.ts, src/frontend/src/lib/chart-colors.ts).

    [s in SEVERITY_CODE] also holds for the members every object inherits; they
    are listed here, and a lookup that reaches one is [inherited]. *)
From Stdlib Require Import Lia.
From stdpp Require Import base list numbers strings.
From S2P Require Import Prelude Unicode.

Inductive Severity :=
  emergency | alert | critical | sev_error | warning | notice | info | debug.
#[export] Instance Severity_eq_dec : EqDecision Severity.
Proof. solve_decision. Defined.

Definition SEVERITIES : list Severity := [emergency; alert; critical; sev_error; warning; notice; info; debug].

Definition severity_name (s : Severity) : jsstr :=
  match s with
  | emergency => $"emergency" | alert => $"alert" | critical => $"critical" | sev_error => $"error"
  | warning => $"warning" | notice => $"notice" | info => $"info" | debug => $"debug"
  end.

Definition SEVERITY_CODE (s : Severity) : nat :=
  match s with
  | emergency => 0 | alert => 1 | critical => 2 | sev_error => 3 | warning => 4 | notice => 5 | info => 6 | debug => 7
  end.

Definition SHORT (s : Severity) : jsstr :=
  match s with
  | emergency => $"EMERG" | alert => $"ALERT" | critical => $"CRIT" | sev_error => $"ERROR"
  | warning => $"WARN" | notice => $"NOTICE" | info => $"INFO" | debug => $"DEBUG"
  end.

(** The members of [Object.prototype]. *)
Definition object_members : list jsstr :=
  [$"constructor"; $"__defineGetter__"; $"__defineSetter__"; $"hasOwnProperty"; $"__lookupGetter__";
   $"__lookupSetter__"; $"isPrototypeOf"; $"propertyIsEnumerable"; $"toString"; $"valueOf"; $"__proto__";
   $"toLocaleString"].

(** What a lookup in a table keyed by severity finds. *)
Inductive lookup_result (A : Type) := own (a : A) | inherited | missing.
Arguments own {A} a.
Arguments inherited {A}.
Arguments missing {A}.

Definition severity_of (s : jsstr) : option Severity := List.find (λ v, bool_decide (severity_name v = s)) SEVERITIES.

Definition by_severity {A} (table : Severity → A) (s : jsstr) : lookup_result A :=
  match severity_of s with
  | Some v => own (table v)
  | None => if bool_decide (s ∈ object_members) then inherited else missing
  end.

(** [None] when the result is an inherited member rather than a string. *)
Definition severityLabel (s : option jsstr) : option jsstr :=
  match s with
  | None | Some [] => Some $"—"
  | Some s =>
      match by_severity SHORT s with own l => Some l | inherited => None | missing => Some (to_upper s) end
  end.

Definition severityColor (s : option jsstr) : jsstr :=
  match s with
  | None | Some [] => $"var(--sev-other)"
  | Some s =>
      match by_severity SEVERITY_CODE s with
      | missing => $"var(--sev-other)"
      | _ => $"var(--sev-" ++ s ++ $")"
      end
  end.

(** An inherited member compares as NaN. *)
Definition isErrorOrWorse (s : option jsstr) : bool :=
  match s with
  | Some s => match by_severity SEVERITY_CODE s with own c => c <=? 3 | _ => false end
  | None => false
  end.

Definition severityRank (s : jsstr) : option nat :=
  match by_severity SEVERITY_CODE s with own c => Some c | inherited => None | missing => Some 99 end.

Definition CHART_COLORS : list jsstr :=
  [$"#4c8dff"; $"#3fb67f"; $"#f5a524"; $"#a78bfa"; $"#22d3ee"; $"#f472b6"; $"#84cc16"; $"#fb7185"].

Definition seriesColor (splitBy : option jsstr) (value : jsstr) (index : nat) : jsstr :=
  if decide (splitBy = Some $"severity")
  then (if decide (value = $"other") then $"var(--sev-other)" else severityColor (Some value))
  else if decide (value = $"other") then $"var(--fg-subtle)"
  else nullish (CHART_COLORS !! (index mod length CHART_COLORS)) [].

Lemma severity_of_name v : severity_of (severity_name v) = Some v.
Proof. destruct v; vm_compute; reflexivity. Qed.

Lemma severity_of_spec s v : severity_of s = Some v ↔ s = severity_name v.
Proof.
  split; [|intros ->; apply severity_of_name].
  intros H. apply find_some in H as [_ H]. by apply bool_decide_eq_true in H.
Qed.

(** The table is by rank: a worse severity has a smaller code, and
    [isErrorOrWorse] is the first four ranks. *)
Lemma error_or_worse_rank s n : severityRank s = Some n → isErrorOrWorse (Some s) = (n <=? 3).
Proof.
  unfold severityRank, isErrorOrWorse, by_severity. destruct (severity_of s); [by intros [= <-]|].
  case_bool_decide; [done|]. by intros [= <-].
Qed.
