(* ===== verification/ForwardForm.v ===== *)
(** The forward-target dialog (src/frontend/src/features/forwarding/
    forward-form.ts): its form state, the conversion from and to the stored
    configuration, the errors it reports and the health a target is shown with.

    The routines it repeats from the source editor (splitting lists and
    complaints, reading pointers and keys) are those of the source form. *)
From Stdlib Require Import Lia ZArith.
From stdpp Require Import base list numbers strings.
From S2P Require Import Prelude Unicode JsNumber Severity SourceForm.

(** * Configuration *)

Inductive ForwardCompression := cp_none | cp_gzip | cp_zstd.
Record ForwardQueueConfig := MkQueue { q_max_messages : option Number; q_max_bytes : option jsstr }.
Record ForwardBatchConfig := MkBatch {
  b_max_rows : option Number; b_max_bytes : option jsstr; b_max_wait : option jsstr
}.
Record ForwardRetryConfig := MkRetry { rt_initial_backoff : option jsstr; rt_max_backoff : option jsstr }.

(** A severity or the empty string is an optional severity. *)
Record ForwardTargetConfig := MkForwardConfig {
  fc_name : jsstr; fc_url : jsstr; fc_sources : option (list jsstr); fc_min_severity : option (option Severity);
  fc_compression : option ForwardCompression; fc_write_timeout : option jsstr; fc_basic_username : option jsstr;
  fc_basic_password_file : option jsstr; fc_bearer_token_file : option jsstr; fc_queue : option ForwardQueueConfig;
  fc_batch : option ForwardBatchConfig; fc_retry : option ForwardRetryConfig
}.

(** The counters of a running target that its health is read from. *)
Record ForwardTargetStatus := MkForwardStatus { fs_healthy : bool; fs_dropped_messages : Number }.
Record ManagedForwardTarget := MkForwardTarget {
  ft_config : ForwardTargetConfig; ft_enabled : bool; ft_status : option ForwardTargetStatus; ft_token_stored : option bool
}.
Record ForwardTargetInput := MkForwardInput { in_config : ForwardTargetConfig; in_token : option jsstr }.

(** * Form state *)

Record ForwardFormState := MkForwardForm {
  w_name : jsstr; w_url : jsstr; w_sources : jsstr; w_min_severity : option Severity; w_compression : ForwardCompression;
  w_token : jsstr; w_token_stored : bool; w_remove_token : bool; w_write_timeout : jsstr; w_basic_username : jsstr;
  w_basic_password_file : jsstr; w_bearer_token_file : jsstr; w_queue_max_messages : jsstr; w_queue_max_bytes : jsstr;
  w_batch_max_rows : jsstr; w_batch_max_bytes : jsstr; w_batch_max_wait : jsstr; w_retry_initial_backoff : jsstr;
  w_retry_max_backoff : jsstr
}.

(** [keyof ForwardFormState] *)
Inductive ForwardFormField :=
| W_name | W_url | W_sources | W_min_severity | W_compression | W_token | W_token_stored | W_remove_token
| W_write_timeout | W_basic_username | W_basic_password_file | W_bearer_token_file | W_queue_max_messages
| W_queue_max_bytes | W_batch_max_rows | W_batch_max_bytes | W_batch_max_wait | W_retry_initial_backoff
| W_retry_max_backoff.
#[export] Instance ForwardFormField_eq_dec : EqDecision ForwardFormField.
Proof. solve_decision. Defined.

Definition DEFAULT_FORWARD_FORM : ForwardFormState :=
  MkForwardForm [] [] [] None cp_gzip [] false false [] [] [] [] [] [] [] [] [] [] [].

(** [x?.y] *)
Definition chain {A B} (o : option A) (get : A → option B) : option B := match o with Some a => get a | None => None end.

Definition configToForwardForm (t : ManagedForwardTarget) : ForwardFormState :=
  let c := ft_config t in
  {| w_name := fc_name c; w_url := fc_url c; w_sources := join [LF] (nullish (fc_sources c) []);
     w_min_severity := nullish (fc_min_severity c) None;
     w_compression := nullish (fc_compression c) (w_compression DEFAULT_FORWARD_FORM);
     w_token := []; w_token_stored := nullish (ft_token_stored t) false; w_remove_token := false;
     w_write_timeout := orEmpty (fc_write_timeout c); w_basic_username := orEmpty (fc_basic_username c);
     w_basic_password_file := orEmpty (fc_basic_password_file c);
     w_bearer_token_file := orEmpty (fc_bearer_token_file c);
     w_queue_max_messages := count_string (chain (fc_queue c) q_max_messages);
     w_queue_max_bytes := orEmpty (chain (fc_queue c) q_max_bytes);
     w_batch_max_rows := count_string (chain (fc_batch c) b_max_rows);
     w_batch_max_bytes := orEmpty (chain (fc_batch c) b_max_bytes);
     w_batch_max_wait := orEmpty (chain (fc_batch c) b_max_wait);
     w_retry_initial_backoff := orEmpty (chain (fc_retry c) rt_initial_backoff);
     w_retry_max_backoff := orEmpty (chain (fc_retry c) rt_max_backoff) |}.

(** [text.split(/\[\n,\]/).map((s) => s.trim()).filter(Boolean)] *)
Definition forwardSourceNames (text : jsstr) : list jsstr := List.filter truthy (map trim (split_on is_line_sep text)).

(** * Errors *)

Record ForwardErrors := MkForwardErrors { we_fields : list (ForwardFormField * jsstr); we_general : list jsstr }.
Definition emptyForwardErrors : ForwardErrors := MkForwardErrors [] [].
Definition hasForwardErrors (e : ForwardErrors) : bool :=
  match we_general e, we_fields e with [], [] => false | _, _ => true end.

(** [errors.fields\[k\] = m] *)
Definition setForward (e : ForwardErrors) (k : ForwardFormField) (m : jsstr) : ForwardErrors :=
  MkForwardErrors (assoc_set (we_fields e) k m) (we_general e).
Definition pushForward (e : ForwardErrors) (m : jsstr) : ForwardErrors :=
  MkForwardErrors (we_fields e) (we_general e ++ [m]).

Definition parseForwardCount (value : jsstr) (min : nat) (field : ForwardFormField) (e : ForwardErrors) :
    option Number * ForwardErrors :=
  let t := trim value in
  if decide (t = []) then (None, e)
  else
    let n := str_to_number t in
    if negb (isInteger n) || nlt n (num (Z.of_nat min))
    then (None, setForward e field ($"Must be a whole number of " ++ decn min ++ $" or more."))
    else (Some n, e).

(** [/^https?:\/\//i] *)
Definition HTTP_RE (url : jsstr) : bool :=
  let lower := map (λ c, if is_upper c then c + 32 else c)%N url in
  starts_with $"http://" lower || starts_with $"https://" lower.

Definition urlError (url : jsstr) : option jsstr :=
  if negb (truthy url) then Some $"The address of the remote VictoriaLogs instance is required."
  else if negb (HTTP_RE url) then Some $"Must start with http:// or https://."
  else None.

(** [if (s.trim()) o.x = s.trim()] *)
Definition trimmed (s : jsstr) : option jsstr := or_undef (trim s).

Definition formToForwardInput (f : ForwardFormState) : ForwardTargetInput * ForwardErrors :=
  let e := emptyForwardErrors in
  let name := trim (w_name f) in
  let url := trim (w_url f) in
  let e := if truthy name then e else setForward e W_name $"Name is required." in
  let e := match urlError url with Some m => setForward e W_url m | None => e end in
  let sources := forwardSourceNames (w_sources f) in
  let '(maxMessages, e) := parseForwardCount (w_queue_max_messages f) 1 W_queue_max_messages e in
  let queue := MkQueue maxMessages (trimmed (w_queue_max_bytes f)) in
  let '(maxRows, e) := parseForwardCount (w_batch_max_rows f) 1 W_batch_max_rows e in
  let batch := MkBatch maxRows (trimmed (w_batch_max_bytes f)) (trimmed (w_batch_max_wait f)) in
  let retry := MkRetry (trimmed (w_retry_initial_backoff f)) (trimmed (w_retry_max_backoff f)) in
  let config := MkForwardConfig name url (some_list sources)
    (match w_min_severity f with Some s => Some (Some s) | None => None end) (Some (w_compression f))
    (trimmed (w_write_timeout f)) (trimmed (w_basic_username f)) (trimmed (w_basic_password_file f))
    (trimmed (w_bearer_token_file f))
    (match queue with MkQueue None None => None | _ => Some queue end)
    (match batch with MkBatch None None None => None | _ => Some batch end)
    (match retry with MkRetry None None => None | _ => Some retry end) in
  let token := if w_remove_token f then Some [] else or_undef (w_token f) in
  (MkForwardInput config token, e).

(** * Problems reported by the server *)

Definition FORWARD_CONFIG_FIELD : list (jsstr * ForwardFormField) :=
  [($"name", W_name); ($"url", W_url); ($"sources", W_sources); ($"min_severity", W_min_severity);
   ($"compression", W_compression); ($"write_timeout", W_write_timeout); ($"basic_username", W_basic_username);
   ($"basic_password_file", W_basic_password_file); ($"bearer_token_file", W_bearer_token_file);
   ($"queue.max_messages", W_queue_max_messages); ($"queue.max_bytes", W_queue_max_bytes);
   ($"batch.max_rows", W_batch_max_rows); ($"batch.max_bytes", W_batch_max_bytes);
   ($"batch.max_wait", W_batch_max_wait); ($"retry.initial_backoff", W_retry_initial_backoff);
   ($"retry.max_backoff", W_retry_max_backoff)].

(** The longest prefix of the path that names a field, from [n] parts down. *)
Fixpoint forwardField_from (n : nat) (parts : list jsstr) : option ForwardFormField :=
  match n with
  | 0 => None
  | S n' => match assoc_get FORWARD_CONFIG_FIELD (join [DOT] (take n parts)) with
            | Some f => Some f
            | None => forwardField_from n' parts
            end
  end.
Definition forwardConfigField (key : jsstr) : option ForwardFormField :=
  let parts := split_on (λ c, (c =? DOT)%N) key in forwardField_from (length parts) parts.

Definition addForwardError (e : ForwardErrors) (k : ForwardFormField) (m : jsstr) : ForwardErrors :=
  setForward e k (match assoc_get (we_fields e) k with
                  | Some ex => if truthy ex then ex ++ [SPACE] ++ m else m
                  | None => m
                  end).

(** [clause.replace(/^(?:forward )?target:\s*/, '').trim()] *)
Definition forward_clause_text (clause : jsstr) : jsstr :=
  let s := strip_prefix $"forward " clause in
  trim (if starts_with $"target:" s then drop_while is_space (drop 7 s) else clause).

Definition place_forward_clause (e : ForwardErrors) (clause : jsstr) : ForwardErrors :=
  let text := forward_clause_text clause in
  if negb (truthy text) then e
  else match (k ← KEY_RE text; forwardConfigField k) with
       | Some field => addForwardError e field text
       | None => pushForward e text
       end.

(** The field an entry points at. *)
Definition forward_direct (entry : jsstr * jsstr) : option ForwardFormField :=
  let path := config_path entry.1 in
  if truthy path then forwardConfigField (replace_units (λ c, (c =? SLASH)%N) [DOT] path) else None.

Definition place_forward_entry (e : ForwardErrors) (entry : jsstr * jsstr) : ForwardErrors :=
  match forward_direct entry with
  | Some field => addForwardError e field entry.2
  | None => fold_left place_forward_clause (split_clauses entry.2) e
  end.

Definition forwardProblemErrors (problem : option Problem) (fallback : jsstr) : ForwardErrors :=
  let e := fold_left place_forward_entry (problem_entries problem fallback) emptyForwardErrors in
  if hasForwardErrors e then e else pushForward e fallback.

(** * Health *)

Inductive ForwardState := fwd_off | fwd_starting | fwd_failing | fwd_dropping | fwd_healthy.
#[export] Instance ForwardState_eq_dec : EqDecision ForwardState.
Proof. solve_decision. Defined.

Record ForwardHealth := MkForwardHealth {
  fh_state : ForwardState; fh_label : jsstr; fh_tone : Tone; fh_attention : bool; fh_notes : list jsstr
}.

Definition FAILING_NOTE : jsstr :=
  $"Writes to this target are failing. Copies are buffered and then dropped once the queue fills; the logs stored on "
  ++ $"this node are unaffected.".
Definition DROPPED_NOTE : jsstr :=
  $"Copies were dropped: those logs will never reach this target. Fix why writes are slow or failing, or raise the "
  ++ $"queue size under Advanced.".
Definition OFF_NOTE : jsstr := $"Switched off: nothing is being copied to this target.".
Definition STARTING_NOTE : jsstr := $"Switched on, but this node has not reported on it yet.".

Definition forwardHealth (t : ManagedForwardTarget) : ForwardHealth :=
  if negb (ft_enabled t) then MkForwardHealth fwd_off $"off" tone_idle false [OFF_NOTE]
  else match ft_status t with
  | None => MkForwardHealth fwd_starting $"starting" tone_idle false [STARTING_NOTE]
  | Some s =>
      let dropped := nlt (num 0) (fs_dropped_messages s) in
      let notes := (if fs_healthy s then [] else [FAILING_NOTE]) ++ (if dropped then [DROPPED_NOTE] else []) in
      if negb (fs_healthy s) then MkForwardHealth fwd_failing $"unhealthy" tone_fail true notes
      else if dropped then MkForwardHealth fwd_dropping $"dropped copies" tone_warn true notes
      else MkForwardHealth fwd_healthy $"healthy" tone_ok false []
  end.

(** What the summary says of a target. *)
Definition attention_part (t : ManagedForwardTarget) : list jsstr :=
  let health := forwardHealth t in
  if negb (fh_attention health) then []
  else [fc_name (ft_config t) ++ [SPACE]
        ++ (if decide (fh_state health = fwd_failing) then $"is not accepting writes" else $"has dropped copies")].

Definition forwardAttentionSummary (targets : list ManagedForwardTarget) : option jsstr :=
  match targets ≫= attention_part with
  | [] => None
  | parts => Some (join $"; " parts ++ $".")
  end.

Definition forwardEnableConsequence (c : ForwardTargetConfig) : jsstr :=
  $"Every stored log matching the filters is copied to " ++ fc_url c ++ $".".

Example forward_problem_ex :
  forwardProblemErrors
    (Some (MkSourceProblem (Some $"x") (Some [MkEntry (Some $"/config") (Some $"target: url is bad; queue.max_messages: low; huh");
                                              MkEntry (Some $"/config/batch/max_rows") None])))
    $"failed"
  = MkForwardErrors [(W_url, $"url is bad"); (W_queue_max_messages, $"queue.max_messages: low"); (W_batch_max_rows, $"x")] [$"huh"].
Proof. vm_compute. reflexivity. Qed.
