(* ===== verification/ForwardProps.v ===== *)
(** What the forward-target dialog guarantees. *)
From Stdlib Require Import Lia ZArith SpecFloat.
From stdpp Require Import base list numbers strings.
From S2P Require Import Prelude Unicode JsNumber JsNumberFacts Severity SourceForm SourceFormProps ForwardForm.

(** * Errors only accumulate *)

Lemma setForward_errors e k m : hasForwardErrors (setForward e k m) = true.
Proof.
  unfold hasForwardErrors, setForward. simpl. pose proof (assoc_set_ne (we_fields e) k m).
  destruct (we_general e); [|done]. by destruct (assoc_set (we_fields e) k m).
Qed.

Lemma hasForwardErrors_false e : hasForwardErrors e = false ↔ e = emptyForwardErrors.
Proof. destruct e as [[|? ?] [|? ?]]; unfold hasForwardErrors; simpl; split; intros H; by inversion H. Qed.

(** A count the dialog accepts: unset, or an integer of at least [min]. *)
Definition count_accepted (min : Z) (v : jsstr) : Prop :=
  ∀ n, count_of v = Some n → isInteger n = true ∧ nlt n (num min) = false.

Lemma parseForwardCount_clean v min k e x e' :
  parseForwardCount v min k e = (x, e') → hasForwardErrors e' = false →
  e' = e ∧ x = count_of v ∧ count_accepted (Z.of_nat min) v.
Proof.
  unfold parseForwardCount, count_accepted, count_of. case_decide as Ht; [rewrite Ht; intros [= <- <-]; done|].
  destruct (trim v) as [|c t] eqn:Et; [done|]. cbn [truthy].
  destruct (negb _ || _) eqn:E; [intros [= <- <-]; by rewrite setForward_errors|].
  intros [= <- <-] _. split_and!; [done..|]. intros n [= <-]. by btrue.
Qed.

Lemma parseForwardCount_ok v min k e :
  count_accepted (Z.of_nat min) v → parseForwardCount v min k e = (count_of v, e).
Proof.
  unfold parseForwardCount, count_accepted, count_of. intros H. case_decide as Ht; [by rewrite Ht|].
  destruct (trim v) as [|c t] eqn:Et; [done|]. cbn [truthy] in *. by destruct (H _ eq_refl) as [-> ->].
Qed.

(** * An accepted target *)

Record forward_accepted (f : ForwardFormState) : Prop := {
  fa_name : truthy (trim (w_name f)) = true;
  fa_url : urlError (trim (w_url f)) = None;
  fa_queue : count_accepted 1 (w_queue_max_messages f);
  fa_batch : count_accepted 1 (w_batch_max_rows f)
}.

(** The configuration of an accepted form. *)
Definition forward_config (f : ForwardFormState) : ForwardTargetConfig :=
  let queue := MkQueue (count_of (w_queue_max_messages f)) (trimmed (w_queue_max_bytes f)) in
  let batch := MkBatch (count_of (w_batch_max_rows f)) (trimmed (w_batch_max_bytes f)) (trimmed (w_batch_max_wait f)) in
  let retry := MkRetry (trimmed (w_retry_initial_backoff f)) (trimmed (w_retry_max_backoff f)) in
  MkForwardConfig (trim (w_name f)) (trim (w_url f)) (some_list (lines (w_sources f)))
    (match w_min_severity f with Some s => Some (Some s) | None => None end) (Some (w_compression f))
    (trimmed (w_write_timeout f)) (trimmed (w_basic_username f)) (trimmed (w_basic_password_file f))
    (trimmed (w_bearer_token_file f))
    (match queue with MkQueue None None => None | _ => Some queue end)
    (match batch with MkBatch None None None => None | _ => Some batch end)
    (match retry with MkRetry None None => None | _ => Some retry end).
Definition forward_token (f : ForwardFormState) : option jsstr := if w_remove_token f then Some [] else or_undef (w_token f).

Lemma formToForwardInput_accepted f i e :
  formToForwardInput f = (i, e) → hasForwardErrors e = false →
  forward_accepted f ∧ i = MkForwardInput (forward_config f) (forward_token f).
Proof.
  unfold formToForwardInput. set (e1 := if truthy _ then _ else _). set (e2 := match urlError (trim (w_url f)) with Some m => setForward e1 W_url m | None => e1 end).
  destruct (parseForwardCount (w_queue_max_messages f) 1 W_queue_max_messages e2) as [mm e3] eqn:E3.
  destruct (parseForwardCount (w_batch_max_rows f) 1 W_batch_max_rows e3) as [mr e4] eqn:E4.
  intros [= <- <-] He.
  destruct (parseForwardCount_clean _ _ _ _ _ _ E4 He) as (-> & -> & Hb).
  destruct (parseForwardCount_clean _ _ _ _ _ _ E3 He) as (-> & -> & Hq).
  split; [|done]. unfold e2 in He. destruct (urlError (trim (w_url f))) eqn:Eu; [by rewrite setForward_errors in He|].
  unfold e1 in He. destruct (truthy (trim (w_name f))) eqn:En; [by constructor|by rewrite setForward_errors in He].
Qed.

Lemma formToForwardInput_complete f :
  forward_accepted f → formToForwardInput f = (MkForwardInput (forward_config f) (forward_token f), emptyForwardErrors).
Proof.
  intros [Hn Hu Hq Hb]. unfold formToForwardInput. rewrite Hn, Hu.
  rewrite (parseForwardCount_ok _ 1 W_queue_max_messages) by done.
  by rewrite (parseForwardCount_ok _ 1 W_batch_max_rows).
Qed.

Lemma trimmed_round s : trimmed (orEmpty (trimmed s)) = trimmed s.
Proof. unfold trimmed at 1 3. f_equal. apply trim_orEmpty. Qed.

(** The members of an optional section read back, also when it was left out
    for being empty. *)
Lemma queue_members n b :
  let q := MkQueue n b in let o := match q with MkQueue None None => None | _ => Some q end in
  chain o q_max_messages = n ∧ chain o q_max_bytes = b.
Proof. by destruct n, b. Qed.
Lemma batch_members n b w :
  let q := MkBatch n b w in let o := match q with MkBatch None None None => None | _ => Some q end in
  chain o b_max_rows = n ∧ chain o b_max_bytes = b ∧ chain o b_max_wait = w.
Proof. by destruct n, b, w. Qed.
Lemma retry_members i m :
  let q := MkRetry i m in let o := match q with MkRetry None None => None | _ => Some q end in
  chain o rt_initial_backoff = i ∧ chain o rt_max_backoff = m.
Proof. by destruct i, m. Qed.

Lemma count_small_accepted n : count_small n → isInteger n = true ∧ nlt n (num 1) = false.
Proof.
  intros (z & Hz & ->). split; [by apply count_small_valid; exists z|].
  rewrite nlt_num by lia. lia.
Qed.

Definition counts_small (f : ForwardFormState) : Prop :=
  (∀ n, count_of (w_queue_max_messages f) = Some n → count_small n)
  ∧ (∀ n, count_of (w_batch_max_rows f) = Some n → count_small n).

#[local] Arguments lines : simpl never.
#[local] Arguments trim : simpl never.
#[local] Arguments join : simpl never.

(** The reopened form is accepted and gives the stored configuration. *)
Lemma forward_reopened f enabled status stored :
  forward_accepted f → counts_small f →
  let f2 := configToForwardForm (MkForwardTarget (forward_config f) enabled status (Some stored)) in
  forward_accepted f2 ∧ forward_config f2 = forward_config f ∧ forward_token f2 = None.
Proof.
  intros [Hn Hu Hq Hb] [Sq Sb] f2.
  destruct (queue_members (count_of (w_queue_max_messages f)) (trimmed (w_queue_max_bytes f))) as [Q1 Q2].
  destruct (batch_members (count_of (w_batch_max_rows f)) (trimmed (w_batch_max_bytes f)) (trimmed (w_batch_max_wait f))) as (B1 & B2 & B3).
  destruct (retry_members (trimmed (w_retry_initial_backoff f)) (trimmed (w_retry_max_backoff f))) as [R1 R2].
  assert (count_of (w_queue_max_messages f2) = count_of (w_queue_max_messages f)) as Eq.
  { unfold f2, configToForwardForm, forward_config. cbn [ft_config fc_queue w_queue_max_messages]. rewrite Q1.
    by apply count_string_round. }
  assert (count_of (w_batch_max_rows f2) = count_of (w_batch_max_rows f)) as Eb.
  { unfold f2, configToForwardForm, forward_config. cbn [ft_config fc_batch w_batch_max_rows]. rewrite B1.
    by apply count_string_round. }
  split_and!; [|unfold forward_config at 1; rewrite Eq, Eb|done].
  - constructor; [by cbn; rewrite trim_idem|by cbn; rewrite trim_idem|..];
      intros n En; apply count_small_accepted; [apply Sq|apply Sb]; congruence.
  - unfold f2, configToForwardForm. cbn [w_name w_url w_sources w_min_severity w_compression w_write_timeout w_basic_username
      w_basic_password_file w_bearer_token_file w_queue_max_bytes w_batch_max_bytes w_batch_max_wait w_retry_initial_backoff
      w_retry_max_backoff ft_config]. unfold forward_config.
    cbn [fc_name fc_url fc_sources fc_min_severity fc_compression fc_write_timeout fc_basic_username fc_basic_password_file
      fc_bearer_token_file fc_queue fc_batch fc_retry nullish].
    rewrite !trim_idem, Q2, B2, B3, R1, R2, !trimmed_round, lines_some by apply lines_ok. f_equal. by destruct (w_min_severity f).
Qed.

(** A forward target without errors is complete: it has a name and an http
    or https address, and its counts are integers of at least 1.  Opening what
    was stored and saving it unchanged sends the same configuration and leaves
    the token alone: a token is sent only when one is typed, and the empty one
    only to remove what is stored. *)
Theorem forward_save_stable f i e enabled status stored :
  formToForwardInput f = (i, e) → hasForwardErrors e = false → counts_small f →
  (fc_name (in_config i) ≠ [] ∧ HTTP_RE (fc_url (in_config i)) = true
   ∧ (∀ q n, fc_queue (in_config i) = Some q → q_max_messages q = Some n → isInteger n = true ∧ nlt n (num 1) = false))
  ∧ (in_token i = Some [] ↔ w_remove_token f = true)
  ∧ formToForwardInput (configToForwardForm (MkForwardTarget (in_config i) enabled status (Some stored)))
    = (MkForwardInput (in_config i) None, emptyForwardErrors).
Proof.
  intros E He Hs. destruct (formToForwardInput_accepted f i e E He) as [Hacc ->]. cbn [in_config in_token].
  destruct (forward_reopened f enabled status stored Hacc Hs) as (Hacc2 & Ec & Et). split_and!.
  - destruct Hacc as [Hn _ _ _]. cbn. by destruct (trim (w_name f)).
  - destruct Hacc as [_ Hu _ _]. unfold urlError in Hu. cbn. by destruct (truthy _), (HTTP_RE _).
  - destruct Hacc as [_ _ Hq _]. intros q n Eq En. apply Hq.
    destruct (queue_members (count_of (w_queue_max_messages f)) (trimmed (w_queue_max_bytes f))) as [Q1 _].
    unfold forward_config in Eq. cbn [fc_queue] in Eq. rewrite Eq in Q1. cbn in Q1. congruence.
  - unfold forward_token. destruct (w_remove_token f); [done|]. split; [|done]. by destruct (w_token f).
  - rewrite formToForwardInput_complete by done. by rewrite Ec, Et.
Qed.

Definition demo_target : ForwardFormState :=
  MkForwardForm $" copy " $"https://logs.example" $"edge, core" (Some warning) cp_zstd $"secret" false false $"20s" [] [] []
    $"5000" [] [] $"4MiB" [] [] [].

Lemma forward_save_stable_witness :
  ∃ i, formToForwardInput demo_target = (i, emptyForwardErrors)
  ∧ formToForwardInput (configToForwardForm (MkForwardTarget (in_config i) true None (Some true)))
    = (MkForwardInput (in_config i) None, emptyForwardErrors).
Proof.
  eexists. split; [vm_compute; reflexivity|].
  apply (forward_save_stable demo_target _ emptyForwardErrors true None true); [vm_compute; reflexivity|reflexivity|].
  split; intros n; [|discriminate]. intros E.
  assert (count_of (w_queue_max_messages demo_target) = Some (num 5000)) as E' by (vm_compute; reflexivity).
  rewrite E' in E. injection E as <-. exists 5000%Z. split; [lia|reflexivity].
Defined.

(** * No complaint is lost *)

Definition forward_mentions (e : ForwardErrors) (t : jsstr) : Prop :=
  (∃ k m, assoc_get (we_fields e) k = Some m ∧ includes t m = true) ∨ (∃ m, m ∈ we_general e ∧ includes t m = true).

Lemma addForwardError_mentions e k m t : forward_mentions e t ∨ t = m → forward_mentions (addForwardError e k m) t.
Proof.
  unfold addForwardError, forward_mentions, setForward. cbn [we_fields we_general].
  destruct (append_message (assoc_get (we_fields e) k) m t) as [Hm Hold]. intros [[(k' & x & E & H)|Hr]| ->].
  - left. destruct (decide (k = k')) as [->|Hne]; [|exists k', x; by rewrite assoc_get_set_ne].
    eexists k', _. rewrite assoc_get_set_eq. split; [done|]. by apply (Hold x).
  - by right.
  - left. eexists k, _. by rewrite assoc_get_set_eq.
Qed.
Lemma pushForward_mentions e m t : forward_mentions e t ∨ t = m → forward_mentions (pushForward e m) t.
Proof.
  unfold pushForward, forward_mentions. cbn [we_fields we_general]. intros [[Hf|(x & E & H)]| ->].
  - by left.
  - right. exists x. split; [|done]. apply elem_of_app. by left.
  - right. exists m. split; [|apply includes_refl]. apply elem_of_app. right. by apply list_elem_of_singleton.
Qed.

Definition forward_complaints (entry : jsstr * jsstr) : list jsstr :=
  match forward_direct entry with
  | Some _ => [entry.2]
  | None => List.filter truthy (map forward_clause_text (split_clauses entry.2))
  end.

Lemma forward_clauses_mentions clauses e t :
  forward_mentions e t ∨ t ∈ List.filter truthy (map forward_clause_text clauses) →
  forward_mentions (fold_left place_forward_clause clauses e) t.
Proof.
  revert e. induction clauses as [|c clauses IH]; intros e; simpl; [intros [?|?%elem_of_nil]; done|].
  intros Ht. apply IH. unfold place_forward_clause. destruct (truthy (forward_clause_text c)) eqn:E; simpl in *.
  - assert (forward_mentions e t ∨ t = forward_clause_text c ∨ t ∈ List.filter truthy (map forward_clause_text clauses)) as [?|[?|?]]
      by (rewrite elem_of_cons in Ht; naive_solver); [left|left|by right];
      destruct (k ← KEY_RE _; forwardConfigField k); (apply addForwardError_mentions || apply pushForward_mentions); auto.
  - destruct Ht; auto.
Qed.

Lemma forward_entries_mentions entries e t :
  forward_mentions e t ∨ (∃ entry, entry ∈ entries ∧ t ∈ forward_complaints entry) →
  forward_mentions (fold_left place_forward_entry entries e) t.
Proof.
  revert e. induction entries as [|x entries IH]; intros e; simpl.
  - intros [?|(? & ?%elem_of_nil & _)]; done.
  - intros Ht. apply IH. destruct Ht as [Ht|(y & [->|Hy]%elem_of_cons & Ht)]; [left|left|right; eauto];
      unfold forward_complaints, place_forward_entry in *; destruct (forward_direct x).
    all: first [apply addForwardError_mentions | apply forward_clauses_mentions]; try rewrite list_elem_of_singleton in Ht; auto.
Qed.

(** * Attention *)

Lemma attention_part_nil t : attention_part t = [] ↔ fh_attention (forwardHealth t) = false.
Proof. unfold attention_part. by destruct (fh_attention _). Qed.

Lemma join_includes sep (w : jsstr) l : w ∈ l → includes w (join sep l) = true.
Proof.
  induction l as [|x l IH]; [by intros ?%elem_of_nil|]. intros [->|Hw]%elem_of_cons.
  - rewrite join_cons. apply includes_app_l, includes_refl.
  - destruct l as [|y l]; [by apply elem_of_nil in Hw|].
    change (join sep (x :: y :: l)) with (x ++ sep ++ join sep (y :: l)). by apply includes_app_r, includes_app_r, IH.
Qed.

(** When a target calls for attention: it runs, and it is failing or has lost copies. *)
Definition losing (t : ManagedForwardTarget) : bool :=
  ft_enabled t && match ft_status t with
                  | Some s => negb (fs_healthy s) || nlt (num 0) (fs_dropped_messages s)
                  | None => false
                  end.

Lemma attention_losing t : fh_attention (forwardHealth t) = losing t.
Proof.
  unfold forwardHealth, losing. destruct (ft_enabled t), (ft_status t) as [s|]; cbn; try done.
  destruct (fs_healthy s); cbn; [|done]. by destruct (nlt _ _).
Qed.

(** Nothing that is lost goes unmentioned.  Every complaint of a refused
    save is shown at a field or in general, and there is always one; and the
    line at the top of the list is there exactly when some running target is
    failing or has dropped copies, and names every one of them. *)
Theorem forward_nothing_hidden problem fallback targets :
  (let e := forwardProblemErrors problem fallback in
   hasForwardErrors e = true
   ∧ ∀ entry t, entry ∈ problem_entries problem fallback → t ∈ forward_complaints entry → forward_mentions e t)
  ∧ (forwardAttentionSummary targets = None ↔ Forall (λ t, losing t = false) targets)
  ∧ (∀ t, t ∈ targets → losing t = true →
     ∃ s, forwardAttentionSummary targets = Some s ∧ includes (fc_name (ft_config t)) s = true).
Proof.
  split_and!.
  - intros e0. unfold forwardProblemErrors in e0. set (e := fold_left _ _ _) in e0. subst e0. split.
    + destruct (hasForwardErrors e) eqn:E; [done|]. apply hasForwardErrors_false in E. by rewrite E.
    + intros entry t Hin Ht. assert (forward_mentions e t) as H by (apply forward_entries_mentions; eauto).
      destruct (hasForwardErrors e) eqn:E; [done|]. apply pushForward_mentions. by left.
  - unfold forwardAttentionSummary. transitivity (targets ≫= attention_part = []); [by destruct (targets ≫= attention_part)|].
    induction targets as [|t targets IH]; [done|]. rewrite bind_cons, app_nil, Forall_cons, IH, attention_part_nil.
    by rewrite attention_losing.
  - intros t Hin Hl. unfold forwardAttentionSummary.
    assert (∃ w, w ∈ targets ≫= attention_part ∧ includes (fc_name (ft_config t)) w = true) as (w & Hw & Hi).
    { rewrite <- attention_losing in Hl. eexists. split.
      - apply list_elem_of_bind. exists t. split; [|done]. unfold attention_part. rewrite Hl. left.
      - apply includes_app_l, includes_refl. }
    destruct (targets ≫= attention_part) as [|p ps]; [by apply elem_of_nil in Hw|]. eexists. split; [done|].
    apply includes_app_l. apply (join_includes $"; ") in Hw. revert Hw. generalize (join $"; " (p :: ps)). intros s Hs.
    by eapply includes_trans.
Qed.
