(* ===== verification/ServiceCatalog.v ===== *)
(** The service catalog editor (src/frontend/src/features/analytics/
    service-catalog.ts) and the country codes it stores
    (src/frontend/src/lib/country.ts, [normalCountry]).

    The module-level counter behind the keys of rows is passed explicitly. *)
From Stdlib Require Import Lia ZArith.
From stdpp Require Import base list numbers strings.
From S2P Require Import Prelude Unicode SourceForm.

Definition MAX_SERVICES : nat := 32.
Definition MAX_DOMAINS_PER_SERVICE : nat := 32.
Definition MAX_NAME_CHARS : nat := 64.
Definition MAX_LABEL_CHARS : nat := 64.

Definition normalCountry (code : option jsstr) : jsstr :=
  let c := to_upper (trim (nullish code [])) in
  if (length c =? 2) && forallb is_upper c then c else [].

Record TrendService := MkTrendService {
  sv_name : jsstr; sv_label : jsstr; sv_domains : list jsstr; sv_main_domains : option (list jsstr);
  sv_country : option jsstr; sv_enabled : bool
}.

Record ServiceForm := MkServiceForm {
  g_key : jsstr; g_name : jsstr; g_label : jsstr; g_domains : jsstr; g_mainDomains : jsstr; g_country : jsstr;
  g_enabled : bool
}.

Definition newServiceForm (seq : nat) (name label domains mainDomains country : jsstr) (enabled : bool) : ServiceForm * nat :=
  let seq' := seq + 1 in
  (MkServiceForm ($"service-" ++ decn seq') name label domains mainDomains country enabled, seq').

Fixpoint catalogToForm (seq : nat) (services : list TrendService) : list ServiceForm * nat :=
  match services with
  | [] => ([], seq)
  | s :: r =>
      let '(f, seq) := newServiceForm seq (sv_name s) (sv_label s) (join [LF] (sv_domains s))
                         (join [LF] (nullish (sv_main_domains s) [])) (nullish (sv_country s) []) (sv_enabled s) in
      let '(fs, seq) := catalogToForm seq r in
      (f :: fs, seq)
  end.

Definition parseDomains (text : jsstr) : list jsstr :=
  dedup (List.filter truthy (map (λ d, to_lower (trim d)) (split_on is_line_sep text))).

(** [domain.replace(/^\.+|\.+$/g, '')] *)
Definition normalDomain (domain : jsstr) : jsstr :=
  let dot := λ c, (c =? DOT)%N in rev (drop_while dot (rev (drop_while dot domain))).

Definition formToService (f : ServiceForm) : TrendService :=
  let main := parseDomains (g_mainDomains f) in
  let country := normalCountry (Some (g_country f)) in
  MkTrendService (trim (g_name f)) (trim (g_label f)) (parseDomains (g_domains f)) (some_list main) (or_undef country)
    (g_enabled f).
Definition formToServices (forms : list ServiceForm) : list TrendService := map formToService forms.

(** * Countries *)

(** The countries the shipped catalog knows, by name. *)
Definition known_step (known : list (jsstr * jsstr)) (s : jsstr * option jsstr) : list (jsstr * jsstr) :=
  let country := normalCountry s.2 in
  if truthy country then assoc_set known (to_lower (trim s.1)) country else known.
Definition known_countries (shipped : list (jsstr * option jsstr)) : list (jsstr * jsstr) := fold_left known_step shipped [].

(** One row: the row after, and what it adds to [filled]. *)
Definition fillCountry (known : list (jsstr * jsstr)) (row : ServiceForm) : ServiceForm * list jsstr :=
  if truthy (normalCountry (Some (g_country row))) then (row, [])
  else match assoc_get known (to_lower (trim (g_name row))) with
  | None | Some [] => (row, [])
  | Some country =>
      (MkServiceForm (g_key row) (g_name row) (g_label row) (g_domains row) (g_mainDomains row) country (g_enabled row),
       [or_else (trim (g_label row)) (trim (g_name row))])
  end.

(** The shipped services are pairs of a name and a country. *)
Definition fillCountries (rows : list ServiceForm) (shipped : list (jsstr * option jsstr)) : list ServiceForm * list jsstr :=
  let known := known_countries shipped in
  let next := map (λ r, (fillCountry known r).1) rows in
  let filled := rows ≫= (λ r, (fillCountry known r).2) in
  (match filled with [] => rows | _ => next end, filled).

(** * Errors *)

Record CatalogErrors := MkCatalogErrors { ce_rows : list (nat * jsstr); ce_general : list jsstr }.
Definition emptyCatalogErrors : CatalogErrors := MkCatalogErrors [] [].
Definition hasCatalogErrors (e : CatalogErrors) : bool :=
  match ce_general e, ce_rows e with [], [] => false | _, _ => true end.

Definition addRowError (e : CatalogErrors) (row : nat) (m : jsstr) : CatalogErrors :=
  MkCatalogErrors
    (assoc_set (ce_rows e) row (match assoc_get (ce_rows e) row with
                                | Some ex => if truthy ex then ex ++ [SPACE] ++ m else m
                                | None => m
                                end))
    (ce_general e).
Definition pushCatalog (e : CatalogErrors) (m : jsstr) : CatalogErrors := MkCatalogErrors (ce_rows e) (ce_general e ++ [m]).

(** [/\[a-z0-9_-\]/] *)
Definition is_slug (c : N) : bool := is_lower c || is_digit c || (c =? UNDERSCORE)%N || (c =? MINUS)%N.

Definition serviceNameError (name : jsstr) : option jsstr :=
  if decide (name = []) then Some $"A name is required."
  else if MAX_NAME_CHARS <? length name
  then Some ($"The name is longer than " ++ decn MAX_NAME_CHARS ++ $" characters.")
  else match List.find (λ c, negb (is_slug c)) (code_points name) with
       | None => None
       | Some bad => Some ($"The name cannot contain “" ++ unit_of_cp bad ++ $"”; use lower-case letters, digits, - and _.")
       end.

Definition domainError (domain : jsstr) : option jsstr :=
  if existsb (λ c, (c =? DQUOTE)%N || (c =? SQUOTE)%N || (c =? STAR)%N || is_space c) domain
  then Some ($"“" ++ domain ++ $"” must be a plain domain name, without spaces or wildcards.")
  else if negb (includes [DOT] (normalDomain domain))
  then Some ($"“" ++ domain ++ $"” must be a domain name, such as tiktok.com.")
  else None.

(** [if (m) addRowError(errors, i, m)] *)
Definition row_error (i : nat) (m : option jsstr) (e : CatalogErrors) : CatalogErrors :=
  match m with Some m => addRowError e i m | None => e end.

(** What is wrong with a main domain. *)
Definition mainDomainError (owned : list jsstr) (domain : jsstr) : option jsstr :=
  match domainError domain with
  | Some m => Some m
  | None => if bool_decide (normalDomain domain ∈ owned) then None
            else Some ($"Main domain “" ++ domain ++ $"” is not one of this service’s domains.")
  end.

Definition validateRow (i : nat) (form : ServiceForm) (seen : list jsstr) (e : CatalogErrors) : CatalogErrors :=
  let name := trim (g_name form) in
  let e := match serviceNameError name with
           | Some m => addRowError e i m
           | None => if bool_decide (name ∈ seen) then addRowError e i $"Another service already uses this name." else e
           end in
  let e := if MAX_LABEL_CHARS <? length (trim (g_label form))
           then addRowError e i ($"The label is longer than " ++ decn MAX_LABEL_CHARS ++ $" characters.") else e in
  let e := if existsb (λ c, (c =? LF)%N || (c =? CR)%N) (g_label form)
           then addRowError e i $"The label must be a single line." else e in
  let domains := parseDomains (g_domains form) in
  let e := match domains with
           | [] => addRowError e i $"Add at least one domain."
           | _ => if MAX_DOMAINS_PER_SERVICE <? length domains
                  then addRowError e i ($"At most " ++ decn MAX_DOMAINS_PER_SERVICE ++ $" domains are allowed; this one has "
                                        ++ decn (length domains) ++ $".")
                  else e
           end in
  let e := fold_left (λ e d, row_error i (domainError d) e) domains e in
  let owned := map normalDomain domains in
  fold_left (λ e d, row_error i (mainDomainError owned d) e) (parseDomains (g_mainDomains form)) e.

(** The rows from position [i], with the names seen before them. *)
Fixpoint validateRows (i : nat) (seen : list jsstr) (forms : list ServiceForm) (e : CatalogErrors) : CatalogErrors :=
  match forms with
  | [] => e
  | form :: r => validateRows (S i) (trim (g_name form) :: seen) r (validateRow i form seen e)
  end.

Definition validateCatalog (forms : list ServiceForm) : CatalogErrors :=
  let e := if MAX_SERVICES <? length forms
           then pushCatalog emptyCatalogErrors
                  ($"At most " ++ decn MAX_SERVICES ++ $" services are allowed; the catalog has " ++ decn (length forms) ++ $".")
           else emptyCatalogErrors in
  validateRows 0 [] forms e.

(** * Problems reported by the server *)

(** The pattern of a trimmed line that names a service in double quotes: the
    name and the message after the colon. *)
Definition named_re (text : jsstr) : option (jsstr * jsstr) :=
  let head := $"service " ++ [DQUOTE] in
  if starts_with head text
  then let rest := drop (length head) text in
       match index_of DQUOTE rest with
       | Some k =>
           match drop (k + 1) rest with
           | c :: m => let msg := drop_while is_space m in
                       if (c =? COLON)%N && truthy msg then Some (take k rest, msg) else None
           | [] => None
           end
       | None => None
       end
  else None.

(** [/^service (\d+):\s*(.+)$/s] *)
Definition positional_re (text : jsstr) : option (jsstr * jsstr) :=
  if starts_with $"service " text
  then let rest := drop 8 text in
       let ds := take_while is_digit rest in
       match drop_while is_digit rest with
       | c :: m => let msg := drop_while is_space m in
                   if (c =? COLON)%N && truthy ds && truthy msg then Some (ds, msg) else None
       | [] => None
       end
  else None.

Definition serviceErrorIndex (names : list jsstr) (text : jsstr) : option (nat * jsstr) :=
  match named_re text with
  | Some (name, msg) => (λ i, (i, trim msg)) <$> find_index (λ n, bool_decide (n = name)) names
  | None =>
      match positional_re text with
      | Some (ds, msg) =>
          match digits_val ds with
          | N0 => None
          | n => if (n <=? N.of_nat (length names))%N then Some (N.to_nat (n - 1), trim msg) else None
          end
      | None => None
      end
  end.

(** [a || b] of strings that may be absent. *)
Definition first_text (a : option jsstr) (b : jsstr) : jsstr := match a with Some s => or_else s b | None => b end.

Definition catalog_detail (problem : option Problem) (fallback : jsstr) : jsstr :=
  match problem with
  | None => fallback
  | Some p =>
      first_text ((λ l, join [LF] (map (λ e, nullish (pe_message e) []) l)) <$> pb_errors p)
        (first_text (pb_detail p) fallback)
  end.

Definition place_catalog_line (names : list jsstr) (e : CatalogErrors) (line : jsstr) : CatalogErrors :=
  let text := trim line in
  if negb (truthy text) then e
  else match serviceErrorIndex names text with
       | Some (i, m) => addRowError e i m
       | None => pushCatalog e text
       end.

Definition catalogProblemErrors (problem : option Problem) (fallback : jsstr) (names : list jsstr) : CatalogErrors :=
  let e := fold_left (place_catalog_line names) (split_on (λ c, (c =? LF)%N) (catalog_detail problem fallback)) emptyCatalogErrors in
  if hasCatalogErrors e then e else pushCatalog e fallback.

Example catalog_problem_ex :
  catalogProblemErrors
    (Some (MkSourceProblem (Some ($"service " ++ [DQUOTE] ++ $"tiktok" ++ [DQUOTE] ++ $": no domains" ++ [LF]
       ++ $"service 2: bad name" ++ [LF] ++ $"service 9: gone")) None)) $"failed" [$"tiktok"; []]
  = MkCatalogErrors [(0, $"no domains"); (1, $"bad name")] [$"service 9: gone"].
Proof. vm_compute. reflexivity. Qed.
