(* ===== verification/CatalogProps.v ===== *)
(** What the service catalog editor guarantees. *)
From Stdlib Require Import Lia ZArith.
From stdpp Require Import base list numbers strings.
From S2P Require Import Prelude Unicode SourceForm ServiceCatalog.

(** * Validation *)

(** A service the server takes. *)
Definition plain_domain (d : jsstr) : Prop :=
  forallb (λ c, negb ((c =? DQUOTE)%N || (c =? SQUOTE)%N || (c =? STAR)%N || is_space c)) d = true
  ∧ includes [DOT] (normalDomain d) = true.
Record service_ok (s : TrendService) : Prop := {
  so_name : sv_name s ≠ [] ∧ length (sv_name s) ≤ MAX_NAME_CHARS ∧ forallb is_slug (sv_name s) = true;
  so_label : length (sv_label s) ≤ MAX_LABEL_CHARS;
  so_domains : sv_domains s ≠ [] ∧ length (sv_domains s) ≤ MAX_DOMAINS_PER_SERVICE;
  so_plain : Forall plain_domain (sv_domains s);
  so_main : Forall (λ d, plain_domain d ∧ normalDomain d ∈ map normalDomain (sv_domains s)) (nullish (sv_main_domains s) [])
}.
Definition single_line (label : jsstr) : Prop := forallb (λ c, negb ((c =? LF)%N || (c =? CR)%N)) label = true.

Lemma addRowError_errors e i m : hasCatalogErrors (addRowError e i m) = true.
Proof.
  unfold hasCatalogErrors, addRowError. simpl. destruct (ce_general e); [|done].
  match goal with |- context [assoc_set ?o ?k ?v] => pose proof (assoc_set_ne o k v); by destruct (assoc_set o k v) end.
Qed.

Lemma guard_clean (b : bool) e i m :
  hasCatalogErrors (if b then addRowError e i m else e) = false ↔ b = false ∧ hasCatalogErrors e = false.
Proof. destruct b; [rewrite addRowError_errors|]; naive_solver. Qed.

Lemma row_errors_clean {A} (f : A → option jsstr) i l e :
  hasCatalogErrors (fold_left (λ e d, row_error i (f d) e) l e) = false ↔
  Forall (λ d, f d = None) l ∧ hasCatalogErrors e = false.
Proof.
  revert e. induction l as [|d l IH]; intros e; simpl; [naive_solver|]. rewrite IH, Forall_cons. unfold row_error.
  destruct (f d); [rewrite addRowError_errors|]; naive_solver.
Qed.

Lemma slug_points s : forallb is_slug (code_points s) = forallb is_slug s.
Proof.
  remember (length s) as n eqn:En. revert s En. induction (lt_wf n) as [n _ IH]. intros [|u r] ->; [done|].
  cbn [code_points]. destruct r as [|v r]; [done|]. destruct (is_high u && is_low v) eqn:E.
  - apply andb_prop in E as [Hu _]. assert (is_slug u = false) as Hn.
    { revert Hu. unfold is_high, is_slug, is_lower, is_digit. intros Hu. units. }
    cbn [forallb]. rewrite Hn. cbn [andb].
    assert (∀ k, is_slug (65536 + k) = false) as Hbig by (intros k; unfold is_slug, is_lower, is_digit; units).
    rewrite <- N.add_assoc, Hbig. done.
  - cbn [forallb]. f_equal. by apply (IH (length (v :: r))); [simpl; lia|].
Qed.

Lemma existsb_none (p : N → bool) l : existsb p l = false ↔ forallb (λ c, negb (p c)) l = true.
Proof. induction l as [|c l IH]; simpl; [done|]. destruct (p c); simpl; [done|exact IH]. Qed.

Lemma name_error_none name :
  serviceNameError name = None ↔ name ≠ [] ∧ length name ≤ MAX_NAME_CHARS ∧ forallb is_slug name = true.
Proof.
  unfold serviceNameError. case_decide; [naive_solver|]. destruct (Nat.ltb_spec MAX_NAME_CHARS (length name)); [split; [done|]; naive_solver lia|].
  rewrite <- slug_points. generalize (code_points name). intros l.
  assert (List.find (λ c, negb (is_slug c)) l = None ↔ forallb is_slug l = true) as Hf.
  { induction l as [|c l IH]; simpl; [done|]. destruct (is_slug c); simpl; [done|naive_solver]. }
  rewrite <- Hf. destruct (List.find _ l); naive_solver.
Qed.

Lemma domain_error_none d : domainError d = None ↔ plain_domain d.
Proof.
  unfold domainError, plain_domain. rewrite <- (existsb_none _ d).
  destruct (existsb _ d); simpl; [naive_solver|]. destruct (includes _ _); simpl; naive_solver.
Qed.

Lemma main_error_none owned d : mainDomainError owned d = None ↔ plain_domain d ∧ normalDomain d ∈ owned.
Proof.
  unfold mainDomainError. rewrite <- domain_error_none. destruct (domainError d); [naive_solver|]. case_bool_decide; naive_solver.
Qed.

Lemma validateRow_clean i f seen e :
  hasCatalogErrors (validateRow i f seen e) = false ↔
  service_ok (formToService f) ∧ single_line (g_label f) ∧ trim (g_name f) ∉ seen ∧ hasCatalogErrors e = false.
Proof.
  unfold validateRow. cbv zeta. rewrite !row_errors_clean.
  set (domains := parseDomains (g_domains f)).
  set (e1 := match serviceNameError (trim (g_name f)) with
    | Some m => addRowError e i m
    | None => if bool_decide (trim (g_name f) ∈ seen) then addRowError e i $"Another service already uses this name." else e end).
  assert (hasCatalogErrors e1 = false ↔
    (sv_name (formToService f) ≠ [] ∧ length (sv_name (formToService f)) ≤ MAX_NAME_CHARS
      ∧ forallb is_slug (sv_name (formToService f)) = true)
    ∧ trim (g_name f) ∉ seen ∧ hasCatalogErrors e = false) as He1.
  { subst e1. cbn [formToService sv_name]. rewrite <- name_error_none.
    destruct (serviceNameError _); [rewrite addRowError_errors; naive_solver|]. rewrite guard_clean, bool_decide_eq_false. naive_solver. }
  set (e3 := if existsb _ _ then _ else _).
  assert (hasCatalogErrors e3 = false ↔ single_line (g_label f) ∧ length (sv_label (formToService f)) ≤ MAX_LABEL_CHARS
    ∧ hasCatalogErrors e1 = false) as He3.
  { subst e3. rewrite !guard_clean, Nat.ltb_ge, existsb_none. unfold single_line. naive_solver. }
  match goal with |- (_ ∧ (_ ∧ hasCatalogErrors ?e4 = false)) ↔ _ =>
    assert (hasCatalogErrors e4 = false ↔ (domains ≠ [] ∧ length domains ≤ MAX_DOMAINS_PER_SERVICE) ∧ hasCatalogErrors e3 = false) as He4 end.
  { destruct domains as [|d ds]; [rewrite addRowError_errors; naive_solver|]. rewrite guard_clean, Nat.ltb_ge. naive_solver. }
  rewrite He4, He3, He1.
  rewrite (Forall_iff _ _ _ (domain_error_none)), (Forall_iff _ _ _ (main_error_none (map normalDomain domains))).
  assert (nullish (sv_main_domains (formToService f)) [] = parseDomains (g_mainDomains f)) as Hm.
  { cbn [formToService sv_main_domains]. by destruct (parseDomains (g_mainDomains f)). }
  split.
  - intros (Hmain & Hd & ([??] & Hs & Hl & Hn & Hseen & He)). split_and!; try done. constructor; try done. by rewrite Hm.
  - intros ([Hn Hl Hd Hp Hmn] & Hs & Hseen & He). rewrite Hm in Hmn. done.
Qed.

Lemma validateRows_clean i seen forms e :
  hasCatalogErrors (validateRows i seen forms e) = false ↔
  Forall (λ f, service_ok (formToService f) ∧ single_line (g_label f)) forms
  ∧ NoDup (map (λ f, trim (g_name f)) forms) ∧ Forall (λ f, trim (g_name f) ∉ seen) forms ∧ hasCatalogErrors e = false.
Proof.
  revert i seen e. induction forms as [|f forms IH]; intros i seen e; cbn [validateRows map].
  - split; [intros ?; split_and!; try done; constructor|by intros (_ & _ & _ & ?)].
  - rewrite IH, validateRow_clean, !Forall_cons, NoDup_cons.
    assert (Forall (λ f', trim (g_name f') ∉ trim (g_name f) :: seen) forms
      ↔ trim (g_name f) ∉ map (λ f, trim (g_name f)) forms ∧ Forall (λ f, trim (g_name f) ∉ seen) forms) as ->; [|tauto].
    rewrite list_elem_of_fmap, !Forall_forall. setoid_rewrite not_elem_of_cons. split.
    + intros H. split; [intros (f' & E & Hf'); by destruct (H f' Hf') as [? _]|intros f' Hf'; by apply H].
    + intros [H1 H2] f' Hf'. split; [intros E; apply H1; by exists f'|by apply H2].
Qed.

(** The editor's checks are exactly what a catalog the server takes
    satisfies: no error is shown if and only if there are at most 32 services,
    their names are distinct slugs, labels are short and on one line, and every
    service has 1 to 32 plain domains that include its main domains. *)
Theorem catalog_validation forms :
  hasCatalogErrors (validateCatalog forms) = false ↔
  length forms ≤ MAX_SERVICES ∧ NoDup (map sv_name (formToServices forms))
  ∧ Forall service_ok (formToServices forms) ∧ Forall (λ f, single_line (g_label f)) forms.
Proof.
  unfold validateCatalog, formToServices. cbv zeta. rewrite validateRows_clean, map_map, Forall_and.
  rewrite Forall_fmap. destruct (Nat.ltb_spec MAX_SERVICES (length forms)).
  - split; [naive_solver|]. intros (? & _). lia.
  - assert (Forall (λ f, trim (g_name f) ∉ []) forms) by (apply Forall_forall; intros f _; apply not_elem_of_nil). naive_solver.
Qed.

(** * Countries *)

Lemma upper_fixed c : is_upper c = true → map_case upper_runs upper_special c = [c].
Proof.
  intros H. assert (forallb (λ n, bool_decide (map_case upper_runs upper_special (N.of_nat n) = [N.of_nat n])) (seq 65 26) = true)
    as Hall by (vm_compute; reflexivity).
  rewrite forallb_forall in Hall. unfold is_upper, in_range in H. btrue.
  specialize (Hall (N.to_nat c)). rewrite N2Nat.id in Hall. apply (bool_decide_eq_true_1 _), Hall, in_seq. lia.
Qed.

Lemma normalCountry_code a b :
  is_upper a = true → is_upper b = true → normalCountry (Some [a; b]) = [a; b].
Proof.
  intros Ha Hb. unfold normalCountry. cbn [nullish].
  assert (∀ c, is_upper c = true → is_space c = false ∧ is_high c = false ∧ (c < 65536)%N) as Hu.
  { intros c Hc. unfold is_upper, is_space, is_high, in_range in *. btrue. split_and!; [units|units|lia]. }
  destruct (Hu a Ha) as (Sa & Ga & La), (Hu b Hb) as (Sb & Gb & Lb).
  rewrite (trim_id [a; b] a [b] b [a]) by done.
  unfold to_upper. cbn [code_points]. rewrite Ga. cbn [andb]. rewrite !bind_cons, !upper_fixed by done. cbn.
  rewrite !unit_of_cp_small by done. cbn. by rewrite Ha, Hb.
Qed.

Lemma normalCountry_idem x : normalCountry (Some (normalCountry x)) = normalCountry x.
Proof.
  assert (normalCountry (Some []) = []) as H0 by (vm_compute; reflexivity).
  unfold normalCountry at 2 3. destruct (to_upper _) as [|a [|b [|c r]]]; cbn [length Nat.eqb andb]; [done|done| |done].
  cbn [forallb]. destruct (is_upper a) eqn:Ha, (is_upper b) eqn:Hb; cbn [andb]; [by apply normalCountry_code|done..].
Qed.

(** What the shipped catalog says of a name: the country of one of the services
    of that name that has one. *)
Definition shipped_country (shipped : list (jsstr * option jsstr)) (key c : jsstr) : Prop :=
  ∃ s, s ∈ shipped ∧ to_lower (trim s.1) = key ∧ normalCountry s.2 = c ∧ c ≠ [].

Lemma known_spec shipped key :
  match assoc_get (known_countries shipped) key with
  | Some c => shipped_country shipped key c
  | None => ∀ c, ¬ shipped_country shipped key c
  end.
Proof.
  unfold known_countries. induction shipped as [|s l IH] using rev_ind; [by intros c (x & ?%elem_of_nil & _)|].
  assert (∀ c, shipped_country l key c → shipped_country (l ++ [s]) key c) as Hmono.
  { intros c (x & Hx & ?). exists x. split; [apply elem_of_app; by left|done]. }
  assert (∀ c, shipped_country (l ++ [s]) key c →
    shipped_country l key c ∨ (to_lower (trim s.1) = key ∧ normalCountry s.2 = c ∧ c ≠ [])) as Hinv.
  { intros c (x & [Hx|<-%list_elem_of_singleton]%elem_of_app & ?); [left; by exists x|by right]. }
  rewrite fold_left_app. cbn [fold_left]. set (known := fold_left known_step l []) in *. unfold known_step.
  destruct (truthy (normalCountry s.2)) eqn:Et.
  - destruct (decide (to_lower (trim s.1) = key)) as [<-|Hne].
    + rewrite assoc_get_set_eq. exists s. split_and!; [apply elem_of_app; right; by apply list_elem_of_singleton|done..|].
      by intros E; rewrite E in Et.
    + rewrite assoc_get_set_ne by done. destruct (assoc_get _ _); [auto|]. intros c [?|[? _]]%Hinv; [by apply (IH c)|done].
  - destruct (assoc_get _ _); [auto|]. intros c [?|(_ & Hc & Hn)]%Hinv; [by apply (IH c)|]. rewrite Hc in Et. by destruct c.
Qed.

(** The row with a country. *)
Definition with_country (row : ServiceForm) (c : jsstr) : ServiceForm :=
  MkServiceForm (g_key row) (g_name row) (g_label row) (g_domains row) (g_mainDomains row) c (g_enabled row).
Definition blank_country (row : ServiceForm) : Prop := normalCountry (Some (g_country row)) = [].

(** A row the filling leaves as it is, and one it fills. *)
Inductive filled_row (shipped : list (jsstr * option jsstr)) (row : ServiceForm) : ServiceForm → Prop :=
| row_left :
    (blank_country row → ∀ c, ¬ shipped_country shipped (to_lower (trim (g_name row))) c) →
    filled_row shipped row row
| row_filled c :
    blank_country row → shipped_country shipped (to_lower (trim (g_name row))) c →
    filled_row shipped row (with_country row c).

Lemma fillCountry_spec shipped row :
  let '(row', added) := fillCountry (known_countries shipped) row in
  filled_row shipped row row' ∧ (added = [] → row' = row) ∧ fillCountry (known_countries shipped) row' = (row', []).
Proof.
  unfold fillCountry. destruct (truthy (normalCountry (Some (g_country row)))) eqn:Et.
  - split_and!; [|done|by rewrite Et]. constructor. unfold blank_country. intros E. by rewrite E in Et.
  - assert (blank_country row) as Hb by (unfold blank_country; by destruct (normalCountry _)).
    pose proof (known_spec shipped (to_lower (trim (g_name row)))) as Hk.
    destruct (assoc_get _ _) as [[|x c]|] eqn:Ea.
    + exfalso. by destruct Hk as (_ & _ & _ & _ & ?).
    + split_and!; [by apply (row_filled _ _ (x :: c))|done|]. cbn [g_country].
      destruct Hk as (s & _ & _ & <- & Hn). rewrite normalCountry_idem. by destruct (normalCountry s.2).
    + split_and!; [by constructor|done|]. by rewrite Et, Ea.
Qed.

(** Filling in countries only ever fills blanks.  Every row stays in its
    place; a row with a country, or one the shipped catalog does not know, is
    left as it is, and any other gets the country of a shipped service of its
    name and nothing else of it changes.  Filling again changes nothing. *)
Theorem fill_countries_spec rows shipped :
  let '(rows', filled) := fillCountries rows shipped in
  Forall2 (filled_row shipped) rows rows' ∧ (filled = [] → rows' = rows) ∧ fillCountries rows' shipped = (rows', []).
Proof.
  unfold fillCountries. cbv zeta. set (known := known_countries shipped).
  set (next := map (λ r, (fillCountry known r).1) rows). set (filled := rows ≫= λ r, (fillCountry known r).2).
  assert (Forall2 (filled_row shipped) rows next ∧ (filled = [] → next = rows)
    ∧ (next ≫= λ r, (fillCountry known r).2) = []) as (H1 & H2 & H3).
  { subst next filled. induction rows as [|r rows IH]; [done|]. destruct IH as (I1 & I2 & I3).
    pose proof (fillCountry_spec shipped r) as Hr. cbn [map]. rewrite !bind_cons. fold known in Hr.
    destruct (fillCountry known r) as [r' added]. destruct Hr as (R1 & R2 & R3). simpl. rewrite R3. split_and!.
    - by constructor.
    - intros [-> Hf]%app_nil. rewrite R2, I2 by done. done.
    - done. }
  assert ((match filled with [] => rows | _ => next end) = next) as Hn by (destruct filled; [by rewrite H2|done]).
  rewrite Hn, H3. done.
Qed.
