(* ===== verification/Format.v ===== *)
(** Formatting of numbers, durations and times (src/frontend/src/lib/format.ts).

    [Intl.NumberFormat] and date-fns' [format] are parameters; so is the zone
    of the browser. *)
From Stdlib Require Import ZArith Lia SpecFloat.
From stdpp Require Import base list numbers strings.
From S2P Require Import Prelude Unicode JsNumber JsDate TimeRange.

Class Locale := {
  (** [new Intl.NumberFormat('en', { notation: 'compact', ... }).format] *)
  compact_format : Number → jsstr;
  (** [new Intl.NumberFormat('en').format] *)
  integer_format : Number → jsstr;
  (** [dfFormat(new TZDate(t, tz), pattern)] *)
  date_format : Z → jsstr → jsstr → jsstr;
  (** [Intl.DateTimeFormat().resolvedOptions().timeZone] *)
  browser_zone : jsstr
}.

(** * Arithmetic *)

(** [Math.floor], [Math.round] and [Math.abs] as numbers. *)
Definition nfloor (x : Number) : Number := match math_floor x with Some z => num z | None => x end.
Definition nround (x : Number) : Number := match math_round x with Some z => num z | None => x end.
Definition nabs : Number → Number := SFabs.
Definition nge (x y : Number) : bool := nle y x.
Definition ngt (x y : Number) : bool := nlt y x.

(** * Formats *)

Section format.
Context `{Locale} `{TimeZones}.

Definition resolveTimezone (pref : jsstr) : jsstr :=
  if decide (pref = $"browser") then or_else browser_zone $"UTC" else or_else pref $"UTC".

(** The value is absent, a string, or a date ([None] when invalid). *)
Inductive timestamp := TsString (s : jsstr) | TsDate (d : option Z).
Definition formatTimestamp (value : option timestamp) (tz pattern : jsstr) : jsstr :=
  match value with
  | None => []
  | Some v =>
      match (match v with TsString s => date_parse s | TsDate d => d end) with
      | Some t => date_format t tz pattern
      | None => match v with TsString s => s | TsDate _ => $"Invalid Date" end
      end
  end.
Definition formatTimeOnly (value : option timestamp) (tz : jsstr) : jsstr := formatTimestamp value tz $"HH:mm:ss.SSS".

Definition present (n : option Number) (f : Number → jsstr) : jsstr :=
  match n with Some n => if isNaN n then $"—" else f n | None => $"—" end.

Definition formatCount (n : option Number) : jsstr :=
  present n (λ n, if nge (nabs n) (num 100000) then compact_format n else integer_format (nround n)).

Definition formatAxisCount (n : Number) : jsstr :=
  if nge (nabs n) (num 10000) then compact_format n else integer_format (nround n).

Definition formatExact (n : option Number) : jsstr := present n integer_format.

Definition formatRate (n : option Number) : jsstr :=
  present n (λ x, if ngt x (num 0) && nlt x (num 10) then to_fixed x 1 else formatCount n).
End format.

(** The loop of [formatBytes] over the units after the current one. *)
Fixpoint bytes_loop (v : Number) (unit : jsstr) (units : list jsstr) (i : nat) : (Number * jsstr * nat)%type :=
  match units with
  | u :: r => if nge (nabs v) (num 1024) then bytes_loop (ndiv v (num 1024)) u r (S i) else (v, unit, i)
  | [] => (v, unit, i)
  end.
Definition BYTE_UNITS : list jsstr := [$"KiB"; $"MiB"; $"GiB"; $"TiB"; $"PiB"].

Definition formatBytes (n : option Number) : jsstr :=
  present n (λ n,
    let '(v, unit, i) := bytes_loop n $"B" BYTE_UNITS 0 in
    (if nge v (num 100) || (i =? 0)%nat then num_to_string (nround v) else to_fixed v 1) ++ [SPACE] ++ unit).

Definition formatDuration (seconds : option Number) : jsstr :=
  match seconds with
  | None => $"—"
  | Some s =>
      if nlt s (num 1) then num_to_string (nround (nmul s (num 1000))) ++ $" ms"
      else if nlt s (num 60) then to_fixed s (if nlt s (num 10) then 1 else 0) ++ $" s"
      else
        let m := nfloor (ndiv s (num 60)) in
        if nlt m (num 60) then num_to_string m ++ $"m " ++ num_to_string (nfloor (nmod s (num 60))) ++ $"s"
        else
          let h := nfloor (ndiv m (num 60)) in
          if nlt h (num 48) then num_to_string h ++ $"h " ++ num_to_string (nmod m (num 60)) ++ $"m"
          else num_to_string (nfloor (ndiv h (num 24))) ++ $"d " ++ num_to_string (nmod h (num 24)) ++ $"h"
  end.

(** The literal 0.1 *)
Definition tenth : Number := num_of_decimal 1 (-1).

Definition formatPercent (ratio : Number) : jsstr :=
  if negb (isFinite ratio) then $"—" else to_fixed (nmul ratio (num 100)) (if nlt ratio tenth then 1 else 0) ++ $"%".

(** A locale for examples: no grouping, dates as their time value. *)
Definition plain_locale : Locale := {|
  compact_format := num_to_string; integer_format := num_to_string;
  date_format := λ t _ p, decz t ++ [SPACE] ++ p; browser_zone := $"UTC" |}.

Example bytes_ex :
  map (λ z, formatBytes (Some (num z))) [0; 1023; 1024; 1536; 104857600; 1099511627776; 1152921504606846976]%Z
  = [$"0 B"; $"1023 B"; $"1.0 KiB"; $"1.5 KiB"; $"100 MiB"; $"1.0 TiB"; $"1024 PiB"].
Proof. vm_compute. reflexivity. Qed.
Example duration_ex :
  map (λ z, formatDuration (Some (num z))) [0; 5; 42; 61; 3599; 3600; 172799; 172800; 200000]%Z
  = [$"0 ms"; $"5.0 s"; $"42 s"; $"1m 1s"; $"59m 59s"; $"1h 0m"; $"47h 59m"; $"2d 0h"; $"2d 7h"].
Proof. vm_compute. reflexivity. Qed.
Example percent_ex : map formatPercent [num_of_decimal 95 (-2); num_of_decimal 5 (-2); num 1; NaN] = [$"95%"; $"5.0%"; $"100%"; $"—"].
Proof. vm_compute. reflexivity. Qed.
