(* ===== verification/Analytics.v ===== *)
(** The analytics page (src/frontend/src/features/analytics/
    analytics-query.ts): the URL codec, the comparison with the previous period
    and the rows of the charts.

    A chart row is an object with the time [t] and one member per series; the
    members are an association list.  A JavaScript [Map] is an association list
    too: setting an existing key keeps its place. *)
From Stdlib Require Import Lia ZArith SpecFloat.
From stdpp Require Import base list numbers strings.
From S2P Require Import Prelude Unicode JsNumber JsDate TimeRange Format.
Open Scope nat_scope.

(** * The query *)

Definition DEFAULT_GROUP_BY : jsstr := $"app_name".
Definition DEFAULT_TOP : Z := 10.
Definition TOP_OPTIONS : list Z := [5; 10; 20; 50]%Z.
Definition SERIES_BUCKETS : Z := 120.

Inductive MetricType := mt_count | mt_count_distinct.
Record AnalyticsMetric := MkMetric { m_type : MetricType; m_field : option jsstr }.
Record AnalyticsQuery := MkAnalyticsQuery { aq_groupBy : jsstr; aq_metric : AnalyticsMetric; aq_limit : Number }.

(** The members of the search this page's codec reads and writes. *)
Inductive SearchMetric := sm_count | sm_unique.
Record AnalyticsParams := MkAnalyticsParams {
  ap_group : option jsstr; ap_metric : SearchMetric; ap_mfield : option jsstr; ap_top : option jsstr
}.

(** [s?.trim() || d] *)
Definition trim_or (s : option jsstr) (d : jsstr) : jsstr := match s with Some s => or_else (trim s) d | None => d end.
(** [s?.trim() || undefined] *)
Definition trim_undef (s : option jsstr) : option jsstr := s ≫= λ s, or_undef (trim s).
(** [Number(x)] of an optional string *)
Definition number_of (s : option jsstr) : Number := match s with Some s => str_to_number s | None => NaN end.

Definition decodeAnalytics (search : AnalyticsParams) : AnalyticsQuery :=
  let top := number_of (ap_top search) in
  MkAnalyticsQuery (trim_or (ap_group search) DEFAULT_GROUP_BY)
    (match ap_metric search with
     | sm_unique => MkMetric mt_count_distinct (trim_undef (ap_mfield search))
     | sm_count => MkMetric mt_count None
     end)
    (if existsb (λ o, neq (num o) top) TOP_OPTIONS then top else num DEFAULT_TOP).

Definition encodeAnalytics (q : AnalyticsQuery) : AnalyticsParams :=
  MkAnalyticsParams
    (if decide (aq_groupBy q = DEFAULT_GROUP_BY) then None else Some (aq_groupBy q))
    (match m_type (aq_metric q) with mt_count_distinct => sm_unique | mt_count => sm_count end)
    (match m_type (aq_metric q) with mt_count_distinct => m_field (aq_metric q) | mt_count => None end)
    (if neq (aq_limit q) (num DEFAULT_TOP) then None else Some (num_to_string (aq_limit q))).

Definition metricComplete (m : AnalyticsMetric) : bool :=
  match m_type m with mt_count => true | mt_count_distinct => match m_field m with Some f => truthy f | None => false end end.
Definition metricLabel (m : AnalyticsMetric) : jsstr :=
  match m_type m with mt_count_distinct => $"unique " ++ nullish (m_field m) $"…" | mt_count => $"events" end.
Definition metricHeading (m : AnalyticsMetric) : jsstr :=
  match m_type m with mt_count_distinct => $"Unique" | mt_count => $"Events" end.
Definition metricTitle (m : AnalyticsMetric) : jsstr :=
  match m_type m with mt_count_distinct => $"Unique " ++ nullish (m_field m) $"values" | mt_count => $"Events" end.
Definition metricIsAdditive (m : AnalyticsMetric) : bool := match m_type m with mt_count => true | _ => false end.
Definition groupLabel (value : jsstr) : jsstr := if decide (value = []) then $"(none)" else value.
Definition metricUnit (m : AnalyticsMetric) : jsstr :=
  match m_type m with mt_count_distinct => $"unique" | mt_count => [] end.

(** Dates as their time values. *)
Definition previousRange (start end_ : Z) : option Z * option Z :=
  let duration := (end_ - start)%Z in (time_clip (start - duration), time_clip start).

(** * Deltas *)

Inductive DeltaKind := d_new | d_up | d_down | d_flat | d_unknown.
#[export] Instance DeltaKind_eq_dec : EqDecision DeltaKind.
Proof. solve_decision. Defined.
Record Delta := MkDelta { dl_kind : DeltaKind; dl_ratio : option Number; dl_label : jsstr; dl_significant : bool }.

(** The literal 0.1 *)
Definition SIGNIFICANT : Number := tenth.

Definition formatDelta (ratio : Number) : jsstr :=
  if nge ratio (num 10) then $"×" ++ num_to_string (nround (nadd ratio (num 1)))
  else
    let pct := nmul ratio (num 100) in
    let rounded := if nlt (nabs pct) (num 10) then str_to_number (to_fixed pct 1) else nround pct in
    if neq rounded (num 0) then $"0%"
    else (if ngt rounded (num 0) then $"+" else $"−") ++ num_to_string (nabs rounded) ++ $"%".

Definition rowDelta (current : Number) (previous : option Number) (previousTruncated : bool) : Delta :=
  match previous with
  | None =>
      if previousTruncated then MkDelta d_unknown None $"—" false else MkDelta d_new None $"new" true
  | Some p =>
      if neq p (num 0)
      then (if neq current (num 0) then MkDelta d_flat (Some (num 0)) $"0%" false else MkDelta d_new None $"new" true)
      else
        let ratio := ndiv (nsub current p) p in
        MkDelta (if ngt ratio (num 0) then d_up else if nlt ratio (num 0) then d_down else d_flat) (Some ratio)
          (formatDelta ratio) (nge (nabs ratio) SIGNIFICANT)
  end.

Record BreakdownRow := MkBreakdownRow { br_value : jsstr; br_metric : Number }.
Record BreakdownResponse := MkBreakdown { bd_rows : list BreakdownRow; bd_distinct_groups : Number }.

(** [new Map(pairs)] *)
Definition map_of {K A} `{EqDecision K} (pairs : list (K * A)) : list (K * A) :=
  fold_left (λ m kv, assoc_set m kv.1 kv.2) pairs [].

Definition computeDeltas (rows : list BreakdownRow) (previous : option BreakdownResponse) : list (jsstr * Delta) :=
  match previous with
  | None => []
  | Some p =>
      let before := map_of (map (λ r, (br_value r, br_metric r)) (bd_rows p)) in
      let truncated := ngt (bd_distinct_groups p) (num (Z.of_nat (length (bd_rows p)))) in
      fold_left (λ out row, assoc_set out (br_value row) (rowDelta (br_metric row) (assoc_get before (br_value row)) truncated))
        rows []
  end.

(** * Charts *)

Record ChartSeries := MkChartSeries { cs_key : jsstr; cs_label : jsstr; cs_value : jsstr }.
Record ChartRow := MkChartRow { cr_t : option Z; cr_values : list (jsstr * Number) }.

(** [`s${i}`] *)
Definition series_key (i : nat) : jsstr := $"s" ++ decn i.

Record SeriesGroup := MkSeriesGroup { sgr_value : jsstr; sgr_points : list Number }.
Record SeriesResponse := MkSeriesResponse { sr_timestamps : list jsstr; sr_groups : list SeriesGroup }.

Record AnalysisLine := MkAnalysisLine { al_name : jsstr; al_label : jsstr; al_total : Number; al_points : list Number }.
Record AnalysisActivity := MkActivity { aa_timestamps : option (list jsstr); aa_lines : option (list AnalysisLine) }.
Record LineSeries := MkLineSeries {
  ls_key : jsstr; ls_name : jsstr; ls_label : jsstr; ls_total : Number; ls_color : jsstr
}.

Section charts.
Context `{TimeZones}.

(** The row of a timestamp: member [sj] is the point of series [j] at [i], or 0. *)
Definition chart_row (points : list (list Number)) (i : nat) (t : jsstr) : ChartRow :=
  MkChartRow (date_parse t)
    (fold_left (λ row jp, assoc_set row (series_key jp.1) (nullish (jp.2 !! i) (num 0))) (zip (seq 0 (length points)) points) []).
Definition chart_rows (points : list (list Number)) (timestamps : list jsstr) : list ChartRow :=
  zip_with (chart_row points) (seq 0 (length timestamps)) timestamps.

Definition seriesChartData (res : option SeriesResponse) : list ChartRow * list ChartSeries :=
  match res with
  | None => ([], [])
  | Some r =>
      (chart_rows (map sgr_points (sr_groups r)) (sr_timestamps r),
       imap (λ i g, MkChartSeries (series_key i) (groupLabel (sgr_value g)) (sgr_value g)) (sr_groups r))
  end.

Definition lineChartData (activity : option AnalysisActivity) (colorOf : jsstr → nat → jsstr) :
    list ChartRow * list LineSeries :=
  match activity with
  | None => ([], [])
  | Some a =>
      let lines := nullish (aa_lines a) [] in
      (chart_rows (map al_points lines) (nullish (aa_timestamps a) []),
       imap (λ i l, MkLineSeries (series_key i) (al_name l) (al_label l) (al_total l) (colorOf (al_name l) i)) lines)
  end.
End charts.

(** * Labels *)

(** [Math.max(1, x)]; NaN stays. *)
Definition at_least_one (x : Number) : Number := if isNaN x then x else if nlt (num 1) x then x else num 1.

Definition stepLabel (seconds : Number) : jsstr :=
  if nlt seconds (num 60) then num_to_string (at_least_one (nround seconds)) ++ $"s"
  else if nlt seconds (num 3600) then num_to_string (nround (ndiv seconds (num 60))) ++ $"m"
  else if neq (nmod seconds (num 86400)) (num 0) then num_to_string (ndiv seconds (num 86400)) ++ $"d"
  else num_to_string (nround (ndiv seconds (num 3600))) ++ $"h".

Record AnalysisCount := MkAnalysisCount { ac_value : jsstr; ac_label : option jsstr; ac_count : Number }.

Definition countLabel (c : AnalysisCount) : jsstr := trim_or (ac_label c) (or_else (ac_value c) $"(none)").

Definition codeAndLabel (c : AnalysisCount) : jsstr :=
  match trim_undef (ac_label c) with
  | Some l => ac_value c ++ $" — " ++ l
  | None => or_else (ac_value c) $"(none)"
  end.

Definition coverageLabel (shown distinct : Number) : jsstr :=
  if nle distinct shown then num_to_string shown ++ $" value" ++ (if neq shown (num 1) then [] else $"s")
  else $"showing " ++ num_to_string shown ++ $" of " ++ num_to_string distinct ++ $" values".

Example delta_ex :
  map (λ p, formatDelta (ndiv (nsub (num p.1) (num p.2)) (num p.2))) [(112, 100); (96, 100); (100, 100); (1500, 100); (1004, 1000)]%Z
  = [$"+12%"; $"−4%"; $"0%"; $"×15"; $"+0.4%"].
Proof. vm_compute. reflexivity. Qed.
