(* ===== verification/ServiceTrends.v ===== *)
(** The service-trends view (src/frontend/src/features/analytics/
    service-trends.ts): the URL codec, the limits on a request, the sentences
    and the rows of the chart. *)
From Stdlib Require Import Lia ZArith SpecFloat.
From stdpp Require Import base list numbers strings.
From S2P Require Import Prelude Unicode JsNumber JsDate TimeRange Fields Format Analytics ServiceCatalog.
Open Scope nat_scope.

(** * The query *)

Inductive TrendWindow := win_5m | win_1h | win_1d.
#[export] Instance TrendWindow_eq_dec : EqDecision TrendWindow.
Proof. solve_decision. Defined.
Definition window_name (w : TrendWindow) : jsstr := match w with win_5m => $"5m" | win_1h => $"1h" | win_1d => $"1d" end.

Record WindowEntry := MkWindowEntry { we_value : TrendWindow; we_label : jsstr; we_seconds : Z }.
Definition TREND_WINDOWS : list WindowEntry :=
  [MkWindowEntry win_5m $"5 minutes" 300; MkWindowEntry win_1h $"1 hour" 3600; MkWindowEntry win_1d $"1 day" 86400].
Definition DEFAULT_TREND_WINDOW : TrendWindow := win_1h.

Inductive TrendMetric := tm_unique_clients | tm_queries.
(** [TrendMetric | 'qps'] *)
Inductive TrendView := tv_unique_clients | tv_queries | tv_qps.
#[export] Instance TrendView_eq_dec : EqDecision TrendView.
Proof. solve_decision. Defined.
Definition view_name (v : TrendView) : jsstr :=
  match v with tv_unique_clients => $"unique_clients" | tv_queries => $"queries" | tv_qps => $"qps" end.
Definition DEFAULT_TREND_METRIC : TrendView := tv_unique_clients.

Inductive TrendScope := ts_all | ts_main.
Definition DEFAULT_TREND_SCOPE : TrendScope := ts_all.
Definition DEFAULT_TREND_RANGE : jsstr * jsstr := ($"now-24h", $"now").
Definition MAX_TREND_POINTS : Z := 2000.
Definition TREND_SERIES_SHOWN : nat := 8.

Definition formatTrendValue `{Locale} (view : TrendView) (value : option Number) : jsstr :=
  if decide (view = tv_qps) then formatRate value else formatExact value.

Definition trendApiMetric (view : TrendView) : TrendMetric :=
  if decide (view = tv_unique_clients) then tm_unique_clients else tm_queries.

Definition trendDivisor (view : TrendView) (stepSeconds : Number) : Number :=
  if bool_decide (view = tv_qps) && ngt stepSeconds (num 0) then stepSeconds else num 1.

Record ServiceTrendQuery := MkTrendQuery {
  tq_window : TrendWindow; tq_metric : TrendView; tq_scope : TrendScope; tq_services : list jsstr
}.
(** The members of the search the trends codec reads and writes. *)
Record TrendParams := MkTrendParams {
  tp_win : option jsstr; tp_count : option jsstr; tp_scope : option jsstr; tp_svc : option jsstr
}.

(** [isWindow], as the window the string is. *)
Definition window_of (value : option jsstr) : option TrendWindow :=
  we_value <$> List.find (λ w, bool_decide (value = Some (window_name (we_value w)))) TREND_WINDOWS.

Definition decodeServiceTrends (search : TrendParams) : ServiceTrendQuery :=
  let win := trim <$> tp_win search in
  let names := List.filter truthy (map trim (split_on (λ c, (c =? COMMA)%N) (nullish (tp_svc search) []))) in
  MkTrendQuery (nullish (window_of win) DEFAULT_TREND_WINDOW)
    (if decide (tp_count search = Some $"queries") then tv_queries
     else if decide (tp_count search = Some $"qps") then tv_qps else DEFAULT_TREND_METRIC)
    (if decide (tp_scope search = Some $"main") then ts_main else DEFAULT_TREND_SCOPE)
    (dedup names).

Definition encodeServiceTrends (q : ServiceTrendQuery) : TrendParams :=
  MkTrendParams
    (if decide (tq_window q = DEFAULT_TREND_WINDOW) then None else Some (window_name (tq_window q)))
    (if decide (tq_metric q = DEFAULT_TREND_METRIC) then None else Some (view_name (tq_metric q)))
    (match tq_scope q with ts_main => Some $"main" | ts_all => None end)
    (match tq_services q with [] => None | l => Some (join [COMMA] l) end).

Definition trendsRangePatch (from to : jsstr) : option (jsstr * jsstr) :=
  if bool_decide (from = $"now-1h") && bool_decide (to = $"now") then Some DEFAULT_TREND_RANGE else None.

(** * Windows *)

Definition window_entry (w : TrendWindow) : option WindowEntry := List.find (λ e, bool_decide (we_value e = w)) TREND_WINDOWS.
Definition windowSeconds (w : TrendWindow) : Z := match window_entry w with Some e => we_seconds e | None => 3600 end.
Definition windowLabel (w : TrendWindow) : jsstr := match window_entry w with Some e => we_label e | None => window_name w end.

(** The dates as their time values. *)
Definition trendPointCount (start end_ : Z) (w : TrendWindow) : Number :=
  nfloor (ndiv (ndiv (num (end_ - start)) (num 1000)) (num (windowSeconds w))).

Definition rangeTooLong `{Locale} (start end_ : Z) (w : TrendWindow) : option jsstr :=
  let points := trendPointCount start end_ w in
  if nle points (num MAX_TREND_POINTS) then None
  else Some ($"That range holds " ++ formatExact (Some points) ++ [SPACE] ++ windowLabel w ++ $" windows, more than the "
             ++ formatExact (Some (num MAX_TREND_POINTS))
             ++ $" a chart can show. Choose a coarser window or a shorter range.").

Definition rangeTooShort (start end_ : Z) (w : TrendWindow) : option jsstr :=
  if nge (trendPointCount start end_ w) (num 2) then None
  else Some ($"This range holds one " ++ windowLabel w ++ $" window at most, which is a single point. "
             ++ $"Widen the range, or choose a finer window.").

(** * Sentences *)

Definition trendMetricLabel (v : TrendView) : jsstr :=
  match v with tv_qps => $"queries per second" | tv_queries => $"DNS queries" | tv_unique_clients => $"unique clients" end.
Definition trendMetricNoun (v : TrendView) : jsstr :=
  match v with tv_qps => $"queries/sec" | tv_queries => $"queries" | tv_unique_clients => $"clients" end.
Definition trendMetricIsAdditive (v : TrendView) : bool := match v with tv_queries | tv_qps => true | _ => false end.

Definition windowHelp (v : TrendView) : jsstr :=
  match v with
  | tv_qps =>
      $"A point is the average rate across one window, so a coarser window flattens bursts: "
      ++ $"3,600 queries in a single minute read as 1/sec over an hour and 12/sec over 5 minutes."
  | tv_queries =>
      $"Every window is counted separately, so a point is the queries in one window — not a running total."
  | tv_unique_clients =>
      $"Every window is counted separately and unique counts cannot be added up: a day’s unique clients is not the sum of its hours, because a client active all day is still one client."
  end.
Definition scopeHelp (s : TrendScope) : jsstr :=
  match s with
  | ts_main =>
      $"Background CDN and API traffic is left out, so this is closer to who opened a service; one with no main domains is not counted at all."
  | ts_all =>
      $"Background CDN and API traffic counts towards a service too, which inflates who “used” it; main domains only is closer to who opened it."
  end.

Definition mainScopeEmptyHint (services : list TrendService) (selected : list jsstr) : option jsstr :=
  let counted := List.filter (λ s, sv_enabled s && (bool_decide (selected = []) || bool_decide (sv_name s ∈ selected))) services in
  match counted with
  | [] => None
  | first :: others =>
      if existsb (λ s, negb (bool_decide (nullish (sv_main_domains s) [] = []))) counted then None
      else Some (match others with
        | [] => $"This service has no main domains, so this scope counts nothing for it. Add them in the catalog, or count all domains."
        | _ => $"None of these services have main domains, so this scope counts nothing. Add them in the catalog, or count all domains."
        end)
  end.

Record ServiceTrendPeak := MkTrendPeak { pk_service : jsstr; pk_label : option jsstr; pk_value : Number; pk_at : jsstr }.

(** [a || b] *)
Definition label_or (label : option jsstr) (service : jsstr) : jsstr :=
  match label with Some l => or_else l service | None => service end.

Definition peakSentence `{Locale} `{TimeZones} (peak : ServiceTrendPeak) (w : TrendWindow) (v : TrendView) (tz : jsstr)
    (stepSeconds : Number) : jsstr :=
  let at_ := Some (TsString (pk_at peak)) in
  let day := formatTimestamp at_ tz $"d MMM" in
  let when := if decide (w = win_1d) then $"on " ++ day else $"at " ++ formatTimestamp at_ tz $"HH:mm" ++ $" on " ++ day in
  let who := label_or (pk_label peak) (pk_service peak) in
  let value := ndiv (pk_value peak) (trendDivisor v stepSeconds) in
  $"Most " ++ trendMetricLabel v ++ $": " ++ who ++ $", " ++ formatTrendValue v (Some value) ++ [SPACE] ++ trendMetricNoun v
  ++ [SPACE] ++ when.

(** * The chart *)

Record ServiceTrendPoint := MkTrendPoint { pt_at : jsstr; pt_value : Number }.
Record ServiceTrendSeries := MkTrendSeries {
  sts_service : jsstr; sts_label : option jsstr; sts_points : list ServiceTrendPoint; sts_peak : Number
}.
Record ServiceTrendResponse := MkTrendResponse { tr_step_seconds : Number; tr_series : list ServiceTrendSeries }.

Record TrendChartSeries := MkTrendChartSeries { tcs_key : jsstr; tcs_label : jsstr; tcs_service : jsstr; tcs_peak : Number }.
Record TrendChartData := MkTrendChart { tc_rows : list ChartRow; tc_series : list TrendChartSeries; tc_hidden : nat }.

(** [a.t - b.t], where NaN compares as equal. *)
Definition by_time (a b : ChartRow) : Z := match cr_t a, cr_t b with Some x, Some y => (x - y)%Z | _, _ => 0%Z end.

Section chart.
Context `{TimeZones}.

(** One point of series [i]: the row of its time gets its value. *)
Definition point_step (per : Number) (i : nat) (rows : list (option Z * ChartRow)) (p : ServiceTrendPoint) :
    list (option Z * ChartRow) :=
  let t := date_parse (pt_at p) in
  let row := nullish (assoc_get rows t) (MkChartRow t []) in
  assoc_set rows t (MkChartRow (cr_t row) (assoc_set (cr_values row) (series_key i) (ndiv (pt_value p) per))).
Definition series_step (per : Number) (rows : list (option Z * ChartRow)) (entry : nat * ServiceTrendSeries) :
    list (option Z * ChartRow) :=
  fold_left (point_step per entry.1) (sts_points entry.2) rows.
Definition trend_rows (per : Number) (shown : list ServiceTrendSeries) : list (option Z * ChartRow) :=
  fold_left (series_step per) (zip (seq 0 (length shown)) shown) [].

Definition trendChartData (res : option ServiceTrendResponse) (limit : nat) (view : TrendView) : TrendChartData :=
  match res with
  | None => MkTrendChart [] [] 0
  | Some r =>
      let per := trendDivisor view (tr_step_seconds r) in
      let shown := take limit (tr_series r) in
      MkTrendChart (array_sort by_time (map snd (trend_rows per shown)))
        (imap (λ i s, MkTrendChartSeries (series_key i) (label_or (sts_label s) (sts_service s)) (sts_service s)
                        (ndiv (sts_peak s) per)) shown)
        (length (tr_series r) - length shown)
  end.
End chart.

Definition serviceFilterLabel (selected : list jsstr) (labelOf : jsstr → option jsstr) : jsstr :=
  match selected with
  | [] => $"All services"
  | [s] => nullish (labelOf s) s
  | _ => decn (length selected) ++ $" services"
  end.
