(* ===== verification/AnalyticsProps.v ===== *)
(** What the analytics page guarantees: the URL codecs lose nothing, deltas
    compare with the right row, and charts put every point where it belongs. *)
From Stdlib Require Import Lia ZArith SpecFloat Sorted.
From stdpp Require Import base list numbers strings.
From S2P Require Import Prelude Unicode JsNumber JsNumberFacts JsDate TimeRange Fields Format Analytics ServiceCatalog ServiceTrends.
Open Scope nat_scope.

(** * Codecs *)

Definition text_ok (s : jsstr) : bool := truthy s && bool_decide (trim s = s).

Lemma text_ok_trim s : truthy (trim s) = true → text_ok (trim s) = true.
Proof. intros H. unfold text_ok. by rewrite H, bool_decide_eq_true_2 by apply trim_idem. Qed.
Lemma text_ok_inv s : text_ok s = true → truthy s = true ∧ trim s = s.
Proof. by intros [? ?%bool_decide_eq_true]%andb_prop. Qed.

(** A query the page can be in. *)
Record analytics_ok (q : AnalyticsQuery) : Prop := {
  ao_group : text_ok (aq_groupBy q) = true;
  ao_metric : match aq_metric q with
              | MkMetric mt_count f => f = None
              | MkMetric mt_count_distinct f => match f with Some f => text_ok f = true | None => True end
              end;
  ao_limit : ∃ o, o ∈ TOP_OPTIONS ∧ aq_limit q = num o
}.

Lemma top_small o : o ∈ TOP_OPTIONS → (0 < o < 2 ^ 52)%Z.
Proof. unfold TOP_OPTIONS. rewrite !elem_of_cons, elem_of_nil. naive_solver lia. Qed.

Lemma neq_num_eq o x : (0 < o < 2 ^ 52)%Z → neq (num o) x = true → x = num o.
Proof.
  intros Hs E. destruct o as [|p|p]; [lia| |lia]. destruct (num_pos p) as (m & e & Hn & _); [lia|]. rewrite Hn in E |- *.
  unfold neq, SFeqb in E. destruct x as [s|s| |s m' e']; simpl in E; try done; [by destruct s..|]. destruct s; [done|].
  destruct (Z.compare_spec e e'); try done. subst. destruct (Pos.compare_cont Eq m m') eqn:Ec; try done.
  apply Pos.compare_eq in Ec. by subst.
Qed.
Lemma existsb_top x : existsb (λ o, neq (num o) x) TOP_OPTIONS = true → ∃ o, o ∈ TOP_OPTIONS ∧ x = num o.
Proof. intros (o & Ho%list_elem_of_In & E)%existsb_exists. exists o. split; [done|]. apply neq_num_eq; [by apply top_small|done]. Qed.

Lemma decodeAnalytics_ok s : analytics_ok (decodeAnalytics s).
Proof.
  destruct s as [g m f t]. unfold decodeAnalytics. constructor; cbn [aq_groupBy aq_metric aq_limit ap_group ap_metric ap_mfield ap_top].
  - unfold trim_or. destruct g as [g|]; [|vm_compute; reflexivity]. unfold or_else.
    destruct (truthy (trim g)) eqn:E; [by apply text_ok_trim|vm_compute; reflexivity].
  - destruct m; [done|]. unfold trim_undef, or_undef. destruct f as [f|]; [|done]. simpl.
    destruct (truthy (trim f)) eqn:E; [by apply text_ok_trim|done].
  - destruct (existsb _ _) eqn:E; [by apply existsb_top|]. exists DEFAULT_TOP. split; [|done]. unfold TOP_OPTIONS, DEFAULT_TOP. right. left.
Qed.

Lemma analytics_round q : analytics_ok q → decodeAnalytics (encodeAnalytics q) = q.
Proof.
  destruct q as [g [m f] l]. intros [Hg Hm (o & Ho & Hl)]. cbn in Hg, Hm, Hl. subst l.
  unfold decodeAnalytics, encodeAnalytics. cbn [ap_group ap_metric ap_mfield ap_top aq_groupBy aq_metric aq_limit m_type m_field].
  apply text_ok_inv in Hg as [Htg Hg]. f_equal.
  - case_decide; [done|]. cbn. unfold or_else. by rewrite Hg, Htg.
  - destruct m; [by subst|]. f_equal. destruct f as [f|]; [|done]. apply text_ok_inv in Hm as [Htf Hf]. cbn.
    unfold or_undef. by rewrite Hf, Htf.
  - pose proof (top_small o Ho). assert (DEFAULT_TOP = 10)%Z by done. rewrite neq_num by lia. destruct (Z.eqb_spec o DEFAULT_TOP) as [->|Hne].
    + done.
    + cbn [number_of]. rewrite number_round_trip by lia.
      rewrite (proj2 (existsb_exists _ _)); [done|]. exists o. split; [by apply list_elem_of_In|]. rewrite neq_num by lia. lia.
Qed.

(** A trends query: distinct service names without commas or blanks around them. *)
Record trends_ok (q : ServiceTrendQuery) : Prop := {
  to_names : Forall (λ n, text_ok n && forallb (λ c, negb (c =? COMMA)%N) n = true) (tq_services q);
  to_nodup : NoDup (tq_services q)
}.

Lemma decodeServiceTrends_ok s : trends_ok (decodeServiceTrends s).
Proof.
  constructor; cbn [decodeServiceTrends tq_services]; [|apply dedup_from_nodup].
  apply Forall_forall. intros n Hn. apply dedup_from_nodup in Hn as [Hn _].
  apply list_elem_of_In, filter_In in Hn as [Hn Ht]. apply in_map_iff in Hn as (w & <- & Hw%list_elem_of_In).
  rewrite text_ok_trim by done. simpl. apply trim_units.
  pose proof (split_on_units (λ c, (c =? COMMA)%N) (nullish (tp_svc s) [])) as Hu. rewrite Forall_forall in Hu. by apply Hu.
Qed.

Lemma trends_round q : trends_ok q → decodeServiceTrends (encodeServiceTrends q) = q.
Proof.
  destruct q as [w m sc sv]. intros [Hn Hd]. cbn [tq_services] in Hn, Hd.
  unfold decodeServiceTrends, encodeServiceTrends. cbn [tp_win tp_count tp_scope tp_svc tq_window tq_metric tq_scope tq_services]. f_equal.
  - destruct w; vm_compute; reflexivity.
  - destruct m; vm_compute; reflexivity.
  - destruct sc; vm_compute; reflexivity.
  - assert (map trim sv = sv ∧ Forall (λ c, truthy c = true) sv
      ∧ Forall (λ w, forallb (λ c, negb (c =? COMMA)%N) w = true) sv) as (Ht & Htr & Hc).
    { clear Hd. induction Hn as [|n l Hx _ (I1 & I2 & I3)]; [done|].
      apply andb_prop in Hx as [[? ?]%text_ok_inv ?]. split_and!; [simpl; congruence|by constructor..]. }
    destruct sv as [|n sv]; [done|]. cbn [nullish]. rewrite split_on_join by done. rewrite Ht, filter_truthy by done.
    apply dedup_from_id; [done|]. intros x _. apply not_elem_of_nil.
Qed.

(** The address bar loses nothing of the analytics pages.  Whatever the URL
    says decodes to a query of the page; every such query, of the breakdown and
    of the trends, encodes to a URL that decodes to it; and the default views
    encode to nothing. *)
Theorem analytics_url_round_trip :
  (∀ s, analytics_ok (decodeAnalytics s)) ∧ (∀ q, analytics_ok q → decodeAnalytics (encodeAnalytics q) = q)
  ∧ (∀ s, trends_ok (decodeServiceTrends s)) ∧ (∀ q, trends_ok q → decodeServiceTrends (encodeServiceTrends q) = q)
  ∧ encodeAnalytics (decodeAnalytics (MkAnalyticsParams None sm_count None None)) = MkAnalyticsParams None sm_count None None
  ∧ encodeServiceTrends (decodeServiceTrends (MkTrendParams None None None None)) = MkTrendParams None None None None.
Proof.
  split_and!; [apply decodeAnalytics_ok|apply analytics_round|apply decodeServiceTrends_ok|apply trends_round| |]; vm_compute; reflexivity.
Qed.

(** * Deltas *)

(** The last row of a value. *)
Definition last_row (v : jsstr) (rows : list BreakdownRow) : option BreakdownRow :=
  List.find (λ r, bool_decide (br_value r = v)) (rev rows).
(** The previous period left groups out. *)
Definition truncated (p : BreakdownResponse) : bool := ngt (bd_distinct_groups p) (num (Z.of_nat (length (bd_rows p)))).

Lemma find_fmap {A B} (f : A → B) (P : B → bool) l : List.find P (map f l) = f <$> List.find (λ x, P (f x)) l.
Proof. induction l as [|x l IH]; simpl; [done|]. by destruct (P (f x)). Qed.

Lemma computeDeltas_get rows p v :
  assoc_get (computeDeltas rows (Some p)) v
  = (λ r, rowDelta (br_metric r) (br_metric <$> last_row v (bd_rows p)) (truncated p)) <$> last_row v rows.
Proof.
  cbn [computeDeltas]. fold (truncated p).
  set (before := map_of _).
  assert (∀ w, assoc_get before w = br_metric <$> last_row w (bd_rows p)) as Hb.
  { intros w. subst before. unfold map_of. rewrite (assoc_get_fold fst snd). rewrite <- map_rev, find_fmap. unfold last_row.
    cbn [fst]. by destruct (List.find _ _). }
  rewrite (assoc_get_fold br_value (λ r, rowDelta (br_metric r) (assoc_get before (br_value r)) (truncated p))).
  fold (last_row v rows). destruct (last_row v rows) as [r|] eqn:E; [|done]. simpl. f_equal. rewrite Hb.
  apply find_some in E as [_ E]. apply bool_decide_eq_true in E. by rewrite E.
Qed.

(** Every row is compared with the row of its value in the previous period.
    A value has a delta exactly when the page shows it; it is "unknown" exactly
    when the previous period does not list it and was cut off, and "new"
    exactly when the previous period does not list it and was complete, or
    lists it with nothing counted while something is counted now. *)
Theorem deltas_compare rows p v :
  assoc_get (computeDeltas rows (Some p)) v
  = (λ r, rowDelta (br_metric r) (br_metric <$> last_row v (bd_rows p)) (truncated p)) <$> last_row v rows
  ∧ ∀ current d, last_row v rows = Some current → assoc_get (computeDeltas rows (Some p)) v = Some d →
    (dl_kind d = d_unknown ↔ last_row v (bd_rows p) = None ∧ truncated p = true)
    ∧ (dl_kind d = d_new ↔
        match last_row v (bd_rows p) with
        | None => truncated p = false
        | Some r => neq (br_metric r) (num 0) = true ∧ neq (br_metric current) (num 0) = false
        end)
    ∧ (dl_significant d = true → dl_kind d ≠ d_unknown).
Proof.
  split; [apply computeDeltas_get|]. intros current d Hc. rewrite computeDeltas_get, Hc. intros [= <-].
  unfold rowDelta. destruct (last_row v (bd_rows p)) as [r|]; cbn [fmap option_fmap option_map].
  - destruct (neq (br_metric r) (num 0)), (neq (br_metric current) (num 0)); cbn [dl_kind dl_significant];
      [intuition congruence..| |]; destruct (ngt _ _); [intuition congruence| |intuition congruence|];
      destruct (nlt _ _); intuition congruence.
  - destruct (truncated p); cbn [dl_kind dl_significant]; intuition congruence.
Qed.

(** * Chart rows *)

Lemma series_key_inj i j : series_key i = series_key j → i = j.
Proof.
  unfold series_key. intros E%app_inv_head. apply (f_equal digits_val) in E. unfold decn in E. rewrite !dec_val in E. lia.
Qed.

Lemma find_unique {A} (P : A → bool) l x :
  x ∈ l → P x = true → (∀ y, y ∈ l → P y = true → y = x) → List.find P l = Some x.
Proof.
  intros Hin Hx Hu. destruct (List.find P l) as [y|] eqn:E.
  - apply find_some in E as [Hy HPy]. f_equal. apply Hu; [by apply list_elem_of_In|done].
  - exfalso. apply list_elem_of_In in Hin. by rewrite (find_none _ _ E x Hin) in Hx.
Qed.

Section rows.
Context `{TimeZones}.

Lemma chart_row_get points i t j :
  assoc_get (cr_values (chart_row points i t)) (series_key j) = (λ ps : list Number, nullish (ps !! i) (num 0)) <$> points !! j.
Proof.
  unfold chart_row. cbn [cr_values].
  rewrite (assoc_get_fold (λ jp : nat * list Number, series_key jp.1) (λ jp, nullish (jp.2 !! i) (num 0))).
  set (l := zip (seq 0 (length points)) points).
  assert (∀ jp, jp ∈ rev l ↔ points !! jp.1 = Some jp.2) as Hl.
  { intros [k ps]. rewrite list_elem_of_In, <- in_rev, <- list_elem_of_In. subst l. cbn [fst snd].
    rewrite list_elem_of_lookup. setoid_rewrite lookup_zip_with_Some. setoid_rewrite lookup_seq. split.
    - intros (n & x & y & [= <- <-] & [-> _] & ?). done.
    - intros Hk. exists k, k, ps. split_and!; try done. by apply lookup_lt_Some in Hk. }
  destruct (points !! j) as [ps|] eqn:Ej.
  - rewrite (find_unique _ _ (j, ps)); [done|by apply Hl|by apply bool_decide_eq_true|].
    intros [k q] Hq%Hl Hk%bool_decide_eq_true. simpl in *. apply series_key_inj in Hk as ->. congruence.
  - destruct (List.find _ (rev l)) as [[k q]|] eqn:E; [|done]. exfalso.
    apply find_some in E as [Hq%list_elem_of_In%Hl Hk%bool_decide_eq_true]. simpl in *. apply series_key_inj in Hk as ->. congruence.
Qed.

Lemma chart_rows_lookup points ts i t :
  ts !! i = Some t → chart_rows points ts !! i = Some (chart_row points i t).
Proof.
  intros Hi. unfold chart_rows. apply lookup_zip_with_Some. exists i, t. split_and!; [done| |done].
  apply lookup_seq. split; [done|]. by apply lookup_lt_Some in Hi.
Qed.

Lemma chart_rows_length points ts : length (chart_rows points ts) = length ts.
Proof. unfold chart_rows. rewrite length_zip_with, length_seq. lia. Qed.

(** Charts align.  There is one row per timestamp, at its time; in it the
    member of every series, under the key its legend entry has, is the point of
    that series at the same index, and 0 where the series has none.  The same
    holds of the breakdown's series and of an analysis' lines. *)
Theorem chart_alignment r a colorOf i :
  (length (seriesChartData (Some r)).1 = length (sr_timestamps r)
   ∧ ∀ t, sr_timestamps r !! i = Some t → ∃ row, (seriesChartData (Some r)).1 !! i = Some row ∧ cr_t row = date_parse t
     ∧ ∀ j g, sr_groups r !! j = Some g → ∃ s, (seriesChartData (Some r)).2 !! j = Some s ∧ cs_value s = sgr_value g
       ∧ assoc_get (cr_values row) (cs_key s) = Some (nullish (sgr_points g !! i) (num 0)))
  ∧ (length (lineChartData (Some a) colorOf).1 = length (nullish (aa_timestamps a) [])
   ∧ ∀ t, nullish (aa_timestamps a) [] !! i = Some t → ∃ row, (lineChartData (Some a) colorOf).1 !! i = Some row ∧ cr_t row = date_parse t
     ∧ ∀ j l, nullish (aa_lines a) [] !! j = Some l → ∃ s, (lineChartData (Some a) colorOf).2 !! j = Some s ∧ ls_name s = al_name l
       ∧ ls_color s = colorOf (al_name l) j
       ∧ assoc_get (cr_values row) (ls_key s) = Some (nullish (al_points l !! i) (num 0))).
Proof.
  split; (split; [apply chart_rows_length|]); intros t Ht; eexists;
    (split; [by apply chart_rows_lookup|split; [done|]]); intros j g Hg; eexists.
  - cbn [seriesChartData snd]. rewrite list_lookup_imap, Hg. split_and!; [done..|]. cbn [cs_key].
    by rewrite chart_row_get, list_lookup_fmap, Hg.
  - cbn [lineChartData snd]. rewrite list_lookup_imap, Hg. split_and!; [done..|]. cbn [ls_key].
    by rewrite chart_row_get, list_lookup_fmap, Hg.
Qed.
End rows.
