(* ===== verification/TrendChart.v ===== *)
(** The chart of the service trends: its rows are the union of the recorded
    times, in order, and a service has a value exactly where it was measured. *)
From Stdlib Require Import Lia ZArith SpecFloat Sorted.
From stdpp Require Import base list numbers strings.
From S2P Require Import Prelude Unicode JsNumber JsDate TimeRange Fields Format Analytics ServiceTrends AnalyticsProps.
Open Scope nat_scope.

(** * Sorting *)

Section sorting.
Context {A : Type} (cmp : A → A → Z) (P : A → Prop) (key : A → Z).
Hypothesis cmp_key : ∀ a b, P a → P b → cmp a b = (key a - key b)%Z.

Abbreviation ascending := (StronglySorted (λ a b, (key a <= key b)%Z)).

Lemma insert_ascending x l : P x → Forall P l → ascending l → ascending (insert_sorted cmp x l).
Proof.
  intros Hx Hl Hs. induction Hs as [|y l Hs IH Hy]; [by repeat constructor|]. apply Forall_cons in Hl as [Py Hl].
  cbn [insert_sorted]. rewrite cmp_key by done. destruct (Z.ltb_spec 0 (key y - key x)).
  - constructor; [by constructor|]. constructor; [lia|]. eapply Forall_impl; [exact Hy|]. simpl. lia.
  - constructor; [by apply IH|]. rewrite (insert_sorted_perm cmp x l). constructor; [lia|done].
Qed.

Lemma sort_ascending l : Forall P l → ascending (array_sort cmp l).
Proof.
  intros Hl. unfold array_sort.
  assert (∀ acc, Forall P acc → ascending acc → ascending (sort_acc cmp acc l)) as H; [|apply H; constructor].
  induction Hl as [|x l Hx Hl IH]; intros acc Ha Hs; [done|]. cbn [sort_acc]. apply IH.
  - rewrite (insert_sorted_perm cmp x acc). by constructor.
  - by apply insert_ascending.
Qed.
End sorting.

(** * Cells *)

Section cells.
Context `{TimeZones} (per : Number).

(** The value the chart has for a time and a member. *)
Definition cell (rows : list (option Z * ChartRow)) (t : option Z) (k : jsstr) : option Number :=
  assoc_get rows t ≫= λ row, assoc_get (cr_values row) k.

(** The last point of a series at a time. *)
Definition last_point (t : option Z) (points : list ServiceTrendPoint) : option ServiceTrendPoint :=
  List.find (λ p, bool_decide (date_parse (pt_at p) = t)) (rev points).

(** Rows are keyed by their own time, once each. *)
Definition rows_ok (rows : list (option Z * ChartRow)) : Prop :=
  NoDup rows.*1 ∧ Forall (λ tr, cr_t tr.2 = tr.1) rows.

Lemma point_ok i rows p : rows_ok rows → rows_ok (point_step per i rows p).
Proof.
  intros [Hd Hf]. unfold point_step. split; [by apply assoc_set_nodup|]. apply assoc_set_forall; [done|]. cbn [fst snd cr_t].
  destruct (assoc_get rows (date_parse (pt_at p))) as [row|] eqn:E; [|done]. apply assoc_get_elem in E; [|done].
  rewrite Forall_forall in Hf. by apply (Hf _ E).
Qed.

Lemma point_cell i rows p t k :
  cell (point_step per i rows p) t k =
  if decide (date_parse (pt_at p) = t ∧ series_key i = k) then Some (ndiv (pt_value p) per) else cell rows t k.
Proof.
  unfold point_step, cell. destruct (decide (date_parse (pt_at p) = t)) as [<-|Ht].
  - rewrite assoc_get_set_eq. cbn [mbind option_bind cr_values]. destruct (decide (series_key i = k)) as [<-|Hk].
    + rewrite assoc_get_set_eq, decide_True by done. done.
    + rewrite assoc_get_set_ne, decide_False by naive_solver. by destruct (assoc_get rows (date_parse (pt_at p))).
  - rewrite assoc_get_set_ne, decide_False by naive_solver. done.
Qed.

Lemma point_times i rows p t :
  t ∈ (point_step per i rows p).*1 ↔ t = date_parse (pt_at p) ∨ t ∈ rows.*1.
Proof. unfold point_step. apply assoc_set_in. Qed.

Lemma points_fold i points rows :
  (rows_ok rows → rows_ok (fold_left (point_step per i) points rows))
  ∧ (∀ t, t ∈ (fold_left (point_step per i) points rows).*1 ↔
       t ∈ rows.*1 ∨ ∃ p, p ∈ points ∧ date_parse (pt_at p) = t)
  ∧ ∀ t k, cell (fold_left (point_step per i) points rows) t k =
      if decide (series_key i = k)
      then match last_point t points with Some p => Some (ndiv (pt_value p) per) | None => cell rows t k end
      else cell rows t k.
Proof.
  induction points as [|p points IH] using rev_ind.
  - split_and!; [done| |intros t k; by case_decide]. intros t. split; [by left|]. intros [?|(p & ?%elem_of_nil & _)]; done.
  - rewrite fold_left_app. cbn [fold_left]. destruct IH as (I1 & I2 & I3). split_and!.
    + intros Hr. by apply point_ok, I1.
    + intros t. rewrite point_times, I2. setoid_rewrite elem_of_app. setoid_rewrite list_elem_of_singleton. naive_solver.
    + intros t k. rewrite point_cell, I3. unfold last_point. rewrite rev_unit. cbn [List.find].
      destruct (decide (series_key i = k)) as [E|E]; [|by rewrite decide_False by naive_solver].
      destruct (decide (date_parse (pt_at p) = t)) as [Et|Et].
      * by rewrite decide_True, bool_decide_eq_true_2 by done.
      * by rewrite decide_False, bool_decide_eq_false_2 by naive_solver.
Qed.

Lemma zip_seq_snoc {A} (l : list A) x :
  zip (seq 0 (length (l ++ [x]))) (l ++ [x]) = zip (seq 0 (length l)) l ++ [(length l, x)].
Proof.
  rewrite length_app, Nat.add_comm. cbn [length]. rewrite Nat.add_1_l, seq_S, zip_with_app by (by rewrite length_seq). done.
Qed.

(** All rows of the shown series: their times, and every cell of them. *)
Lemma trend_rows_spec shown :
  rows_ok (trend_rows per shown)
  ∧ (∀ t, t ∈ (trend_rows per shown).*1 ↔ ∃ s p, s ∈ shown ∧ p ∈ sts_points s ∧ date_parse (pt_at p) = t)
  ∧ ∀ t i, cell (trend_rows per shown) t (series_key i) =
      (λ p, ndiv (pt_value p) per) <$> (shown !! i ≫= λ s, last_point t (sts_points s)).
Proof.
  unfold trend_rows. induction shown as [|s shown IH] using rev_ind.
  - split_and!; [by split; constructor| |done]. intros t. split; [by intros ?%elem_of_nil|by intros (s & p & ?%elem_of_nil & _)].
  - rewrite zip_seq_snoc, fold_left_app. cbn [fold_left]. unfold series_step at 1 3 5. cbn [fst snd].
    destruct IH as (I1 & I2 & I3). destruct (points_fold (length shown) (sts_points s)
      (fold_left (series_step per) (zip (seq 0 (length shown)) shown) [])) as (F1 & F2 & F3). split_and!.
    + auto.
    + intros t. rewrite F2, I2. setoid_rewrite elem_of_app. setoid_rewrite list_elem_of_singleton. naive_solver.
    + intros t i. rewrite F3. destruct (decide (series_key (length shown) = series_key i)) as [E%series_key_inj|E].
      * subst i. rewrite lookup_app_r, Nat.sub_diag by lia. cbn [lookup list_lookup mbind option_bind].
        destruct (last_point t (sts_points s)); [done|]. rewrite I3. by rewrite lookup_ge_None_2 by lia.
      * rewrite I3. destruct (decide (i < length shown)) as [Hi|Hi]; [by rewrite lookup_app_l|].
        rewrite !lookup_ge_None_2; [done| |lia]. rewrite length_app. simpl. assert (i ≠ length shown) by congruence. lia.
Qed.
End cells.

(** The rows of the chart before they are sorted, one per time. *)
Lemma trend_rows_elem `{TimeZones} per shown row :
  row ∈ map snd (trend_rows per shown) ↔ assoc_get (trend_rows per shown) (cr_t row) = Some row.
Proof.
  destruct (trend_rows_spec per shown) as ([Hd Hf] & _ & _). rewrite <- assoc_get_elem by done. split.
  - intros ([t r] & -> & Hin)%list_elem_of_fmap. rewrite Forall_forall in Hf. by rewrite (Hf _ Hin).
  - intros Hin. apply list_elem_of_fmap. by exists (cr_t row, row).
Qed.

Lemma StronglySorted_strict {A} (key : A → Z) l :
  StronglySorted (λ a b, (key a <= key b)%Z) l → NoDup (map key l) → StronglySorted (λ a b, (key a < key b)%Z) l.
Proof.
  induction 1 as [|x l Hs IH Hx]; [constructor|]. cbn [map]. intros [Hn Hd]%NoDup_cons. constructor; [auto|].
  rewrite Forall_forall in Hx |- *. intros y Hy. specialize (Hx y Hy). assert (key x ≠ key y); [|lia].
  intros E. apply Hn. rewrite E. apply list_elem_of_fmap. eauto.
Qed.

(** Every recorded time of the response can be read. *)
Definition times_valid `{TimeZones} (shown : list ServiceTrendSeries) : Prop :=
  Forall (λ s, Forall (λ p, is_Some (date_parse (pt_at p))) (sts_points s)) shown.

(** The trends chart draws what was measured.  Its rows are in strictly
    increasing time; there is one for exactly the times some shown service has
    a point at; in it a service's member is its (last) value there over the
    divisor, and is absent, not zero, where the service was not measured; and
    every series beyond the limit is counted as hidden. *)
Theorem trend_chart_spec `{TimeZones} r limit view :
  let shown := take limit (tr_series r) in
  let per := trendDivisor view (tr_step_seconds r) in
  let c := trendChartData (Some r) limit view in
  times_valid shown →
  StronglySorted (λ a b, ∃ x y, cr_t a = Some x ∧ cr_t b = Some y ∧ (x < y)%Z) (tc_rows c)
  ∧ (∀ t, (∃ row, row ∈ tc_rows c ∧ cr_t row = t) ↔ ∃ s p, s ∈ shown ∧ p ∈ sts_points s ∧ date_parse (pt_at p) = t)
  ∧ (∀ row i s, row ∈ tc_rows c → shown !! i = Some s →
       ∃ e, tc_series c !! i = Some e ∧ tcs_service e = sts_service s
       ∧ assoc_get (cr_values row) (tcs_key e) = (λ p, ndiv (pt_value p) per) <$> last_point (cr_t row) (sts_points s))
  ∧ length (tc_series c) + tc_hidden c = length (tr_series r).
Proof.
  intros shown per c Hv. destruct (trend_rows_spec per shown) as ([Hd Hf] & Ht & Hc).
  assert (tc_rows c = array_sort by_time (map snd (trend_rows per shown))) as Ec by done.
  assert (∀ row, row ∈ tc_rows c ↔ row ∈ map snd (trend_rows per shown)) as Hrows
    by (intros row; by rewrite Ec, (array_sort_perm by_time)).
  assert ((trend_rows per shown).*1 = map cr_t (map snd (trend_rows per shown))) as Hkeys.
  { clear -Hf. induction Hf as [|[t row] l E _ IH]; [done|]. cbn. f_equal; [by symmetry|exact IH]. }
  assert (Forall (λ row, is_Some (cr_t row)) (map snd (trend_rows per shown))) as Hsome.
  { apply Forall_forall. intros row Hin. assert (cr_t row ∈ (trend_rows per shown).*1) as Hin'.
    { rewrite Hkeys. apply list_elem_of_fmap. eauto. }
    apply Ht in Hin' as (s & p & Hs & Hp & <-). unfold times_valid in Hv. rewrite Forall_forall in Hv. specialize (Hv s Hs).
    rewrite Forall_forall in Hv. auto. }
  split_and!.
  - set (key := λ row, nullish (cr_t row) 0%Z).
    assert (StronglySorted (λ a b, (key a < key b)%Z) (tc_rows c)) as Hs.
    { apply StronglySorted_strict.
      - rewrite Ec. apply (sort_ascending by_time (λ row, is_Some (cr_t row)) key); [|done].
        intros a b [x Hx] [y Hy]. unfold by_time, key. by rewrite Hx, Hy.
      - rewrite Ec, (array_sort_perm by_time), <- (NoDup_fmap Some).
        rewrite Hkeys in Hd. replace (Some <$> _) with (map cr_t (map snd (trend_rows per shown))); [done|].
        clear -Hsome. induction Hsome as [|row l [x Hx] _ IH]; [done|]. cbn. rewrite IH. unfold key. by rewrite Hx. }
    assert (Forall (λ row, is_Some (cr_t row)) (tc_rows c)) as Hall
      by (by rewrite Ec, (array_sort_perm by_time)).
    clear -Hs Hall. induction Hs as [|a l Hs IH Ha]; [constructor|]. apply Forall_cons in Hall as [[x Hx] Hall].
    constructor; [auto|]. rewrite Forall_forall in *. intros b Hb. destruct (Hall b Hb) as [y Hy]. specialize (Ha b Hb).
    exists x, y. unfold key in Ha. rewrite Hx, Hy in Ha. done.
  - intros t. rewrite <- Ht, Hkeys, list_elem_of_fmap. setoid_rewrite Hrows. naive_solver.
  - intros row i s Hrow Hi. unfold c. cbn [trendChartData tc_series]. rewrite list_lookup_imap. fold shown. rewrite Hi.
    eexists. split_and!; [done..|]. cbn [tcs_key]. apply Hrows, trend_rows_elem in Hrow. specialize (Hc (cr_t row) i).
    rewrite Hi in Hc. unfold cell in Hc. rewrite Hrow in Hc. done.
  - unfold c. cbn [trendChartData tc_series tc_hidden]. rewrite length_imap, length_take. lia.
Qed.

Definition demo_series (name : jsstr) (points : list (jsstr * Z)) : ServiceTrendSeries :=
  MkTrendSeries name None (map (λ p, MkTrendPoint p.1 (num p.2)) points) (num 9).
Definition demo_trend : ServiceTrendResponse :=
  MkTrendResponse (num 3600)
    [demo_series $"tiktok" [($"2026-09-22T21:00:00Z", 1240); ($"2026-09-22T20:00:00Z", 900)]%Z;
     demo_series $"netflix" [($"2026-09-22T20:00:00Z", 12)]%Z; demo_series $"other" []].

Lemma trend_chart_spec_witness :
  let c := @trendChartData utc_zones (Some demo_trend) 2 tv_queries in
  map (λ r, (cr_t r, assoc_get (cr_values r) $"s1")) (tc_rows c)
  = [(Some 1790107200000%Z, Some (num 12)); (Some 1790110800000%Z, None)]
  ∧ length (tc_series c) + tc_hidden c = length (tr_series demo_trend).
Proof.
  intros c. split; [vm_compute; reflexivity|].
  assert (@times_valid utc_zones (take 2 (tr_series demo_trend))) as Hv.
  { repeat constructor; eexists; vm_compute; reflexivity. }
  destruct (@trend_chart_spec utc_zones demo_trend 2 tv_queries Hv) as (_ & _ & _ & H4). exact H4.
Defined.
