(* ===== verification/ApiClient.v ===== *)
(** The API client (src/frontend/src/api/client.ts): problem details as errors,
    the CSRF header and the reaction to 401.

    The two module variables are the record [Client]; the handler registered for
    401 is named by a number, and its calls are the trace.  Headers are an
    association list under lower-case names, as [Headers] compares them.  The
    network is the response given to [rawFetch] and [unwrap]. *)
From Stdlib Require Import ZArith Lia.
From stdpp Require Import base list numbers strings.
From S2P Require Import Prelude Unicode.

Record ProblemDetails := MkProblemDetails {
  pd_title : option jsstr; pd_detail : option jsstr; pd_code : option jsstr; pd_request_id : option jsstr
}.

Record ApiError := MkApiError {
  ae_status : Z; ae_problem : option ProblemDetails; ae_message : jsstr; ae_requestId : option jsstr
}.

(** The first text that is not empty. *)
Fixpoint first_truthy (l : list (option jsstr)) (d : jsstr) : jsstr :=
  match l with
  | Some s :: r => if truthy s then s else first_truthy r d
  | None :: r => first_truthy r d
  | [] => d
  end.

Definition newApiError (status : Z) (problem : option ProblemDetails) (fallback : option jsstr) : ApiError :=
  MkApiError status problem
    (first_truthy [problem ≫= pd_detail; problem ≫= pd_title; fallback] ($"Request failed (HTTP " ++ decz status ++ $")"))
    (problem ≫= pd_request_id).
Definition ae_code (e : ApiError) : option jsstr := ae_problem e ≫= pd_code.

(** What a catch clause of the pages can receive. *)
Inductive thrown := ThrownApi (e : ApiError) | ThrownError (message : jsstr) | ThrownOther.

(** * State *)

Record Client := MkClient { csrfToken : option jsstr; unauthorizedHandler : option nat }.
Definition initClient : Client := MkClient None None.

Definition setCsrfToken (token : option jsstr) (c : Client) : Client := MkClient token (unauthorizedHandler c).
Definition getCsrfToken (c : Client) : option jsstr := csrfToken c.
Definition onUnauthorized (handler : option nat) (c : Client) : Client := MkClient (csrfToken c) handler.

Definition UNSAFE : list jsstr := [$"POST"; $"PUT"; $"PATCH"; $"DELETE"].
Definition CSRF_HEADER : jsstr := $"x-csrf-token".
Abbreviation headers := (list (jsstr * jsstr)).

(** [if (UNSAFE.has(method) && csrfToken) headers.set('X-CSRF-Token', csrfToken)] *)
Definition with_csrf (c : Client) (method : jsstr) (h : headers) : headers :=
  match csrfToken c with
  | Some t => if bool_decide (method ∈ UNSAFE) && truthy t then assoc_set h CSRF_HEADER t else h
  | None => h
  end.

Definition onRequest (c : Client) (method : jsstr) (h : headers) : headers := with_csrf c method h.

Definition ends_with (p s : jsstr) : bool := starts_with (rev p) (rev s).

(** The handler calls of a response. *)
Definition unauthorized (c : Client) : list nat := match unauthorizedHandler c with Some h => [h] | None => [] end.
Definition onResponse (c : Client) (pathname : jsstr) (status : Z) : list nat :=
  if (status =? 401)%Z && negb (ends_with $"/auth/login" pathname) then unauthorized c else [].

(** * Responses *)

(** A response body: an object with a title, another object or value, or text. *)
Inductive Body := BodyProblem (p : ProblemDetails) | BodyString (s : jsstr) | BodyOther.

Definition toApiError (status : Z) (body : Body) : ApiError :=
  match body with
  | BodyProblem p => newApiError status (Some p) None
  | BodyString s => newApiError status None (or_undef s)
  | BodyOther => newApiError status None None
  end.

(** [response.ok] *)
Definition ok_status (status : Z) : bool := (200 <=? status)%Z && (status <=? 299)%Z.

Definition unwrap {T} (data : T) (status : Z) (error : Body) : result thrown T :=
  if ok_status status then Ok data else Err (ThrownApi (toApiError status error)).

(** The request that is sent, the handler calls and the outcome; [None] for a
    body that is not JSON. *)
Definition rawFetch (c : Client) (method : option jsstr) (h : headers) (status : Z) (body : option Body) :
    headers * list nat * result thrown Z :=
  let m := to_upper (nullish method $"GET") in
  (with_csrf c m h,
   (if (status =? 401)%Z then unauthorized c else []),
   (if ok_status status then Ok status else Err (ThrownApi (toApiError status (nullish body BodyOther))))).

(** An unsafe request carries the current token, and a safe one never does. *)
Lemma csrf_on_unsafe c method h t :
  csrfToken c = Some t → t ≠ [] →
  assoc_get (with_csrf c method h) CSRF_HEADER =
    if bool_decide (method ∈ UNSAFE) then Some t else assoc_get h CSRF_HEADER.
Proof.
  intros Ht Hn. unfold with_csrf. rewrite Ht. case_bool_decide; [|done]. destruct t; [done|]. cbn [andb truthy]. by rewrite assoc_get_set_eq.
Qed.

(** A failed request always says something. *)
Lemma api_error_message status p f : ae_message (newApiError status p f) ≠ [].
Proof.
  unfold newApiError. cbn [ae_message]. assert (∀ l d, d ≠ [] → first_truthy l d ≠ []) as H.
  { intros l d Hd. induction l as [|[[|c s]|] l IH]; simpl; done. }
  by apply H.
Qed.
