(* ===== verification/HostHistory.v ===== *)
(** Host figures on the system page (src/frontend/src/features/system/host.ts,
    host-history.ts, storage.ts, forwarding.ts): thresholds and statuses, the
    history charts, how much of the window is covered, and the disk a store may
    use. *)
From Stdlib Require Import ZArith Lia SpecFloat.
From stdpp Require Import base list numbers strings.
From S2P Require Import Prelude Unicode JsNumber JsDate TimeRange Severity Format Analytics ApiClient SourceForm.
Open Scope nat_scope.

(** * Thresholds and statuses *)

Definition memoryWarn : Number := num_of_decimal 9 (-1).
Definition diskWarn : Number := num_of_decimal 85 (-2).
Definition diskFail : Number := num_of_decimal 95 (-2).
Definition cpuFail : Number := num_of_decimal 95 (-2).

Definition usedFraction (used_bytes : Number) (limit_bytes : option Number) : option Number :=
  match limit_bytes with
  | None => None
  | Some l => if neq l (num 0) || isNaN l || nle l (num 0) then None else Some (ndiv used_bytes l)
  end.

Definition memoryStatus (used_bytes : Number) (limit_bytes : option Number) : Tone :=
  match usedFraction used_bytes limit_bytes with
  | None => tone_idle
  | Some f => if ngt f memoryWarn then tone_warn else tone_ok
  end.

Definition diskStatus (used_fraction : Number) : Tone :=
  if ngt used_fraction diskFail then tone_fail else if ngt used_fraction diskWarn then tone_warn else tone_ok.

Definition cpuStatus (usage_fraction : option Number) : Tone :=
  match usage_fraction with
  | None => tone_idle
  | Some f => if ngt f cpuFail then tone_fail else tone_ok
  end.

Definition coresLabel (cores : Number) : jsstr :=
  if negb (isFinite cores) || nle cores (num 0) then $"cores unknown"
  else
    let n := if isInteger cores then num_to_string cores else to_fixed cores 1 in
    if neq cores (num 1) then $"1 core" else n ++ $" cores".

Inductive LimitSource := src_cgroup | src_host.
Definition limitSourceLabel (source : LimitSource) (noun : jsstr) : jsstr :=
  match source with src_cgroup => $"container " ++ noun | src_host => $"host " ++ noun end.

(** * The range *)

Definition DEFAULT_HOST_RANGE : jsstr := $"24h".
Definition KNOWN_RANGES : list jsstr := [$"1h"; $"6h"; $"24h"; $"7d"; $"30d"].

Definition decodeHostRange (value : option jsstr) : jsstr :=
  match value with
  | Some v => let v := trim v in if truthy v && bool_decide (v ∈ KNOWN_RANGES) then v else DEFAULT_HOST_RANGE
  | None => DEFAULT_HOST_RANGE
  end.
Definition encodeHostRange (range : jsstr) : option jsstr :=
  if decide (range = DEFAULT_HOST_RANGE) then None else Some range.

(** [/^(\d+)(\[mhdw\])$/]: the digits and the unit's name. *)
Definition range_unit (c : N) : option jsstr :=
  if (c =? 109)%N then Some $"minute" else if (c =? 104)%N then Some $"hour"
  else if (c =? 100)%N then Some $"day" else if (c =? 119)%N then Some $"week" else None.
Definition RANGE_RE (s : jsstr) : option (jsstr * jsstr) :=
  let ds := take_while is_digit s in
  match drop_while is_digit s with
  | [c] => if truthy ds then (λ u, (ds, u)) <$> range_unit c else None
  | _ => None
  end.
Definition rangeWords (range : jsstr) : jsstr :=
  match RANGE_RE (trim range) with
  | None => range
  | Some (ds, u) =>
      let n := str_to_number ds in num_to_string n ++ [SPACE] ++ u ++ (if neq n (num 1) then [] else $"s")
  end.

(** * Charts *)

Inductive HostHistoryUnit := unit_ratio | unit_bytes.
Record HostHistoryLine := MkHostLine {
  hl_name : jsstr; hl_label : jsstr; hl_unit : HostHistoryUnit; hl_points : list (option Number)
}.
Record HostHistoryResponse := MkHostHistory { hh_timestamps : list jsstr; hh_lines : list HostHistoryLine }.

Record HostHistoryRow := MkHostRow { hr_t : option Z; hr_v : option Number }.
Record HostHistoryChart := MkHostChart {
  hc_key : jsstr; hc_title : jsstr; hc_unit : HostHistoryUnit; hc_rows : list HostHistoryRow;
  hc_ceiling : option Number; hc_threshold : option Number; hc_thresholdFraction : Number;
  hc_peak : option Number; hc_color : jsstr
}.

Definition HOST_HUES : list jsstr := map (λ i, nullish (CHART_COLORS !! i) []) [0; 1; 3; 4; 5; 6].

Definition thresholdFor (name : jsstr) : Number :=
  if decide (name = $"cpu") then cpuFail else if decide (name = $"memory") then memoryWarn else diskWarn.

(** The search from the end for a bucket with a value. *)
Definition latestValue (points : option (list (option Number))) : option Number :=
  match points with
  | None => None
  | Some ps => mjoin (List.find (λ p, match p with Some _ => true | None => false end) (rev ps))
  end.

Definition ceilingNameFor (name : jsstr) : option jsstr :=
  if decide (name = $"memory") then Some $"memory_limit"
  else if starts_with $"disk:" name then Some ($"disk_total:" ++ drop 5 name)
  else None.

Definition isMeasured (name : jsstr) : bool :=
  bool_decide (name = $"cpu") || bool_decide (name = $"memory") || starts_with $"disk:" name.

(** [Math.max] of two numbers. *)
Definition nmax (a b : Number) : Number :=
  if isNaN a || isNaN b then NaN
  else if nlt a b then b else if nlt b a then a
  else match a with S754_zero true => b | _ => a end.
Definition math_max (l : list Number) : Number := fold_left nmax l (S754_infinity true).

Section history.
Context `{TimeZones}.

Definition host_rows (times : list jsstr) (points : list (option Number)) : list HostHistoryRow :=
  imap (λ j t, MkHostRow (date_parse t) (mjoin (points !! j))) times.

Definition host_chart (times : list jsstr) (byName : list (jsstr * HostHistoryLine)) (i : nat) (line : HostHistoryLine) :
    HostHistoryChart :=
  let ceiling :=
    match hl_unit line with
    | unit_ratio => Some (num 1)
    | unit_bytes => latestValue (ceilingNameFor (hl_name line) ≫= λ n, hl_points <$> assoc_get byName n)
    end in
  let rows := host_rows times (hl_points line) in
  let sampled := omap hr_v rows in
  let fraction := thresholdFor (hl_name line) in
  MkHostChart (hl_name line) (hl_label line) (hl_unit line) rows ceiling ((λ c, nmul c fraction) <$> ceiling) fraction
    (match sampled with [] => None | _ => Some (math_max sampled) end)
    (nullish (HOST_HUES !! (i mod length HOST_HUES)) []).

Definition hostHistoryCharts (res : option HostHistoryResponse) : list HostHistoryChart :=
  match res with
  | None => []
  | Some r =>
      let byName := map_of (map (λ l, (hl_name l, l)) (hh_lines r)) in
      imap (host_chart (hh_timestamps r) byName) (List.filter (λ l, isMeasured (hl_name l)) (hh_lines r))
  end.
End history.

Definition peakLabel (unit : HostHistoryUnit) (peak ceiling : option Number) : jsstr :=
  match peak with
  | None => $"nothing sampled in this window"
  | Some p =>
      match unit with
      | unit_ratio => $"peak " ++ formatPercent p ++ $" of the limit"
      | unit_bytes =>
          match ceiling with
          | Some c =>
              if neq c (num 0) || isNaN c then $"peak " ++ formatBytes peak
              else $"peak " ++ formatBytes peak ++ $" of " ++ formatBytes ceiling ++ $" (" ++ formatPercent (ndiv p c) ++ $")"
          | None => $"peak " ++ formatBytes peak
          end
      end
  end.

Definition thresholdRuleLabel (thresholdFraction : Number) : jsstr := $"alerts above " ++ formatPercent thresholdFraction.

Definition bucketNote (stepSeconds : Number) (bucket : jsstr) : jsstr :=
  $"The highest value in this " ++ bucket ++ $" bucket, not an average."
  ++ (if nge stepSeconds (num 3600) then $" A wide bucket hides how long it stayed there." else []).

(** * Coverage *)

(** [firstAt] and [lastAt] are [None] for null and [Some None] for NaN. *)
Record HostHistoryCoverage := MkCoverage {
  cv_buckets : nat; cv_samples : nat; cv_firstAt : option (option Z); cv_lastAt : option (option Z);
  cv_gaps : nat; cv_startsBeforeHistory : bool
}.

(** [l.indexOf(true)] and [l.lastIndexOf(true)] *)
Fixpoint first_true (l : list bool) : option nat :=
  match l with [] => None | b :: r => if b then Some 0 else S <$> first_true r end.
Fixpoint last_true (l : list bool) : option nat :=
  match l with
  | [] => None
  | b :: r => match last_true r with Some k => Some (S k) | None => if b then Some 0 else None end
  end.
Definition count_true (l : list bool) : nat := length (List.filter (λ b, b) l).

(** Whether some measured line has a sample in the bucket. *)
Definition bucket_sampled (lines : list HostHistoryLine) (i : nat) : bool :=
  existsb (λ l, match mjoin (hl_points l !! i) with Some _ => true | None => false end) lines.

Section coverage.
Context `{TimeZones}.

Definition hostHistoryCoverage (res : option HostHistoryResponse) : HostHistoryCoverage :=
  let times := match res with Some r => hh_timestamps r | None => [] end in
  let lines := List.filter (λ l, isMeasured (hl_name l)) (match res with Some r => hh_lines r | None => [] end) in
  let sampled := imap (λ i _, bucket_sampled lines i) times in
  let count := count_true sampled in
  let at_ := λ o, (λ i, date_parse (nullish (times !! i) [])) <$> o in
  match first_true sampled, last_true sampled with
  | Some first, Some last =>
      MkCoverage (length times) count (at_ (Some first)) (at_ (Some last)) (last - first + 1 - count) (0 <? first)
  | first, last => MkCoverage (length times) count (at_ first) (at_ last) 0 false
  end.
End coverage.

Definition historySeconds (c : HostHistoryCoverage) (stepSeconds : Number) : Number :=
  match cv_firstAt c, cv_lastAt c with
  | Some (Some f), Some (Some l) => nadd (ndiv (num (l - f)) (num 1000)) stepSeconds
  | Some _, Some _ => NaN
  | _, _ => num 0
  end.

Definition hostHistoryNotes (c : HostHistoryCoverage) (stepSeconds : Number) : list jsstr :=
  if cv_samples c =? 0 then []
  else
    (if cv_startsBeforeHistory c
     then [$"VictoriaMetrics has " ++ formatDuration (Some (historySeconds c stepSeconds))
           ++ $" of history for this node, which is less than the window: the chart starts where the scraping did."]
     else [])
    ++ (if 0 <? cv_gaps c
        then [decn (cv_gaps c) ++ $" of " ++ decn (cv_buckets c)
              ++ $" buckets carry no sample. Each line breaks there rather than dropping to zero — the node was stopped, or a scrape failed."]
        else []).

Definition hostHistoryEmptyHint (range : jsstr) : jsstr :=
  $"Nothing was recorded in the last " ++ rangeWords range
  ++ $". VictoriaMetrics only has what it has scraped since it started, so a node deployed recently has no history this far back — try a shorter range.".

Record HostHistoryNotice := MkNotice { hn_title : jsstr; hn_detail : jsstr }.

Definition hostHistoryNotice (error : thrown) : option HostHistoryNotice :=
  match error with
  | ThrownApi e =>
      let detail := λ d, first_truthy [ae_problem e ≫= pd_detail] d in
      if (ae_status e =? 404)%Z && bool_decide (ae_code e = Some $"not_configured")
      then Some (MkNotice $"No metrics store is configured, so there is no history to read."
        (detail $"Point Syslogc at the VictoriaMetrics instance scraping its /metrics endpoint, then restart. The live meters above keep working either way."))
      else if (ae_status e =? 409)%Z && bool_decide (ae_code e = Some $"ambiguous_metrics")
      then Some (MkNotice $"More than one node reports into this metrics store, so a figure here could belong to any of them."
        (detail $"Narrow the metrics store, or scrape each node into its own."))
      else None
  | _ => None
  end.

(** * Storage *)

Record StorageUsage := MkStorageUsage {
  su_total_disk_bytes : option Number; su_free_disk_bytes : option Number; su_max_disk_bytes : option Number
}.
Record StoreDisk := MkStoreDisk {
  sd_used : option Number; sd_ceiling : option Number; sd_total : option Number; sd_free : option Number; sd_limited : bool
}.

Definition storeDisk (u : option StorageUsage) : StoreDisk :=
  let total := u ≫= su_total_disk_bytes in
  let free := u ≫= su_free_disk_bytes in
  let max := u ≫= su_max_disk_bytes in
  let limited := match max, total with Some m, Some t => ngt m (num 0) && nlt m t | _, _ => false end in
  let ceiling := if limited then max else total in
  let usedBytes := match total, free with Some t, Some f => Some (nsub t f) | _, _ => None end in
  MkStoreDisk
    (match usedBytes, ceiling with
     | Some b, Some c => if neq c (num 0) || isNaN c then None else Some (ndiv b c)
     | _, _ => None
     end) ceiling total free limited.

Definition storeDiskNote (d : StoreDisk) (bytes : option Number → jsstr) : jsstr :=
  match sd_ceiling d with
  | None => []
  | Some c =>
      if negb (sd_limited d) then bytes (sd_free d) ++ $" free of " ++ bytes (sd_total d)
      else $"of the " ++ bytes (sd_ceiling d) ++ $" this store may use · " ++ bytes (sd_total d) ++ $" disk"
  end.

(** * Forwarding rows *)

Definition forwardFilterLabels (min_severity : option Severity) (sources : option (list jsstr)) : list jsstr :=
  let labels :=
    (match min_severity with Some s => [severity_name s ++ $" and above"] | None => [] end)
    ++ (match nullish sources [] with
        | [] => []
        | [s] => [$"source: " ++ s]
        | l => [$"sources: " ++ join $", " l]
        end) in
  match labels with [] => [$"all logs"] | _ => labels end.

(** A limit of at least one unit. *)
Definition truncateError (text : option jsstr) (max : nat) : jsstr :=
  let t := match text with Some s => trim s | None => [] end in
  if length t <=? max then t else trim_end (take (max - 1) t) ++ $"…".

Definition secondsSince `{TimeZones} (iso : option jsstr) (nowMs : Z) : option Number :=
  match iso with
  | None | Some [] => None
  | Some s =>
      match date_parse s with
      | None => None
      | Some t => Some (nmax (num 0) (ndiv (num (nowMs - t)) (num 1000)))
      end
  end.

(** * Properties

    What the host history shows: how the window is covered, and charts whose
    rows and peak are those of the samples. *)
From Stdlib Require Import ZArith Lia SpecFloat.
From stdpp Require Import base list numbers strings.
From S2P Require Import Prelude Unicode JsNumber JsNumberFacts JsDate TimeRange Format Analytics.
Open Scope nat_scope.

(** * Coverage *)

Definition all_false (l : list bool) : Prop := Forall (λ b, b = false) l.

Lemma count_true_app a b : count_true (a ++ b) = count_true a + count_true b.
Proof. unfold count_true. by rewrite List.filter_app, length_app. Qed.
Lemma count_true_false l : all_false l → count_true l = 0.
Proof. induction 1 as [|b l -> _ IH]; [done|]. exact IH. Qed.

(** A list of buckets is a stretch without samples, the span from the first to
    the last sample, and another stretch without. *)
Definition span_of (l pre mid post : list bool) : Prop :=
  l = pre ++ mid ++ post ∧ all_false pre ∧ all_false post ∧ (∃ r, mid = true :: r) ∧ (∃ r, mid = r ++ [true]).

Lemma sampled_span l :
  match first_true l, last_true l with
  | Some f, Some k => ∃ pre mid post, span_of l pre mid post ∧ f = length pre ∧ k = length pre + length mid - 1
  | None, None => all_false l
  | _, _ => False
  end.
Proof.
  unfold span_of. induction l as [|b l IH]; [constructor|]. cbn [first_true last_true].
  destruct (first_true l) as [f|], (last_true l) as [k|]; try done.
  - destruct IH as (pre & mid & post & (-> & Hpre & Hpost & [r Hm] & [r' Hm']) & -> & ->).
    assert (0 < length mid) by (rewrite Hm; simpl; lia). destruct b; cbn [fmap option_fmap option_map].
    + exists [], (true :: pre ++ mid), post.
      split_and!; try done; [cbn [app]; by rewrite <- app_assoc|constructor|eauto| |simpl; rewrite length_app; lia].
      exists (true :: pre ++ r'). cbn [app]. by rewrite Hm', <- app_assoc.
    + exists (false :: pre), mid, post. split_and!; try done; [by constructor|eauto|eauto|simpl; lia].
  - destruct b; cbn [fmap option_fmap option_map]; [|by constructor].
    exists [], [true], l. split_and!; try done; [constructor|eauto|by exists []].
Qed.

(** How a window is covered.  Either no bucket has a sample, and then
    nothing is said of it; or the buckets are a stretch without samples, the
    span from the first to the last sample, and a stretch without: the samples
    and the gaps reported together are the buckets of the span, the gaps are its
    buckets without a sample, the times are those of its ends, and the window
    is said to start before the history exactly when the first stretch is not
    empty. *)
Theorem host_coverage `{TimeZones} r step :
  let lines := List.filter (λ l, isMeasured (hl_name l)) (hh_lines r) in
  let sampled := imap (λ i _, bucket_sampled lines i) (hh_timestamps r) in
  let c := hostHistoryCoverage (Some r) in
  cv_buckets c = length (hh_timestamps r) ∧ cv_samples c = count_true sampled
  ∧ ((all_false sampled ∧ cv_samples c = 0 ∧ cv_firstAt c = None ∧ cv_gaps c = 0 ∧ hostHistoryNotes c step = [])
     ∨ ∃ pre mid post, span_of sampled pre mid post ∧ 0 < cv_samples c
       ∧ cv_samples c = count_true mid ∧ cv_gaps c + cv_samples c = length mid
       ∧ cv_firstAt c = Some (date_parse (nullish (hh_timestamps r !! length pre) []))
       ∧ cv_lastAt c = Some (date_parse (nullish (hh_timestamps r !! (length pre + length mid - 1)) []))
       ∧ (cv_startsBeforeHistory c = true ↔ pre ≠ [])
       ∧ (hostHistoryNotes c step = [] ↔ pre = [] ∧ cv_gaps c = 0)).
Proof.
  intros lines sampled c. subst c. unfold hostHistoryCoverage. cbv zeta. fold lines sampled.
  pose proof (sampled_span sampled) as Hspan. destruct (first_true sampled) as [f|], (last_true sampled) as [k|]; try done.
  - destruct Hspan as (pre & mid & post & Hs & -> & ->). pose proof Hs as (E & Hpre & Hpost & [m Hm] & _).
    assert (count_true sampled = count_true mid) as Hc.
    { rewrite E, !count_true_app, (count_true_false pre), (count_true_false post) by done. lia. }
    assert (0 < count_true mid ≤ length mid) as [Hlo Hhi].
    { split; [rewrite Hm; unfold count_true; simpl; lia|]. apply List.filter_length_le. }
    cbn [cv_buckets cv_samples cv_firstAt cv_lastAt cv_gaps cv_startsBeforeHistory fmap option_fmap option_map].
    split_and!; [done..|]. right. exists pre, mid, post. rewrite Hc. split_and!; try done; try lia.
    + rewrite Nat.ltb_lt. destruct pre; simpl; [split; [lia|done]|split; [done|lia]].
    + unfold hostHistoryNotes. cbn [cv_samples cv_startsBeforeHistory cv_gaps cv_buckets].
      destruct (Nat.eqb_spec (count_true mid) 0); [lia|].
      destruct pre as [|b pre]; [change (0 <? length []) with false; cbn [length app]|cbn; split; [done|intros [E' _]; discriminate E']].
      case Nat.ltb_spec; intros Hg.
      * split; [done|]. intros [_ ?]; lia.
      * split; [|done]. intros _. split; [done|lia].
  - cbn [cv_buckets cv_samples cv_firstAt cv_lastAt cv_gaps cv_startsBeforeHistory fmap option_fmap option_map].
    rewrite (count_true_false _ Hspan). split_and!; [done..|]. left. split_and!; done.
Qed.
