(* ===== verification/Hotkeys.v ===== *)
(** Keyboard shortcuts (src/frontend/src/lib/hotkeys.ts): the listener
    [useHotkeys] installs, as a machine whose steps are renders, the effect's
    set-up and clean-up, key presses and the timer that forgets the first key of
    a two-key shortcut. *)
From stdpp Require Import base list numbers strings relations.
From S2P Require Import Prelude Unicode.
Open Scope nat_scope.

(** * The listener *)

(** What [isTyping] reads of an HTML element; a target that is not one is [None]. *)
Record Target := MkTarget { tagName : jsstr; isContentEditable : bool; in_cm_editor : bool }.
Definition isTyping (target : option Target) : bool :=
  match target with
  | None => false
  | Some t =>
      bool_decide (tagName t = $"INPUT") || bool_decide (tagName t = $"TEXTAREA") || bool_decide (tagName t = $"SELECT")
      || isContentEditable t || in_cm_editor t
  end.

Record KeyboardEvent := MkKey { ke_key : jsstr; metaKey : bool; ctrlKey : bool; altKey : bool; ke_target : option Target }.

Definition ke_mod (e : KeyboardEvent) : bool := metaKey e || ctrlKey e.
Definition ke_name (e : KeyboardEvent) : jsstr := if length (ke_key e) =? 1 then to_lower (ke_key e) else ke_key e.
Definition ke_typing (e : KeyboardEvent) : bool := isTyping (ke_target e).

(** [Object.entries(ref.current)]: the combinations in order, each with the
    handler it calls, named by a number. *)
Abbreviation bindings := (list (jsstr * nat)).

(** The closure of the effect: [pending], and whether [pendingTimer] still runs. *)
Record Hotkeys := MkHotkeys { hk_current : bindings; hk_listening : bool; hk_pending : option jsstr; hk_timer : bool }.

Definition MOD : jsstr := $"mod+".

(** The loop of [onKey]: the handler called, if any, and [pending] after it.
    [preventDefault] is called exactly when a handler is. *)
Fixpoint key_loop (bs : bindings) (e : KeyboardEvent) (pending : option jsstr) : option (nat * option jsstr) :=
  match bs with
  | [] => None
  | (combo, handler) :: rest =>
      if starts_with MOD combo then
        if ke_mod e && bool_decide (ke_name e = drop 4 combo) then Some (handler, pending) else key_loop rest e pending
      else if ke_typing e || ke_mod e || altKey e then key_loop rest e pending
      else if includes [SPACE] combo then
        let ws := split_on (N.eqb SPACE) combo in
        if bool_decide (pending = ws !! 0) && bool_decide (Some (ke_name e) = ws !! 1) then Some (handler, None)
        else key_loop rest e pending
      else if bool_decide (combo = ke_name e) || (bool_decide (combo = $"?") && bool_decide (ke_key e = $"?"))
           then Some (handler, pending)
      else key_loop rest e pending
  end.

Definition onKey (e : KeyboardEvent) (h : Hotkeys) : Hotkeys * option nat :=
  match key_loop (hk_current h) e (hk_pending h) with
  | Some (handler, pending) => (MkHotkeys (hk_current h) (hk_listening h) pending (hk_timer h), Some handler)
  | None =>
      if negb (ke_typing e) && negb (ke_mod e) && (length (ke_name e) =? 1)
      then (MkHotkeys (hk_current h) (hk_listening h) (Some (ke_name e)) true, None)
      else (h, None)
  end.

(** The effect without dependencies: [ref.current = bindings]. *)
Definition render (bs : bindings) (h : Hotkeys) : Hotkeys := MkHotkeys bs (hk_listening h) (hk_pending h) (hk_timer h).
(** The other effect: a listener with a closure of its own, and its clean-up. *)
Definition effect (enabled : bool) (h : Hotkeys) : Hotkeys :=
  if enabled then MkHotkeys (hk_current h) true None false else h.
Definition cleanup (h : Hotkeys) : Hotkeys := MkHotkeys (hk_current h) false (hk_pending h) false.
(** The callback of [setTimeout]. *)
Definition timeout (h : Hotkeys) : Hotkeys := MkHotkeys (hk_current h) (hk_listening h) None false.

(** A component that has not run its effects yet. *)
Definition mounted (bs : bindings) : Hotkeys := MkHotkeys bs false None false.

(** * Steps *)

Inductive label := l_render (bs : bindings) | l_effect | l_cleanup | l_timeout | l_key (e : KeyboardEvent) (called : option nat).

(** The runtime: effects alternate with their clean-up, a timer only fires while
    it runs, and a key reaches the listener only while it is installed. *)
Inductive hk_step : label → Hotkeys → Hotkeys → Prop :=
  | step_render bs h : hk_step (l_render bs) h (render bs h)
  | step_effect h : hk_listening h = false → hk_step l_effect h (effect true h)
  | step_cleanup h : hk_listening h = true → hk_step l_cleanup h (cleanup h)
  | step_timeout h : hk_timer h = true → hk_step l_timeout h (timeout h)
  | step_key e h h' c : hk_listening h = true → onKey e h = (h', c) → hk_step (l_key e c) h h'
  | step_deaf e h : hk_listening h = false → hk_step (l_key e None) h h.

Inductive reachable (bs : bindings) : list label → Hotkeys → Prop :=
  | reach_init : reachable bs [] (mounted bs)
  | reach_step tr l h h' : reachable bs tr h → hk_step l h h' → reachable bs (tr ++ [l]) h'.

(** * The shortcuts of the application shell *)

Definition shell_bindings : bindings :=
  [($"mod+k", 0); ($"?", 1); ($"[", 2); ($"g d", 3); ($"g l", 4); ($"g t", 5); ($"g a", 6); ($"g s", 7); ($"g y", 8)].

(** * What a combination asks for *)

(** Whether a combination is the one just pressed, [pending] being the key before. *)
Definition combo_matches (e : KeyboardEvent) (pending : option jsstr) (combo : jsstr) : bool :=
  if starts_with MOD combo then ke_mod e && bool_decide (ke_name e = drop 4 combo)
  else negb (ke_typing e || ke_mod e || altKey e)
       && (if includes [SPACE] combo
           then bool_decide (pending = split_on (N.eqb SPACE) combo !! 0)
                && bool_decide (Some (ke_name e) = split_on (N.eqb SPACE) combo !! 1)
           else bool_decide (combo = ke_name e) || (bool_decide (combo = $"?") && bool_decide (ke_key e = $"?"))).

Definition is_sequence (combo : jsstr) : bool := negb (starts_with MOD combo) && includes [SPACE] combo.

Lemma key_loop_find bs e p :
  key_loop bs e p = (λ b : jsstr * nat, (b.2, if is_sequence b.1 then None else p)) <$> List.find (λ b, combo_matches e p b.1) bs.
Proof.
  induction bs as [|[combo h] bs IH]; [done|]. cbn [key_loop List.find fst snd]. unfold combo_matches at 1.
  destruct (starts_with MOD combo) eqn:M.
  { case_match; [|exact IH]. cbn. unfold is_sequence. by rewrite M. }
  destruct (ke_typing e || ke_mod e || altKey e); cbn [negb andb]; [exact IH|].
  destruct (includes [SPACE] combo) eqn:I; (case_match; [|exact IH]); cbn; unfold is_sequence; by rewrite M, I.
Qed.

Lemma split_on_nonempty p s : ∃ w r, split_on p s = w :: r.
Proof. induction s as [|c s (w & r & IH)]; cbn [split_on]; [by eexists _, _|]. rewrite IH. destruct (p c); by eexists _, _. Qed.

(** A pending key is a plain one, and its timer runs; a listener that is not
    installed has no timer. *)
Definition hk_ok (h : Hotkeys) : Prop :=
  (hk_listening h = true → ∀ k, hk_pending h = Some k → hk_timer h = true ∧ length k = 1)
  ∧ (hk_listening h = false → hk_timer h = false).

Lemma onKey_ok e h h' c : hk_listening h = true → hk_ok h → onKey e h = (h', c) → hk_ok h' ∧ hk_listening h' = true.
Proof.
  intros HL [H1 H2] E. unfold onKey in E. rewrite key_loop_find in E.
  destruct (List.find _ _) as [b|]; cbn in E.
  - injection E as <- <-. split; [|done]. split; cbn; [|congruence]. intros _ k Hk.
    destruct (is_sequence b.1); [done|]. auto.
  - destruct (negb _ && negb _ && _) eqn:Hp; injection E as <- <-; [|done].
    split; [|done]. split; cbn; [|congruence]. intros _ k [= <-].
    apply andb_prop in Hp as [_ Hp%Nat.eqb_eq]. done.
Qed.

Lemma hk_step_ok l h h' : hk_step l h h' → hk_ok h → hk_ok h'.
Proof.
  intros [bs h0|h0 E|h0 E|h0 E|e h0 h1 c E K|e h0 E] HI; try done.
  by apply (onKey_ok e h0 h1 c).
Qed.
Lemma hk_reachable_ok bs tr h : reachable bs tr h → hk_ok h.
Proof. induction 1; [done|]. eauto using hk_step_ok. Qed.

(** * Where the pending key comes from *)

(** A press of a plain key that no shortcut answered, and a step that forgets
    the pending key. *)
Definition unanswered (l : label) (k : jsstr) : Prop :=
  ∃ e, l = l_key e None ∧ ke_name e = k ∧ length k = 1 ∧ ke_typing e = false ∧ ke_mod e = false.
Definition forgets (l : label) : Prop := l = l_timeout ∨ l = l_cleanup ∨ ∃ k, unanswered l k.

(** The key is that of the last unanswered press, and nothing since forgets it. *)
Definition last_unanswered (tr : list label) (k : jsstr) : Prop :=
  ∃ tr1 l tr2, tr = tr1 ++ l :: tr2 ∧ unanswered l k ∧ Forall (λ l', ¬ forgets l') tr2.

Lemma last_unanswered_snoc tr l k : ¬ forgets l → last_unanswered tr k → last_unanswered (tr ++ [l]) k.
Proof.
  intros Hl (tr1 & l0 & tr2 & -> & Hu & Hf). exists tr1, l0, (tr2 ++ [l]). rewrite <- app_assoc.
  split_and!; [done|done|]. apply Forall_app_2; [done|by constructor].
Qed.

(** Handlers are only called by presses that match, so the others leave [pending]. *)
Lemma onKey_pending e h h' c k : onKey e h = (h', c) → hk_pending h' = Some k →
  unanswered (l_key e c) k ∨ (hk_pending h = Some k ∧ ¬ forgets (l_key e c)).
Proof.
  unfold onKey. rewrite key_loop_find. intros E Hk. destruct (List.find _ _) as [b|]; cbn in E.
  - injection E as <- <-. right. cbn in Hk. destruct (is_sequence b.1); [done|]. split; [done|].
    intros [?|[?|(k' & e' & ? & _)]]; discriminate.
  - destruct (negb (ke_typing e) && negb (ke_mod e) && (length (ke_name e) =? 1)) eqn:Hp; injection E as <- <-.
    + left. injection Hk as <-. rewrite !andb_true_iff, !negb_true_iff, Nat.eqb_eq in Hp. exists e. naive_solver.
    + right. split; [done|]. intros [?|[?|(k' & e' & [= <-] & <- & Hl & Ht & Hm)]]; try discriminate.
      rewrite Ht, Hm, Hl in Hp. discriminate.
Qed.

Lemma not_forgets_render bs : ¬ forgets (l_render bs).
Proof. intros [?|[?|(k & e & ? & _)]]; discriminate. Qed.

Lemma pending_trace bs tr h k : reachable bs tr h → hk_listening h = true → hk_pending h = Some k → last_unanswered tr k.
Proof.
  intros HR. revert k. induction HR as [|tr l h h' HR IH Hs]; [done|]. intros k HL Hk.
  destruct Hs as [bs' h|h E|h E|h E|e h h' c E K|e h E]; cbn in *; try done.
  - apply last_unanswered_snoc; [apply not_forgets_render|auto].
  - destruct (onKey_pending _ _ _ _ _ K Hk) as [Hu|[Hk' Hf]].
    + exists tr, (l_key e c), []. by split_and!.
    + apply last_unanswered_snoc; auto.
  - congruence.
Qed.

(** ** Shortcuts only fire when they are pressed *)

(** C39: a handler is only ever called for the first of the current
    combinations that matches the press, by an installed listener.  While
    somebody types, or with a modifier held, only modifier shortcuts are called, as the
    comment of the hook says (docs/frontend.md exempts Escape, but the hook does not);
    a two-key shortcut only when its first key is the last plain key that
    answered to nothing, with no time-out and no clean-up since then, while the
    timer still runs; and the key is then forgotten. *)
Theorem hotkeys_only_pressed bs tr h e h' n :
  reachable bs tr h → hk_step (l_key e (Some n)) h h' →
  ∃ combo, List.find (λ b, combo_matches e (hk_pending h) b.1) (hk_current h) = Some (combo, n)
    ∧ hk_listening h = true
    ∧ (ke_typing e || ke_mod e || altKey e = true → starts_with MOD combo = true ∧ ke_mod e = true)
    ∧ (is_sequence combo = true → ∃ k, split_on (N.eqb SPACE) combo !! 0 = Some k ∧ last_unanswered tr k
         ∧ hk_timer h = true ∧ hk_pending h' = None).
Proof.
  intros HR Hs. pose proof (hk_reachable_ok _ _ _ HR) as [Hok _]. inversion Hs as [| | | |? ? ? ? HL E|]; subst.
  pose proof E as E'. unfold onKey in E. rewrite key_loop_find in E.
  destruct (List.find _ _) as [[combo m]|] eqn:F; cbn [fmap option_fmap option_map fst snd] in E; [|by case_match].
  injection E as <- <-. exists combo. apply find_some in F as F'. destruct F' as [_ F']. cbn in F'.
  unfold combo_matches in F'. split_and!; [done|done| |].
  - intros Hb. rewrite Hb in F'. destruct (starts_with MOD combo); [|done]. by apply andb_prop in F' as [-> _].
  - intros Hq. unfold is_sequence in Hq. apply andb_prop in Hq as [Hq1%negb_true_iff Hq2]. rewrite Hq1, Hq2 in F'.
    apply andb_prop in F' as [_ F']. apply andb_prop in F' as [Hp%bool_decide_eq_true _].
    destruct (split_on (N.eqb SPACE) combo !! 0) as [k|] eqn:Ek.
    + exists k. split_and!; [done|by eapply pending_trace|by apply (Hok HL k)|]. cbn. unfold is_sequence. by rewrite Hq1, Hq2.
    + by destruct (split_on_nonempty (N.eqb SPACE) combo) as (w & r & Ew); rewrite Ew in Ek.
Qed.

(** ** Two-key shortcuts work *)

Definition plain (e : KeyboardEvent) : Prop := ke_typing e = false ∧ ke_mod e = false ∧ altKey e = false.
Abbreviation words := (split_on (N.eqb SPACE)).
Definition no_space (s : jsstr) : bool := forallb (λ c, negb (SPACE =? c)%N) s.

Lemma join_words s : join [SPACE] (words s) = s.
Proof.
  induction s as [|c s IH]; [done|]. cbn [split_on]. destruct (split_on_nonempty (N.eqb SPACE) s) as (w & r & E).
  rewrite E in *. destruct (N.eqb_spec SPACE c) as [<-|_].
  - change (join [SPACE] ([] :: w :: r)) with (SPACE :: join [SPACE] (w :: r)). by rewrite IH.
  - rewrite <- IH. by destruct r.
Qed.
Lemma words_pair k1 k2 : no_space k1 = true → no_space k2 = true → words (k1 ++ [SPACE] ++ k2) = [k1; k2].
Proof. intros H1 H2. cbn [app]. rewrite split_on_app by done. f_equal. by apply split_on_none. Qed.

Lemma question_name e : ke_key e = $"?" → ke_name e = $"?".
Proof. unfold ke_name. intros ->. by vm_compute. Qed.

(** What a plain press matches. *)
Lemma plain_matches e p c : plain e → combo_matches e p c = true →
  c = ke_name e ∨ (p = words c !! 0 ∧ words c !! 1 = Some (ke_name e)).
Proof.
  intros (Ht & Hm & Ha). unfold combo_matches. rewrite Ht, Hm, Ha. destruct (starts_with MOD c); [done|]. cbn [negb orb andb].
  destruct (includes _ _).
  - intros [Hp%bool_decide_eq_true Hk%bool_decide_eq_true]%andb_prop. auto.
  - intros [Hk%bool_decide_eq_true|[Hc%bool_decide_eq_true Hq%bool_decide_eq_true]%andb_prop]%orb_prop; [auto|].
    left. by rewrite question_name.
Qed.

(** The combination of two keys matches the second after the first. *)
Lemma pair_matches e k1 k2 : plain e → ke_name e = k2 → length k1 = 1 → no_space k1 = true → no_space k2 = true →
  combo_matches e (Some k1) (k1 ++ [SPACE] ++ k2) = true ∧ is_sequence (k1 ++ [SPACE] ++ k2) = true.
Proof.
  intros (Ht & Hm & Ha) Hk Hl H1 H2. destruct k1 as [|c [|]]; try done. cbn [app].
  assert (starts_with MOD (c :: SPACE :: k2) = false) as HM.
  { change (starts_with [109%N; 111%N; 100%N; 43%N] (c :: SPACE :: k2) = false). cbn -[N.eqb]. by destruct (109 =? c)%N. }
  assert (includes [SPACE] (c :: SPACE :: k2) = true) as HI by (cbn -[N.eqb]; by destruct (SPACE =? c)%N).
  unfold combo_matches, is_sequence. rewrite HM, HI, Ht, Hm, Ha. cbn [negb orb andb]. split; [|done].
  rewrite (words_pair [c] k2 H1 H2 : words (c :: SPACE :: k2) = _). rewrite Hk.
  by repeat rewrite bool_decide_true by done.
Qed.

(** No combination is one of the two keys alone or has a third key, and none
    ends with the first key. *)
Definition unambiguous (bs : bindings) (k1 k2 : jsstr) : Prop :=
  NoDup bs.*1 ∧ Forall (λ c, c ≠ k1 ∧ c ≠ k2 ∧ length (words c) ≤ 2 ∧ words c !! 1 ≠ Some k1) bs.*1.

Lemma find_none_of {A} (p : A → bool) l : (∀ x, x ∈ l → p x = false) → List.find p l = None.
Proof.
  induction l as [|x l IH]; intros H; [done|]. cbn. rewrite H by left. apply IH. intros y Hy. apply H. by right.
Qed.
Lemma find_only {A} (p : A → bool) l x : x ∈ l → p x = true → (∀ y, y ∈ l → p y = true → y = x) → List.find p l = Some x.
Proof.
  intros Hx Hp Hu. destruct (List.find p l) as [y|] eqn:E.
  - apply find_some in E as [Hy Hpy]. f_equal. apply Hu; [by apply list_elem_of_In|done].
  - eapply find_none in E; [|by apply list_elem_of_In]. congruence.
Qed.

(** C40: when the combinations are unambiguous for the keys of a two-key
    shortcut, pressing the two plain keys one after the other calls its handler
    on the second press and nothing on the first, whatever was pressed before;
    when the timer runs out in between, the second press calls nothing. *)
Theorem hotkeys_sequence h e1 e2 k1 k2 n :
  plain e1 → plain e2 → ke_name e1 = k1 → ke_name e2 = k2 →
  length k1 = 1 → no_space k1 = true → no_space k2 = true →
  (k1 ++ [SPACE] ++ k2, n) ∈ hk_current h → unambiguous (hk_current h) k1 k2 →
  ∃ h1, onKey e1 h = (h1, None) ∧ hk_timer h1 = true
    ∧ (∃ h2, onKey e2 h1 = (h2, Some n) ∧ hk_pending h2 = None)
    ∧ (onKey e2 (timeout h1)).2 = None.
Proof.
  intros P1 P2 E1 E2 Hl S1 S2 Hin [Hnd Hun]. rewrite Forall_forall in Hun. destruct (pair_matches e2 k1 k2 P2 E2 Hl S1 S2) as [Hm Hq].
  assert (∀ b : jsstr * nat, b ∈ hk_current h → b.1 ∈ (hk_current h).*1) as Hkey by (intros; by apply list_elem_of_fmap_2).
  unfold onKey at 1. rewrite key_loop_find, find_none_of.
  2: { intros b Hb. destruct (Hun _ (Hkey b Hb)) as (? & ? & ? & ?). apply not_true_is_false.
       intros [?|[_ ?]]%plain_matches; [congruence|congruence|done]. }
  destruct P1 as (T1 & M1 & A1). cbn [fmap option_fmap option_map]. rewrite T1, M1, E1, Hl. cbn [negb andb Nat.eqb].
  eexists. split; [done|]. split; [done|]. split.
  - unfold onKey. cbn [hk_current hk_pending]. rewrite key_loop_find.
    rewrite (find_only _ _ (k1 ++ [SPACE] ++ k2, n)); [cbn [fmap option_fmap option_map fst snd]; rewrite Hq; by eexists|done|done|].
    intros [c m] Hb Hcm. pose proof (Hun _ (Hkey _ Hb)) as (? & ? & Hw & ?). cbn in *.
    destruct (plain_matches _ _ _ P2 Hcm) as [?|[F S]]; [congruence|].
    assert (c = k1 ++ [SPACE] ++ k2) as ->; 
    [|apply (assoc_get_elem _ _ _ Hnd) in Hb; apply (assoc_get_elem _ _ _ Hnd) in Hin;
      assert (Some m = Some n) as [= ->] by (rewrite <- Hb; exact Hin); done].
    rewrite <- (join_words c). destruct (words c) as [|a [|b [|]]]; cbn in *; [done..| |lia]. by simplify_eq.
  - unfold onKey, timeout. cbn [hk_current hk_pending]. rewrite key_loop_find, find_none_of;
      [cbn [fmap option_fmap option_map]; by destruct (_ && _ && _)|].
    intros b Hb. destruct (Hun _ (Hkey b Hb)) as (? & ? & ? & ?). apply not_true_is_false.
    intros [?|[F S]]%plain_matches; [congruence| |done].
    destruct (split_on_nonempty (N.eqb SPACE) b.1) as (w & r & Ew). by rewrite Ew in F.
Qed.

(** ** The shell *)

(** Presses of single keys outside any input. *)
Definition press (k : jsstr) : KeyboardEvent := MkKey k false false false None.
Definition shell_on : Hotkeys := effect true (mounted shell_bindings).
Definition shell_g : Hotkeys := (onKey (press $"g") shell_on).1.

Lemma shell_on_reachable : reachable shell_bindings [l_effect] shell_on.
Proof. apply (reach_step _ [] l_effect (mounted shell_bindings)); [constructor|]. by constructor. Qed.
Lemma shell_g_reachable : reachable shell_bindings [l_effect; l_key (press $"g") None] shell_g.
Proof. apply (reach_step _ [l_effect] _ shell_on); [apply shell_on_reachable|]. by constructor. Qed.

Lemma shell_unambiguous k : k ∈ [$"d"; $"l"; $"t"; $"a"; $"s"; $"y"] → unambiguous shell_bindings $"g" k.
Proof.
  revert k. apply Forall_forall. unfold unambiguous. vm_decide.
Qed.

Lemma hotkeys_only_pressed_witness : ∃ combo,
  List.find (λ b : jsstr * nat, combo_matches (press $"d") (hk_pending shell_g) b.1) (hk_current shell_g) = Some (combo, 3)
  ∧ (is_sequence combo = true → ∃ k, last_unanswered [l_effect; l_key (press $"g") None] k).
Proof.
  destruct (hotkeys_only_pressed shell_bindings _ shell_g (press $"d") (onKey (press $"d") shell_g).1 3 shell_g_reachable)
    as (combo & F & _ & _ & Hs).
  { by apply step_key. }
  exists combo. split; [exact F|]. intros Hq. destruct (Hs Hq) as (k & _ & Hk & _). by exists k.
Defined.
Lemma hotkeys_sequence_witness : ∃ h1, onKey (press $"g") shell_on = (h1, None)
  ∧ (∃ h2, onKey (press $"t") h1 = (h2, Some 5) ∧ hk_pending h2 = None) ∧ (onKey (press $"t") (timeout h1)).2 = None.
Proof.
  destruct (hotkeys_sequence shell_on (press $"g") (press $"t") $"g" $"t" 5) as (h1 & E1 & _ & E2 & E3);
    [done..|vm_decide|apply shell_unambiguous; vm_decide|].
  exists h1. split_and!; assumption.
Defined.
