(* ===== verification/Retention.v ===== *)
(** Retention periods (src/frontend/src/features/settings/retention.ts): the
    durations a period may be written as, the check before it is sent, and the
    comparison of two spellings. *)
From Stdlib Require Import ZArith NArith Lia SpecFloat.
From stdpp Require Import base list numbers strings.
From S2P Require Import Prelude Unicode JsNumber JsNumberFacts JsExact SourceForm ApiClient.
Open Scope nat_scope.

(** * The code *)

(** Units with their milliseconds, in the order of the alternatives [UNITS]. *)
Definition PERIOD_UNITS : list (jsstr * Number) :=
  [($"ns", num_of_decimal 1 (-6)); ($"us", num_of_decimal 1 (-3)); ($"µs", num_of_decimal 1 (-3)); ($"μs", num_of_decimal 1 (-3));
   ($"ms", num 1); ($"s", num 1000); ($"m", num 60000); ($"h", num 3600000); ($"d", num 86400000)].
Definition DAY_MS : Number := num 86400000.
Definition MIN_PERIOD_MS : Number := DAY_MS.
Definition MAX_PERIOD_MS : Number := nmul (num 3650) DAY_MS.

Definition PERIOD_REQUIRED : jsstr := $"period is required, as a duration such as 30d or 720h".
Definition PERIOD_UNPARSEABLE : jsstr := $"period must be a duration such as 30d or 720h".
Definition PERIOD_TOO_SHORT : jsstr := $"retention must be at least 1d".
Definition PERIOD_TOO_LONG : jsstr := $"retention must be at most 3650d".

Definition RETENTION_PRESETS : list (jsstr * jsstr) :=
  [($"7d", $"7d"); ($"30d", $"30d"); ($"90d", $"90d"); ($"1y", $"365d")].

Definition DOT : N := 46.

(** The first match of [(\d+(?:\.\d+)?)(unit)]: the count, the milliseconds of
    the unit and the rest.  A part is followed by a digit or by the end, so the
    pattern never has to take back what it matched. *)
Definition PART_RE (s : jsstr) : option (jsstr * Number * jsstr) :=
  let ds := take_while is_digit s in
  let r := drop_while is_digit s in
  let '(count, r) :=
    match r with
    | c :: f =>
        if (c =? DOT)%N && truthy (take_while is_digit f)
        then (ds ++ DOT :: take_while is_digit f, drop_while is_digit f) else (ds, r)
    | [] => (ds, r)
    end in
  if truthy ds then
    match List.find (λ u : jsstr * Number, starts_with u.1 r) PERIOD_UNITS with
    | Some (u, ms) => Some (count, ms, drop (length u) r)
    | None => None
    end
  else None.

(** [PERIOD_RE]: one or more parts and nothing else. *)
Fixpoint period_parts (fuel : nat) (s : jsstr) : option (list (jsstr * Number)) :=
  match fuel with
  | 0 => None
  | S fuel =>
      match PART_RE s with
      | None => None
      | Some (count, ms, []) => Some [(count, ms)]
      | Some (count, ms, r) => (λ l, (count, ms) :: l) <$> period_parts fuel r
      end
  end.

Definition parsePeriodMs (input : jsstr) : option Number :=
  let text := to_lower (trim input) in
  match period_parts (S (length text)) text with
  | None => None
  | Some parts => Some (fold_left (λ ms p, nadd ms (nmul (str_to_number p.1) p.2)) parts (num 0))
  end.

Definition validatePeriod (input : jsstr) : option jsstr :=
  if negb (truthy (trim input)) then Some PERIOD_REQUIRED
  else
    match parsePeriodMs input with
    | None => Some PERIOD_UNPARSEABLE
    | Some ms =>
        if nlt ms MIN_PERIOD_MS then Some PERIOD_TOO_SHORT
        else if nlt MAX_PERIOD_MS ms then Some PERIOD_TOO_LONG else None
    end.

Definition normalizePeriod (input : jsstr) : jsstr :=
  match parsePeriodMs input with
  | None => trim input
  | Some ms => if neq (nmod ms DAY_MS) (num 0) then num_to_string (ndiv ms DAY_MS) ++ $"d" else to_lower (trim input)
  end.

Definition samePeriod (a b : option jsstr) : bool :=
  match a, b with
  | Some ((_ :: _) as a), Some ((_ :: _) as b) =>
      match parsePeriodMs a, parsePeriodMs b with
      | Some x, Some y => neq x y
      | _, _ => bool_decide (trim a = trim b)
      end
  | _, _ => bool_decide (a = b)
  end.

Definition restartPending (configured : jsstr) (desired : option jsstr) (restart_required : option bool) : bool :=
  match restart_required with
  | Some b => b
  | None => truthy (nullish desired []) && negb (samePeriod desired (Some configured))
  end.

Definition periodProblemMessage (problem : option Problem) (fallback : jsstr) : jsstr :=
  let field := List.find (λ e, bool_decide (pe_pointer e = Some $"/period")) (nullish (problem ≫= pb_errors) []) in
  first_truthy [field ≫= pe_message; problem ≫= pb_detail] fallback.

Example period_ex : normalizePeriod $" 720H " = $"30d" ∧ validatePeriod $"12h" = Some PERIOD_TOO_SHORT
  ∧ parsePeriodMs $"1.5d" = Some (num 129600000) ∧ parsePeriodMs $"1h30m5ms" = Some (num 5400005)
  ∧ validatePeriod $"1y" = Some PERIOD_UNPARSEABLE ∧ validatePeriod $"3651d" = Some PERIOD_TOO_LONG
  ∧ Forall (λ p, validatePeriod p.2 = None) RETENTION_PRESETS.
Proof. split_and!; [vm_compute; reflexivity..|]. repeat constructor; vm_compute; reflexivity. Qed.

(** * Periods of whole units *)

(** The units whose milliseconds are whole. *)
Inductive whole_unit := in_ms | in_s | in_m | in_h | in_d.
Definition unit_text (u : whole_unit) : jsstr :=
  match u with in_ms => $"ms" | in_s => $"s" | in_m => $"m" | in_h => $"h" | in_d => $"d" end.
Definition unit_ms (u : whole_unit) : Z :=
  match u with in_ms => 1 | in_s => 1000 | in_m => 60000 | in_h => 3600000 | in_d => 86400000 end.

(** A period as it is written: 1h30m is one hour and thirty minutes. *)
Definition period_text (p : list (N * whole_unit)) : jsstr := p ≫= λ x, dec x.1 ++ unit_text x.2.
Definition period_length (p : list (N * whole_unit)) : Z := fold_right (λ x a, Z.of_N x.1 * unit_ms x.2 + a)%Z 0%Z p.

Lemma period_length_nonneg p : (0 ≤ period_length p)%Z.
Proof.
  induction p as [|[n u] p IH]; [done|]. unfold period_length in *. cbn [fold_right fst snd]. destruct u; cbn [unit_ms]; lia.
Qed.

Definition starts_digit (s : jsstr) : Prop := match s with [] => True | c :: _ => is_digit c = true end.

Lemma period_text_starts p : starts_digit (period_text p).
Proof.
  destruct p as [|[n u] p]; [done|]. cbn. pose proof (dec_nonempty n) as Hne. pose proof (dec_digits n) as Hd.
  destruct (dec n) as [|c r]; [done|]. cbn in *. by apply andb_prop in Hd as [-> _].
Qed.

Lemma find_unit u r : starts_digit r →
  List.find (λ x : jsstr * Number, starts_with x.1 (unit_text u ++ r)) PERIOD_UNITS = Some (unit_text u, num (unit_ms u)).
Proof.
  intros Hr. unfold PERIOD_UNITS, unit_text, unit_ms. lits.
  destruct u; try (cbn -[num num_of_decimal N.eqb]; reflexivity).
  destruct r as [|c r]; cbn in Hr; [by cbn -[num num_of_decimal]|]. apply digit_facts in Hr as [_ Hr].
  cbn -[num num_of_decimal N.eqb]. destruct (N.eqb_spec 115 c); [lia|]. reflexivity.
Qed.

Lemma unit_text_head u : ∃ c r, unit_text u = c :: r ∧ is_digit c = false ∧ (c =? DOT)%N = false.
Proof. unfold unit_text. lits. destruct u; by eexists _, _. Qed.

Lemma part_whole n u r : starts_digit r → PART_RE (dec n ++ unit_text u ++ r) = Some (dec n, num (unit_ms u), r).
Proof.
  intros Hr. pose proof (dec_digits n) as Hd.
  destruct (unit_text_head u) as (c & t & Eu & Hc & Hdot). unfold PART_RE.
  assert (∀ x r', unit_text u ++ r = x :: r' → is_digit x = false) as Hx by (intros x r'; rewrite Eu; cbn; congruence).
  assert (Forall (λ x, is_digit x = true) (dec n)) as Hall by (apply List.Forall_forall; by apply forallb_forall).
  rewrite (take_while_app _ _ _ Hall Hx), (drop_while_app _ _ _ Hall Hx).
  pose proof (find_unit u r Hr) as Hf. rewrite Eu in *. cbn [app]. rewrite Hdot. cbn [andb].
  destruct (dec n) eqn:En; [by apply dec_nonempty in En|]. cbn [truthy app] in *. rewrite Hf.
  f_equal. f_equal. cbn [length drop]. by rewrite drop_app_length.
Qed.

Lemma parts_whole p fuel : p ≠ [] → length p ≤ fuel →
  period_parts fuel (period_text p) = Some (map (λ x, (dec x.1, num (unit_ms x.2))) p).
Proof.
  revert fuel. induction p as [|[n u] p IH]; intros fuel Hp Hf; [done|]. destruct fuel as [|fuel]; [cbn in Hf; lia|].
  cbn [period_parts]. unfold period_text. rewrite bind_cons. fold (period_text p). cbn [fst snd]. rewrite <- app_assoc.
  rewrite part_whole by apply period_text_starts. destruct p as [|q p]; [done|].
  assert (∃ c r, period_text (q :: p) = c :: r) as (c & r & Er).
  { unfold period_text. rewrite bind_cons. destruct (dec q.1) eqn:E; [by apply dec_nonempty in E|]. by eexists _, _. }
  rewrite Er, <- Er, IH by (cbn in *; done || lia). done.
Qed.

Lemma sum_whole p a : (0 ≤ a)%Z → (a + period_length p < 2 ^ 53)%Z →
  fold_left (λ ms q, nadd ms (nmul (str_to_number q.1) q.2)) (map (λ x, (dec x.1, num (unit_ms x.2))) p) (num a)
  = num (a + period_length p).
Proof.
  revert a. induction p as [|[n u] p IH]; intros a Ha Hlt; [cbn; by rewrite Z.add_0_r|].
  pose proof (period_length_nonneg p) as Hp. unfold period_length in *. cbn [fold_right map fold_left fst snd] in *.
  assert (0 < unit_ms u < 2 ^ 53)%Z as Hu by (destruct u; cbn; lia).
  rewrite str_to_number_dec, nmul_num, nadd_num by nia. rewrite IH by nia. f_equal. lia.
Qed.

(** The text is as it is compared: no space around it, no capital in it. *)
Definition lower_alnum (c : N) : bool := is_digit c || is_lower c.

Lemma lower_fixed c : lower_alnum c = true → map_case lower_runs lower_special c = [c].
Proof.
  intros H. assert (forallb (λ n, implb (lower_alnum (N.of_nat n)) (bool_decide (map_case lower_runs lower_special (N.of_nat n) = [N.of_nat n]))) (seq 0 128) = true)
    as Hall by (vm_compute; reflexivity).
  rewrite forallb_forall in Hall. specialize (Hall (N.to_nat c)). rewrite N2Nat.id, H in Hall.
  apply (bool_decide_eq_true_1 _), Hall, in_seq. unfold lower_alnum, is_digit, is_lower, in_range in H. units.
Qed.

Lemma to_lower_fixed s : forallb lower_alnum s = true → to_lower s = s.
Proof.
  intros Hs. rewrite forallb_forall in Hs. rewrite to_lower_alone.
  - rewrite <- (map_id s) at 2. apply map_ext_in. intros c Hc%Hs. unfold lower_unit. by rewrite lower_fixed.
  - apply forallb_forall. intros c Hc%Hs. unfold lowers_alone. rewrite lower_fixed by done.
    unfold lower_alnum, is_digit, is_lower, is_high, in_range, SIGMA in *. units.
Qed.

Lemma lower_alnum_not_space c : lower_alnum c = true → is_space c = false.
Proof. unfold lower_alnum, is_digit, is_lower, is_space, in_range. intros H. units. Qed.

Lemma trim_fixed s : forallb lower_alnum s = true → trim s = s.
Proof.
  intros H. destruct s as [|c s]; [done|]. destruct (rev (c :: s)) as [|c' r'] eqn:E; [
    by apply (f_equal (@length _)) in E; rewrite length_rev in E|].
  rewrite forallb_forall in H. apply (trim_id _ c s c' r'); [done| |done|]; apply lower_alnum_not_space, H; [by left|].
  apply in_rev. rewrite E. by left.
Qed.

Lemma period_text_alnum p : forallb lower_alnum (period_text p) = true.
Proof.
  induction p as [|[n u] p IH]; [done|]. unfold period_text in *. rewrite bind_cons, !forallb_app, IH. cbn [fst snd].
  pose proof (dec_digits n) as Hd. rewrite forallb_forall in Hd.
  rewrite andb_true_r. apply andb_true_intro; split.
  - apply forallb_forall. intros c Hc. unfold lower_alnum. by rewrite Hd.
  - unfold unit_text. lits. by destruct u.
Qed.

Lemma period_text_length p : length p ≤ length (period_text p).
Proof.
  induction p as [|[n u] p IH]; [done|]. unfold period_text in *. rewrite bind_cons, !length_app. cbn [fst snd length].
  destruct (dec n) eqn:E; [by apply dec_nonempty in E|]. cbn [length]. lia.
Qed.

Lemma parsePeriodMs_whole p : p ≠ [] → (period_length p < 2 ^ 53)%Z → parsePeriodMs (period_text p) = Some (num (period_length p)).
Proof.
  intros Hp Hl. unfold parsePeriodMs. rewrite trim_fixed, to_lower_fixed by apply period_text_alnum.
  rewrite parts_whole; [|done|pose proof (period_text_length p); lia]. by rewrite sum_whole.
Qed.

(** * What a period means *)

Definition day : Z := 86400000.

Lemma text_nonempty p : p ≠ [] → truthy (period_text p) = true.
Proof.
  destruct p as [|[n u] p]; [done|]. intros _. unfold period_text. rewrite bind_cons. cbn [fst snd].
  destruct (dec n) eqn:E; [by apply dec_nonempty in E|done].
Qed.

Lemma validate_whole p : p ≠ [] → (period_length p < 2 ^ 53)%Z →
  validatePeriod (period_text p)
  = if (period_length p <? day)%Z then Some PERIOD_TOO_SHORT
    else if (3650 * day <? period_length p)%Z then Some PERIOD_TOO_LONG else None.
Proof.
  intros Hp Hl. unfold validatePeriod. rewrite trim_fixed, text_nonempty by (done || apply period_text_alnum).
  cbn [negb]. rewrite parsePeriodMs_whole by done. pose proof (period_length_nonneg p).
  unfold MAX_PERIOD_MS, MIN_PERIOD_MS, DAY_MS. rewrite nmul_num by lia. by rewrite !nlt_num by lia.
Qed.

Lemma normalize_whole p : p ≠ [] → (period_length p < 2 ^ 53)%Z →
  normalizePeriod (period_text p)
  = if (period_length p mod day =? 0)%Z then period_text [(Z.to_N (period_length p / day), in_d)] else period_text p.
Proof.
  intros Hp Hl. unfold normalizePeriod. rewrite parsePeriodMs_whole by done. pose proof (period_length_nonneg p) as H0.
  unfold DAY_MS. pose proof (Z.mod_pos_bound (period_length p) day ltac:(done)).
  rewrite nmod_num, neq_num by (unfold day in *; lia). fold day. destruct (Z.eqb_spec (period_length p mod day) 0) as [E|E].
  - assert (period_length p = period_length p / day * day)%Z as Hk
      by (rewrite Z.mul_comm; apply Z.div_exact; done).
    assert (0 ≤ period_length p / day)%Z by (apply Z.div_pos; done).
    rewrite Hk at 1. rewrite ndiv_num by (unfold day in *; lia). rewrite num_to_string_num by (unfold day in *; lia).
    unfold period_text. rewrite bind_cons. cbn [fst snd]. by rewrite app_nil_r.
  - by rewrite trim_fixed, to_lower_fixed by apply period_text_alnum.
Qed.

(** Periods of whole units are read exactly.  A period such as 1d12h
    written with milliseconds, seconds, minutes, hours and days means the sum
    of its parts, as long as that is a safe integer; it is refused exactly when
    it is shorter than a day or longer than 3650 days, with the message of the
    server; writing it the way the server stores it keeps its length, and gives
    whole days as days; and two periods are taken to be the same exactly when
    they are equally long. *)
Theorem retention_periods p q :
  p ≠ [] → q ≠ [] → (period_length p < 2 ^ 53)%Z → (period_length q < 2 ^ 53)%Z →
  parsePeriodMs (period_text p) = Some (num (period_length p))
  ∧ validatePeriod (period_text p)
    = (if (period_length p <? day)%Z then Some PERIOD_TOO_SHORT
       else if (3650 * day <? period_length p)%Z then Some PERIOD_TOO_LONG else None)
  ∧ parsePeriodMs (normalizePeriod (period_text p)) = parsePeriodMs (period_text p)
  ∧ normalizePeriod (period_text p)
    = (if (period_length p mod day =? 0)%Z then dec (Z.to_N (period_length p / day)) ++ $"d" else period_text p)
  ∧ samePeriod (Some (period_text p)) (Some (period_text q)) = (period_length p =? period_length q)%Z
  ∧ restartPending (period_text p) (Some (period_text q)) None = negb (period_length q =? period_length p)%Z.
Proof.
  intros Hp Hq Lp Lq. pose proof (period_length_nonneg p) as H0. pose proof (period_length_nonneg q) as H0'.
  assert (∀ a b, a ≠ [] → b ≠ [] → (period_length a < 2 ^ 53)%Z → (period_length b < 2 ^ 53)%Z →
    samePeriod (Some (period_text a)) (Some (period_text b)) = (period_length a =? period_length b)%Z) as Hsame.
  { intros a b Ha Hb La Lb. unfold samePeriod. pose proof (text_nonempty a Ha). pose proof (text_nonempty b Hb).
    pose proof (period_length_nonneg a). pose proof (period_length_nonneg b).
    pose proof (parsePeriodMs_whole a Ha La) as Pa. pose proof (parsePeriodMs_whole b Hb Lb) as Pb.
    destruct (period_text a), (period_text b); try done. cbv beta iota. rewrite Pa, Pb. by apply neq_num. }
  rewrite normalize_whole by done. split_and!; [by apply parsePeriodMs_whole|by apply validate_whole| | |by apply Hsame|].
  - destruct (Z.eqb_spec (period_length p mod day) 0) as [E|_]; [|done].
    assert (period_length [(Z.to_N (period_length p / day), in_d)] = period_length p) as E'.
    { unfold period_length at 1. cbn [fold_right fst snd unit_ms]. rewrite Z2N.id by (apply Z.div_pos; done).
      fold day. rewrite Z.add_0_r, Z.mul_comm. symmetry. by apply Z.div_exact. }
    rewrite !parsePeriodMs_whole by (rewrite ?E'; done). by rewrite E'.
  - case_match; [|done]. unfold period_text at 1. rewrite bind_cons. cbn [fst snd]. by rewrite app_nil_r.
  - unfold restartPending. cbn [nullish]. rewrite text_nonempty by done. by rewrite Hsame.
Qed.

Lemma retention_periods_witness :
  validatePeriod $"720h" = None ∧ normalizePeriod $"720h" = $"30d" ∧ samePeriod (Some $"720h") (Some $"29d24h") = true.
Proof.
  destruct (retention_periods [(720%N, in_h)] [(29%N, in_d); (24%N, in_h)]) as (_ & V & _ & N & S & _); [done|done|done|done|].
  assert (period_text [(720%N, in_h)] = $"720h" ∧ period_text [(29%N, in_d); (24%N, in_h)] = $"29d24h") as [E1 E2]
    by (split; vm_compute; reflexivity).
  rewrite E1, ?E2 in *. split_and!; [exact V|rewrite N; vm_compute; reflexivity|exact S].
Defined.
