(* ===== verification/Session.v ===== *)
(** What a signed-in browser keeps and checks: the preferences
    (src/frontend/src/lib/preferences.ts), the redirect after login
    (lib/redirect.ts), the rules for a new password (features/auth/password.ts),
    the audit query (features/audit/audit-query.ts), the name of an export
    (features/explorer/export.ts) and the address of a live tail
    (features/live-tail/tailSource.ts). *)
From Stdlib Require Import ZArith Lia SpecFloat.
From stdpp Require Import base list numbers strings.
From S2P Require Import Prelude Unicode JsNumber JsDate TimeRange Base64Url FormUrl UrlState Format.
Open Scope nat_scope.

(** * Preferences *)

Inductive Theme := theme_dark | theme_light.
Abbreviation range := (jsstr * jsstr)%type.
#[export] Instance Theme_eq_dec : EqDecision Theme.
Proof. solve_decision. Defined.

Record Prefs := MkPrefs { p_theme : Theme; p_timezone : jsstr; p_sidebarCollapsed : bool; p_recentRanges : list range }.
(** [Partial<Prefs>]: the members of a patch. *)
Record PrefsPatch := MkPatch {
  pp_theme : option Theme; pp_timezone : option jsstr; pp_sidebarCollapsed : option bool; pp_recentRanges : option (list range)
}.
Definition DEFAULTS : Prefs := MkPrefs theme_dark $"browser" false [].
Definition no_patch : PrefsPatch := MkPatch None None None None.

(** [{ ...p, ...patch }] *)
Definition merge_prefs (p : Prefs) (d : PrefsPatch) : Prefs :=
  MkPrefs (nullish (pp_theme d) (p_theme p)) (nullish (pp_timezone d) (p_timezone p))
    (nullish (pp_sidebarCollapsed d) (p_sidebarCollapsed p)) (nullish (pp_recentRanges d) (p_recentRanges p)).
(** A whole preference object read as a patch. *)
Definition as_patch (p : Prefs) : PrefsPatch :=
  MkPatch (Some (p_theme p)) (Some (p_timezone p)) (Some (p_sidebarCollapsed p)) (Some (p_recentRanges p)).

(** What the browser's storage holds under the key: nothing, text that does not
    parse (or a storage that throws), or an object with some of the members. *)
Inductive stored := NotStored | Unreadable | Stored (d : PrefsPatch).

Definition load_prefs (s : stored) : Prefs := match s with Stored d => merge_prefs DEFAULTS d | _ => DEFAULTS end.

(** The module's state, the storage, the document's theme and the listeners,
    named by numbers; [writable] says whether the storage accepts a write. *)
Record PrefsModule := MkPrefsModule {
  pm_state : Prefs; pm_stored : stored; pm_theme : option Theme; pm_listeners : list nat
}.
Definition init_prefs (s : stored) : PrefsModule := MkPrefsModule (load_prefs s) s None [].

Definition getPrefs (m : PrefsModule) : Prefs := pm_state m.
Definition applyTheme (t : Theme) (m : PrefsModule) : PrefsModule :=
  MkPrefsModule (pm_state m) (pm_stored m) (Some t) (pm_listeners m).
(** The new state and the listeners called, in order. *)
Definition setPrefs (writable : bool) (d : PrefsPatch) (m : PrefsModule) : PrefsModule * list nat :=
  let state := merge_prefs (pm_state m) d in
  let m := MkPrefsModule state (if writable then Stored (as_patch state) else pm_stored m) (pm_theme m) (pm_listeners m) in
  (applyTheme (p_theme state) m, pm_listeners m).
Definition subscribe (l : nat) (m : PrefsModule) : PrefsModule :=
  MkPrefsModule (pm_state m) (pm_stored m) (pm_theme m)
    (if decide (l ∈ pm_listeners m) then pm_listeners m else pm_listeners m ++ [l]).
Definition unsubscribe (l : nat) (m : PrefsModule) : PrefsModule :=
  MkPrefsModule (pm_state m) (pm_stored m) (pm_theme m) (List.filter (λ x, negb (x =? l)) (pm_listeners m)).

Definition recent_ranges (from to : jsstr) (l : list range) : list range :=
  take 6 ((from, to) :: List.filter (λ r : range, negb (bool_decide (r.1 = from)) || negb (bool_decide (r.2 = to))) l).
Definition pushRecentRange (writable : bool) (from to : jsstr) (m : PrefsModule) : PrefsModule * list nat :=
  setPrefs writable (MkPatch None None None (Some (recent_ranges from to (p_recentRanges (pm_state m))))) m.

Definition COMMON_TIMEZONES : list jsstr :=
  [$"UTC"; $"Europe/London"; $"Europe/Berlin"; $"Europe/Moscow"; $"Asia/Dubai"; $"Asia/Kolkata"; $"Asia/Singapore"; $"Asia/Tokyo";
   $"Australia/Sydney"; $"America/New_York"; $"America/Chicago"; $"America/Denver"; $"America/Los_Angeles"; $"America/Sao_Paulo"].

(** * Login *)

Definition safeNext (next : option jsstr) : jsstr :=
  match next with
  | Some n =>
      if negb (truthy n) || negb (starts_with $"/" n) || starts_with $"//" n || starts_with $"/login" n then $"/dashboard" else n
  | None => $"/dashboard"
  end.

Definition MIN_PASSWORD_LENGTH : nat := 12.
Definition validateNewPassword (current next confirm : jsstr) : option jsstr :=
  if length next <? MIN_PASSWORD_LENGTH then Some ($"The new password must be at least " ++ decn MIN_PASSWORD_LENGTH ++ $" characters.")
  else if 256 <? length next then Some $"The new password must be at most 256 characters."
  else if decide (next = current) then Some $"The new password must differ from the current password."
  else if decide (next = confirm) then None else Some $"The passwords do not match.".

(** * Audit *)

Definition AUDIT_LIMITS : list jsstr := [$"50"; $"200"; $"500"; $"1000"].

Record AuditQuery := MkAuditQuery {
  aud_limit : Number; aud_action : option jsstr; aud_actor : option jsstr; aud_outcome : AuditOutcome;
  aud_since : option jsstr; aud_before : option jsstr
}.

Definition time_message (e : TimeError) : jsstr :=
  match e with TimeRangeError m => m | InvalidTimeValue => $"Invalid time value" end.

(** [a ≫= or_undef ∘ trim] is [a?.trim() || undefined]. *)
Definition trim_optional (a : option jsstr) : option jsstr := a ≫= λ s, or_undef (trim s).

Definition auditQueryFromSearch `{TimeZones} (s : AuditSearch) (now : Z) (tz : jsstr) : AuditQuery * option jsstr :=
  let limit := str_to_number (a_limit s) in
  let query := MkAuditQuery
    (if isInteger limit && nle (num 1) limit && nle limit (num 1000) then limit else num 200)
    (trim_optional (a_action s)) (trim_optional (a_actor s)) (a_outcome s) in
  match resolveRange (a_from s) (a_to s) now tz with
  | Err e => (query None None, Some (time_message e))
  | Ok r =>
      match toISOString (r_start r) with
      | Err e => (query None None, Some (time_message e))
      | Ok since =>
          match toISOString (r_end r) with
          | Err e => (query (Some since) None, Some (time_message e))
          | Ok before => (query (Some since) (Some before), None)
          end
      end
  end.

Definition auditActionGroup (action : jsstr) : jsstr := nullish (split_on (N.eqb DOT) action !! 0) action.

Inductive AuditTone := audit_success | audit_danger | audit_muted.
Definition auditOutcomeTone (outcome : jsstr) : AuditTone :=
  if decide (outcome = $"success") then audit_success else if decide (outcome = $"failure") then audit_danger else audit_muted.

(** * Export *)

Inductive ExportFormat := format_csv | format_ndjson | format_json.
Definition format_text (f : ExportFormat) : jsstr :=
  match f with format_csv => $"csv" | format_ndjson => $"ndjson" | format_json => $"json" end.

(** [s.replace(/\.\d+Z$/, 'Z')] *)
Fixpoint strip_fraction (s : jsstr) : jsstr :=
  match s with
  | [] => []
  | c :: r =>
      if (c =? DOT)%N && truthy (take_while is_digit r) && bool_decide (drop_while is_digit r = $"Z") then $"Z"
      else c :: strip_fraction r
  end.
Definition exportFilename (f : ExportFormat) (now : Z) : jsstr :=
  let stamp := strip_fraction (List.filter (λ c, negb ((c =? MINUS)%N || (c =? COLON)%N)) (iso_string now)) in
  $"syslogc-export-" ++ stamp ++ $"." ++ format_text f.

Example export_ex : exportFilename format_csv 1789380000123 = $"syslogc-export-20260914T100000Z.csv".
Proof. vm_compute. reflexivity. Qed.

(** * The address of a live tail *)

(** [query] is the JSON text of the query. *)
Definition tailUrl (query startOffset : jsstr) : jsstr :=
  $"/api/v1/logs/tail?" ++ params_to_string [($"q", encodeBase64Url query); ($"start_offset", startOffset)].

Example tail_url_ex : let q := $"{a: é b}" in
  let url := tailUrl q $"5s" in
  match params_parse (drop 18 url) with
  | [(_, v); (_, o)] => decodeBase64Url v = Ok q ∧ o = $"5s"
  | _ => False
  end.
Proof. vm_compute. done. Qed.

(** * What is kept *)

Definition ranges_ok (l : list range) : Prop := length l ≤ 6 ∧ NoDup l.

Lemma kept_iff (from to : jsstr) (r : range) :
  negb (bool_decide (r.1 = from)) || negb (bool_decide (r.2 = to)) = true ↔ r ≠ (from, to).
Proof. destruct r as [a b]. cbn. repeat case_bool_decide; naive_solver. Qed.

(** The latest range is first, no range is kept twice, at most six are, and the
    others stay in their order. *)
Lemma recent_ranges_spec from to l : NoDup l →
  ranges_ok (recent_ranges from to l) ∧ recent_ranges from to l !! 0 = Some (from, to)
  ∧ ∃ rest, recent_ranges from to l = (from, to) :: rest ∧ sublist rest l.
Proof.
  intros Hl. unfold recent_ranges, ranges_ok. set (p := λ r : range, _).
  assert (sublist (List.filter p l) l) as Hs by (clear; induction l as [|r l IH]; cbn; [constructor|]; destruct (p r); by constructor).
  assert ((from, to) ∉ List.filter p l) as Hn.
  { intros Hin%list_elem_of_In%filter_In. destruct Hin as [_ Hp]. by apply kept_iff in Hp. }
  split_and!.
  - rewrite length_take. lia.
  - assert (NoDup ((from, to) :: List.filter p l)) as Hnd by (constructor; [done|by eapply sublist_NoDup]).
    eapply sublist_NoDup; [exact Hnd|apply sublist_take].
  - done.
  - exists (take 5 (List.filter p l)). split; [done|]. etrans; [apply sublist_take|done].
Qed.

(** After a write every listener hears of it, and a reload reads the state back. *)
Lemma setPrefs_reload d m m' called : setPrefs true d m = (m', called) →
  load_prefs (pm_stored m') = getPrefs m' ∧ pm_theme m' = Some (p_theme (getPrefs m')) ∧ called = pm_listeners m'.
Proof. intros [= <- <-]. cbn. unfold merge_prefs. by cbn. Qed.

(** A redirect stays on the site: it starts with one slash. *)
Lemma safeNext_local next : ∃ r, safeNext next = 47%N :: r ∧ (∀ r', r ≠ 47%N :: r').
Proof.
  assert (∃ r, $"/dashboard" = 47%N :: r ∧ ∀ r', r ≠ 47%N :: r') as Hd by (eexists; split; [vm_compute; reflexivity|done]).
  unfold safeNext. destruct next as [n|]; [|done].
  destruct (negb (truthy n) || negb (starts_with $"/" n) || starts_with $"//" n || starts_with $"/login" n) eqn:E; [done|].
  rewrite !orb_false_iff, !negb_false_iff in E. destruct E as [[[_ E1] E2] _]. revert E1 E2. lits.
  destruct n as [|c r]; [done|]. cbn -[N.eqb]. intros [Hc _]%andb_prop E2. apply N.eqb_eq in Hc as <-. eexists. split; [done|].
  intros r' ->. by cbn in E2.
Qed.
