(* ===== verification/AnalysisViews.v ===== *)
(** The analysis views (src/frontend/src/features/analytics/analyses.ts,
    directory.ts, mssql.ts, iis.ts): which analyses a deployment has, the URL
    codec, the filter and the explorer link of each view, and the tiles and
    sentences that say what a window holds. *)
From Stdlib Require Import ZArith Lia SpecFloat.
From stdpp Require Import base list numbers strings.
From S2P Require Import Prelude Unicode FilterAst FilterLex FilterText JsNumber JsDate TimeRange UrlState SourceTemplates Severity Format Analytics ApiClient.
Open Scope nat_scope.

(** * Which analyses there are *)

Inductive AnalysisId := an_dns_services | an_directory | an_mssql | an_iis.
Definition analysis_text (id : AnalysisId) : jsstr :=
  match id with an_dns_services => $"dns-services" | an_directory => $"directory" | an_mssql => $"mssql" | an_iis => $"iis" end.

Record AnalysisMeta := MkAnalysisMeta {
  am_view : jsstr; am_label : jsstr; am_about : jsstr; am_template : jsstr; am_part : option jsstr
}.

Definition ANALYSES (id : AnalysisId) : AnalysisMeta :=
  match id with
  | an_dns_services =>
      MkAnalysisMeta $"trends" $"Service trends" $"how many clients reached each online service over time"
        $"DNS queries (dnsdist / DNScollector)" None
  | an_directory =>
      MkAnalysisMeta $"directory" $"Active Directory" $"who signed in, who could not, whose account locked, and what changed"
        $"Microsoft Windows Server" (Some $"Active Directory")
  | an_mssql =>
      MkAnalysisMeta $"mssql" $"SQL Server"
        $"which accounts failed to sign in and from where, plus deadlocks, backups and the errors before an outage"
        $"Microsoft Windows Server" (Some $"SQL Server")
  | an_iis =>
      MkAnalysisMeta $"iis" $"IIS" $"which requests the web server answered, what it answered with, and which URLs are slow"
        $"Microsoft Windows Server" (Some $"IIS (web requests)")
  end.

(** What the server says of its templates. *)
Record TemplatesResponse := MkTemplates { tr_templates : option (list SourceTemplate); tr_analyses : option (list jsstr) }.

Inductive AnalysisAvailability := av_available | av_unavailable | av_unknown.
Definition analysisAvailability (id : AnalysisId) (templates : option TemplatesResponse) : AnalysisAvailability :=
  match templates with
  | None => av_unknown
  | Some t => if bool_decide (analysis_text id ∈ nullish (tr_analyses t) []) then av_available else av_unavailable
  end.
Definition analysisShown (a : AnalysisAvailability) : bool := match a with av_unavailable => false | _ => true end.

Definition lists_analysis (id : AnalysisId) (l : option (list jsstr)) : bool := bool_decide (analysis_text id ∈ nullish l []).

Fixpoint source_loop (id : AnalysisId) (ts : list SourceTemplate) : option (SourceTemplate * option TemplatePart) :=
  match ts with
  | [] => None
  | t :: r =>
      if lists_analysis id (st_analyses t) then Some (t, None)
      else match List.find (λ p, lists_analysis id (tp_analyses p)) (nullish (st_parts t) []) with
           | Some p => Some (t, Some p)
           | None => source_loop id r
           end
  end.
Definition analysisSource (id : AnalysisId) (templates : option TemplatesResponse) : option (SourceTemplate * option TemplatePart) :=
  source_loop id (nullish (templates ≫= tr_templates) []).
Definition templateForAnalysis (id : AnalysisId) (templates : option TemplatesResponse) : option SourceTemplate :=
  fst <$> analysisSource id templates.

Definition analysisGateMessage (id : AnalysisId) (templates : option TemplatesResponse) : jsstr * jsstr :=
  let meta := ANALYSES id in
  let found := analysisSource id templates in
  let template := match found with Some (t, _) => st_title t | None => am_template meta end in
  let part := match found with Some (_, p) => tp_title <$> p | None => am_part meta end in
  ($"No source carries " ++ am_label meta ++ $" logs yet",
   if truthy (nullish part []) then
     $"This page reads fields only the “" ++ nullish part [] ++ $"” part of the “" ++ template ++ $"” template produces, and shows "
     ++ am_about meta ++ $". Switch that part on for a source carrying the template — or add one — and this page "
     ++ $"fills in as its logs arrive."
   else
     $"This page reads fields only the “" ++ template ++ $"” template produces, and shows " ++ am_about meta ++ $". Add a source "
     ++ $"with that template — or choose it on a source you already have — and this page fills in as its logs arrive.").

Definition analysisPartName (id : AnalysisId) (templates : option TemplatesResponse) : jsstr :=
  nullish (tp_title <$> (analysisSource id templates ≫= snd)) (nullish (am_part (ANALYSES id)) (am_template (ANALYSES id))).

(** * What the views share *)

(** The members of the search the views read. *)
Record ViewRange := MkViewRange { vr_from : jsstr; vr_to : jsstr; vr_tz : option jsstr }.
Definition row_options : list Z := [25; 50; 100]%Z.
Definition default_rows : Z := 50.

Definition option_or (options : list Z) (x : Number) (d : Z) : Number :=
  if existsb (λ o, neq (num o) x) options then x else num d.
Definition unless_default (x : Number) (d : Z) : option jsstr := if neq x (num d) then None else Some (num_to_string x).

(** [{}] for a range that was chosen, the view's own for the explorer's default. *)
Definition range_patch (d : jsstr * jsstr) (from to : jsstr) : option (jsstr * jsstr) :=
  if bool_decide (from = $"now-1h") && bool_decide (to = $"now") then Some d else None.

Definition narrowed_filter (field value : jsstr) : option FilterExpr :=
  let value := trim value in if truthy value then Some (FieldValueExpr op_eq field value) else None.
Definition narrowed_search (field value : jsstr) (r : ViewRange) : ExplorerSearch :=
  MkExplorerSearch (vr_from r) (vr_to r) (vr_tz r) (Some (field ++ $"=" ++ quote value)) None visual None None None.

Inductive TileTone := tile_neutral | tile_warn | tile_alert.
Record Tile := MkTile { ti_name : jsstr; ti_label : jsstr; ti_value : Number; ti_note : jsstr; ti_tone : TileTone; ti_missing : bool }.

(** [x ? a : b] of a number that may be absent *)
Definition nonzero (x : option Number) : bool := match x with Some x => negb (neq x (num 0) || isNaN x) | None => false end.
Definition plural (n : Number) (one many : jsstr) : jsstr := if neq n (num 1) then one else many.
Definition tone_if (b : bool) (t : TileTone) : TileTone := if b then t else tile_neutral.
Definition tile (name label : jsstr) (value : option Number) (note : jsstr) (tone : TileTone) : Tile :=
  MkTile name label (nullish value (num 0)) note tone false.

Section views.
Context `{Locale} `{TimeZones}.

(** [formatExact] of a number *)
Definition exact (n : Number) : jsstr := formatExact (Some n).

(** * Active Directory *)

Definition AD_USER_FIELD : jsstr := $"ad.user".
Definition DIRECTORY_ROW_OPTIONS : list Z := row_options.
Definition DEFAULT_DIRECTORY_ROWS : Z := default_rows.
Definition DEFAULT_DIRECTORY_RANGE : jsstr * jsstr := ($"now-24h", $"now").

Record DirectoryQuery := MkDirectoryQuery { dq_account : jsstr; dq_rows : Number }.
Definition decodeDirectory (acct rows : option jsstr) : DirectoryQuery :=
  MkDirectoryQuery (nullish (trim <$> acct) []) (option_or DIRECTORY_ROW_OPTIONS (number_of rows) DEFAULT_DIRECTORY_ROWS).
Definition encodeDirectory (q : DirectoryQuery) : option jsstr * option jsstr :=
  (or_undef (trim (dq_account q)), unless_default (dq_rows q) DEFAULT_DIRECTORY_ROWS).
Definition directoryRangePatch (from to : jsstr) : option (jsstr * jsstr) := range_patch DEFAULT_DIRECTORY_RANGE from to.
Definition directoryFilter (account : jsstr) : option FilterExpr := narrowed_filter AD_USER_FIELD account.
Definition directoryExplorerSearch (user : jsstr) (r : ViewRange) : ExplorerSearch := narrowed_search AD_USER_FIELD user r.

Record DirectoryOverview := MkDirectoryOverview {
  do_signed_in : Number; do_accounts : Number; do_logons : Number; do_failures : Number; do_lockouts : Number;
  do_privileged_logons : Number; do_account_changes : Number; do_group_changes : Number
}.

Definition directoryTiles (o : option DirectoryOverview) : list Tile :=
  let failures := do_failures <$> o in
  let lockouts := do_lockouts <$> o in
  [tile $"signed_in" $"Signed in now" (do_signed_in <$> o) $"Estimate: a machine that loses power never reports the sign-out." tile_neutral;
   tile $"accounts" $"Accounts seen" (do_accounts <$> o) $"Distinct accounts that signed in during this window." tile_neutral;
   tile $"logons" $"Sign-ins" (do_logons <$> o) $"Sign-in events, not people: one account may sign in many times." tile_neutral;
   tile $"failures" $"Failed sign-ins" failures
     (if nonzero failures then $"Wrong credentials, unknown accounts and locked-out accounts alike." else $"None in this window.")
     (tone_if (nonzero failures) tile_warn);
   tile $"lockouts" $"Lockouts" lockouts
     (if nonzero lockouts
      then let n := nullish lockouts (num 0) in
           exact n ++ [SPACE] ++ plural n $"account was" $"accounts were" ++ $" locked out — see the table below."
      else $"No account locked out in this window.")
     (tone_if (nonzero lockouts) tile_alert);
   tile $"privileged_logons" $"Privileged sign-ins" (do_privileged_logons <$> o) $"Sign-ins that carried administrative rights." tile_neutral].

Definition activityLineColor (name : jsstr) : jsstr :=
  if decide (name = $"failures") then $"var(--warning)"
  else if decide (name = $"lockouts") then $"var(--danger)"
  else if decide (name = $"privileged") then nullish (CHART_COLORS !! 3) []
  else $"var(--accent)".

Definition changesSummary (o : option DirectoryOverview) : jsstr :=
  let accounts := nullish (do_account_changes <$> o) (num 0) in
  let groups := nullish (do_group_changes <$> o) (num 0) in
  if negb (nonzero (Some accounts)) && negb (nonzero (Some groups)) then $"nothing changed"
  else
    let part := λ n noun, exact n ++ [SPACE] ++ noun ++ plural n [] $"s" in
    part accounts $"account change" ++ $" · " ++ part groups $"group change".

Definition activityChartData (activity : option AnalysisActivity) : list ChartRow * list LineSeries :=
  lineChartData activity (λ name _, activityLineColor name).

Record DirectoryLockout := MkLockout { lo_user : jsstr; lo_caller : option jsstr; lo_source_ip : option jsstr; lo_failures_before : Number }.
Definition lockoutSentence (l : DirectoryLockout) : jsstr :=
  let caller := nullish (lo_caller l) [] in
  let ip := nullish (lo_source_ip l) [] in
  let from := if truthy caller && truthy ip then caller ++ $" (" ++ ip ++ $")" else or_else caller ip in
  let n := lo_failures_before l in
  let after :=
    if ngt n (num 0) then $"after " ++ exact n ++ $" failed sign-in" ++ plural n [] $"s"
    else $"with no failed sign-ins recorded before it" in
  lo_user l ++ $" locked out " ++ (if truthy from then $"from " ++ from ++ [SPACE] else []) ++ after.

Definition is_zero (x : Number) : bool := neq x (num 0).
Definition directoryIsEmpty (o : option DirectoryOverview) : bool :=
  match o with
  | None => true
  | Some o =>
      is_zero (do_logons o) && is_zero (do_failures o) && is_zero (do_lockouts o) && is_zero (do_accounts o)
      && is_zero (do_privileged_logons o) && is_zero (do_account_changes o) && is_zero (do_group_changes o)
  end.

Definition directoryEmptyHint : jsstr :=
  $"A source that has just been added has nothing for a few minutes. After that, check the audit policy on the "
  ++ $"domain controller: Windows records far less than people expect by default, successful sign-ins among them, "
  ++ $"and the template’s setup guide has the commands that turn the rest on.".
End views.
