(* ===== verification/ServerViews.v ===== *)
(** The SQL Server and IIS views (src/frontend/src/features/analytics/mssql.ts,
    iis.ts), and what the narrowed views have in common. *)
From Stdlib Require Import ZArith Lia SpecFloat.
From stdpp Require Import base list numbers strings.
From S2P Require Import Prelude Unicode FilterAst FilterLex FilterText FilterTextFacts FilterRoundTrip JsNumber JsNumberFacts JsDate TimeRange UrlState Severity Format Analytics AnalyticsProps AnalysisViews.
Open Scope nat_scope.

Section views.
Context `{Locale} `{TimeZones}.

(** * SQL Server *)

Definition MSSQL_INSTANCE_FIELD : jsstr := $"mssql.provider".
Definition MSSQL_ROW_OPTIONS : list Z := row_options.
Definition DEFAULT_MSSQL_ROWS : Z := default_rows.
Definition DEFAULT_MSSQL_RANGE : jsstr * jsstr := ($"now-24h", $"now").

Record MSSQLQuery := MkMSSQLQuery { mq_instance : jsstr; mq_rows : Number }.
Definition decodeMSSQL (inst rows : option jsstr) : MSSQLQuery :=
  MkMSSQLQuery (nullish (trim <$> inst) []) (option_or MSSQL_ROW_OPTIONS (number_of rows) DEFAULT_MSSQL_ROWS).
Definition encodeMSSQL (q : MSSQLQuery) : option jsstr * option jsstr :=
  (or_undef (trim (mq_instance q)), unless_default (mq_rows q) DEFAULT_MSSQL_ROWS).
Definition mssqlRangePatch (from to : jsstr) : option (jsstr * jsstr) := range_patch DEFAULT_MSSQL_RANGE from to.
Definition mssqlFilter (instance : jsstr) : option FilterExpr := narrowed_filter MSSQL_INSTANCE_FIELD instance.
Definition mssqlExplorerSearch (instance : jsstr) (r : ViewRange) : ExplorerSearch := narrowed_search MSSQL_INSTANCE_FIELD instance r.

Record MSSQLOverview := MkMSSQLOverview {
  mo_sign_in_failures : Number; mo_sign_ins : Number; mo_failed_accounts : Number; mo_failure_sources : Number;
  mo_deadlocks : Number; mo_severe_errors : Number; mo_read_retries : Number; mo_backups : Number;
  mo_instances : Number; mo_hosts : Number
}.

(** One tile whose note and tone depend on whether there was anything. *)
Definition tile_when (name label : jsstr) (x : option Number) (yes no : jsstr) (tone : TileTone) : Tile :=
  tile name label x (if nonzero x then yes else no) (tone_if (nonzero x) tone).

Definition mssqlTiles (o : option MSSQLOverview) : list Tile :=
  let get := λ f : MSSQLOverview → Number, f <$> o in
  let n := λ f, nullish (get f) (num 0) in
  [tile_when $"sign_in_failures" $"Failed sign-ins" (get mo_sign_in_failures)
     ($"For " ++ exact (n mo_failed_accounts) ++ [SPACE] ++ plural (n mo_failed_accounts) $"account" $"accounts" ++ $", from "
      ++ exact (n mo_failure_sources) ++ [SPACE] ++ plural (n mo_failure_sources) $"address" $"addresses" ++ $".")
     $"Nothing was refused in this window." tile_warn;
   MkTile $"sign_ins" $"Successful sign-ins" (n mo_sign_ins)
     (if nonzero (get mo_sign_ins)
      then $"Sign-ins that succeeded, which only an instance with login auditing set to both records at all."
      else $"Not recorded. SQL Server logs only failures until auditing is set to both — the SQL Server part’s setup guide has the statement.")
     tile_neutral (negb (nonzero (get mo_sign_ins)));
   tile_when $"deadlocks" $"Deadlocks" (get mo_deadlocks)
     $"Two statements each waiting for the other; SQL Server killed one of them."
     $"None reported — which is not proof there were none. 1205 reaches the event log only with deadlock tracing on." tile_alert;
   tile_when $"severe_errors" $"Severe errors" (get mo_severe_errors)
     $"A refused I/O, a damaged page, a full log, no memory, a stalled scheduler. See the table below."
     $"No I/O failure, damaged page, full log or stalled scheduler in this window." tile_alert;
   tile_when $"read_retries" $"Reads retried" (get mo_read_retries)
     $"Reads that succeeded only on a retry. Nothing was lost — but this is the warning that precedes a damaged page."
     $"Every read succeeded first time." tile_warn;
   tile_when $"backups" $"Backups" (get mo_backups)
     $"Database backups that finished. A transaction-log backup is a different event and is not counted here."
     $"None finished in this window, which a window shorter than the gap between backups explains on its own." tile_neutral;
   tile $"instances" $"Instances" (get mo_instances)
     ($"Instances that sent anything at all, across " ++ exact (n mo_hosts) ++ [SPACE] ++ plural (n mo_hosts) $"server" $"servers" ++ $".")
     tile_neutral].

Definition mssqlLineColor (name : jsstr) : jsstr :=
  if decide (name = $"sign_in_failures") then $"var(--warning)"
  else if decide (name = $"severe_errors") then $"var(--danger)"
  else if decide (name = $"read_retries") then nullish (CHART_COLORS !! 3) []
  else if decide (name = $"backups") then $"var(--success)"
  else $"var(--accent)".

Inductive MSSQLProblemKind :=
  k_login_failure | k_login_success | k_deadlock | k_corruption | k_resource | k_scheduler | k_backup | k_unknown.

Definition problemTone (kind : MSSQLProblemKind) : TileTone :=
  match kind with
  | k_corruption | k_resource | k_scheduler => tile_alert
  | k_deadlock | k_login_failure => tile_warn
  | _ => tile_neutral
  end.

Definition problemKindLabel (kind : MSSQLProblemKind) : jsstr :=
  match kind with
  | k_login_failure => $"sign-in"
  | k_login_success => $"sign-in"
  | k_corruption => $"data"
  | k_resource => $"resource"
  | k_scheduler => $"scheduler"
  | k_deadlock => $"deadlock"
  | k_backup => $"backup"
  | k_unknown => $"other"
  end.

Definition failedSignInSentence (accounts sources : list AnalysisCount) (total : Number) : option jsstr :=
  match accounts with
  | [] => None
  | account :: _ =>
      if nle total (num 0) then None
      else
        let count := ac_count account in
        let times := exact count ++ $" time" ++ plural count [] $"s" in
        let where_ := match sources with [from] => $" from " ++ countLabel from | _ => [] end in
        let rest :=
          if nlt count total then $", of " ++ exact total ++ $" failed sign-ins in this window"
          else if 1 <? length sources then $", from " ++ exact (num (Z.of_nat (length sources))) ++ $" addresses" else [] in
        Some (countLabel account ++ $" was refused " ++ times ++ where_ ++ rest)
  end.

Record MSSQLProblem := MkMSSQLProblem { mp_event : jsstr; mp_what : jsstr; mp_kind : MSSQLProblemKind; mp_instance : option jsstr; mp_host : option jsstr }.
Definition problemWhere (p : MSSQLProblem) : jsstr :=
  let where_ := join $" on " (List.filter truthy [nullish (mp_instance p) []; nullish (mp_host p) []]) in
  if truthy where_ then mp_event p ++ $" — " ++ mp_what p ++ $", " ++ where_ else mp_event p ++ $" — " ++ mp_what p.

Definition mssqlIsEmpty (o : option MSSQLOverview) : bool :=
  match o with
  | None => true
  | Some o =>
      is_zero (mo_instances o) && is_zero (mo_sign_in_failures o) && is_zero (mo_sign_ins o) && is_zero (mo_deadlocks o)
      && is_zero (mo_severe_errors o) && is_zero (mo_read_retries o) && is_zero (mo_backups o)
  end.

Definition mssqlEmptyHint (part : jsstr) : jsstr :=
  $"A source that has just been added has nothing for a few minutes. After that, check that the “" ++ part ++ $"” part is "
  ++ $"switched on for the source carrying these logs, and that NXLog is reading the Application channel on the "
  ++ $"database server — SQL Server writes there, not to a file of its own. Successful sign-ins need switching on "
  ++ $"inside SQL Server as well; the template’s setup guide has the statement.".

Definition topMessagesCaveat : jsstr :=
  $"Read this as “the text that repeated”, not as what went wrong most: SQL Server writes the database, file and "
  ++ $"page into the sentence, so two errors about one broken file count as two different messages while a hundred "
  ++ $"identical ones count as one. “What went wrong most” is the honest ranking.".

(** The figures sent to the model: what [sign_ins] is replaced with, or nothing
    when the response is sent as it is. *)
Definition mssqlFigures (o : option MSSQLOverview) : option jsstr :=
  if nonzero (mo_sign_ins <$> o) then None
  else Some $"not recorded: successful sign-ins are not being collected on this instance. This does not mean zero.".

(** * IIS *)

Definition IIS_URL_FIELD : jsstr := $"iis.uri".
Definition IIS_ROW_OPTIONS : list Z := row_options.
Definition DEFAULT_IIS_ROWS : Z := default_rows.
Definition IIS_SLOW_OPTIONS : list Z := [250; 500; 1000; 3000; 10000]%Z.
Definition DEFAULT_IIS_SLOW_MILLIS : Z := 1000.
Definition DEFAULT_IIS_RANGE : jsstr * jsstr := ($"now-6h", $"now").

Record IISQuery := MkIISQuery { iq_url : jsstr; iq_rows : Number; iq_slowMillis : Number }.
Definition decodeIIS (uri rows slow : option jsstr) : IISQuery :=
  MkIISQuery (nullish (trim <$> uri) []) (option_or IIS_ROW_OPTIONS (number_of rows) DEFAULT_IIS_ROWS)
    (option_or IIS_SLOW_OPTIONS (number_of slow) DEFAULT_IIS_SLOW_MILLIS).
Definition encodeIIS (q : IISQuery) : option jsstr * option jsstr * option jsstr :=
  (or_undef (trim (iq_url q)), unless_default (iq_rows q) DEFAULT_IIS_ROWS, unless_default (iq_slowMillis q) DEFAULT_IIS_SLOW_MILLIS).
Definition iisRangePatch (from to : jsstr) : option (jsstr * jsstr) := range_patch DEFAULT_IIS_RANGE from to.
Definition iisFilter (url : jsstr) : option FilterExpr := narrowed_filter IIS_URL_FIELD url.
Definition iisExplorerSearch (url : jsstr) (r : ViewRange) : ExplorerSearch := narrowed_search IIS_URL_FIELD url r.

Record IISOverview := MkIISOverview {
  io_requests : Number; io_informational : Number; io_succeeded : Number; io_redirected : Number; io_client_errors : Number;
  io_server_errors : Number; io_auth_failures : Number; io_slow_requests : Number; io_slow_threshold_millis : Number;
  io_clients : Number; io_urls : Number; io_servers : Number
}.

Definition iis_share (o : option IISOverview) (n : Number) : jsstr :=
  match o with
  | Some v => if nonzero (Some (io_requests v)) then $" — " ++ formatPercent (ndiv n (io_requests v)) ++ $" of requests." else []
  | None => []
  end.
Definition iis_unclassified (o : option IISOverview) : Number :=
  match o with
  | Some v =>
      nsub (io_requests v)
        (nadd (nadd (nadd (nadd (io_informational v) (io_succeeded v)) (io_redirected v)) (io_client_errors v)) (io_server_errors v))
  | None => num 0
  end.

Definition iisTiles (o : option IISOverview) : list Tile :=
  let get := λ f : IISOverview → Number, f <$> o in
  let n := λ f, nullish (get f) (num 0) in
  let any := nonzero (get io_requests) in
  [tile $"requests" $"Requests" (get io_requests)
     (if any
      then $"From " ++ exact (n io_clients) ++ [SPACE] ++ plural (n io_clients) $"address" $"addresses" ++ $" across "
           ++ exact (n io_urls) ++ [SPACE] ++ plural (n io_urls) $"path" $"paths" ++ $" on "
           ++ exact (n io_servers) ++ [SPACE] ++ plural (n io_servers) $"server" $"servers" ++ $"."
           ++ (if ngt (iis_unclassified o) (num 0)
               then [SPACE] ++ exact (iis_unclassified o) ++ $" had no readable status, so the classes below do not add up to this."
               else [])
      else $"Nothing arrived in this window.") tile_neutral;
   tile $"succeeded" $"Succeeded" (get io_succeeded)
     (if any
      then $"2xx" ++ iis_share o (n io_succeeded)
           ++ (if nonzero (get io_redirected) then $" A further " ++ exact (n io_redirected) ++ $" were redirected." else [])
      else $"Nothing to count yet.") tile_neutral;
   tile_when $"client_errors" $"Client errors" (get io_client_errors)
     ($"4xx: wrong paths and refused requests" ++ iis_share o (n io_client_errors))
     $"No 4xx in this window, which on anything reachable from the internet is unusual rather than good." tile_warn;
   tile_when $"server_errors" $"Server errors" (get io_server_errors)
     ($"5xx: the site’s own failures" ++ iis_share o (n io_server_errors))
     $"No 5xx in this window, so nothing failed inside the site." tile_alert;
   tile_when $"auth_failures" $"Unauthorized" (get io_auth_failures)
     $"401s, which are also counted in the client errors. These are refusals, not wrong paths."
     $"Nothing was refused for want of credentials." tile_warn;
   tile $"slow_requests" $"Slow requests" (get io_slow_requests)
     (match o with
      | Some v =>
          $"Requests that took " ++ exact (io_slow_threshold_millis v) ++ $" ms or more"
          ++ (if any then iis_share o (io_slow_requests v) else $".")
      | None => $"Nothing to count yet."
      end) (tone_if (nonzero (get io_slow_requests)) tile_warn)].

Definition iisLineColor (name : jsstr) : jsstr :=
  if decide (name = $"5xx") then $"var(--danger)"
  else if decide (name = $"4xx") then $"var(--warning)"
  else if decide (name = $"3xx") then $"var(--fg-subtle)"
  else if decide (name = $"2xx") then $"var(--success)"
  else if decide (name = $"slow") then $"var(--accent)"
  else $"var(--accent)".

Definition formatMillis (ms : option Number) : jsstr :=
  match ms with
  | None => $"—"
  | Some x => if isNaN x then $"—" else formatDuration (Some (ndiv x (num 1000)))
  end.

Definition iisHeadline (o : option IISOverview) (serverErrorsByUrl : list AnalysisCount) : option jsstr :=
  match o with
  | None => None
  | Some v =>
      if negb (nonzero (Some (io_requests v))) || nle (io_server_errors v) (num 0) then None
      else
        let where_ := match serverErrorsByUrl with worst :: _ => $" Most of them on " ++ countLabel worst ++ $"." | [] => [] end in
        Some (exact (io_server_errors v) ++ $" request" ++ plural (io_server_errors v) [] $"s" ++ $" failed inside the "
              ++ $"site — " ++ formatPercent (ndiv (io_server_errors v) (io_requests v)) ++ $" of the window." ++ where_)
  end.

Definition slowUrlsCaveat (thresholdMillis : Number) : jsstr :=
  $"Ranked by how many requests took " ++ exact thresholdMillis ++ $" ms or more — not by how slow they were. "
  ++ $"A page called once that took a minute will not appear above a page called ten thousand times of which fifty "
  ++ $"were slow. No average or worst time exists for a URL: the stored logs cannot be summed.".

Record IISRequestRow := MkIISRow {
  ir_status : jsstr; ir_substatus : option jsstr; ir_method : option jsstr; ir_uri : option jsstr; ir_query : option jsstr;
  ir_client_ip : option jsstr; ir_time_taken_millis : option Number
}.

Definition requestSentence (row : IISRequestRow) : jsstr :=
  let t := λ o : option jsstr, nullish o [] in
  let what := or_else (join $" " (List.filter truthy [t (ir_method row); t (ir_uri row)])) (or_else (t (ir_uri row)) $"(no path recorded)") in
  let took := match ir_time_taken_millis row with None => [] | Some _ => $", took " ++ formatMillis (ir_time_taken_millis row) end in
  ir_status row ++ (if truthy (t (ir_substatus row)) then $"." ++ t (ir_substatus row) else []) ++ $" on " ++ what
  ++ (if truthy (t (ir_client_ip row)) then $" from " ++ t (ir_client_ip row) else []) ++ took.

Definition requestPath (row : IISRequestRow) : jsstr :=
  let uri := nullish (ir_uri row) [] in
  let query := nullish (ir_query row) [] in
  if truthy query && negb (bool_decide (query = $"-")) then uri ++ $"?" ++ query else uri.

Definition iisIsEmpty (o : option IISOverview) : bool := match o with None => true | Some v => is_zero (io_requests v) end.

Definition iisEmptyHint (part : jsstr) : jsstr :=
  $"A source that has just been added has nothing for a few minutes. After that, check that the “" ++ part ++ $"” part is "
  ++ $"switched on for the source carrying these logs, that IIS is writing W3C log files at all, and that they are "
  ++ $"under the path NXLog is reading — this is the one part that reads files from disk rather than the event log. "
  ++ $"The log line is read by position, so the fields also have to be the ones the template’s setup guide sets.".
End views.

(** * The narrowed views *)

(** A row or threshold choice survives the URL. *)
Lemma choice_round options d o : Forall (λ o, 0 ≤ o < 2 ^ 52)%Z options → (0 ≤ d < 2 ^ 52)%Z → o ∈ options →
  option_or options (number_of (unless_default (num o) d)) d = num o.
Proof.
  intros Hall Hd Ho. rewrite Forall_forall in Hall. pose proof (Hall o Ho) as Hb. unfold unless_default, option_or.
  rewrite neq_num by lia. destruct (Z.eqb_spec o d) as [->|Hne].
  - cbn [number_of]. replace (existsb _ options) with false; [done|]. symmetry. apply not_true_is_false.
    intros (y & _ & Hy)%existsb_exists. unfold neq, SFeqb in Hy. by destruct (num y).
  - cbn [number_of]. rewrite number_round_trip by lia. rewrite (proj2 (existsb_exists _ _)); [done|].
    exists o. split; [by apply list_elem_of_In|]. rewrite neq_num by lia. apply Z.eqb_refl.
Qed.

(** Whatever the URL says, the choice is one of the options or the default. *)
Lemma choice_valid options d x : Forall (λ o, 0 ≤ o < 2 ^ 52)%Z options → d ∈ options →
  ∃ o, o ∈ options ∧ neq (num o) (option_or options x d) = true.
Proof.
  intros Hall Hd. unfold option_or. destruct (existsb _ options) eqn:E.
  - apply existsb_exists in E as (o & Ho & Eo). exists o. split; [by apply list_elem_of_In|done].
  - exists d. split; [done|]. rewrite Forall_forall in Hall. pose proof (Hall d Hd). rewrite neq_num by lia. apply Z.eqb_refl.
Qed.

Lemma text_round s : trim s = s → nullish (trim <$> or_undef (trim s)) [] = s.
Proof. intros Ht. rewrite Ht. unfold or_undef. destruct s; cbn [truthy fmap option_fmap option_map nullish]; [done|exact Ht]. Qed.

Lemma row_options_small : Forall (λ o, 0 ≤ o < 2 ^ 52)%Z row_options ∧ Forall (λ o, 0 ≤ o < 2 ^ 52)%Z IIS_SLOW_OPTIONS.
Proof. split; repeat constructor; lia. Qed.

(** The three views survive the URL: what was shown is what a shared link shows. *)
Lemma views_round_trip text rows slow : trim text = text → rows ∈ row_options → slow ∈ IIS_SLOW_OPTIONS →
  (let e := encodeDirectory (MkDirectoryQuery text (num rows)) in decodeDirectory e.1 e.2 = MkDirectoryQuery text (num rows))
  ∧ (let e := encodeMSSQL (MkMSSQLQuery text (num rows)) in decodeMSSQL e.1 e.2 = MkMSSQLQuery text (num rows))
  ∧ (let e := encodeIIS (MkIISQuery text (num rows) (num slow)) in
     decodeIIS e.1.1 e.1.2 e.2 = MkIISQuery text (num rows) (num slow)).
Proof.
  intros Ht Hr Hs. destruct row_options_small as [Hro Hso].
  split_and!; cbv zeta; unfold decodeDirectory, encodeDirectory, decodeMSSQL, encodeMSSQL, decodeIIS, encodeIIS;
    cbn [fst snd dq_account dq_rows mq_instance mq_rows iq_url iq_rows iq_slowMillis];
    rewrite text_round, choice_round by (done || (unfold default_rows, DEFAULT_DIRECTORY_ROWS; lia)); try done.
  by rewrite choice_round.
Qed.

(** The filter a view is narrowed by is the one its explorer link opens with. *)
Lemma narrowed_link field value r : quote field = field → truthy field = true → trim value = value → value ≠ [] →
  ∃ q, x_q (narrowed_search field value r) = Some q ∧ parseFilter q = Ok (narrowed_filter field value).
Proof.
  intros Hf Hf0 Ht Hne. eexists. split; [done|]. unfold narrowed_filter. rewrite Ht.
  destruct value as [|c v]; [done|]. cbn [truthy].
  replace (field ++ $"=" ++ quote (c :: v)) with (formatFilter (Some (FieldValueExpr op_eq field (c :: v)))).
  - rewrite parse_format; [done|]. by destruct field.
  - unfold formatFilter. cbn [fmt]. by rewrite Hf.
Qed.
Lemma view_fields_plain : Forall (λ f, quote f = f ∧ truthy f = true) [AD_USER_FIELD; MSSQL_INSTANCE_FIELD; IIS_URL_FIELD].
Proof. vm_decide. Qed.
