(* ===== verification/Assistant.v ===== *)
(** The log assistant (src/frontend/src/features/assistant/assistant.ts): what
    its status means, what running a proposal does to the explorer, and the
    sentences that say whose words are shown. *)
From Stdlib Require Import ZArith Lia SpecFloat.
From stdpp Require Import base list numbers strings.
From S2P Require Import Prelude Unicode FilterAst FilterLex FilterText FilterTextFacts FilterRoundTrip FilterSem JsNumber JsDate TimeRange UrlState Format Analytics ApiClient.
Open Scope nat_scope.

Record AssistantStatus := MkAssistantStatus { as_enabled : bool; as_ready : bool; as_model : option jsstr; as_problem : option jsstr;
  as_url : option jsstr; as_available : list jsstr }.

Definition assistantUsable (status : option AssistantStatus) : bool :=
  match status with Some s => as_enabled s && as_ready s | None => false end.
Definition assistantProblem (status : option AssistantStatus) : option jsstr :=
  match status with
  | Some s => if assistantUsable status then None else trim_undef (as_problem s)
  | None => None
  end.
Definition modelName (model : option jsstr) : jsstr := trim_or model $"the model".

Definition tookLabel (ms : Number) : jsstr :=
  if negb (isFinite ms) || nlt ms (num 0) then []
  else if nlt ms (num 1000) then num_to_string (nround ms) ++ $" ms" else to_fixed (ndiv ms (num 1000)) 1 ++ $" s".

Definition proposalTerms (filter : option FilterExpr) : list FilterExpr := andTerms filter.
Definition proposalFilterText (filter : option FilterExpr) : jsstr := formatFilter filter.

Record AssistantRange := MkAssistantRange { ar_from : jsstr; ar_to : jsstr }.
Record AssistantProposal := MkProposal {
  pr_filter : option FilterExpr; pr_time_range : option AssistantRange; pr_reasoning : jsstr; pr_fields : list jsstr; pr_model : jsstr; pr_took_ms : Number
}.
Inductive AssistantAnswer := Proposal (p : AssistantProposal) | Decline (reason : jsstr) (fields_seen : Number).

Definition proposalRangeLabel `{TimeZones} (range : option AssistantRange) (formatAbsolute : option Z → jsstr) : jsstr :=
  match range with
  | Some r =>
      if negb (truthy (ar_from r)) || negb (truthy (ar_to r)) then $"the time range on the page"
      else rangeLabel formatAbsolute (ar_from r) (ar_to r)
  | None => $"the time range on the page"
  end.

(** The patch of the explorer: the members it sets.  The mode is [visual] and
    the LogsQL query is removed. *)
Record ProposalPatch := MkProposalPatch { pp_q : option jsstr; pp_from : option jsstr; pp_to : option jsstr; pp_mode : QueryMode; pp_native : option jsstr }.
Definition proposalPatch (p : AssistantProposal) : ProposalPatch :=
  MkProposalPatch (or_undef (proposalFilterText (pr_filter p))) (ar_from <$> pr_time_range p) (ar_to <$> pr_time_range p) visual None.

(** [{ ...search, ...patch }]: a member the patch sets to nothing is left out of
    the URL, and a range read from there falls back to its default. *)
Definition apply_patch (s : ExplorerSearch) (d : ProposalPatch) : ExplorerSearch :=
  MkExplorerSearch (nullish (pp_from d) $"now-1h") (nullish (pp_to d) $"now") (x_tz s) (pp_q d) (pp_native d) (pp_mode d)
    (x_cols s) (x_split s) (x_saved s).

Definition proposalReplaces (current : option FilterExpr) (native : jsstr) : option jsstr :=
  let terms := length (andTerms current) in
  let parts :=
    (if 0 <? terms then [if terms =? 1 then $"the filter" else $"the " ++ decn terms ++ $" filters"] else [])
    ++ (if truthy (trim native) then [$"the LogsQL query"] else []) in
  match parts with
  | [] => None
  | _ => Some ($"Running this replaces " ++ join $" and " parts ++ $" in the query bar.")
  end.

(** [r.replace(/\.$/, '')] *)
Definition drop_final_dot (s : jsstr) : jsstr := match rev s with 46%N :: r => rev r | _ => s end.
Definition lower_first (s : jsstr) : jsstr := match s with c :: r => to_lower [c] ++ r | [] => to_lower [] end.

Definition declineSentence (reason : jsstr) : jsstr :=
  let r := drop_final_dot (trim reason) in
  if negb (truthy r) then $"These logs can’t answer that, and the model did not say why."
  else
    let lowered := match r with a :: b :: _ => if is_upper a && is_lower b then lower_first r else r | _ => r end in
    $"These logs can’t answer that, because " ++ lowered ++ $".".

Definition fieldsSeenNote (fieldsSeen : Number) : jsstr :=
  if negb (isFinite fieldsSeen) || nle fieldsSeen (num 0) then $"No fields were available to the model."
  else if neq fieldsSeen (num 1) then $"One field from these logs was offered to the model."
  else num_to_string fieldsSeen ++ $" fields from these logs were offered to the model.".

Definition isProposal (answer : option AssistantAnswer) : bool := match answer with Some (Proposal _) => true | _ => false end.

Definition explainSubject `{TimeZones} (analysis from to : jsstr) (formatAbsolute : option Z → jsstr) (narrowedTo : option jsstr) : jsstr :=
  let window := rangeLabel formatAbsolute from to in
  let scope := match trim_undef narrowedTo with Some n => $", narrowed to " ++ n | None => [] end in
  analysis ++ $", " ++ lower_first window ++ scope.

Definition explainCaveat (model : option jsstr) : jsstr :=
  modelName model ++ $" wrote this from the figures already on this page. It describes them — it did not measure "
  ++ $"anything and may describe them wrongly. The numbers beside it are what Syslogc computed.".
Definition reasoningCaveat (model : option jsstr) : jsstr :=
  modelName model ++ $"’s own words about the filter it proposed. Nothing has been run yet.".

Definition assistantErrorText (error : thrown) : jsstr :=
  match error with
  | ThrownApi e =>
      if decide (ae_code e = Some $"not_configured") then or_else (ae_message e) $"The assistant is not configured on this server."
      else if decide (ae_code e = Some $"assistant_failed")
           then or_else (ae_message e) $"The model did not answer. It may be loading or the host may be busy; try again."
      else ae_message e
  | ThrownError m => m
  | ThrownOther => $"The request did not complete."
  end.
Definition assistantRetryable (error : thrown) : bool :=
  match error with ThrownApi e => negb (bool_decide (ae_code e = Some $"not_configured")) | _ => true end.
Definition questionIsAskable (question : jsstr) : bool := 3 <=? length (trim question).

Example decline_ex : declineSentence $" No firewall fields exist. " = $"These logs can’t answer that, because no firewall fields exist."
  ∧ declineSentence $"DNS is absent" = $"These logs can’t answer that, because DNS is absent.".
Proof. split; vm_compute; reflexivity. Qed.

(** * Running a proposal *)

(** The explorer then holds the proposed filter and nothing else: its text reads
    back as the filter, the LogsQL query is gone, and so is whatever was there. *)
Lemma proposal_runs_as_shown s p e : pr_filter p = Some e → printable e = true →
  let s' := apply_patch s (proposalPatch p) in
  (∃ q, x_q s' = Some q ∧ parseFilter q = Ok (Some (canon e))) ∧ x_native s' = None ∧ x_mode s' = visual.
Proof.
  intros Hf Hp. cbn. split; [|done]. unfold proposalFilterText. rewrite Hf.
  pose proof (parse_format e Hp) as Hparse. unfold or_undef. destruct (formatFilter (Some e)) eqn:E; [by vm_compute in Hparse|].
  by eexists.
Qed.

(** Nothing is replaced silently: a bar that holds something is mentioned. *)
Lemma proposalReplaces_none current native : proposalReplaces current native = None ↔ andTerms current = [] ∧ trim native = [].
Proof.
  unfold proposalReplaces. destruct (andTerms current) as [|t l], (trim native) as [|c r]; cbn; (split; [try done|]); try done;
    by intros [? ?].
Qed.
