(* ===== verification/QueryCache.v ===== *)
(** The query cache the hooks of src/frontend/src/api/hooks/index.ts drive.

    TanStack Query is a library: what the sources rely on of it is the class
    [QueryClient] with its laws.  Keys are compared by their JSON text, so a key
    is a list of JSON values ([json]), in which an absent value is [null] and an
    absent member is left out. *)
From Stdlib Require Import ZArith SpecFloat.
From stdpp Require Import base list numbers strings.
From S2P Require Import Prelude JsNumber.

(** * JSON values *)

Inductive json :=
| JNull
| JBool (b : bool)
| JNum (x : Number)
| JStr (s : jsstr)
| JArr (l : list json)
| JObj (members : list (jsstr * json)).

#[export] Instance spec_float_eq_dec : EqDecision spec_float.
Proof. solve_decision. Defined.

#[export] Instance json_eq_dec : EqDecision json.
Proof.
  refine (fix go x y :=
    let _ : EqDecision json := go in
    match x, y with
    | JNull, JNull => left eq_refl
    | JBool a, JBool b => cast_if (decide (a = b))
    | JNum a, JNum b => cast_if (decide (a = b))
    | JStr a, JStr b => cast_if (decide (a = b))
    | JArr a, JArr b => cast_if (decide (a = b))
    | JObj a, JObj b => cast_if (decide (a = b))
    | _, _ => right _
    end); congruence.
Defined.

(** A number as JSON prints it: no sign on zero, [null] for what is not finite. *)
Definition json_num (x : Number) : json :=
  match x with
  | S754_zero _ => JNum (S754_zero false)
  | S754_finite _ _ _ => JNum x
  | _ => JNull
  end.
Definition json_opt {A} (f : A → json) (o : option A) : json := match o with Some a => f a | None => JNull end.
Definition json_strs (l : list jsstr) : json := JArr (map JStr l).

(** A member that is left out when its value is absent. *)
Definition member {A} (name : jsstr) (f : A → json) (o : option A) : list (jsstr * json) :=
  match o with Some a => [(name, f a)] | None => [] end.

(** [{ ...j }] and [{ ...j, name: v }] *)
Definition spread (j : json) : list (jsstr * json) := match j with JObj l => l | _ => [] end.
Definition json_get (j : json) (name : jsstr) : option json := assoc_get (spread j) name.
Definition json_with (j : json) (name : jsstr) (v : json) : json := JObj (assoc_set (spread j) name v).
(** [if (j)] *)
Definition json_truthy (j : json) : bool :=
  match j with
  | JNull => false
  | JBool b => b
  | JNum x => negb (neq x (num 0))
  | JStr s => truthy s
  | JArr _ | JObj _ => true
  end.

Abbreviation key := (list json).

(** * The client *)

(** A query is invalidated until its data is set again. *)
Class QueryClient (C : Type) := {
  getQueryData : C → key → option json;
  isInvalidated : C → key → bool;
  setQueryData : key → (option json → option json) → C → C;
  invalidateQueries : key → C → C;
  qc_clear : C → C
}.

(** What the documentation says of them: an updater that returns [undefined]
    changes nothing, data that was set is fresh, and invalidation marks every
    query whose key starts with the given one. *)
Class QueryClientLaws (C : Type) `{QueryClient C} := {
  set_get k f c v : f (getQueryData c k) = Some v →
    getQueryData (setQueryData k f c) k = Some v ∧ isInvalidated (setQueryData k f c) k = false;
  set_undefined k f c : f (getQueryData c k) = None → setQueryData k f c = c;
  set_other k k' f c : k ≠ k' →
    getQueryData (setQueryData k f c) k' = getQueryData c k' ∧ isInvalidated (setQueryData k f c) k' = isInvalidated c k';
  invalidate_data k k' c : getQueryData (invalidateQueries k c) k' = getQueryData c k';
  invalidate_prefix k k' c : k `prefix_of` k' → is_Some (getQueryData c k') → isInvalidated (invalidateQueries k c) k' = true;
  invalidate_other k k' c : ¬ k `prefix_of` k' → isInvalidated (invalidateQueries k c) k' = isInvalidated c k';
  clear_empty k c : getQueryData (qc_clear c) k = None
}.

(** * A cache that satisfies them *)

Abbreviation table := (list (key * (json * bool))).

Definition table_set (k : key) (f : option json → option json) (c : table) : table :=
  match f (fst <$> assoc_get c k) with
  | Some v => assoc_set c k (v, false)
  | None => c
  end.
Definition table_invalidate (k : key) (c : table) : table :=
  map (λ e, (e.1, (e.2.1, bool_decide (k `prefix_of` e.1) || e.2.2))) c.

#[export] Instance table_client : QueryClient table := {
  getQueryData c k := fst <$> assoc_get c k;
  isInvalidated c k := match assoc_get c k with Some e => e.2 | None => false end;
  setQueryData := table_set;
  invalidateQueries := table_invalidate;
  qc_clear _ := []
}.

Lemma table_invalidate_get k k' c :
  assoc_get (table_invalidate k c) k' = (λ e : json * bool, (e.1, bool_decide (k `prefix_of` k') || e.2)) <$> assoc_get c k'.
Proof.
  induction c as [|[k0 e] c IH]; [done|]. cbn [table_invalidate map assoc_get fst snd].
  destruct (decide (k0 = k')) as [->|Hne]; [done|exact IH].
Qed.

#[export] Instance table_laws : QueryClientLaws table.
Proof.
  split; cbn.
  - intros k f c v E. unfold table_set. rewrite E. by rewrite assoc_get_set_eq.
  - intros k f c E. unfold table_set. by rewrite E.
  - intros k k' f c Hne. unfold table_set. destruct (f _); [|done]. by rewrite assoc_get_set_ne.
  - intros k k' c. rewrite table_invalidate_get. by destruct (assoc_get c k').
  - intros k k' c Hp [v Hv]. rewrite table_invalidate_get. destruct (assoc_get c k') as [e|]; [|done]. cbn.
    by rewrite bool_decide_true.
  - intros k k' c Hp. rewrite table_invalidate_get. destruct (assoc_get c k') as [e|]; [|done]. cbn.
    by rewrite bool_decide_false.
  - done.
Qed.
