(* ===== verification/ApiHooks.v ===== *)
(** The API hooks (src/frontend/src/api/hooks/index.ts): every query with its
    key, its request and when it is asked, and every mutation with its request
    and what it does to the cache when it succeeds. *)
From Stdlib Require Import ZArith SpecFloat.
From stdpp Require Import base list numbers strings.
From S2P Require Import Prelude FilterAst JsNumber JsDate TimeRange UrlState Analytics ApiClient Session QueryCache.
Open Scope nat_scope.

(** * Values sent to the server *)

Definition bool_op_text (o : BoolOp) : jsstr := match o with op_and => $"and" | op_or => $"or" end.
Definition value_op_text (o : FieldValueOp) : jsstr :=
  match o with
  | op_eq => $"eq" | op_ne => $"ne" | op_contains => $"contains" | op_starts_with => $"starts_with" | op_regex => $"regex"
  | op_gt => $"gt" | op_gte => $"gte" | op_lt => $"lt" | op_lte => $"lte" | op_cidr => $"cidr"
  end.
Definition values_op_text (o : FieldValuesOp) : jsstr := match o with op_in => $"in" | op_not_in => $"not_in" end.
Definition exists_op_text (o : FieldExistsOp) : jsstr := match o with op_exists => $"exists" | op_not_exists => $"not_exists" end.

Fixpoint filter_json (e : FilterExpr) : json :=
  match e with
  | BoolExpr o args => JObj [($"op", JStr (bool_op_text o)); ($"args", JArr (map filter_json args))]
  | NotExpr a => JObj [($"op", JStr $"not"); ($"arg", filter_json a)]
  | TextExpr v => JObj [($"op", JStr $"text"); ($"value", JStr v)]
  | FieldValueExpr o f v => JObj [($"op", JStr (value_op_text o)); ($"field", JStr f); ($"value", JStr v)]
  | FieldValuesExpr o f vs => JObj [($"op", JStr (values_op_text o)); ($"field", JStr f); ($"values", json_strs vs)]
  | FieldExistsExpr o f => JObj [($"op", JStr (exists_op_text o)); ($"field", JStr f)]
  end.
Definition native_json (n : NativeQuery) : json := JObj [($"dialect", JStr $"logsql"); ($"text", JStr (n_text n))].

Record Range := MkRange { rg_from : jsstr; rg_to : jsstr; rg_tz : option jsstr }.
Definition range_json (r : Range) : json :=
  JObj ([($"from", JStr (rg_from r)); ($"to", JStr (rg_to r))] ++ member $"tz" JStr (rg_tz r)).
Definition selection_json (s : Selection) : json :=
  JObj ([($"time_range", range_json (MkRange (sel_from s) (sel_to s) (sel_tz s)))]
        ++ member $"filter" filter_json (sel_filter s) ++ member $"native" native_json (sel_native s)).
Definition metric_json (m : AnalyticsMetric) : json :=
  JObj ([($"type", JStr (match m_type m with mt_count => $"count" | mt_count_distinct => $"count_distinct" end))]
        ++ member $"field" JStr (m_field m)).
Definition outcome_text (o : AuditOutcome) : option jsstr :=
  match o with outcome_any => None | outcome_success => Some $"success" | outcome_failure => Some $"failure" end.
Definition audit_json (q : AuditQuery) : json :=
  JObj ([($"limit", json_num (aud_limit q))] ++ member $"action" JStr (aud_action q) ++ member $"actor" JStr (aud_actor q)
        ++ member $"outcome" JStr (outcome_text (aud_outcome q)) ++ member $"since" JStr (aud_since q)
        ++ member $"before" JStr (aud_before q)).

(** * Requests and hooks *)

Inductive Method := GET | POST | PUT | DELETE.
(** A path with the parameters of its template, the query string's members and the body. *)
Record Request := MkRequest {
  rq_method : Method; rq_path : jsstr; rq_params : list (jsstr * jsstr); rq_query : list (jsstr * json); rq_body : option json
}.
Definition get (path : jsstr) : Request := MkRequest GET path [] [] None.
Definition post (path : jsstr) (body : list (jsstr * json)) : Request := MkRequest POST path [] [] (Some (JObj body)).

(** Milliseconds; [None] is [Infinity]. *)
Abbreviation duration := (option Z).

(** Whether a request that failed [count] times is sent again. *)
Definition retry_policy := nat → thrown → bool.

(** Options left out of a hook: data is stale at once, nothing is polled, and
    the defaults of main.tsx say what is retried. *)
Definition default_retry : retry_policy :=
  λ count err, negb (match err with ThrownApi e => (ae_status e <? 500)%Z | _ => false end) && (count <? 2).
Definition no_retry : retry_policy := λ _ _, false.

Record UseQuery := MkUseQuery {
  uq_key : key; uq_enabled : bool; uq_request : option jsstr → Request;
  uq_staleTime : duration; uq_refetchInterval : option Z; uq_keepPrevious : bool; uq_retry : retry_policy
}.
Definition S_ (s : jsstr) : json := JStr s.
Definition seconds (n : Z) : duration := Some (n * 1000)%Z.

(** The members of a selection, none when there is no selection. *)
Definition sel_members (s : option Selection) : list (jsstr * json) := match s with Some s => spread (selection_json s) | None => [] end.
Definition sel_key (s : option Selection) : json := json_opt selection_json s.
Definition given {A} (o : option A) : bool := match o with Some _ => true | None => false end.
(** [l.length ? l : undefined] *)
Definition unless_empty (l : list jsstr) : option (list jsstr) := match l with [] => None | _ => Some l end.

(** ** The session *)

Definition sessionKey : key := [JStr $"session"].
Record SessionUser := MkSessionUser { su_username : jsstr; su_role : jsstr; su_must_change_password : bool }.
Record Session := MkSession { ses_user : SessionUser; ses_permissions : list jsstr; ses_csrf_token : jsstr }.
Definition session_json (s : Session) : json :=
  JObj [($"user", JObj [($"username", JStr (su_username (ses_user s))); ($"role", JStr (su_role (ses_user s)));
                        ($"must_change_password", JBool (su_must_change_password (ses_user s)))]);
        ($"permissions", json_strs (ses_permissions s)); ($"csrf_token", JStr (ses_csrf_token s))].

Definition useSession : UseQuery :=
  MkUseQuery sessionKey true (λ _, get $"/api/v1/auth/me") (seconds 60) None false no_retry.

(** [useCan()(p)] *)
Definition useCan (session : option Session) (p : jsstr) : bool :=
  bool_decide (p ∈ match session with Some s => ses_permissions s | None => [] end).

(** ** Logs *)

Definition SEARCH_PAGE_SIZE : Z := 200.
Definition MAX_LOADED_ROWS : Z := 10000.

Definition useLogSearch (selection : option Selection) (fields : option (list jsstr)) (runId : Number) : UseQuery :=
  MkUseQuery [S_ $"logs"; S_ $"search"; sel_key selection; json_opt json_strs fields; json_num runId] (given selection)
    (λ pageParam, post $"/api/v1/logs/search"
       (sel_members selection ++ member $"fields" json_strs fields
        ++ [($"limit", json_num (num SEARCH_PAGE_SIZE)); ($"cursor", json_opt JStr pageParam)]))
    None None false no_retry.

Definition useHistogram (selection : option Selection) (splitBy : option jsstr) (runId buckets : Number) : UseQuery :=
  MkUseQuery [S_ $"logs"; S_ $"histogram"; sel_key selection; json_opt JStr splitBy; json_num buckets; json_num runId] (given selection)
    (λ _, post $"/api/v1/logs/histogram"
       (sel_members selection ++ [($"split_by", json_opt JStr splitBy); ($"buckets", json_num buckets)]))
    None None true no_retry.

Definition useFacets (selection : option Selection) (fields : list jsstr) (runId : Number) : UseQuery :=
  MkUseQuery [S_ $"logs"; S_ $"facets"; sel_key selection; json_strs fields; json_num runId]
    (given selection && (0 <? length fields))
    (λ _, post $"/api/v1/logs/facets" (sel_members selection ++ [($"fields", json_strs fields); ($"limit_per_field", json_num (num 10))]))
    None None true no_retry.

Definition useFields (selection : option Selection) (runId : Number) : UseQuery :=
  MkUseQuery [S_ $"fields"; sel_key selection; json_num runId] (given selection)
    (λ _, post $"/api/v1/fields" (sel_members selection)) None None true no_retry.

Definition fetchFieldValues (selection : option Selection) (field search : jsstr) (limit : Number) : Request :=
  MkRequest POST $"/api/v1/fields/{field}/values" [($"field", field)] []
    (Some (JObj (sel_members selection ++ member $"search" JStr (or_undef search) ++ [($"limit", json_num limit)]))).
Definition useFieldValues (selection : option Selection) (field : option jsstr) (search : jsstr) (enabled : bool) : UseQuery :=
  MkUseQuery [S_ $"fields"; S_ $"values"; sel_key selection; json_opt JStr field; S_ search]
    (enabled && given selection && truthy (nullish field []))
    (λ _, fetchFieldValues selection (nullish field []) search (num 20)) (seconds 30) None true no_retry.

Definition useValidateQuery (filter : option FilterExpr) (native : option NativeQuery) (enabled : bool) : UseQuery :=
  MkUseQuery [S_ $"query"; S_ $"validate"; json_opt filter_json filter; json_opt native_json native]
    (enabled && (given filter || given native))
    (λ _, post $"/api/v1/query/validate" (member $"filter" filter_json filter ++ member $"native" native_json native))
    (seconds 60) None false no_retry.

Definition useStats (selection : option Selection) (field : jsstr) (enabled : bool) : UseQuery :=
  MkUseQuery [S_ $"logs"; S_ $"stats"; sel_key selection; S_ field] (enabled && given selection)
    (λ _, post $"/api/v1/logs/stats"
       (sel_members selection
        ++ [($"aggregations", JArr [JObj [($"type", JStr $"top"); ($"field", JStr field); ($"limit", json_num (num 10))]])]))
    (seconds 30) None false default_retry.

(** ** Dashboard *)

(** [refreshMs] is [false] or a number. *)
Definition dashboard_body (r : Range) : list (jsstr * json) := [($"time_range", range_json r)].
Definition useDashboardOverview (r : Range) (refreshMs : option Z) : UseQuery :=
  MkUseQuery [S_ $"dashboard"; S_ $"overview"; range_json r] true
    (λ _, post $"/api/v1/dashboard/overview" (dashboard_body r)) (Some 0%Z) refreshMs true default_retry.
Definition useDashboardVolume (r : Range) (refreshMs : option Z) : UseQuery :=
  MkUseQuery [S_ $"dashboard"; S_ $"volume"; range_json r] true
    (λ _, post $"/api/v1/dashboard/volume" (dashboard_body r)) (Some 0%Z) refreshMs true default_retry.
Definition useDashboardTop (r : Range) (field : jsstr) (refreshMs : option Z) (limit : Number) : UseQuery :=
  MkUseQuery [S_ $"dashboard"; S_ $"top"; range_json r; S_ field; json_num limit] true
    (λ _, post $"/api/v1/dashboard/top" (dashboard_body r ++ [($"field", S_ field); ($"limit", json_num limit)]))
    (Some 0%Z) refreshMs true default_retry.
Definition useIngestionRate (r : Range) (refreshMs : option Z) : UseQuery :=
  MkUseQuery [S_ $"dashboard"; S_ $"ingestion-rate"; range_json r] true
    (λ _, post $"/api/v1/dashboard/ingestion-rate" (dashboard_body r)) (Some 0%Z) refreshMs true default_retry.

(** ** Analytics *)

Definition metricReady (m : AnalyticsMetric) : bool :=
  match m_type m with mt_count_distinct => truthy (nullish (m_field m) []) | mt_count => true end.
Definition grouped (selection : option Selection) (groupBy : jsstr) (m : AnalyticsMetric) (limit : Number) : list (jsstr * json) :=
  sel_members selection ++ [($"group_by", S_ groupBy); ($"metric", metric_json m); ($"limit", json_num limit)].

Definition useBreakdown (selection : option Selection) (groupBy : jsstr) (m : AnalyticsMetric) (limit runId : Number) : UseQuery :=
  MkUseQuery [S_ $"analytics"; S_ $"breakdown"; sel_key selection; S_ groupBy; metric_json m; json_num limit; json_num runId]
    (given selection && truthy groupBy && metricReady m)
    (λ _, post $"/api/v1/analytics/breakdown" (grouped selection groupBy m limit)) None None true no_retry.
Definition useSeries (selection : option Selection) (groupBy : jsstr) (m : AnalyticsMetric) (limit runId buckets : Number) : UseQuery :=
  MkUseQuery
    [S_ $"analytics"; S_ $"series"; sel_key selection; S_ groupBy; metric_json m; json_num limit; json_num buckets; json_num runId]
    (given selection && truthy groupBy && metricReady m)
    (λ _, post $"/api/v1/analytics/series" (grouped selection groupBy m limit ++ [($"buckets", json_num buckets)]))
    None None true no_retry.

Definition serviceCatalogKey : key := [S_ $"analytics"; S_ $"services"].
Definition serviceTrendsKey : key := [S_ $"analytics"; S_ $"service-trends"].
Definition useServiceCatalog : UseQuery :=
  MkUseQuery serviceCatalogKey true (λ _, get $"/api/v1/analytics/services") (seconds 60) None false no_retry.
Definition useDefaultServiceCatalog : UseQuery :=
  MkUseQuery [S_ $"analytics"; S_ $"services"; S_ $"defaults"] false (λ _, get $"/api/v1/analytics/services/defaults")
    None None false no_retry.
Definition useServiceTrends (r : option Range) (window metric scope : jsstr) (services : list jsstr) (enabled : bool) : UseQuery :=
  MkUseQuery (serviceTrendsKey ++ [json_opt range_json r; S_ window; S_ metric; S_ scope; json_strs services])
    (enabled && given r)
    (λ _, post $"/api/v1/analytics/service-trends"
       ([($"time_range", json_opt range_json r); ($"window", S_ window); ($"metric", S_ metric); ($"scope", S_ scope)]
        ++ member $"services" json_strs (unless_empty services)))
    None None true no_retry.

Definition ANALYSIS_BUCKETS : Z := 120.
Definition analysis_body (r : option Range) (filter : option FilterExpr) (limit : Number) : list (jsstr * json) :=
  [($"time_range", json_opt range_json r)] ++ member $"filter" filter_json filter
  ++ [($"buckets", json_num (num ANALYSIS_BUCKETS)); ($"limit", json_num limit)].
Definition useDirectory (r : option Range) (filter : option FilterExpr) (limit : Number) (enabled : bool) : UseQuery :=
  MkUseQuery [S_ $"analytics"; S_ $"directory"; json_opt range_json r; json_opt filter_json filter; json_num limit]
    (enabled && given r) (λ _, post $"/api/v1/analytics/directory" (analysis_body r filter limit)) None None true no_retry.
Definition useMSSQL (r : option Range) (filter : option FilterExpr) (limit : Number) (enabled : bool) : UseQuery :=
  MkUseQuery [S_ $"analytics"; S_ $"mssql"; json_opt range_json r; json_opt filter_json filter; json_num limit]
    (enabled && given r) (λ _, post $"/api/v1/analytics/mssql" (analysis_body r filter limit)) None None true no_retry.
Definition useIIS (r : option Range) (filter : option FilterExpr) (limit slowMillis : Number) (enabled : bool) : UseQuery :=
  MkUseQuery
    [S_ $"analytics"; S_ $"iis"; json_opt range_json r; json_opt filter_json filter; json_num limit; json_num slowMillis]
    (enabled && given r)
    (λ _, post $"/api/v1/analytics/iis" (analysis_body r filter limit ++ [($"slow_millis", json_num slowMillis)]))
    None None true no_retry.

(** ** The assistant and the templates *)

Definition assistantStatusKey : key := [S_ $"assistant"; S_ $"status"].
Definition useAssistantStatus (session : option Session) : UseQuery :=
  MkUseQuery assistantStatusKey (useCan session $"system:view" && useCan session $"logs:search")
    (λ _, get $"/api/v1/assistant/status") (seconds 60) None false no_retry.

Definition templatesKey : key := [S_ $"templates"].
Definition useTemplates (session : option Session) : UseQuery :=
  MkUseQuery templatesKey (useCan session $"sources:read") (λ _, get $"/api/v1/templates") (seconds 60) None false no_retry.
Definition useTemplateConfig (templateId : option jsstr) (parts : list jsstr) (enabled : bool) : UseQuery :=
  MkUseQuery [S_ $"templates"; S_ $"config"; json_opt JStr templateId; json_strs parts]
    (enabled && truthy (nullish templateId []))
    (λ _, MkRequest GET $"/api/v1/templates/{id}/config" [($"id", nullish templateId [])]
       (member $"part" json_strs (unless_empty parts)) None)
    (seconds 3600) None false no_retry.

(** ** Saved searches and API keys *)

Definition savedSearchesKey : key := [S_ $"saved-searches"].
Definition savedSearchKey (id : option jsstr) : key := [S_ $"saved-searches"; S_ $"item"; json_opt JStr id].
Definition useSavedSearches (q : jsstr) : UseQuery :=
  MkUseQuery [S_ $"saved-searches"; S_ q] true
    (λ _, MkRequest GET $"/api/v1/saved-searches" [] (member $"q" JStr (or_undef q) ++ [($"limit", json_num (num 200))]) None)
    (Some 0%Z) None false default_retry.
Definition fetchSavedSearch (id : jsstr) : Request := MkRequest GET $"/api/v1/saved-searches/{id}" [($"id", id)] [] None.
Definition useSavedSearch (id : option jsstr) : UseQuery :=
  MkUseQuery (savedSearchKey id) (truthy (nullish id [])) (λ _, fetchSavedSearch (nullish id [])) (Some 0%Z) None false default_retry.
Definition apiKeysKey : key := [S_ $"api-keys"].
Definition useApiKeys : UseQuery := MkUseQuery apiKeysKey true (λ _, get $"/api/v1/api-keys") (Some 0%Z) None false default_retry.

(** ** System *)

Definition polled (k : key) (path : jsstr) (ms : Z) : UseQuery := MkUseQuery k true (λ _, get path) (Some 0%Z) (Some ms) false default_retry.
Definition useSystemHealth : UseQuery := polled [S_ $"system"; S_ $"health"] $"/api/v1/system/health" 10000.
Definition useSystemIngestion : UseQuery := polled [S_ $"system"; S_ $"ingestion"] $"/api/v1/system/ingestion" 10000.
Definition useSystemStorage : UseQuery := polled [S_ $"system"; S_ $"storage"] $"/api/v1/system/storage" 10000.
Definition retentionKey : key := [S_ $"system"; S_ $"retention"].
Definition useSystemRetention : UseQuery := polled retentionKey $"/api/v1/system/retention" 30000.
Definition history_retry : retry_policy :=
  λ count err,
    negb (match err with ThrownApi e => (ae_status e =? 404)%Z || (ae_status e =? 409)%Z | _ => false end) && (count <? 2).
Definition useHostHistory (range : jsstr) : UseQuery :=
  MkUseQuery [S_ $"system"; S_ $"host-history"; S_ range] true
    (λ _, MkRequest GET $"/api/v1/system/host/history" [] [($"range", S_ range)] None) (Some 0%Z) (Some 60000%Z) true history_retry.
Definition useSystemConfig (enabled : bool) : UseQuery :=
  MkUseQuery [S_ $"system"; S_ $"config"] enabled (λ _, get $"/api/v1/system/config") (seconds 60) None false default_retry.

(** ** Sources, forwarding, users, audit *)

Definition sourcesKey : key := [S_ $"sources"].
Definition sourceKey (id : option jsstr) : key := sourcesKey ++ [S_ $"item"; json_opt JStr id].
Definition useSources : UseQuery :=
  MkUseQuery sourcesKey true (λ _, get $"/api/v1/sources") (Some 0%Z) (Some 15000%Z) true default_retry.
Definition useSource (id : option jsstr) : UseQuery :=
  MkUseQuery (sourceKey id) (truthy (nullish id []))
    (λ _, MkRequest GET $"/api/v1/sources/{id}" [($"id", nullish id [])] [] None) (Some 0%Z) None false default_retry.
Definition useExtractPresets : UseQuery :=
  MkUseQuery [S_ $"extract-presets"] true (λ _, get $"/api/v1/sources/extract-presets") (seconds 3600) None false default_retry.
Definition forwardTargetsKey : key := [S_ $"forward-targets"].
Definition useForwardTargets : UseQuery :=
  MkUseQuery forwardTargetsKey true (λ _, get $"/api/v1/forward-targets") (Some 0%Z) (Some 10000%Z) true default_retry.
Definition usersKey : key := [S_ $"users"].
Definition useUsers : UseQuery := MkUseQuery usersKey true (λ _, get $"/api/v1/users") (Some 0%Z) None false default_retry.
Definition useAuditEvents (q : AuditQuery) : UseQuery :=
  MkUseQuery [S_ $"audit"; audit_json q] true (λ _, MkRequest GET $"/api/v1/audit" [] (spread (audit_json q)) None)
    (Some 0%Z) None true default_retry.

(** * Pages of a search *)

(** What a page says: its mode, the rows it has, the cursor of the next. *)
Record SearchPage := MkSearchPage { sp_logs : bool; sp_rows : option (list json); sp_next_cursor : option jsstr }.
Definition page_rows (p : SearchPage) : Z := Z.of_nat (length (nullish (sp_rows p) [])).
Definition loaded_rows (pages : list SearchPage) : Z := fold_left (λ n p, n + page_rows p)%Z pages 0%Z.

Definition getNextPageParam (last_ : SearchPage) (pages : list SearchPage) : option jsstr :=
  if negb (sp_logs last_) || (MAX_LOADED_ROWS <=? loaded_rows pages)%Z then None else sp_next_cursor last_.

(** * Mutations *)

(** What a mutation does once the server has answered: to the cache, to the
    client, now or after a delay. *)
Inductive cache_effect :=
| e_set (k : key) (f : option json → option json)
| e_invalidate (k : key)
| e_later (ms : Z) (k : key)
| e_csrf (token : option jsstr)
| e_clear.

Record UseMutation := MkUseMutation { um_request : Request; um_settled : list cache_effect }.

Definition set_to (k : key) (v : json) : cache_effect := e_set k (λ _, Some v).

(** The request [PUT] or [DELETE] of one item. *)
Definition item (m : Method) (path id : jsstr) (body : option json) : Request := MkRequest m path [($"id", id)] [] body.

(** ** The session *)

Definition useLogin (username password : jsstr) (session : Session) : UseMutation :=
  MkUseMutation (post $"/api/v1/auth/login" [($"username", S_ username); ($"password", S_ password)])
    [e_csrf (Some (ses_csrf_token session)); set_to sessionKey (session_json session)].
(** [onSettled]: also when the request fails. *)
Definition useLogout : UseMutation :=
  MkUseMutation (MkRequest POST $"/api/v1/auth/logout" [] [] None) [e_csrf None; e_clear].
Definition useChangePassword (current next : jsstr) : UseMutation :=
  MkUseMutation (MkRequest PUT $"/api/v1/auth/me/password" [] [] (Some (JObj [($"current_password", S_ current); ($"new_password", S_ next)])))
    [e_invalidate sessionKey].
Definition resetOnLogout : list cache_effect := [e_csrf None; e_clear].

(** ** The catalog and retention: the reply is merged into what is cached *)

Definition useUpdateServiceCatalog (body res : json) : UseMutation :=
  MkUseMutation (MkRequest PUT $"/api/v1/analytics/services" [] [] (Some body))
    [e_set serviceCatalogKey
       (λ prev, Some (match prev with
                      | Some p =>
                          if json_truthy p
                          then json_with (json_with p $"services" (nullish (json_get res $"services") JNull)) $"problem" (S_ [])
                          else res
                      | None => res
                      end));
     e_invalidate serviceTrendsKey].

Definition useUpdateRetention (body : json) (desired : jsstr) (restart_required : bool) : UseMutation :=
  MkUseMutation (MkRequest PUT $"/api/v1/system/retention" [] [] (Some body))
    [e_set retentionKey
       (λ prev, match prev with
                | Some p => if json_truthy p
                            then Some (json_with (json_with p $"desired" (S_ desired)) $"restart_required" (JBool restart_required))
                            else prev
                | None => None
                end);
     e_invalidate retentionKey].

(** ** The assistant *)

Definition useAssistantQuery (body : json) : UseMutation :=
  MkUseMutation (MkRequest POST $"/api/v1/assistant/query" [] [] (Some body)) [].
Definition useAssistantExplain (body : json) : UseMutation :=
  MkUseMutation (MkRequest POST $"/api/v1/assistant/explain" [] [] (Some body)) [].

(** ** Saved searches and API keys *)

Definition saved_search_settled (id : jsstr) (s : json) : list cache_effect :=
  [e_invalidate savedSearchesKey; set_to (savedSearchKey (Some id)) s].
(** [id] is that of the reply [s]. *)
Definition useCreateSavedSearch (body : json) (id : jsstr) (s : json) : UseMutation :=
  MkUseMutation (MkRequest POST $"/api/v1/saved-searches" [] [] (Some body)) (saved_search_settled id s).
Definition useUpdateSavedSearch (body : json) (id : jsstr) (s : json) : UseMutation :=
  MkUseMutation (item PUT $"/api/v1/saved-searches/{id}" id (Some body)) (saved_search_settled id s).
Definition useDeleteSavedSearch (id : jsstr) : UseMutation :=
  MkUseMutation (item DELETE $"/api/v1/saved-searches/{id}" id None) [e_invalidate savedSearchesKey].

Definition useCreateApiKey (body : json) : UseMutation :=
  MkUseMutation (MkRequest POST $"/api/v1/api-keys" [] [] (Some body)) [e_invalidate apiKeysKey].
Definition useRevokeApiKey (id : jsstr) : UseMutation :=
  MkUseMutation (item DELETE $"/api/v1/api-keys/{id}" id None) [e_invalidate apiKeysKey].

(** ** Sources and forward targets, which settle over a few seconds *)

Definition SETTLE_DELAYS_MS : list Z := [500; 1500; 3000; 5500]%Z.
Definition settle (k : key) : list cache_effect := e_invalidate k :: map (λ ms, e_later ms k) SETTLE_DELAYS_MS.
Definition settleSources : list cache_effect := settle sourcesKey ++ [e_invalidate templatesKey].

Definition useCreateSource (body : json) : UseMutation :=
  MkUseMutation (MkRequest POST $"/api/v1/sources" [] [] (Some body)) settleSources.
Definition useAdoptSource (name id : jsstr) (s : json) : UseMutation :=
  MkUseMutation (post $"/api/v1/sources/adopt" [($"name", S_ name)]) (set_to (sourceKey (Some id)) s :: settleSources).
Definition useUpdateSource (body : json) (id : jsstr) (s : json) : UseMutation :=
  MkUseMutation (item PUT $"/api/v1/sources/{id}" id (Some body)) (set_to (sourceKey (Some id)) s :: settleSources).
Definition useDeleteSource (id : jsstr) : UseMutation :=
  MkUseMutation (item DELETE $"/api/v1/sources/{id}" id None) settleSources.
Definition useTestExtract (body : json) : UseMutation :=
  MkUseMutation (MkRequest POST $"/api/v1/sources/test-extract" [] [] (Some body)) [].

Definition useCreateForwardTarget (body : json) : UseMutation :=
  MkUseMutation (MkRequest POST $"/api/v1/forward-targets" [] [] (Some body)) (settle forwardTargetsKey).
Definition useUpdateForwardTarget (body : json) (id : jsstr) : UseMutation :=
  MkUseMutation (item PUT $"/api/v1/forward-targets/{id}" id (Some body)) (settle forwardTargetsKey).
Definition useDeleteForwardTarget (id : jsstr) : UseMutation :=
  MkUseMutation (item DELETE $"/api/v1/forward-targets/{id}" id None) (settle forwardTargetsKey).

(** ** Users *)

Definition useCreateUser (body : json) : UseMutation :=
  MkUseMutation (MkRequest POST $"/api/v1/users" [] [] (Some body)) [e_invalidate usersKey].
Definition useUpdateUser (body : json) (id : jsstr) : UseMutation :=
  MkUseMutation (item PUT $"/api/v1/users/{id}" id (Some body)) [e_invalidate usersKey].
Definition useDeleteUser (id : jsstr) : UseMutation :=
  MkUseMutation (item DELETE $"/api/v1/users/{id}" id None) [e_invalidate usersKey].
Definition useRevokeUserSessions (id : jsstr) : UseMutation :=
  MkUseMutation (item POST $"/api/v1/users/{id}/revoke-sessions" id None) [].

(** * Running the effects *)

Section effects.
Context {C : Type} `{QueryClient C}.

(** The cache, the client, and the timers set, with their delays. *)
Definition run_effect (e : cache_effect) (st : C * Client * list (Z * key)) : C * Client * list (Z * key) :=
  let '(c, cl, timers) := st in
  match e with
  | e_set k f => (setQueryData k f c, cl, timers)
  | e_invalidate k => (invalidateQueries k c, cl, timers)
  | e_later ms k => (c, cl, timers ++ [(ms, k)])
  | e_csrf t => (c, setCsrfToken t cl, timers)
  | e_clear => (qc_clear c, cl, timers)
  end.
Definition run_effects (es : list cache_effect) (st : C * Client * list (Z * key)) : C * Client * list (Z * key) :=
  fold_left (λ st e, run_effect e st) es st.

(** A mutation that has settled, as far as the cache is concerned. *)
Definition settled_cache (m : UseMutation) (c : C) : C := (run_effects (um_settled m) (c, initClient, [])).1.1.
End effects.
