(* ===== verification/HooksProps.v ===== *)
(** What the hooks of the API promise the pages: a key determines the request it
    caches, a change makes every answer it touches stale, and searches load a
    bounded number of rows. *)
From Stdlib Require Import ZArith Lia SpecFloat.
From stdpp Require Import base list numbers strings.
From S2P Require Import Prelude FilterAst JsNumber JsNumberFacts JsDate TimeRange UrlState Analytics ApiClient Session QueryCache ApiHooks.
Open Scope nat_scope.

(** * The queries of the application *)

(** Every query hook, numbered. *)
Inductive query_hook : nat → UseQuery → Prop :=
| h_session : query_hook 0 useSession
| h_search s f r : query_hook 1 (useLogSearch s f r)
| h_histogram s b r n : query_hook 2 (useHistogram s b r n)
| h_facets s f r : query_hook 3 (useFacets s f r)
| h_fields s r : query_hook 4 (useFields s r)
| h_values s f q b : query_hook 5 (useFieldValues s f q b)
| h_validate f n b : query_hook 6 (useValidateQuery f n b)
| h_stats s f b : query_hook 7 (useStats s f b)
| h_overview r ms : query_hook 8 (useDashboardOverview r ms)
| h_volume r ms : query_hook 9 (useDashboardVolume r ms)
| h_top r f ms n : query_hook 10 (useDashboardTop r f ms n)
| h_rate r ms : query_hook 11 (useIngestionRate r ms)
| h_breakdown s g m l r : query_hook 12 (useBreakdown s g m l r)
| h_series s g m l r n : query_hook 13 (useSeries s g m l r n)
| h_catalog : query_hook 14 useServiceCatalog
| h_defaults : query_hook 15 useDefaultServiceCatalog
| h_trends r w m sc sv b : query_hook 16 (useServiceTrends r w m sc sv b)
| h_assistant ses : query_hook 17 (useAssistantStatus ses)
| h_directory r f l b : query_hook 18 (useDirectory r f l b)
| h_mssql r f l b : query_hook 19 (useMSSQL r f l b)
| h_iis r f l ms b : query_hook 20 (useIIS r f l ms b)
| h_templates ses : query_hook 21 (useTemplates ses)
| h_config id ps b : query_hook 22 (useTemplateConfig id ps b)
| h_searches q : query_hook 23 (useSavedSearches q)
| h_saved id : query_hook 24 (useSavedSearch id)
| h_keys : query_hook 25 useApiKeys
| h_health : query_hook 26 useSystemHealth
| h_ingestion : query_hook 27 useSystemIngestion
| h_storage : query_hook 28 useSystemStorage
| h_retention : query_hook 29 useSystemRetention
| h_history r : query_hook 30 (useHostHistory r)
| h_sysconfig b : query_hook 31 (useSystemConfig b)
| h_sources : query_hook 32 useSources
| h_source id : query_hook 33 (useSource id)
| h_presets : query_hook 34 useExtractPresets
| h_forward : query_hook 35 useForwardTargets
| h_users : query_hook 36 useUsers
| h_audit q : query_hook 37 (useAuditEvents q).

(** The hook a key belongs to, by its length and its leading words. *)
Definition key_table : list (list jsstr * nat * nat) :=
  [([$"session"], 1, 0); ([$"logs"; $"search"], 5, 1); ([$"logs"; $"histogram"], 6, 2); ([$"logs"; $"facets"], 5, 3);
   ([$"fields"], 3, 4); ([$"fields"; $"values"], 5, 5); ([$"query"; $"validate"], 4, 6); ([$"logs"; $"stats"], 4, 7);
   ([$"dashboard"; $"overview"], 3, 8); ([$"dashboard"; $"volume"], 3, 9); ([$"dashboard"; $"top"], 5, 10);
   ([$"dashboard"; $"ingestion-rate"], 3, 11); ([$"analytics"; $"breakdown"], 7, 12); ([$"analytics"; $"series"], 8, 13);
   ([$"analytics"; $"services"], 2, 14); ([$"analytics"; $"services"], 3, 15); ([$"analytics"; $"service-trends"], 7, 16);
   ([$"assistant"; $"status"], 2, 17); ([$"analytics"; $"directory"], 5, 18); ([$"analytics"; $"mssql"], 5, 19);
   ([$"analytics"; $"iis"], 6, 20); ([$"templates"], 1, 21); ([$"templates"; $"config"], 4, 22);
   ([$"saved-searches"], 2, 23); ([$"saved-searches"], 3, 24); ([$"api-keys"], 1, 25); ([$"system"; $"health"], 2, 26);
   ([$"system"; $"ingestion"], 2, 27); ([$"system"; $"storage"], 2, 28); ([$"system"; $"retention"], 2, 29);
   ([$"system"; $"host-history"], 3, 30); ([$"system"; $"config"], 2, 31); ([$"sources"], 1, 32); ([$"sources"], 3, 33);
   ([$"extract-presets"], 1, 34); ([$"forward-targets"], 1, 35); ([$"users"], 1, 36); ([$"audit"], 2, 37)].

Fixpoint leads (ws : list jsstr) (k : key) : bool :=
  match ws, k with
  | [], _ => true
  | w :: ws, JStr s :: k => bool_decide (w = s) && leads ws k
  | _, _ => false
  end.
Definition classify (k : key) : option nat :=
  snd <$> List.find (λ e : list jsstr * nat * nat, (length k =? e.1.2) && leads e.1.1 k) key_table.

Lemma classify_hook n u : query_hook n u → classify (uq_key u) = Some n.
Proof. intros []; vm_compute; reflexivity. Qed.

(** * Keys determine requests *)

Lemma json_opt_member {A} (f : A → json) name a b : (∀ x, f x ≠ JNull) → json_opt f a = json_opt f b → member name f a = member name f b.
Proof. intros Hf. destruct a, b; cbn; try congruence; intros E; exfalso; by eapply Hf. Qed.
Lemma json_opt_str a b : json_opt JStr a = json_opt JStr b → a = b.
Proof. destruct a, b; cbn; congruence. Qed.
Lemma map_str_inj a b : map JStr a = map JStr b → a = b.
Proof. revert b. induction a as [|x a IH]; intros [|y b]; cbn; try done. intros [= -> E]. f_equal. by apply IH. Qed.
Lemma filter_not_null e : filter_json e ≠ JNull.
Proof. by destruct e. Qed.
Lemma sel_key_members a b : sel_key a = sel_key b → sel_members a = sel_members b.
Proof. unfold sel_key, json_opt, sel_members. destruct a, b; try done. by intros ->. Qed.

(** Rewrites the request of one hook into that of another with the same key. *)
Ltac same_parts :=
  repeat match goal with
  | H : sel_key _ = sel_key _ |- _ => apply sel_key_members in H
  | H : json_opt json_strs _ = json_opt json_strs _ |- _ => apply (json_opt_member _ $"fields") in H; [|done]
  | H : json_opt JStr _ = json_opt JStr _ |- _ => apply json_opt_str in H; subst
  | H : json_opt native_json _ = _ |- _ => apply (json_opt_member _ $"native") in H; [|done]
  | H : json_opt filter_json _ = _ |- _ => apply (json_opt_member _ $"filter") in H; [|apply filter_not_null]
  | H : map JStr _ = map JStr _ |- _ => apply map_str_inj in H; subst
  end.

Lemma same_hook n u1 u2 : query_hook n u1 → query_hook n u2 → uq_key u1 = uq_key u2 → ∀ p, uq_request u1 p = uq_request u2 p.
Proof.
  intros H1 H2. destruct H1; inversion H2; subst; cbn [uq_key uq_request useSession useLogSearch useHistogram useFacets useFields
    useFieldValues useValidateQuery useStats useDashboardOverview useDashboardVolume useDashboardTop useIngestionRate useBreakdown
    useSeries useServiceCatalog useDefaultServiceCatalog useServiceTrends useAssistantStatus useDirectory useMSSQL useIIS
    useTemplates useTemplateConfig useSavedSearches useSavedSearch useApiKeys useHostHistory useSystemConfig useSources useSource
    useExtractPresets useForwardTargets useUsers useAuditEvents serviceTrendsKey savedSearchKey sourceKey sourcesKey app S_];
    intros E p; try reflexivity; injection E; intros; subst; same_parts;
    unfold fetchFieldValues, grouped, analysis_body, dashboard_body, S_; congruence.
Qed.

(** C21: a key determines the request it stands for.  Two hooks of the
    application whose keys are the same, as the cache compares them, are the same hook
    and send the same request for the same page, whatever they were called with: an
    answer that is stored under a key is an answer to the question of every hook that
    finds it there.  (What a hook shows as a placeholder, while the answer for a new key
    is awaited, is not stored under that key.) *)
Theorem query_key_sound n1 u1 n2 u2 :
  query_hook n1 u1 → query_hook n2 u2 → uq_key u1 = uq_key u2 → n1 = n2 ∧ ∀ p, uq_request u1 p = uq_request u2 p.
Proof.
  intros H1 H2 E. assert (n1 = n2) as ->.
  { apply classify_hook in H1, H2. rewrite E in H1. congruence. }
  split; [done|]. by apply (same_hook n2).
Qed.

(** Two users of the values of a field, one of them not yet asking: one key, one request. *)
Definition demo_sel : Selection := MkSelection $"2026-09-14T10:00:00.000Z" $"2026-09-14T11:00:00.000Z" None (Some (TextExpr $"fail")) None.
Lemma query_key_sound_witness :
  useFieldValues (Some demo_sel) (Some $"host") $"fw" true ≠ useFieldValues (Some demo_sel) (Some $"host") $"fw" false
  ∧ uq_request (useFieldValues (Some demo_sel) (Some $"host") $"fw" true) None
    = uq_request (useFieldValues (Some demo_sel) (Some $"host") $"fw" false) None.
Proof.
  split; [intros E; by apply (f_equal uq_enabled) in E|].
  apply (query_key_sound 5 _ 5 _); [constructor|constructor|reflexivity].
Defined.

(** * Changes make answers stale *)

(** What the reply to a change says of a cached answer: of the one under a key, in full. *)
Definition says_all (k : key) (v : json) : key → json → json → Prop := λ k' _ new, k' = k ∧ new = v.
Definition says_nothing : key → json → json → Prop := λ _ _ _, False.
(** The reply to a new catalog has its services; a catalog that was stored has no problem;
    the rest of the cached answer stands.  A cached [null] gives way to the reply. *)
Definition says_catalog (res : json) : key → json → json → Prop := λ k old new,
  k = serviceCatalogKey
  ∧ if json_truthy old
    then (∀ l, json_get res $"services" = Some l → json_get new $"services" = Some l) ∧ json_get new $"problem" = Some (JStr [])
         ∧ ∀ name, name ≠ $"services" → name ≠ $"problem" → json_get new name = json_get old name
    else new = res.

(** Every mutation that changes something, the paths whose answers change (those of what
    its request changes; with the catalog also the trends of its services, with the
    sources also the templates, which tell who uses them), and what its reply
    says of them. *)
Inductive mutation_hook : UseMutation → list jsstr → (key → json → json → Prop) → Prop :=
| mu_login u p s : mutation_hook (useLogin u p s) [$"/api/v1/auth/me"] (says_all sessionKey (session_json s))
| mu_password a b : mutation_hook (useChangePassword a b) [$"/api/v1/auth/me"] says_nothing
| mu_catalog b r : mutation_hook (useUpdateServiceCatalog b r) [$"/api/v1/analytics/services"; $"/api/v1/analytics/service-trends"] (says_catalog r)
| mu_retention b d r : mutation_hook (useUpdateRetention b d r) [$"/api/v1/system/retention"] says_nothing
| mu_create_search b id s : mutation_hook (useCreateSavedSearch b id s) [$"/api/v1/saved-searches"] (says_all (savedSearchKey (Some id)) s)
| mu_update_search b id s : mutation_hook (useUpdateSavedSearch b id s) [$"/api/v1/saved-searches"] (says_all (savedSearchKey (Some id)) s)
| mu_delete_search id : mutation_hook (useDeleteSavedSearch id) [$"/api/v1/saved-searches"] says_nothing
| mu_create_key b : mutation_hook (useCreateApiKey b) [$"/api/v1/api-keys"] says_nothing
| mu_revoke_key id : mutation_hook (useRevokeApiKey id) [$"/api/v1/api-keys"] says_nothing
| mu_create_source b : mutation_hook (useCreateSource b) [$"/api/v1/sources"; $"/api/v1/templates"] says_nothing
| mu_adopt_source n id s : mutation_hook (useAdoptSource n id s) [$"/api/v1/sources"; $"/api/v1/templates"] says_nothing
| mu_update_source b id s : mutation_hook (useUpdateSource b id s) [$"/api/v1/sources"; $"/api/v1/templates"] says_nothing
| mu_delete_source id : mutation_hook (useDeleteSource id) [$"/api/v1/sources"; $"/api/v1/templates"] says_nothing
| mu_create_forward b : mutation_hook (useCreateForwardTarget b) [$"/api/v1/forward-targets"] says_nothing
| mu_update_forward b id : mutation_hook (useUpdateForwardTarget b id) [$"/api/v1/forward-targets"] says_nothing
| mu_delete_forward id : mutation_hook (useDeleteForwardTarget id) [$"/api/v1/forward-targets"] says_nothing
| mu_create_user b : mutation_hook (useCreateUser b) [$"/api/v1/users"] says_nothing
| mu_update_user b id : mutation_hook (useUpdateUser b id) [$"/api/v1/users"] says_nothing
| mu_delete_user id : mutation_hook (useDeleteUser id) [$"/api/v1/users"] says_nothing.

(** The path itself or one below it. *)
Definition path_under (p path : jsstr) : bool := bool_decide (path = p) || starts_with (p ++ $"/") path.
(** Answers that are part of the build. *)
Definition static_paths : list jsstr := [$"/api/v1/sources/extract-presets"; $"/api/v1/analytics/services/defaults"].
Definition query_path (u : UseQuery) : jsstr := rq_path (uq_request u None).
Definition touches (ps : list jsstr) (u : UseQuery) : bool :=
  existsb (λ p, path_under p (query_path u)) ps && negb (bool_decide (query_path u ∈ static_paths)).

Section stale.
Context {C : Type} `{QueryClientLaws C}.
Implicit Types c : C.

Abbreviation state := (C * Client * list (Z * key))%type.

(** An effect that leaves the entry of [k] as it is. *)
Definition harmless (k : key) (e : cache_effect) : Prop :=
  match e with e_set k' _ => k' ≠ k | e_clear => False | e_invalidate _ | e_later _ _ | e_csrf _ => True end.
Definition keeps (e : cache_effect) : Prop := match e with e_clear => False | _ => True end.

Lemma run_app es1 es2 (st : state) : run_effects (es1 ++ es2) st = run_effects es2 (run_effects es1 st).
Proof. apply fold_left_app. Qed.

Lemma keeps_data es k (st : state) : Forall keeps es → is_Some (getQueryData st.1.1 k) →
  is_Some (getQueryData (run_effects es st).1.1 k).
Proof.
  intros He. revert st. induction He as [|e es He _ IH]; intros [[c cl] ts] Hd; [done|]. apply IH. cbn in *.
  destruct e as [k' f|k'|ms k'|t|]; cbn; try done; [|by rewrite invalidate_data].
  destruct (decide (k' = k)) as [->|Hne]; [|by rewrite (proj1 (set_other _ _ _ _ Hne))].
  destruct (f (getQueryData c k)) as [v|] eqn:Ef; [by rewrite (proj1 (set_get _ _ _ _ Ef))|by rewrite set_undefined].
Qed.

Lemma harmless_stale es k (st : state) : Forall (harmless k) es → isInvalidated st.1.1 k = true → is_Some (getQueryData st.1.1 k) →
  isInvalidated (run_effects es st).1.1 k = true.
Proof.
  intros He. revert st. induction He as [|e es He _ IH]; intros [[c cl] ts] Hi Hd; [done|]. cbn in Hi, Hd.
  destruct e as [k' f|k'|ms k'|t|]; cbn in He; try done; apply IH; cbn; try done.
  - by rewrite (proj2 (set_other _ _ _ _ He)).
  - by rewrite (proj1 (set_other _ _ _ _ He)).
  - destruct (decide (k' `prefix_of` k)); [by apply invalidate_prefix|by rewrite invalidate_other].
  - by rewrite invalidate_data.
Qed.

(** The last invalidation that reaches a key decides. *)
Lemma settled_stale m es1 k es2 c k' : um_settled m = es1 ++ e_invalidate k :: es2 → Forall keeps es1 → Forall (harmless k') es2 →
  k `prefix_of` k' → is_Some (getQueryData c k') → isInvalidated (settled_cache m c) k' = true.
Proof.
  intros E H1 H2 Hp Hd. unfold settled_cache. rewrite E, run_app. pose proof (keeps_data es1 k' (c, initClient, []) H1 Hd) as Hd'.
  destruct (run_effects es1 _) as [[c1 cl1] ts1]. cbn in Hd'.
  apply (harmless_stale es2 k' (invalidateQueries k c1, cl1, ts1)); [done|by apply invalidate_prefix|cbn; by rewrite invalidate_data].
Qed.

Lemma settled_set m es1 k f es2 c v : um_settled m = es1 ++ e_set k f :: es2 →
  Forall (harmless k) es1 → Forall (harmless k) es2 → f (getQueryData c k) = Some v →
  getQueryData (settled_cache m c) k = Some v.
Proof.
  intros E H1 H2 Hf. assert (∀ es (st : state), Forall (harmless k) es → getQueryData (run_effects es st).1.1 k = getQueryData st.1.1 k) as Hh.
  { intros es st He. revert st. induction He as [|e es He _ IH]; intros [[c0 cl] ts]; [done|].
    change (run_effects (e :: es) (c0, cl, ts)) with (run_effects es (run_effect e (c0, cl, ts))). rewrite IH.
    destruct e as [k' g|k'|ms k'|t|]; cbn in *; try done; [by rewrite (proj1 (set_other _ _ _ _ He))|by rewrite invalidate_data]. }
  unfold settled_cache. rewrite E, run_app. pose proof (Hh es1 (c, initClient, []) H1) as E1.
  destruct (run_effects es1 _) as [[c1 cl1] ts1]. cbn in E1. rewrite <- E1 in Hf.
  change (run_effects (e_set k f :: es2) (c1, cl1, ts1)) with (run_effects es2 (setQueryData k f c1, cl1, ts1)).
  rewrite Hh by done. cbn. by apply set_get.
Qed.
End stale.

(** The path each hook asks, and the hooks a change touches. *)
Definition hook_paths : list jsstr :=
  [$"/api/v1/auth/me"; $"/api/v1/logs/search"; $"/api/v1/logs/histogram"; $"/api/v1/logs/facets"; $"/api/v1/fields";
   $"/api/v1/fields/{field}/values"; $"/api/v1/query/validate"; $"/api/v1/logs/stats"; $"/api/v1/dashboard/overview";
   $"/api/v1/dashboard/volume"; $"/api/v1/dashboard/top"; $"/api/v1/dashboard/ingestion-rate"; $"/api/v1/analytics/breakdown";
   $"/api/v1/analytics/series"; $"/api/v1/analytics/services"; $"/api/v1/analytics/services/defaults";
   $"/api/v1/analytics/service-trends"; $"/api/v1/assistant/status"; $"/api/v1/analytics/directory"; $"/api/v1/analytics/mssql";
   $"/api/v1/analytics/iis"; $"/api/v1/templates"; $"/api/v1/templates/{id}/config"; $"/api/v1/saved-searches";
   $"/api/v1/saved-searches/{id}"; $"/api/v1/api-keys"; $"/api/v1/system/health"; $"/api/v1/system/ingestion";
   $"/api/v1/system/storage"; $"/api/v1/system/retention"; $"/api/v1/system/host/history"; $"/api/v1/system/config";
   $"/api/v1/sources"; $"/api/v1/sources/{id}"; $"/api/v1/sources/extract-presets"; $"/api/v1/forward-targets"; $"/api/v1/users";
   $"/api/v1/audit"].
Definition touched_paths (ps : list jsstr) (path : jsstr) : bool :=
  existsb (λ p, path_under p path) ps && negb (bool_decide (path ∈ static_paths)).
Definition touched (ps : list jsstr) : list nat :=
  List.filter (λ n, touched_paths ps (nth n hook_paths [])) (seq 0 38).

Lemma hook_path n u : query_hook n u → query_path u = nth n hook_paths [] ∧ n < 38.
Proof. intros []; (split; [vm_compute; reflexivity|lia]). Qed.
Lemma touches_touched n u ps : query_hook n u → touches ps u = true → n ∈ touched ps.
Proof.
  intros [Hp Hn]%hook_path Ht. unfold touches in Ht. rewrite Hp in Ht. apply list_elem_of_In, filter_In. split; [|done].
  apply in_seq. lia.
Qed.

(** Reduces a change to the hooks it touches. *)
Ltac by_hook H :=
  vm_compute in H; repeat (apply elem_of_cons in H; destruct H as [->|H]); try (by apply elem_of_nil in H).

Section refresh.
Context {C : Type} `{QueryClientLaws C}.

(** The answer cached under [k] is marked stale by the change [m], or is now what the reply says. *)
Definition refreshed (m : UseMutation) (says : key → json → json → Prop) (c : C) (k : key) : Prop :=
  isInvalidated (settled_cache m c) k = true
  ∨ ∃ old new, getQueryData c k = Some old ∧ getQueryData (settled_cache m c) k = Some new ∧ says k old new.

Lemma refreshed_set m says es1 k f es2 c old new : um_settled m = es1 ++ e_set k f :: es2 →
  Forall (harmless k) es1 → Forall (harmless k) es2 → getQueryData c k = Some old → f (Some old) = Some new → says k old new → refreshed m says c k.
Proof.
  intros E H1 H2 Hd Hf Hs. right. exists old, new. split_and!; [done| |done]. apply (settled_set m es1 k f es2 c); [done..|]. by rewrite Hd.
Qed.

Lemma saved_search_refreshed m c id s n u : um_settled m = saved_search_settled id s → query_hook n u →
  n ∈ touched [$"/api/v1/saved-searches"] → is_Some (getQueryData c (uq_key u)) →
  refreshed m (says_all (savedSearchKey (Some id)) s) c (uq_key u).
Proof.
  intros E Hq Hn Hd. by_hook Hn; inversion Hq; subst.
  - left. by apply (settled_stale m [] savedSearchesKey [set_to (savedSearchKey (Some id)) s]); try done;
      repeat constructor; [cbn; unfold savedSearchKey; congruence|eexists].
  - destruct (decide (savedSearchKey (Some id) = uq_key (useSavedSearch id0))) as [Ek|Ek].
    + destruct Hd as [old Hd]. rewrite <- Ek in *.
      by apply (refreshed_set m _ [e_invalidate savedSearchesKey] _ (λ _, Some s) [] c old s); [|repeat constructor|..].
    + left. apply (settled_stale m [] savedSearchesKey [set_to (savedSearchKey (Some id)) s]); try done;
        repeat constructor; [done|by eexists].
Qed.

Lemma sources_refreshed m says c es n u : um_settled m = es ++ settleSources → Forall keeps es → query_hook n u →
  n ∈ touched [$"/api/v1/sources"; $"/api/v1/templates"] → is_Some (getQueryData c (uq_key u)) → refreshed m says c (uq_key u).
Proof.
  intros E He Hq Hn Hd. left.
  assert (sourcesKey `prefix_of` uq_key u ∨ templatesKey `prefix_of` uq_key u) as [Hp|Hp].
  { by_hook Hn; inversion Hq; subst; [right|right|left|left]; by eexists. }
  - apply (settled_stale m es sourcesKey (map (λ ms, e_later ms sourcesKey) SETTLE_DELAYS_MS ++ [e_invalidate templatesKey])); try done.
    by repeat constructor.
  - apply (settled_stale m (es ++ settle sourcesKey) templatesKey []); try done; [by rewrite E, <- app_assoc|].
    apply Forall_app. split; [done|]. by repeat constructor.
Qed.

(** A new value of one member, and the others. *)
Lemma json_get_with j name v name' : json_get (json_with j name v) name' = if decide (name = name') then Some v else json_get j name'.
Proof. unfold json_get, json_with. cbn [spread]. destruct (decide _) as [<-|]; [by rewrite assoc_get_set_eq|by rewrite assoc_get_set_ne]. Qed.
Lemma catalog_refreshed b res c : is_Some (getQueryData c serviceCatalogKey) →
  refreshed (useUpdateServiceCatalog b res) (says_catalog res) c serviceCatalogKey.
Proof.
  intros [old Hd]. eapply (refreshed_set _ _ [] _ _ [_]); [reflexivity|done|by repeat constructor|exact Hd|reflexivity|]. split; [done|]. cbn beta iota.
  destruct (json_truthy old); [|done]. split_and!.
  - intros l Hl. by rewrite !json_get_with, Hl.
  - by rewrite json_get_with.
  - intros name H1 H2. rewrite !json_get_with. by repeat destruct (decide _).
Qed.

(** C22: no answer that a change has made wrong is shown as fresh.  When one of the
    application's changes settles, every cached answer to a question about the paths it
    changes is marked stale, so that it is asked again, or is now what the reply says: the
    session of a login, the saved search that was stored, the catalog with the services
    of the reply, without a problem and otherwise as it was.  (The paths are those of what
    the request changes; with the catalog also the trends, with the sources also the
    templates.  The extraction presets and the default catalog, which are part of the
    build, do not change.) *)
Theorem mutations_refresh m ps says n u c :
  mutation_hook m ps says → query_hook n u → touches ps u = true → is_Some (getQueryData c (uq_key u)) → refreshed m says c (uq_key u).
Proof.
  intros Hm Hq Ht Hd. pose proof (touches_touched _ _ _ Hq Ht) as Hn. clear Ht.
  destruct Hm;
    try (by eapply saved_search_refreshed);
    try (by eapply (sources_refreshed _ _ _ []));
    try (by eapply (sources_refreshed _ _ _ [_]); [reflexivity|by repeat constructor|..]);
    by_hook Hn; inversion Hq; subst;
    try (left; eapply (settled_stale _ []); [reflexivity|by repeat constructor|by repeat constructor|by eexists|done]);
    try (left; eapply (settled_stale _ [_]); [reflexivity|by repeat constructor|by repeat constructor|by eexists|done]).
  - destruct Hd as [old Hd]. by eapply (refreshed_set _ _ [_] _ _ []); [reflexivity|repeat constructor|repeat constructor|exact Hd|reflexivity|].
  - by apply catalog_refreshed.
Qed.
End refresh.

(** A cached source, the list of sources and the templates, when one is renamed. *)
Definition demo_cache : table :=
  [(sourcesKey, (JArr [], false)); (sourceKey (Some $"a"), (JObj [($"name", JStr $"old")], false)); (usersKey, (JArr [], false))].
Lemma mutations_refresh_witness :
  refreshed (useUpdateSource JNull $"a" (JObj [($"name", JStr $"new")])) says_nothing demo_cache sourcesKey
  ∧ isInvalidated (settled_cache (useUpdateSource JNull $"a" (JObj [($"name", JStr $"new")])) demo_cache) usersKey = false.
Proof.
  split; [|reflexivity].
  apply (mutations_refresh _ [$"/api/v1/sources"; $"/api/v1/templates"] says_nothing 32 useSources); [apply mu_update_source|apply h_sources|vm_compute; reflexivity|].
  by eexists.
Defined.

(** * Pages of a search *)

Lemma loaded_rows_snoc pages p : loaded_rows (pages ++ [p]) = (loaded_rows pages + page_rows p)%Z.
Proof. unfold loaded_rows. by rewrite fold_left_app. Qed.

(** The pages a search has after its first and each next one.  The next page is
    asked with the cursor that [getNextPageParam] gives, and a page is any
    answer of at most [SEARCH_PAGE_SIZE] rows, the limit the request asks for. *)
Inductive paged : list SearchPage → Prop :=
| paged_first p : (page_rows p <= SEARCH_PAGE_SIZE)%Z → paged [p]
| paged_next pages last_ p cursor : paged (pages ++ [last_]) → getNextPageParam last_ (pages ++ [last_]) = Some cursor →
    (page_rows p <= SEARCH_PAGE_SIZE)%Z → paged (pages ++ [last_; p]).

Lemma next_below_max last_ pages cursor : getNextPageParam last_ pages = Some cursor →
  sp_logs last_ = true ∧ (loaded_rows pages < MAX_LOADED_ROWS)%Z ∧ sp_next_cursor last_ = Some cursor.
Proof.
  unfold getNextPageParam. destruct (sp_logs last_); cbn; [|done].
  destruct (MAX_LOADED_ROWS <=? loaded_rows pages)%Z eqn:E; [done|]. intros ->. repeat split. lia.
Qed.

Lemma page_rows_nonneg p : (0 <= page_rows p)%Z.
Proof. unfold page_rows. lia. Qed.
Lemma loaded_pages pages : (∀ p, p ∈ pages → sp_rows p ≠ Some [] ∧ given (sp_rows p) = true) →
  (Z.of_nat (length pages) <= loaded_rows pages)%Z.
Proof.
  induction pages as [|p pages IH] using rev_ind; intros Hp; [done|]. rewrite loaded_rows_snoc, length_app. cbn.
  assert (Z.of_nat (length pages) <= loaded_rows pages)%Z by (apply IH; intros q Hq; apply Hp; apply elem_of_app; by left).
  destruct (Hp p) as [Hne Hg]; [apply elem_of_app; right; by left|]. unfold page_rows.
  destruct (sp_rows p) as [[|r rs]|]; cbn in *; [done|lia|done].
Qed.

Lemma loaded_bound pages : paged pages → (loaded_rows pages < MAX_LOADED_ROWS + SEARCH_PAGE_SIZE)%Z.
Proof.
  destruct 1 as [p Hp|pages l p cur _ Hc Hp]; [unfold loaded_rows, MAX_LOADED_ROWS, SEARCH_PAGE_SIZE in *; cbn; lia|].
  replace (pages ++ [l; p]) with ((pages ++ [l]) ++ [p]) by by rewrite <- app_assoc. rewrite loaded_rows_snoc.
  apply next_below_max in Hc as (_ & Hl & _). unfold MAX_LOADED_ROWS, SEARCH_PAGE_SIZE in *. lia.
Qed.

(** A search never loads more than a little over the maximum.  However many
    pages are asked for, fewer than [MAX_LOADED_ROWS + SEARCH_PAGE_SIZE] rows are
    held, only a page of logs is followed by another, and while no page is empty
    at most [MAX_LOADED_ROWS + SEARCH_PAGE_SIZE] pages are ever asked for. *)
Theorem paging_bounded pages :
  paged pages →
  (loaded_rows pages < MAX_LOADED_ROWS + SEARCH_PAGE_SIZE)%Z
  ∧ (∀ before p after, pages = before ++ p :: after → after ≠ [] → sp_logs p = true ∧ is_Some (sp_next_cursor p))
  ∧ ((∀ p, p ∈ pages → sp_rows p ≠ Some [] ∧ given (sp_rows p) = true) →
      (Z.of_nat (length pages) < MAX_LOADED_ROWS + SEARCH_PAGE_SIZE)%Z).
Proof.
  intros Hp. pose proof (loaded_bound _ Hp) as Hb. split; [done|]. split.
  - clear Hb. induction Hp as [p _|pages l p cur Hp IH Hc Hr]; intros before q after E Ha.
    + destruct before as [|b before]; [by injection E as -> <-|]. injection E as -> E. by destruct before.
    + destruct (exists_last Ha) as (after' & r & ->).
      assert (pages ++ [l] = before ++ q :: after') as E'.
      { change (pages ++ [l; p]) with (pages ++ [l] ++ [p]) in E. rewrite app_assoc, app_comm_cons, app_assoc in E.
        by apply app_inj_tail in E as [-> _]. }
      destruct after' as [|a after']; [|by apply (IH before q (a :: after'))].
      apply app_inj_tail in E' as [_ <-]. apply next_below_max in Hc as (Hl & _ & Hn). split; [done|by eexists].
  - intros Hne. pose proof (loaded_pages pages Hne). lia.
Qed.

Definition demo_page (cursor : option jsstr) : SearchPage := MkSearchPage true (Some (replicate 200 JNull)) cursor.
Lemma paging_bounded_witness :
  (loaded_rows [demo_page (Some $"c1"); demo_page None] < MAX_LOADED_ROWS + SEARCH_PAGE_SIZE)%Z
  ∧ getNextPageParam (demo_page (Some $"c")) (replicate 50 (demo_page (Some $"c"))) = None
  ∧ getNextPageParam (demo_page (Some $"c")) (replicate 49 (demo_page (Some $"c"))) = Some $"c".
Proof.
  split; [|split; vm_compute; reflexivity].
  refine (proj1 (paging_bounded [demo_page (Some $"c1"); demo_page None] _)).
  apply (paged_next [] _ _ $"c1"); [apply paged_first| |]; vm_compute; congruence.
Defined.

(** * Retries *)

(** The requests sent until one succeeds or the policy gives up: [answer i] is
    what the [i]th request throws, [None] when it succeeds. *)
Fixpoint requests_sent (policy : retry_policy) (answer : nat → option thrown) (count fuel : nat) : nat :=
  match fuel with
  | O => O
  | S fuel =>
      S (match answer count with
         | Some err => if policy count err then requests_sent policy answer (S count) fuel else O
         | None => O
         end)
  end.

Lemma hook_retry n u : query_hook n u →
  uq_retry u = no_retry ∨ uq_retry u = default_retry ∨ uq_retry u = history_retry.
Proof. intros []; cbn; auto. Qed.

(** A refused question is not asked again, and nothing is asked more than three times. *)
Theorem retries_bounded n u answer fuel :
  query_hook n u →
  requests_sent (uq_retry u) answer 0 fuel ≤ 3
  ∧ (∀ e, answer 0 = Some (ThrownApi e) → (ae_status e = 404 ∨ ae_status e = 409)%Z → requests_sent (uq_retry u) answer 0 fuel ≤ 1).
Proof.
  intros Hq. assert (∀ c err, 2 ≤ c → uq_retry u c err = false) as Hstop.
  { intros c err Hc. destruct (hook_retry _ _ Hq) as [->|[->| ->]]; [done|..]; unfold default_retry, history_retry;
      (replace (c <? 2) with false by (symmetry; apply Nat.ltb_ge; lia)); by rewrite andb_false_r. }
  split.
  - destruct fuel as [|[|[|fuel]]]; cbn; [lia|repeat case_match; lia..|].
    repeat case_match; try lia. destruct fuel; cbn; [lia|]. rewrite Hstop in * by lia. done.
  - intros e He Hs. destruct fuel as [|fuel]; [cbn; lia|]. cbn. rewrite He.
    assert (uq_retry u 0 (ThrownApi e) = false) as ->; [|lia].
    destruct (hook_retry _ _ Hq) as [->|[->| ->]]; [done|..]; unfold default_retry, history_retry; destruct Hs as [->| ->]; done.
Qed.
