(* ===== verification/Router.v ===== *)
(** Routing and the session (src/frontend/src/app/router.tsx, main.tsx,
    features/auth/LoginPage.tsx, features/auth/ChangePasswordPage.tsx and the log
    out of app/AppShell.tsx): which page a location shows, for whom, and what the
    tab keeps of the session meanwhile.

    TanStack Router is a library: the class [Routes] is its matching of a path
    against the route tree, with the documented law that a path without
    parameters matches its own route. *)
From Stdlib Require Import ZArith Lia SpecFloat.
From stdpp Require Import base list numbers strings.
From S2P Require Import Prelude FilterAst JsNumber UrlState UrlStateProps ApiClient Session QueryCache ApiHooks.
Open Scope nat_scope.

(** * Routes *)

Inductive Route :=
| loginRoute | indexRoute | dashboardRoute | logsRoute | liveRoute | analyticsRoute | searchesRoute | searchRoute
| sourcesRoute | sourceRoute | forwardingRoute | usersRoute | auditRoute | settingsRoute | systemRoute | apiKeysRoute
| passwordRoute.
#[export] Instance Route_eq_dec : EqDecision Route.
Proof. solve_decision. Defined.

Definition route_path (r : Route) : jsstr :=
  match r with
  | loginRoute => $"/login" | indexRoute => $"/" | dashboardRoute => $"/dashboard" | logsRoute => $"/logs"
  | liveRoute => $"/logs/live" | analyticsRoute => $"/analytics" | searchesRoute => $"/searches" | searchRoute => $"/searches/$id"
  | sourcesRoute => $"/sources" | sourceRoute => $"/sources/$id" | forwardingRoute => $"/forwarding" | usersRoute => $"/users"
  | auditRoute => $"/audit" | settingsRoute => $"/settings" | systemRoute => $"/system" | apiKeysRoute => $"/settings/api-keys"
  | passwordRoute => $"/account/password"
  end.
(** The children of the root: the login page, and the pages of the app in order. *)
Definition app_children : list Route :=
  [indexRoute; dashboardRoute; logsRoute; liveRoute; analyticsRoute; searchesRoute; searchRoute; sourcesRoute; sourceRoute;
   forwardingRoute; usersRoute; auditRoute; settingsRoute; systemRoute; apiKeysRoute; passwordRoute].
Definition routeTree : list Route := loginRoute :: app_children.
Definition has_params (r : Route) : bool := match r with searchRoute | sourceRoute => true | _ => false end.

Class Routes := { matchRoute : jsstr → option Route }.
Class RoutesLaws `{Routes} := { match_static r : has_params r = false → matchRoute (route_path r) = Some r }.

Record Location := MkLocation { l_pathname : jsstr; l_search : jsstr; l_hash : jsstr }.
Definition href (l : Location) : jsstr := l_pathname l ++ l_search l ++ l_hash l.
(** [navigate({ to, search })] and [redirect({ to, search })]; the defaults that
    the target's search schema may add are read by no guard. *)
Definition build_location (to : jsstr) (search : list (jsstr * jsval)) : Location := MkLocation to (stringifySearchParams search) [].

(** * The tab *)

(** The API client, what the cache holds under [sessionKey], whether a request
    for it is on its way, and how many are whose query was cleared or asked anew
    meanwhile. *)
Record Tab := MkTab { t_client : Client; t_session : option Session; t_fetching : bool; t_orphans : nat }.
Definition init_tab : Tab := MkTab (onUnauthorized (Some 0) initClient) None false 0.

Definition set_csrf (token : option jsstr) (t : Tab) : Tab :=
  MkTab (setCsrfToken token (t_client t)) (t_session t) (t_fetching t) (t_orphans t).
Definition set_session (s : Session) (t : Tab) : Tab := MkTab (t_client t) (Some s) (t_fetching t) (t_orphans t).
(** [queryClient.clear()]: a request on its way still ends. *)
Definition clear_queries (t : Tab) : Tab :=
  MkTab (t_client t) None false (if t_fetching t then S (t_orphans t) else t_orphans t).

(** [fetchSession()]: the request starts; its answer sets the token in the
    promise itself, then reaches the cache if the query is still there. *)
Definition fetch_session (t : Tab) : Tab := MkTab (t_client t) (t_session t) true (t_orphans t).
(** [invalidateQueries]: a request on its way is given up for a new one when there is data,
    but it still ends. *)
Definition refetch_session (t : Tab) : Tab :=
  MkTab (t_client t) (t_session t) true
    (match t_session t with Some _ => if t_fetching t then S (t_orphans t) else t_orphans t | None => t_orphans t end).
Definition session_ok (s : Session) (t : Tab) : Tab :=
  let t := set_csrf (Some (ses_csrf_token s)) t in MkTab (t_client t) (Some s) false (t_orphans t).
Definition session_orphan_ok (s : Session) (t : Tab) : Tab :=
  let t := set_csrf (Some (ses_csrf_token s)) t in MkTab (t_client t) (t_session t) (t_fetching t) (pred (t_orphans t)).
Definition session_failed (t : Tab) : Tab := MkTab (t_client t) (t_session t) false (t_orphans t).

(** The handler main.tsx registers for 401, at the router's location; the new location. *)
Definition handle_unauthorized (loc : Location) (t : Tab) : Tab * option Location :=
  if decide (l_pathname loc = $"/login") then (t, None)
  else (clear_queries (set_csrf None t), Some (build_location $"/login" [($"next", VString (href loc))])).

(** The answer to [/auth/me] reaches the client before it is unwrapped. *)
Definition session_answer (answer : result thrown Session) (loc : Location) (t : Tab) : Tab :=
  match answer with
  | Ok s => session_ok s t
  | Err e =>
      let t := session_failed t in
      match e with ThrownApi a => if (ae_status a =? 401)%Z then (handle_unauthorized loc t).1 else t | _ => t end
  end.

(** The answer to a request whose query was cleared or asked anew: it sets the token and
    does not reach the cache. *)
Definition session_orphan (answer : result thrown Session) (loc : Location) (t : Tab) : Tab :=
  match answer with
  | Ok s => session_orphan_ok s t
  | Err e =>
      let t := MkTab (t_client t) (t_session t) (t_fetching t) (pred (t_orphans t)) in
      match e with ThrownApi a => if (ae_status a =? 401)%Z then (handle_unauthorized loc t).1 else t | _ => t end
  end.

(** * Guards *)

Inductive stop := Redirect (l : Location) | Failure (e : thrown).

(** [ensureQueryData] asks only when nothing is cached. *)
Definition requireSession (answer : result thrown Session) (loc : Location) (t : Tab) : Tab * result stop Session :=
  match t_session t with
  | Some s => (t, Ok s)
  | None =>
      (session_answer answer loc (fetch_session t),
       match answer with
       | Ok s => Ok s
       | Err e =>
           Err (match e with
                | ThrownApi a =>
                    if (ae_status a =? 401)%Z then Redirect (build_location $"/login" [($"next", VString (href loc))]) else Failure e
                | _ => Failure e
                end)
       end)
  end.

Definition app_beforeLoad (answer : result thrown Session) (loc : Location) (t : Tab) : Tab * result stop Session :=
  let '(t, r) := requireSession answer loc t in
  (t,
   s ← r;
   if su_must_change_password (ses_user s) && negb (bool_decide (l_pathname loc = $"/account/password"))
   then Err (Redirect (build_location $"/account/password" []))
   else Ok s).

Definition index_beforeLoad : result stop () := Err (Redirect (build_location $"/dashboard" [])).
(** Both analytics endpoints need the permission; others are sent somewhere useful. *)
Definition analytics_beforeLoad (s : Session) : result stop () :=
  if bool_decide ($"logs:search" ∈ ses_permissions s) then Ok () else Err (Redirect (build_location $"/dashboard" [])).
Definition route_beforeLoad (r : Route) (s : Session) : result stop () :=
  match r with indexRoute => index_beforeLoad | analyticsRoute => analytics_beforeLoad s | _ => Ok () end.

Inductive outcome := Page (r : Route) | NotFound | Redirected (l : Location) | Broken (e : thrown).
Definition stopped (s : stop) : outcome := match s with Redirect l => Redirected l | Failure e => Broken e end.

Section navigation.
Context `{Routes}.

(** Loads a location: the guards from the parent to the child. *)
Definition load (answer : result thrown Session) (loc : Location) (t : Tab) : Tab * outcome :=
  match matchRoute (l_pathname loc) with
  | None => (t, NotFound)
  | Some loginRoute => (t, Page loginRoute)
  | Some r =>
      let '(t, g) := app_beforeLoad answer loc t in
      (t, match g with
          | Err e => stopped e
          | Ok s => match route_beforeLoad r s with Err e => stopped e | Ok _ => Page r end
          end)
  end.

(** Follows at most [fuel] redirects: the tab, the location and what it shows. *)
Fixpoint navigate (fuel : nat) (answer : result thrown Session) (loc : Location) (t : Tab) : Tab * Location * outcome :=
  let '(t, o) := load answer loc t in
  match fuel, o with
  | S fuel, Redirected l => navigate fuel answer l t
  | _, _ => (t, loc, o)
  end.
End navigation.

(** * Pages that change the session *)

(** [useSearch({ from: '/login' }).next] *)
Definition login_next (loc : Location) : option jsstr := assoc_get (parseSearchParams (l_search loc)) $"next".
(** The mutation's own handler, then the page's: the tab and where it goes. *)
Definition login_success (next : option jsstr) (s : Session) (t : Tab) : Tab * jsstr :=
  (set_session s (set_csrf (Some (ses_csrf_token s)) t),
   if su_must_change_password (ses_user s) then $"/account/password" else safeNext next).
Definition login_message (err : option thrown) : option jsstr :=
  match err with
  | None => None
  | Some (ThrownApi e) =>
      if (ae_status e =? 401)%Z then Some $"Invalid username or password."
      else if (ae_status e =? 429)%Z then Some $"Too many attempts. Please wait a moment and try again."
      else Some (ae_message e)
  | Some (ThrownError m) => Some m
  | Some ThrownOther => Some []
  end.

(** [onSettled] of the hook and of the menu entry: cleared twice, then the login page. *)
Definition logout_settled (t : Tab) : Tab * Location :=
  (clear_queries (clear_queries (set_csrf None t)), build_location $"/login" [($"next", VUndefined)]).

(** Either the form's own complaint or the request that is sent. *)
Definition submit_password (current next confirm : jsstr) : result jsstr UseMutation :=
  match validateNewPassword current next confirm with
  | Some err => Err err
  | None => Ok (useChangePassword current next)
  end.
(** The session is asked again at once (the page shows it), and the page goes on
    to the dashboard after [PASSWORD_DELAY_MS], whether it was answered or not. *)
Definition PASSWORD_DELAY_MS : Z := 800.
Definition password_changed (t : Tab) : Tab := refetch_session t.
Definition password_continue : Location := build_location $"/dashboard" [].
