(* ===== verification/RouterProps.v ===== *)
(** What the guards promise: every navigation settles, only a signed-in user
    sees a page of the app, a link survives the login, and the CSRF token is that
    of the session on show. *)
From Stdlib Require Import ZArith Lia SpecFloat.
From stdpp Require Import base list numbers strings relations.
From S2P Require Import Prelude Unicode FilterAst JsNumber Utf8 FormUrl UrlState UrlStateProps ApiClient Session QueryCache ApiHooks Router.
Open Scope nat_scope.

(** * A matcher that satisfies the law *)

Definition segments (p : jsstr) : list jsstr := List.filter truthy (split_on (N.eqb SLASH) p).
Definition segment_matches (pat s : jsstr) : bool := starts_with $"$" pat || bool_decide (pat = s).
Fixpoint segments_match (pats segs : list jsstr) : bool :=
  match pats, segs with
  | [], [] => true
  | pat :: pats, s :: segs => segment_matches pat s && segments_match pats segs
  | _, _ => false
  end.
#[export] Instance segment_routes : Routes := {
  matchRoute p := List.find (λ r, segments_match (segments (route_path r)) (segments p)) routeTree
}.
#[export] Instance segment_routes_laws : RoutesLaws.
Proof. split. intros [] Hp; try done; vm_compute; reflexivity. Qed.

Definition demo_session (must : bool) (perms : list jsstr) (token : jsstr) : Session :=
  MkSession (MkSessionUser $"alice" $"viewer" must) perms token.
Definition unauthorized_error : thrown := ThrownApi (newApiError 401 None None).
Definition unsigned (e : thrown) : bool := match e with ThrownApi a => (ae_status a =? 401)%Z | _ => false end.

(** * Navigation *)

Section navigation_props.
Context `{RoutesLaws}.

Definition to_login (loc : Location) : Location := build_location $"/login" [($"next", VString (href loc))].
Definition to_dashboard : Location := build_location $"/dashboard" [].
Definition to_password : Location := build_location $"/account/password" [].

Lemma requireSession_spec answer loc t t' r : requireSession answer loc t = (t', r) →
  (∃ s, r = Ok s ∧ t_session t' = Some s ∧ (t_session t = Some s ∨ t_session t = None ∧ answer = Ok s))
  ∨ (∃ e, t_session t = None ∧ answer = Err e ∧ t_session t' = None
       ∧ r = Err (if unsigned e then Redirect (to_login loc) else Failure e)).
Proof.
  unfold requireSession. destruct (t_session t) as [s|] eqn:Hs; intros [= <- <-].
  - left. exists s. auto.
  - destruct answer as [s|e]; [left; exists s; auto|right]. exists e. split_and!; [done|done| |].
    + unfold session_answer. destruct e as [a| |]; [|done..]. destruct (ae_status a =? 401)%Z; [|done].
      unfold handle_unauthorized. by destruct (decide _).
    + by destruct e as [a| |]; [cbn; destruct (ae_status a =? 401)%Z|..].
Qed.

Lemma load_login answer l t : l_pathname l = $"/login" → load answer l t = (t, Page loginRoute).
Proof. intros E. unfold load. by rewrite E, (match_static loginRoute). Qed.
Lemma load_password answer t s : t_session t = Some s → load answer to_password t = (t, Page passwordRoute).
Proof.
  intros Hs. unfold load. cbn [l_pathname to_password build_location]. rewrite (match_static passwordRoute eq_refl).
  unfold app_beforeLoad, requireSession. rewrite Hs. cbn -[bool_decide]. rewrite bool_decide_true by done. by rewrite andb_false_r.
Qed.
Lemma load_dashboard answer t s : t_session t = Some s → su_must_change_password (ses_user s) = false →
  load answer to_dashboard t = (t, Page dashboardRoute).
Proof.
  intros Hs Hm. unfold load. cbn [l_pathname to_dashboard build_location]. rewrite (match_static dashboardRoute eq_refl).
  unfold app_beforeLoad, requireSession. rewrite Hs. cbn -[bool_decide]. by rewrite Hm.
Qed.

Lemma load_refused r e loc t t' o : matchRoute (l_pathname loc) = Some r → r ≠ loginRoute → t_session t = None →
  unsigned e = true → load (Err e) loc t = (t', o) → o = Redirected (to_login loc).
Proof.
  intros Hr Hne Hn Hu E. unfold load, app_beforeLoad, requireSession in E. rewrite Hr, Hn in E.
  destruct e as [a| |]; try done. cbn in Hu. rewrite Hu in E. by destruct r; try done; injection E as _ <-.
Qed.

(** Who may see a page. *)
Definition permitted (r : Route) (t : Tab) : Prop :=
  r = loginRoute ∨
  ∃ s, t_session t = Some s ∧ (su_must_change_password (ses_user s) = true → r = passwordRoute)
    ∧ (r = analyticsRoute → $"logs:search" ∈ ses_permissions s) ∧ r ≠ indexRoute.

(** One load: a page that is permitted, or a redirect to one of three pages that
    load at once, or a failure that is not a 401. *)
Lemma load_spec answer loc t t' o : load answer loc t = (t', o) →
  match o with
  | Page r => permitted r t' ∧ matchRoute (l_pathname loc) = Some r
  | NotFound => t' = t ∧ matchRoute (l_pathname loc) = None
  | Redirected l =>
      (l = to_login loc ∧ t_session t = None ∧ t_session t' = None)
      ∨ ∃ s, t_session t' = Some s ∧ if su_must_change_password (ses_user s) then l = to_password else l = to_dashboard
  | Broken e => t_session t = None ∧ t_session t' = None ∧ answer = Err e ∧ unsigned e = false
  end.
Proof.
  unfold load. destruct (matchRoute (l_pathname loc)) as [r|] eqn:Em; [|by intros [= <- <-]].
  destruct (decide (r = loginRoute)) as [->|Hr]; [intros [= <- <-]; split; [by left|done]|].
  destruct (app_beforeLoad answer loc t) as [t1 g] eqn:Eg. intros E.
  assert (t' = t1 ∧ o = match g with
    | Err e => stopped e | Ok s => match route_beforeLoad r s with Err e => stopped e | Ok _ => Page r end end) as [-> ->].
  { by destruct r; try done; injection E as <- <-. }
  clear E. unfold app_beforeLoad in Eg. destruct (requireSession answer loc t) as [t2 q] eqn:Eq.
  injection Eg as -> <-. apply requireSession_spec in Eq as [(s & -> & Hs & _)|(e & Hn & Ha & Hn' & ->)].
  - cbn [mbind result_bind]. destruct (su_must_change_password (ses_user s)) eqn:Hm; cbn [andb].
    + destruct (decide (l_pathname loc = $"/account/password")) as [Hp|Hp].
      * rewrite bool_decide_true by done. cbn [negb]. rewrite Hp, (match_static passwordRoute eq_refl) in Em. injection Em as <-.
        split; [|done]. right. by exists s.
      * rewrite bool_decide_false by done. right. exists s. by rewrite Hm.
    + destruct (route_beforeLoad r s) as [u|e] eqn:Er.
      * split; [|done]. right. exists s. split; [done|]. rewrite Hm. split; [done|].
        split; intros ->; cbn in Er; [|done]. unfold analytics_beforeLoad in Er. case_bool_decide; done.
      * assert (e = Redirect to_dashboard) as ->.
        { destruct r; try done; cbn in Er; [by injection Er as <-|]. unfold analytics_beforeLoad in Er. case_bool_decide; [done|by injection Er as <-]. }
        right. exists s. by rewrite Hm.
  - cbn. destruct (unsigned e) eqn:Eu; cbn; [left|]; done.
Qed.

(** C19: every navigation settles on a page the user may see.  Whatever the
    location, the cached session and the server's answer, one redirect is
    enough; a page of the app is shown only to a signed-in user, who must not
    first change the password, and the analytics page only with the permission to
    search; a server that refuses the session sends the user to the login page
    with the whole link; and only an error other than 401 breaks the load. *)
Theorem navigation_guarded answer loc t t' l' o :
  navigate 1 answer loc t = (t', l', o) →
  match o with
  | Page r => permitted r t' ∧ matchRoute (l_pathname l') = Some r
  | NotFound => matchRoute (l_pathname loc) = None
  | Redirected _ => False
  | Broken e => answer = Err e ∧ unsigned e = false ∧ t_session t = None
  end
  ∧ ((∃ r, matchRoute (l_pathname loc) = Some r ∧ r ≠ loginRoute) → t_session t = None → (∃ e, answer = Err e ∧ unsigned e = true) →
     o = Page loginRoute ∧ l' = to_login loc).
Proof.
  cbn [navigate]. destruct (load answer loc t) as [t1 o1] eqn:E1. pose proof (load_spec _ _ _ _ _ E1) as S1. intros E.
  split.
  - destruct o1 as [r| |l|e]; [injection E as <- <- <-; done|by injection E as <- <- <-; destruct S1| |injection E as <- <- <-; naive_solver].
    destruct S1 as [(-> & _ & Hn)|(s & Hs & Hl)].
    + rewrite load_login in E by done. injection E as <- <- <-. split; [by left|]. by rewrite (match_static loginRoute).
    + destruct (su_must_change_password (ses_user s)) eqn:Hm; subst l.
      * rewrite (load_password _ _ s Hs) in E. injection E as <- <- <-. split; [|by rewrite (match_static passwordRoute)].
        right. by exists s.
      * rewrite (load_dashboard _ _ s Hs Hm) in E. injection E as <- <- <-. split; [|by rewrite (match_static dashboardRoute)].
        right. exists s. by rewrite Hm.
  - intros (r & Hr & Hne) Hn (e & -> & Hu).
    apply (load_refused _ _ _ _ _ _ Hr Hne Hn Hu) in E1 as ->.
    rewrite load_login in E by done. by injection E as <- <- <-.
Qed.

(** A link survives the login.  A link to a page of the app, opened without
    a session, shows the login page; when the login succeeds the browser goes to
    that very link, unless the password must be changed first. *)
Theorem link_survives_login r loc t t' l' o e s t'' target :
  matchRoute (l_pathname loc) = Some r → r ≠ loginRoute → t_session t = None → unsigned e = true →
  well_formed (href loc) = true → starts_with $"/" (href loc) = true → starts_with $"//" (href loc) = false →
  starts_with $"/login" (href loc) = false →
  navigate 1 (Err e) loc t = (t', l', o) → login_success (login_next l') s t' = (t'', target) →
  o = Page loginRoute ∧ t_session t'' = Some s
  ∧ target = if su_must_change_password (ses_user s) then $"/account/password" else href loc.
Proof.
  intros Hr Hne Hn Hu Hw H1 H2 H3 E. cbn [navigate] in E. destruct (load (Err e) loc t) as [t1 o1] eqn:E1.
  apply (load_refused _ _ _ _ _ _ Hr Hne Hn Hu) in E1 as ->.
  rewrite load_login in E by done. injection E as <- <- <-. intros [= <- <-]. split; [done|]. split; [done|].
  assert (login_next (to_login loc) = Some (href loc)) as ->.
  { unfold login_next, to_login, build_location. cbn [l_search]. rewrite parse_stringify.
    - clear -H1. destruct (href loc) as [|c h]; [done|]. reflexivity.
    - apply NoDup_singleton.
    - unfold search_params, cleanSearch. cbn [List.filter]. destruct (negb _); cbn; [|done].
      constructor; [|done]. split; [vm_compute; reflexivity|done]. }
  destruct (su_must_change_password (ses_user s)); [done|]. unfold safeNext. rewrite H1, H2, H3.
  destruct (href loc); [by cbn in H1|done].
Qed.
End navigation_props.

Definition demo_link : Location := MkLocation $"/logs" $"?q=severity%3Aerr" [].
Lemma navigation_guarded_witness :
  (let '(t', l', o) := navigate 1 (Err unauthorized_error) demo_link init_tab in o = Page loginRoute ∧ l' = to_login demo_link)
  ∧ (let '(t', l', o) := navigate 1 (Ok (demo_session true [] $"tok")) demo_link init_tab in
     permitted passwordRoute t' ∧ o = Page passwordRoute).
Proof.
  split.
  - destruct (navigate 1 (Err unauthorized_error) demo_link init_tab) as [[t' l'] o] eqn:E.
    apply (navigation_guarded _ _ _ _ _ _ E); [exists logsRoute; split; [vm_compute; reflexivity|done]|done|].
    by exists unauthorized_error.
  - destruct (navigate 1 (Ok (demo_session true [] $"tok")) demo_link init_tab) as [[t' l'] o] eqn:E.
    pose proof (proj1 (navigation_guarded _ _ _ _ _ _ E)) as G.
    assert (o = Page passwordRoute) as -> by (vm_compute in E; congruence). by destruct G.
Defined.

Lemma link_survives_login_witness :
  let '(t', l', o) := navigate 1 (Err unauthorized_error) demo_link init_tab in
  (login_success (login_next l') (demo_session false [] $"tok") t').2 = $"/logs?q=severity%3Aerr".
Proof.
  destruct (navigate 1 (Err unauthorized_error) demo_link init_tab) as [[t' l'] o] eqn:E.
  destruct (login_success (login_next l') (demo_session false [] $"tok") t') as [t'' target] eqn:L.
  cbn [snd]. eapply eq_trans; [|vm_compute; reflexivity].
  apply (link_survives_login logsRoute demo_link init_tab t' l' o unauthorized_error (demo_session false [] $"tok") t'' target);
    first [done|vm_compute; reflexivity].
Defined.

(** * The session of a tab *)

(** What happens in a tab, in any order: requests for the session and their
    answers, answers to requests given up meanwhile, logins, log outs, refused
    requests, password changes. *)
Inductive tab_event :=
| te_fetch | te_answer (answer : result thrown Session) (loc : Location) | te_late (answer : result thrown Session) (loc : Location)
| te_login (next : option jsstr) (s : Session) | te_logout | te_unauthorized (loc : Location) | te_password.
Inductive tab_step : tab_event → Tab → Tab → Prop :=
| ts_fetch t : t_fetching t = false → tab_step te_fetch t (fetch_session t)
| ts_answer answer loc t : t_fetching t = true → tab_step (te_answer answer loc) t (session_answer answer loc t)
| ts_late answer loc t : 0 < t_orphans t → tab_step (te_late answer loc) t (session_orphan answer loc t)
| ts_login next s t : tab_step (te_login next s) t (login_success next s t).1
| ts_logout t : tab_step te_logout t (logout_settled t).1
| ts_unauthorized loc t : tab_step (te_unauthorized loc) t (handle_unauthorized loc t).1
| ts_password t : tab_step te_password t (password_changed t).
Inductive tab_run : list tab_event → Tab → Prop :=
| tr_init : tab_run [] init_tab
| tr_step evs e t t' : tab_run evs t → tab_step e t t' → tab_run (evs ++ [e]) t'.

(** The session of a late answer that no answer, login, log out or refusal has followed. *)
Definition refusal (late : option Session) (loc : Location) : option Session :=
  if decide (l_pathname loc = $"/login") then late else None.
Definition late_after (late : option Session) (e : tab_event) : option Session :=
  match e with
  | te_late (Ok s) _ => Some s
  | te_answer (Ok _) _ | te_login _ _ | te_logout => None
  | te_unauthorized loc => refusal late loc
  | te_answer (Err (ThrownApi a)) loc | te_late (Err (ThrownApi a)) loc => if (ae_status a =? 401)%Z then refusal late loc else late
  | _ => late
  end.
Definition late_session (evs : list tab_event) : option Session := fold_left late_after evs None.

Definition tab_inv (late : option Session) (t : Tab) : Prop :=
  csrfToken (t_client t) = match late with Some s => Some (ses_csrf_token s) | None => ses_csrf_token <$> t_session t end.

Lemma refused_inv late loc t : tab_inv late t → tab_inv (refusal late loc) (handle_unauthorized loc t).1.
Proof. unfold tab_inv, refusal, handle_unauthorized. by destruct (decide _). Qed.
Lemma tab_step_inv late e t t' : tab_step e t t' → tab_inv late t → tab_inv (late_after late e) t'.
Proof.
  destruct 1 as [| answer loc t _ | answer loc t _ | | |loc t|]; intros Ht; try done; [..|by apply refused_inv].
  all: destruct answer as [s|[a| |]]; try done; cbn [late_after session_answer session_orphan].
  all: by destruct (ae_status a =? 401)%Z; [apply refused_inv|].
Qed.
Lemma tab_reachable evs t : tab_run evs t → tab_inv (late_session evs) t.
Proof.
  induction 1 as [|evs e t t' _ IH Hs]; [done|]. unfold late_session in *. rewrite fold_left_app. by apply (tab_step_inv _ _ t).
Qed.

(** C20: requests carry the token of the session on show.  Whatever the order of
    fetches, answers, logins, log outs, refusals and password changes in a tab, an unsafe
    request carries the CSRF token of the cached session, and none when no session is
    cached or its token is empty.  There is one exception, an answer to a request for the
    session that was given up meanwhile, because the cache was cleared or the session
    asked anew: requests carry the token it brought, until the next answer, login,
    log out or refusal. *)
Theorem csrf_of_session evs t method h :
  tab_run evs t → method ∈ UNSAFE → assoc_get h CSRF_HEADER = None →
  let shown := match late_session evs with Some s => Some s | None => t_session t end in
  assoc_get (onRequest (t_client t) method h) CSRF_HEADER
  = match shown with Some s => or_undef (ses_csrf_token s) | None => None end.
Proof.
  intros Hr Hm Hh shown. apply tab_reachable in Hr. unfold tab_inv in Hr.
  assert (csrfToken (t_client t) = ses_csrf_token <$> shown) as Ht by (unfold shown; by destruct (late_session evs)). clear Hr.
  destruct shown as [s|]; cbn in Ht; [|unfold onRequest, with_csrf; by rewrite Ht].
  destruct (decide (ses_csrf_token s = [])) as [He|Hne].
  - unfold onRequest, with_csrf. rewrite Ht, He. by case_bool_decide.
  - unfold onRequest. rewrite (csrf_on_unsafe _ _ _ _ Ht Hne), bool_decide_true by done. by destruct (ses_csrf_token s).
Qed.

Definition alice : Session := demo_session false [] $"alice-token".
Definition bob : Session := demo_session false [] $"bob-token".
Definition two_users : Tab := (login_success None bob (logout_settled (fetch_session (login_success None alice init_tab).1)).1).1.
Definition two_users_run : list tab_event := [te_login None alice; te_fetch; te_logout; te_login None bob].
Lemma two_users_reached : tab_run two_users_run two_users.
Proof.
  apply (tr_step [_; _; _] _ (logout_settled (fetch_session (login_success None alice init_tab).1)).1); [|constructor].
  apply (tr_step [_; _] _ (fetch_session (login_success None alice init_tab).1)); [|constructor].
  apply (tr_step [_] _ (login_success None alice init_tab).1); [|by constructor]. apply (tr_step [] _ init_tab); constructor.
Qed.
Lemma csrf_of_session_witness : assoc_get (onRequest (t_client two_users) $"POST" []) CSRF_HEADER = Some $"bob-token".
Proof. apply (csrf_of_session two_users_run two_users $"POST" []); [apply two_users_reached|vm_decide|done]. Defined.

(** The exception happens: the session is asked, the user logs out, another logs in, and
    then the answer for the first arrives.  Its token replaces that of the second,
    whose changes are sent with the wrong one. *)
Theorem late_session_answer : ∃ evs t,
  tab_run evs t ∧ t_session t = Some bob ∧ csrfToken (t_client t) = Some (ses_csrf_token alice).
Proof.
  exists (two_users_run ++ [te_late (Ok alice) demo_link]), (session_orphan (Ok alice) demo_link two_users).
  split_and!; [|done..]. apply (tr_step _ _ two_users); [apply two_users_reached|]. constructor. cbn. lia.
Qed.

(** Another exception: when the answer for the session takes longer than the delay
    after a forced password change, the guard still reads the session from before
    and sends the user back to the password page. *)
Theorem password_change_race `{RoutesLaws} t s answer :
  t_session t = Some s → su_must_change_password (ses_user s) = true →
  ∃ t', navigate 1 answer password_continue (password_changed t) = (t', to_password, Page passwordRoute)
        ∧ ∀ s', su_must_change_password (ses_user s') = false →
          (navigate 1 answer password_continue (session_ok s' (password_changed t))).2 = Page dashboardRoute.
Proof.
  intros Hs Hm. exists (password_changed t). split.
  - cbn [navigate]. unfold load at 1. change (l_pathname password_continue) with $"/dashboard".
    rewrite (match_static dashboardRoute eq_refl). unfold app_beforeLoad, requireSession.
    change (t_session (password_changed t)) with (t_session t). rewrite Hs. cbn -[load bool_decide build_location]. rewrite Hm.
    change (l_pathname password_continue) with $"/dashboard". rewrite bool_decide_false by (vm_compute; congruence).
    cbn [andb negb stopped]. by rewrite (load_password _ _ s).
  - intros s' Hm'. cbn [navigate]. by rewrite (load_dashboard _ _ s').
Qed.
