(* ===== verification/Shell.v ===== *)
(** The application shell (src/frontend/src/app/AppShell.tsx and
    app/CommandPalette.tsx): what the sidebar and the palette offer to whom, which
    entry is highlighted, and the ingestion indicator. *)
From Stdlib Require Import ZArith Lia SpecFloat.
From stdpp Require Import base list numbers strings.
From S2P Require Import Prelude FilterAst JsNumber TimeRange UrlState ApiClient Session QueryCache ApiHooks Router RouterProps.
Open Scope nat_scope.

(** * The sidebar *)

Record NavItem := MkNavItem { nav_to : jsstr; nav_label : jsstr; nav_perm : option jsstr; nav_disabled : bool }.
#[export] Instance NavItem_eq_dec : EqDecision NavItem.
Proof. solve_decision. Defined.
(** An entry of its own or a group with its children. *)
Inductive NavEntry := NavLeaf (i : NavItem) | NavGroup (label : jsstr) (children : list NavItem).
Definition nav (to label perm : jsstr) : NavItem := MkNavItem to label (Some perm) false.

Definition NAV : list NavEntry :=
  [NavLeaf (nav $"/dashboard" $"Dashboard" $"dashboard:view");
   NavGroup $"Explore" [nav $"/logs" $"Logs" $"logs:search"; nav $"/logs/live" $"Live Tail" $"logs:tail"];
   NavLeaf (nav $"/sources" $"Sources" $"sources:read");
   NavLeaf (nav $"/forwarding" $"Forwarding" $"system:view");
   NavLeaf (nav $"/searches" $"Saved Searches" $"searches:read");
   NavLeaf (nav $"/analytics" $"Analytics" $"logs:search");
   NavLeaf (nav $"/system" $"System" $"system:view");
   NavGroup $"Administration"
     [nav $"/settings/api-keys" $"API Keys" $"apikeys:own"; nav $"/users" $"Users" $"users:manage";
      nav $"/audit" $"Audit Log" $"audit:view"; nav $"/settings" $"Settings & Retention" $"system:view"]].

Section sidebar.
Context (session : option Session).

Definition nav_visible (i : NavItem) : bool := match nav_perm i with Some p => useCan session p | None => true end.
Definition nav_shown (i : NavItem) : bool := nav_disabled i || nav_visible i.

(** The entries that are drawn; a group without children is left out. *)
Definition Sidebar : list NavEntry :=
  omap (λ e, match e with
             | NavGroup label children =>
                 match List.filter nav_shown children with [] => None | kids => Some (NavGroup label kids) end
             | NavLeaf i => if nav_shown i then Some e else None
             end) NAV.
Definition entry_items (e : NavEntry) : list NavItem := match e with NavLeaf i => [i] | NavGroup _ l => l end.
Definition sidebar_links : list NavItem := Sidebar ≫= entry_items.
End sidebar.

(** [item.to && (pathname === item.to || ...)] *)
Definition nav_active (pathname : jsstr) (i : NavItem) : bool :=
  truthy (nav_to i)
  && (bool_decide (pathname = nav_to i)
      || (negb (bool_decide (nav_to i = $"/logs")) && starts_with (nav_to i ++ $"/") pathname)).

(** The button below toggles what is drawn, which a narrow screen also collapses. *)
Definition sidebar_collapsed (prefs_collapsed narrow : bool) : bool := prefs_collapsed || narrow.
Definition toggle_sidebar_button (prefs_collapsed narrow : bool) : bool := negb (sidebar_collapsed prefs_collapsed narrow).
Definition toggle_sidebar_key (prefs_collapsed : bool) : bool := negb prefs_collapsed.

(** * The palette *)

(** The entries of the group Navigate: label, target and the permission it needs. *)
Definition PALETTE_NAVIGATE : list NavItem :=
  [nav $"/dashboard" $"Dashboard" $"dashboard:view"; nav $"/logs" $"Logs explorer" $"logs:search";
   nav $"/logs/live" $"Live tail" $"logs:tail"; nav $"/analytics" $"Analytics" $"logs:search";
   MkNavItem $"/searches" $"Saved searches" None false; nav $"/sources" $"Sources" $"sources:read";
   nav $"/forwarding" $"Forwarding" $"system:view"; nav $"/system" $"System health" $"system:view";
   MkNavItem $"/settings/api-keys" $"API keys" None false; nav $"/users" $"Users" $"users:manage";
   nav $"/audit" $"Audit log" $"audit:view"; nav $"/settings" $"Settings & retention" $"system:view"].
Definition palette_links (session : option Session) : list NavItem := List.filter (nav_visible session) PALETTE_NAVIGATE.

(** The group that searches a preset range: the label and the patch of the explorer's search. *)
Definition palette_presets (session : option Session) : list (jsstr * (jsstr * jsstr)) :=
  if useCan session $"logs:search" then map (λ p, (preset_label p, (preset_from p, $"now"))) PRESETS else [].
(** The group of saved searches, each with its name; left out while there are none. *)
Definition palette_saved (saved : option (list (jsstr * SavedSearch))) : list (jsstr * ExplorerSearch) :=
  map (λ s, (s.1, savedSearchToExplorerSearch s.2)) (nullish saved []).

(** * The ingestion indicator *)

Record IngestSource := MkIngestSource { ing_rate : option Number; ing_dropped : option (list (jsstr * Number)) }.
Inductive DotStatus := dot_fail | dot_warn | dot_ok.
(** The rate, and the dot with the text of its tooltip. *)
Definition IngestRateIndicator (sources : list IngestSource) (storage_healthy : option bool) : Number * DotStatus * jsstr :=
  let rate := fold_left (λ n s, nadd n (nullish (ing_rate s) (num 0))) sources (num 0) in
  let dropped := existsb (λ s, existsb (λ kv : jsstr * Number, nlt (num 0) kv.2) (nullish (ing_dropped s) [])) sources in
  let status := if decide (storage_healthy = Some false) then dot_fail else if dropped then dot_warn else dot_ok in
  (rate, status,
   match status with
   | dot_fail => $"Storage writes failing"
   | _ => if dropped then $"Some logs were dropped (see System)" else $"Ingestion healthy"
   end).

(** * What is offered works *)

Definition NAV_ITEMS : list NavItem := NAV ≫= entry_items.

Lemma sidebar_links_visible session i : i ∈ sidebar_links session ↔ i ∈ NAV_ITEMS ∧ nav_shown session i = true.
Proof.
  assert (∀ kids x, x ∈ List.filter (nav_shown session) kids ↔ x ∈ kids ∧ nav_shown session x = true) as Hf
    by (intros kids x; rewrite !list_elem_of_In, filter_In; done).
  unfold sidebar_links, Sidebar, NAV_ITEMS. rewrite !list_elem_of_bind. setoid_rewrite list_elem_of_omap. split.
  - intros (e & Hi & e' & He & E). destruct e' as [j|label kids].
    + destruct (nav_shown session j) eqn:Ej; [|done]. injection E as <-. cbn in Hi. apply list_elem_of_singleton in Hi as ->.
      split; [|done]. exists (NavLeaf j). split; [left|done].
    + pose proof (Hf kids i) as Hk. destruct (List.filter _ kids) as [|k ks]; [done|]. injection E as <-. cbn in Hi. destruct (proj1 Hk Hi) as [Hi2 Hs2].
      split; [|done]. by exists (NavGroup label kids).
  - intros [(e & Hi & He) Hs]. destruct e as [j|label kids]; cbn in Hi.
    + apply list_elem_of_singleton in Hi as ->. exists (NavLeaf j). split; [left|]. exists (NavLeaf j). by rewrite Hs.
    + assert (i ∈ List.filter (nav_shown session) kids) as Hk by by apply Hf.
      exists (NavGroup label (List.filter (nav_shown session) kids)). split; [done|]. exists (NavGroup label kids). split; [done|].
      destruct (List.filter _ kids); [by apply elem_of_nil in Hk|done].
Qed.

Definition nav_route (to : jsstr) : option Route := List.find (λ r, negb (has_params r) && bool_decide (route_path r = to)) routeTree.

(** A link that no guard refuses to those it is shown to. *)
Definition nav_ok (j : NavItem) : bool :=
  negb (nav_disabled j)
  && match nav_route (nav_to j) with
     | None | Some loginRoute | Some indexRoute => false
     | Some analyticsRoute => bool_decide (nav_perm j = Some $"logs:search")
     | Some _ => true
     end.
Lemma nav_ok_all : forallb nav_ok (NAV_ITEMS ++ PALETTE_NAVIGATE) = true.
Proof. vm_compute. reflexivity. Qed.

(** Every link the shell offers opens.  A signed-in user who need not change
    the password first, following any entry of the sidebar or of the palette that
    the permissions show, gets the very page of that entry: no guard turns the
    user away. *)
Theorem shell_links_open `{RoutesLaws} s t answer i :
  t_session t = Some s → su_must_change_password (ses_user s) = false →
  i ∈ sidebar_links (Some s) ∨ i ∈ palette_links (Some s) →
  ∃ r, route_path r = nav_to i ∧ load answer (MkLocation (nav_to i) [] []) t = (t, Page r).
Proof.
  intros Hs Hm Hi.
  assert (∃ r, nav_route (nav_to i) = Some r ∧ r ≠ loginRoute ∧ route_beforeLoad r s = Ok ()) as (r & Hr & Hl & Hg).
  { pose proof nav_ok_all as Hall. rewrite forallb_forall in Hall. setoid_rewrite <- list_elem_of_In in Hall.
    assert (i ∈ NAV_ITEMS ++ PALETTE_NAVIGATE ∧ nav_visible (Some s) i = true) as [Hin Hv].
    { destruct Hi as [[Hn Hv]%sidebar_links_visible|Hp].
      - split; [apply elem_of_app; by left|]. unfold nav_shown in Hv.
        assert (nav_ok i = true) as [E _]%andb_prop by (apply Hall, elem_of_app; by left). apply negb_true_iff in E. by rewrite E in Hv.
      - unfold palette_links in Hp. rewrite list_elem_of_In, filter_In, <- list_elem_of_In in Hp. destruct Hp as [Hp Hv].
        split; [apply elem_of_app; by right|done]. }
    specialize (Hall i Hin). unfold nav_ok in Hall. apply andb_prop in Hall as [_ Hall].
    destruct (nav_route (nav_to i)) as [r|]; [|done]. exists r. split; [done|].
    destruct r; try done; (split; [done|]); try done.
    apply bool_decide_eq_true in Hall. unfold nav_visible, useCan in Hv. rewrite Hall in Hv. cbn -[bool_decide] in *. unfold analytics_beforeLoad. by rewrite Hv. }
  exists r. unfold nav_route in Hr. apply List.find_some in Hr as [_ Hr]. apply andb_prop in Hr as [Hp%negb_true_iff Hr%bool_decide_eq_true].
  split; [done|]. unfold load. cbn [l_pathname]. rewrite <- Hr, match_static by done. unfold app_beforeLoad, requireSession. rewrite Hs.
  cbn [mbind result_bind]. rewrite Hm. cbn [andb]. rewrite Hg. by destruct r.
Qed.

Lemma shell_links_open_witness :
  (load (Err unauthorized_error) (MkLocation $"/analytics" [] [])
     (session_ok (demo_session false [$"logs:search"] $"tok") init_tab)).2 = Page analyticsRoute.
Proof.
  destruct (shell_links_open (demo_session false [$"logs:search"] $"tok")
    (session_ok (demo_session false [$"logs:search"] $"tok") init_tab) (Err unauthorized_error)
    (nav $"/analytics" $"Analytics" $"logs:search")) as (r & Hr & E); [done|done|right; vm_decide|].
  cbn [nav_to nav] in E. rewrite E. cbn. vm_compute in Hr. by destruct r.
Defined.

(** What the sidebar hides and the palette still offers: the saved searches and
    the API keys. *)
Theorem palette_offers_more session i :
  i ∈ palette_links session →
  (∃ j, j ∈ sidebar_links session ∧ nav_to j = nav_to i) ∨ nav_to i = $"/searches" ∨ nav_to i = $"/settings/api-keys".
Proof.
  unfold palette_links. rewrite list_elem_of_In, filter_In, <- list_elem_of_In. intros [Hi Hv].
  assert (forallb (λ i, existsb (λ j, bool_decide (nav_to j = nav_to i) && bool_decide (nav_perm j = nav_perm i)) NAV_ITEMS
    || bool_decide (nav_to i ∈ [$"/searches"; $"/settings/api-keys"])) PALETTE_NAVIGATE = true) as Hall by (vm_compute; reflexivity).
  rewrite forallb_forall in Hall. apply list_elem_of_In in Hi. apply Hall, orb_prop in Hi as [Hi|Hi%bool_decide_eq_true].
  2: { right. rewrite !elem_of_cons, elem_of_nil in Hi. naive_solver. }
  apply existsb_exists in Hi as (j & Hj%list_elem_of_In & [Ht%bool_decide_eq_true Hp%bool_decide_eq_true]%andb_prop).
  left. exists j. split; [|done]. apply sidebar_links_visible. split; [done|]. unfold nav_shown, nav_visible in *. rewrite Hp, Hv. apply orb_true_r.
Qed.
Theorem palette_ignores_permissions :
  let viewer := Some (demo_session false [$"logs:search"] $"tok") in
  existsb (λ i, bool_decide (nav_to i = $"/settings/api-keys")) (palette_links viewer) = true
  ∧ existsb (λ i, bool_decide (nav_to i = $"/settings/api-keys")) (sidebar_links viewer) = false.
Proof. vm_compute. done. Qed.

(** The entry of the page on show is highlighted, and no other, except on the page
    of API keys, where the settings are too. *)
Theorem nav_active_entries i :
  i ∈ NAV_ITEMS → nav_to i ≠ $"/settings/api-keys" → List.filter (nav_active (nav_to i)) NAV_ITEMS = [i].
Proof.
  intros Hi Hne. assert (forallb (λ i, bool_decide (nav_to i = $"/settings/api-keys")
    || bool_decide (List.filter (nav_active (nav_to i)) NAV_ITEMS = [i])) NAV_ITEMS = true) as Hall by (vm_compute; reflexivity).
  rewrite forallb_forall in Hall. apply list_elem_of_In in Hi. apply Hall, orb_prop in Hi as [Hi|Hi]; by apply bool_decide_eq_true in Hi.
Qed.
Theorem nav_active_twice :
  map nav_label (List.filter (nav_active $"/settings/api-keys") NAV_ITEMS) = [$"API Keys"; $"Settings & Retention"].
Proof. vm_compute. reflexivity. Qed.

(** On a narrow screen the button only ever expands the wide sidebar, whatever it was. *)
Lemma narrow_toggle prefs_collapsed : toggle_sidebar_button prefs_collapsed true = false.
Proof. unfold toggle_sidebar_button, sidebar_collapsed. by rewrite orb_true_r. Qed.
