(* ===== verification/ExplorerPage.v ===== *)
(** The explorer page (src/frontend/src/features/explorer/ExplorerPage.tsx): its
    state, what it derives from the URL at each render, and its handlers.

    The rows a search has loaded are an argument of the handlers that read them.
    A patch of the URL is a function on the search parameters. *)
From Stdlib Require Import ZArith Lia SpecFloat.
From stdpp Require Import base list numbers strings.
From S2P Require Import Prelude Unicode FilterAst FilterLex FilterText Fields FilterSem JsNumber JsDate TimeRange FormUrl UrlState.
From S2P Require Import ApiClient QueryCache ApiHooks Hotkeys Router.
Open Scope Z_scope.

#[export] Instance QueryMode_eq_dec : EqDecision QueryMode.
Proof. solve_decision. Defined.
#[export] Instance ExplorerSearch_eq_dec : EqDecision ExplorerSearch.
Proof. solve_decision. Defined.

Definition REFRESH_OPTIONS : list (jsstr * Z) :=
  [($"Off", 0); ($"10s", 10000); ($"30s", 30000); ($"1m", 60000); ($"5m", 300000)].
Definition QUICK_COLUMNS : list jsstr :=
  [$"received_at"; $"source_ip"; $"facility"; $"source"; $"protocol"; $"format"; $"process_id"; $"message_id"].

(** * State *)

(** By what React sees that a memoised selection is another one: the inputs of
    the range, and the whole search object when it gives a filter or a native
    query, which are then parsed into new objects. *)
Abbreviation selection_id := (option (jsstr * jsstr * jsstr * Z * option jsstr * option ExplorerSearch)).

Record Explorer := MkExplorer {
  ex_search : ExplorerSearch;
  ex_runId : Z;
  ex_refreshMs : Z;
  ex_selectedIndex : option Z;
  ex_focusedColumn : Z;
  ex_drawerOpen : bool;
  ex_histogramOpen : bool;
  ex_exportOpen : bool;
  ex_saveOpen : bool;
  ex_timeOpen : bool;
  ex_askOpen : bool;
  ex_prevSelection : selection_id
}.
Definition explorer_init (s : ExplorerSearch) (id : selection_id) : Explorer :=
  MkExplorer s 0 0 None 0 false true false false false false id.

Definition with_search (f : ExplorerSearch → ExplorerSearch) (x : Explorer) : Explorer :=
  MkExplorer (f (ex_search x)) (ex_runId x) (ex_refreshMs x) (ex_selectedIndex x) (ex_focusedColumn x) (ex_drawerOpen x)
    (ex_histogramOpen x) (ex_exportOpen x) (ex_saveOpen x) (ex_timeOpen x) (ex_askOpen x) (ex_prevSelection x).
Definition with_runId (n : Z) (x : Explorer) : Explorer :=
  MkExplorer (ex_search x) n (ex_refreshMs x) (ex_selectedIndex x) (ex_focusedColumn x) (ex_drawerOpen x)
    (ex_histogramOpen x) (ex_exportOpen x) (ex_saveOpen x) (ex_timeOpen x) (ex_askOpen x) (ex_prevSelection x).
Definition with_selectedIndex (i : option Z) (x : Explorer) : Explorer :=
  MkExplorer (ex_search x) (ex_runId x) (ex_refreshMs x) i (ex_focusedColumn x) (ex_drawerOpen x)
    (ex_histogramOpen x) (ex_exportOpen x) (ex_saveOpen x) (ex_timeOpen x) (ex_askOpen x) (ex_prevSelection x).
Definition with_focusedColumn (c : Z) (x : Explorer) : Explorer :=
  MkExplorer (ex_search x) (ex_runId x) (ex_refreshMs x) (ex_selectedIndex x) c (ex_drawerOpen x)
    (ex_histogramOpen x) (ex_exportOpen x) (ex_saveOpen x) (ex_timeOpen x) (ex_askOpen x) (ex_prevSelection x).
Definition with_drawerOpen (b : bool) (x : Explorer) : Explorer :=
  MkExplorer (ex_search x) (ex_runId x) (ex_refreshMs x) (ex_selectedIndex x) (ex_focusedColumn x) b
    (ex_histogramOpen x) (ex_exportOpen x) (ex_saveOpen x) (ex_timeOpen x) (ex_askOpen x) (ex_prevSelection x).
Definition with_histogramOpen (b : bool) (x : Explorer) : Explorer :=
  MkExplorer (ex_search x) (ex_runId x) (ex_refreshMs x) (ex_selectedIndex x) (ex_focusedColumn x) (ex_drawerOpen x)
    b (ex_exportOpen x) (ex_saveOpen x) (ex_timeOpen x) (ex_askOpen x) (ex_prevSelection x).
Definition with_timeOpen (b : bool) (x : Explorer) : Explorer :=
  MkExplorer (ex_search x) (ex_runId x) (ex_refreshMs x) (ex_selectedIndex x) (ex_focusedColumn x) (ex_drawerOpen x)
    (ex_histogramOpen x) (ex_exportOpen x) (ex_saveOpen x) b (ex_askOpen x) (ex_prevSelection x).
Definition with_prevSelection (p : selection_id) (x : Explorer) : Explorer :=
  MkExplorer (ex_search x) (ex_runId x) (ex_refreshMs x) (ex_selectedIndex x) (ex_focusedColumn x) (ex_drawerOpen x)
    (ex_histogramOpen x) (ex_exportOpen x) (ex_saveOpen x) (ex_timeOpen x) (ex_askOpen x) p.

(** Patches of the search parameters. *)
Definition patch_q (q : option jsstr) (s : ExplorerSearch) : ExplorerSearch :=
  MkExplorerSearch (x_from s) (x_to s) (x_tz s) q (x_native s) (x_mode s) (x_cols s) (x_split s) (x_saved s).
Definition patch_cols (c : option jsstr) (s : ExplorerSearch) : ExplorerSearch :=
  MkExplorerSearch (x_from s) (x_to s) (x_tz s) (x_q s) (x_native s) (x_mode s) c (x_split s) (x_saved s).
Definition patch_split (f : option jsstr) (s : ExplorerSearch) : ExplorerSearch :=
  MkExplorerSearch (x_from s) (x_to s) (x_tz s) (x_q s) (x_native s) (x_mode s) (x_cols s) f (x_saved s).
Definition patch_time (from to : jsstr) (s : ExplorerSearch) : ExplorerSearch :=
  MkExplorerSearch from to (x_tz s) (x_q s) (x_native s) (x_mode s) (x_cols s) (x_split s) (x_saved s).
Definition patch_tz (tz : option jsstr) (s : ExplorerSearch) : ExplorerSearch :=
  MkExplorerSearch (x_from s) (x_to s) tz (x_q s) (x_native s) (x_mode s) (x_cols s) (x_split s) (x_saved s).
Definition patch_native (n : option jsstr) (s : ExplorerSearch) : ExplorerSearch :=
  MkExplorerSearch (x_from s) (x_to s) (x_tz s) (x_q s) n (x_mode s) (x_cols s) (x_split s) (x_saved s).
Definition patch_mode (m : QueryMode) (s : ExplorerSearch) : ExplorerSearch :=
  MkExplorerSearch (x_from s) (x_to s) (x_tz s) (x_q s) (x_native s) m (x_cols s) (x_split s) (x_saved s).
Definition patch_saved (id : option jsstr) (s : ExplorerSearch) : ExplorerSearch :=
  MkExplorerSearch (x_from s) (x_to s) (x_tz s) (x_q s) (x_native s) (x_mode s) (x_cols s) (x_split s) id.

(** * What a render derives *)

Definition ex_query (x : Explorer) : DecodedQuery := decodeQuery (x_q (ex_search x)) (x_native (ex_search x)).
Definition ex_filter (x : Explorer) : option FilterExpr := dq_filter (ex_query x).
Definition ex_columns (x : Explorer) : list jsstr := parseColumns (x_cols (ex_search x)).
Definition ex_tz (displayTz : jsstr) (x : Explorer) : jsstr := nullish (x_tz (ex_search x)) displayTz.

Section derive.
Context `{TimeZones} (displayTz : jsstr).

Definition ex_range (x : Explorer) (now : Z) : result TimeError Resolved :=
  resolveRange (x_from (ex_search x)) (x_to (ex_search x)) now (ex_tz displayTz x).

(** [None] while the query or the range is wrong; a range with an invalid date throws. *)
Definition ex_selection (x : Explorer) (now : Z) : result TimeError (option Selection) :=
  match ex_range x now, dq_error (ex_query x) with
  | Ok r, None => Some <$> buildSelection (r_start r) (r_end r) (ex_filter x) (dq_native (ex_query x)) (x_tz (ex_search x))
  | _, _ => Ok None
  end.

Definition ex_selection_id (x : Explorer) (now : Z) : selection_id :=
  match ex_range x now, dq_error (ex_query x) with
  | Ok _, None =>
      Some (x_from (ex_search x), x_to (ex_search x), ex_tz displayTz x, ex_runId x, x_tz (ex_search x),
            match ex_filter x, dq_native (ex_query x) with None, None => None | _, _ => Some (ex_search x) end)
  | _, _ => None
  end.

(** The state adjustment at render time. *)
Definition ex_render (x : Explorer) (now : Z) : Explorer :=
  let id := ex_selection_id x now in
  if decide (ex_prevSelection x = id) then x else with_selectedIndex None (with_prevSelection id x).

(** The queries of the page. *)
Definition ex_results (x : Explorer) (sel : option Selection) : UseQuery := useLogSearch sel None (num (ex_runId x)).
Definition ex_histogram (x : Explorer) (sel : option Selection) : UseQuery :=
  useHistogram (if ex_histogramOpen x then withoutPipes sel else None) (Some (nullish (x_split (ex_search x)) $"severity"))
    (num (ex_runId x)) (num 120).
End derive.

(** [results.data?.pages.flatMap((p) => p.rows ?? []) ?? \[\]] *)
Definition flat_rows (pages : option (list (option (list LogRow)))) : list LogRow :=
  nullish pages [] ≫= λ p, nullish p [].

(** * Handlers *)

Definition ex_run (x : Explorer) : Explorer := with_selectedIndex None (with_runId (ex_runId x + 1) x).

Definition setFilter (next : option FilterExpr) (x : Explorer) : Explorer := with_search (patch_q (encodeFilter next)) x.
Definition setColumns (next : list jsstr) (x : Explorer) : Explorer :=
  with_search (patch_cols (formatColumns (match next with [] => DEFAULT_COLUMNS | _ => next end))) x.

Definition onFilter (field value : jsstr) (x : Explorer) : Explorer := setFilter (addValueFilter (ex_filter x) field value false) x.
Definition onExclude (field value : jsstr) (x : Explorer) : Explorer := setFilter (addValueFilter (ex_filter x) field value true) x.
Definition onToggleColumn (field : jsstr) (x : Explorer) : Explorer :=
  let columns := ex_columns x in
  setColumns (if bool_decide (field ∈ columns) then List.filter (λ c, negb (bool_decide (c = field))) columns else columns ++ [field]) x.
Definition onVisualize (field : jsstr) (x : Explorer) : Explorer :=
  with_search (patch_split (if decide (field = $"severity") then None else Some field)) (with_histogramOpen true x).

(** Whether the next page is asked for. *)
Definition loadMore (hasNextPage isFetchingNextPage : bool) (rows : list LogRow) : bool :=
  hasNextPage && negb isFetchingNextPage && (Z.of_nat (length rows) <? MAX_LOADED_ROWS).

(** [a\[i\]] of an array: nothing outside it. *)
Definition at_index {A} (l : list A) (i : Z) : option A := if i <? 0 then None else l !! Z.to_nat i.
Definition selectedRow (rows : list LogRow) (x : Explorer) : option LogRow := ex_selectedIndex x ≫= at_index rows.

Definition focusedValue (rows : list LogRow) (x : Explorer) : option (jsstr * jsstr) :=
  row ← selectedRow rows x;
  let columns := ex_columns x in
  let col := match at_index columns (ex_focusedColumn x) with Some c => c | None => nullish (columns !! O) [] end in
  v ← getField row col;
  Some (if decide (col = $"timestamp") then $"_time" else col, v).

(** ** Keys *)

Definition key_down (rows : list LogRow) (x : Explorer) : Explorer :=
  with_selectedIndex
    (Some (Z.min (Z.of_nat (length rows) - 1) (match ex_selectedIndex x with None => 0 | Some i => i + 1 end))) x.
Definition key_up (x : Explorer) : Explorer :=
  with_selectedIndex (Some (Z.max 0 (match ex_selectedIndex x with None => 0 | Some i => i - 1 end))) x.
Definition key_left (x : Explorer) : Explorer := with_focusedColumn (Z.max 0 (ex_focusedColumn x - 1)) x.
Definition key_right (x : Explorer) : Explorer :=
  with_focusedColumn (Z.min (Z.of_nat (length (ex_columns x)) - 1) (ex_focusedColumn x + 1)) x.
Definition key_open (x : Explorer) : Explorer :=
  match ex_selectedIndex x with Some _ => with_drawerOpen true x | None => x end.
Definition key_filter (rows : list LogRow) (x : Explorer) : Explorer :=
  match focusedValue rows x with Some (f, v) => onFilter f v x | None => x end.
Definition key_exclude (rows : list LogRow) (x : Explorer) : Explorer :=
  match focusedValue rows x with Some (f, v) => onExclude f v x | None => x end.

(** The bindings in order, with the number of the handler each calls. *)
Definition explorer_bindings : bindings :=
  [($"/", 0%nat); ($"t", 1%nat); ($"mod+Enter", 2%nat); ($"j", 3%nat); ($"k", 4%nat); ($"ArrowDown", 3%nat); ($"ArrowUp", 4%nat);
   ($"h", 5%nat); ($"l", 6%nat); ($"Enter", 7%nat); ($"o", 7%nat); ($"Escape", 8%nat); ($"f", 9%nat); ($"x", 10%nat)].
(** The handler; [/] only moves the focus. *)
Definition explorer_key (handler : nat) (rows : list LogRow) (x : Explorer) : Explorer :=
  match handler with
  | 1%nat => with_timeOpen true x
  | 2%nat => ex_run x
  | 3%nat => key_down rows x
  | 4%nat => key_up x
  | 5%nat => key_left x
  | 6%nat => key_right x
  | 7%nat => key_open x
  | 8%nat => with_drawerOpen false x
  | 9%nat => key_filter rows x
  | 10%nat => key_exclude rows x
  | _ => x
  end.

(** ** Mouse *)

Definition select_row (i : Z) (x : Explorer) : Explorer := with_selectedIndex (Some i) x.
Definition open_row (i : Z) (x : Explorer) : Explorer := with_drawerOpen true (with_selectedIndex (Some i) x).
(** The drawer's arrows, absent at the ends. *)
Definition drawer_prev (x : Explorer) : option Explorer :=
  match ex_selectedIndex x with Some i => if 0 <? i then Some (with_selectedIndex (Some (i - 1)) x) else None | None => None end.
Definition drawer_next (rows : list LogRow) (x : Explorer) : option Explorer :=
  match ex_selectedIndex x with
  | Some i => if i <? Z.of_nat (length rows) - 1 then Some (with_selectedIndex (Some (i + 1)) x) else None
  | None => None
  end.
(** The actions of the drawer's fields. *)
Definition drawer_field (f : jsstr) : jsstr := if decide (f = $"timestamp") then $"_time" else f.
Definition drawer_filter (f v : jsstr) (x : Explorer) : Explorer := onFilter (drawer_field f) v x.
Definition drawer_exclude (f v : jsstr) (x : Explorer) : Explorer := onExclude (drawer_field f) v x.

(** The checkboxes of the column menu: the default columns, the shown ones, the quick ones. *)
Definition column_menu (x : Explorer) : list (jsstr * bool) :=
  map (λ c, (c, bool_decide (c ∈ ex_columns x))) (dedup (DEFAULT_COLUMNS ++ ex_columns x ++ QUICK_COLUMNS)).
Definition check_column (c : jsstr) (on : bool) (x : Explorer) : Explorer :=
  setColumns (if on then ex_columns x ++ [c] else List.filter (λ y, negb (bool_decide (y = c))) (ex_columns x)) x.
Definition reset_columns (x : Explorer) : Explorer := setColumns DEFAULT_COLUMNS x.

(** ** Time *)

(** The time picker: the zone is kept in the URL unless it is the display's. *)
Definition onTimeChange (displayTz from to : jsstr) (tz : option jsstr) (x : Explorer) : Explorer :=
  with_search (λ s, patch_tz (match tz with
                              | Some z => if truthy z && negb (bool_decide (z = displayTz)) then Some z else None
                              | None => None
                              end) (patch_time from to s)) x.
Definition onZoomOut `{TimeZones} (displayTz : jsstr) (now : Z) (x : Explorer) : Explorer :=
  match zoomOut (x_from (ex_search x)) (x_to (ex_search x)) now (ex_tz displayTz x) with
  | Ok (from, to) => with_search (patch_time from to) x
  | Err _ => x
  end.
(** A drag over the histogram or a click on a bucket. *)
Definition onZoom (start end_ : option Z) (x : Explorer) : result TimeError Explorer :=
  f ← toISOString start; t ← toISOString end_; Ok (with_search (patch_time f t) x).

(** [new URL(href)], whose parameters [set] rewrites; the link that is copied. *)
Definition share (absolute : bool) (range : option Resolved) (url : Location) : result TimeError Location :=
  match absolute, range with
  | true, Some r =>
      f ← toISOString (r_start r);
      t ← toISOString (r_end r);
      let ps := params_parse (if starts_with [QUESTION] (l_search url) then drop 1 (l_search url) else l_search url) in
      Ok (MkLocation (l_pathname url) (QUESTION :: params_to_string (params_set $"to" t (params_set $"from" f ps))) (l_hash url))
  | _, _ => Ok url
  end.

(** ** The query bar and the dialogs *)

Definition onNativeChange (t : jsstr) (x : Explorer) : Explorer :=
  with_search (patch_native (if truthy (trim t) then Some t else None)) x.
Definition onModeChange (m : QueryMode) (x : Explorer) : Explorer := with_search (patch_mode m) x.
Definition onSaved (id : jsstr) (x : Explorer) : Explorer := with_search (patch_saved (Some id)) x.

(** The first error of the results or else of the histogram, shown at the query
    when the server says the query is wrong; [positions] are those of its errors. *)
Definition nativeError (results histogram : option thrown) (positions : list Z) : option (jsstr * option Z) :=
  match (match results with Some e => Some e | None => histogram end) with
  | Some (ThrownApi e) => if decide (ae_code e = Some $"query_invalid") then Some (ae_message e, positions !! O) else None
  | _ => None
  end.

(** What fills the place of the results. *)
Inductive ResultsView := rv_error | rv_fix_query | rv_invalid | rv_loading | rv_table | rv_empty | rv_rows.
Definition results_view (isError isLoading tableMode : bool) (native : option (jsstr * option Z)) (selection : option Selection)
    (error : bool) (rows : list LogRow) : ResultsView :=
  if isError && negb (given native) then rv_error
  else if isError then rv_fix_query
  else if isLoading || negb (given selection) then if error then rv_invalid else rv_loading
  else if tableMode then rv_table
  else match rows with [] => rv_empty | _ => rv_rows end.

(** Free-text terms are highlighted in the message column. *)
Definition highlightNeedle (filter : option FilterExpr) : jsstr :=
  match List.filter (λ t, match t with
                          | TextExpr _ => true
                          | FieldValueExpr op_contains f _ => bool_decide (f = $"message")
                          | _ => false
                          end) (andTerms filter) with
  | first :: _ => match first with TextExpr v | FieldValueExpr _ _ v => v | e => formatFilter (Some e) end
  | [] => []
  end.

(** The footer below the rows. *)
Inductive Footer := f_loading | f_newest | f_scroll | f_end (n : nat).
Definition footer (isFetchingNextPage hasNextPage : bool) (rows : list LogRow) : Footer :=
  if isFetchingNextPage then f_loading
  else if MAX_LOADED_ROWS <=? Z.of_nat (length rows) then f_newest
  else if hasNextPage then f_scroll
  else f_end (length rows).
