(* ===== verification/ExplorerProps.v ===== *)
(** What the explorer page promises: editing by a cell, its columns, its
    selection, and links that keep their meaning. *)
From Stdlib Require Import ZArith Lia SpecFloat.
From stdpp Require Import base list numbers strings relations.
From S2P Require Import Prelude Unicode FilterAst FilterLex FilterText Fields FilterSem FilterProps JsNumber JsDate TimeRange TimeRangeProps.
From S2P Require Import FormUrl UrlState UrlStateProps ApiClient QueryCache ApiHooks Hotkeys Router ExplorerPage.
Open Scope Z_scope.

(** * Columns *)

Lemma elem_of_List_filter {A} (p : A → bool) (l : list A) x : x ∈ List.filter p l ↔ x ∈ l ∧ p x = true.
Proof. rewrite !list_elem_of_In, filter_In. done. Qed.

(** Whatever the parameter says, the page has columns, each once and well named. *)
Lemma parseColumns_ok cols :
  parseColumns cols ≠ [] ∧ NoDup (parseColumns cols) ∧ Forall (λ c, column_ok c = true) (parseColumns cols).
Proof.
  assert (DEFAULT_COLUMNS ≠ [] ∧ NoDup DEFAULT_COLUMNS ∧ Forall (λ c, column_ok c = true) DEFAULT_COLUMNS) as Hd.
  { split; [done|]. split; [vm_decide|]. by repeat constructor. }
  unfold parseColumns. destruct cols as [[|u s]|]; [done| |done].
  destruct (List.filter truthy _) as [|c l] eqn:E; [done|].
  destruct (dedup_from_nodup [] (c :: l)) as [Hn Hin]. unfold dedup. split; [done|]. split; [done|].
  apply Forall_forall. intros x [Hx _]%Hin. rewrite <- E in Hx. apply elem_of_List_filter in Hx as [Hx Ht].
  apply list_elem_of_In, in_map_iff in Hx as (w & <- & Hw%list_elem_of_In). unfold column_ok. rewrite Ht, trim_idem.
  rewrite bool_decide_true by done. cbn [andb]. apply trim_units.
  pose proof (split_on_units (λ c, (c =? COMMA)%N) (u :: s)) as Hs. rewrite Forall_forall in Hs. by apply Hs.
Qed.

Lemma ex_columns_set cols x : cols ≠ [] → NoDup cols → Forall (λ c, column_ok c = true) cols → ex_columns (setColumns cols x) = cols.
Proof. intros Hne Hn Hc. unfold ex_columns, setColumns. cbn. destruct cols; [done|]. by apply parse_format_columns. Qed.

(** Toggling a column.  A column that is not shown is appended, a shown one
    is removed, and the page never has no columns: removing the only one brings
    back the default ones.  The other columns keep their order, the query does not
    change, and the columns are always distinct. *)
Theorem toggle_column_spec field x :
  column_ok field = true →
  let x' := onToggleColumn field x in
  ex_columns x' = (if bool_decide (field ∈ ex_columns x)
                   then if bool_decide (ex_columns x = [field]) then DEFAULT_COLUMNS
                        else List.filter (λ c, negb (bool_decide (c = field))) (ex_columns x)
                   else ex_columns x ++ [field])
  ∧ ex_query x' = ex_query x ∧ NoDup (ex_columns x') ∧ ex_columns x' ≠ [].
Proof.
  intros Hf x'. pose proof (parseColumns_ok (x_cols (ex_search x))) as (Hne & Hn & Hc).
  split; [|split; [done|split; apply parseColumns_ok]]. fold (ex_columns x) in *. subst x'. unfold onToggleColumn.
  case_bool_decide as Hin.
  - set (l := List.filter _ _). assert (NoDup l ∧ Forall (λ c, column_ok c = true) l) as [Hln Hlc].
    { split; [by apply NoDup_ListNoDup, List.NoDup_filter, NoDup_ListNoDup|]. apply Forall_forall. intros c [Hcc _]%elem_of_List_filter.
      rewrite Forall_forall in Hc. auto. }
    case_bool_decide as E.
    + assert (l = []) as -> by (subst l; rewrite E; cbn; by rewrite bool_decide_true). reflexivity.
    + apply ex_columns_set; [|done..]. intros El. apply E.
      assert (∀ c, c ∈ ex_columns x → c = field) as Hall.
      { intros c Hcc. destruct (decide (c = field)); [done|]. assert (c ∈ l) as Hl; [|rewrite El in Hl; by apply elem_of_nil in Hl].
        apply elem_of_List_filter. by rewrite bool_decide_false. }
      clear -Hall Hn Hin. destruct (ex_columns x) as [|a [|b r]]; [by apply elem_of_nil in Hin| |].
      * f_equal. apply Hall. left.
      * apply NoDup_cons in Hn as [Ha _]. exfalso. apply Ha. rewrite (Hall a) by left. rewrite <- (Hall b) by (right; left). left.
  - apply ex_columns_set.
    + by destruct (ex_columns x).
    + apply NoDup_app. split; [done|]. split; [|apply NoDup_singleton]. intros c Hcc ->%list_elem_of_singleton. done.
    + apply Forall_app. split; [done|]. by constructor.
Qed.

Definition demo_search (q cols : option jsstr) : ExplorerSearch := MkExplorerSearch $"now-1h" $"now" None q None visual cols None None.
Lemma toggle_column_spec_witness :
  ex_columns (onToggleColumn $"labels.env" (explorer_init (demo_search None (Some $"message")) None)) = [$"message"; $"labels.env"]
  ∧ ex_columns (onToggleColumn $"message" (explorer_init (demo_search None (Some $"message")) None)) = DEFAULT_COLUMNS.
Proof.
  split; (etrans; [apply (toggle_column_spec); reflexivity|]); vm_compute; reflexivity.
Defined.

(** * Editing by a cell *)

Lemma ex_filter_ok x : query_ok (ex_filter x) = true.
Proof.
  unfold ex_filter, ex_query, decodeQuery. destruct (parseFilter _) as [[e|]|] eqn:E; [|done..].
  apply parseFilter_good in E as [Hc Hp]. cbn. by rewrite Hc.
Qed.

Lemma ex_query_setFilter f x : query_ok f = true →
  ex_filter (setFilter f x) = f ∧ dq_error (ex_query (setFilter f x)) = None
  ∧ dq_native (ex_query (setFilter f x)) = dq_native (ex_query x).
Proof.
  intros Hq. unfold ex_filter, ex_query, setFilter, decodeQuery. cbn. unfold encodeFilter.
  rewrite nullish_or_undef, formatFilter_query by done. destruct (parseFilter (nullish (x_q (ex_search x)) [])); done.
Qed.

Lemma getField_time row : getField row $"_time" = getField row $"timestamp".
Proof. reflexivity. Qed.

(** The cell in focus is a value of the selected row, under the name filters use. *)
Lemma focusedValue_cell rows x f v : focusedValue rows x = Some (f, v) →
  ∃ row, selectedRow rows x = Some row ∧ getField row f = Some v ∧ truthy f = true.
Proof.
  unfold focusedValue. destruct (selectedRow rows x) as [row|] eqn:Er; [|done]. cbn -[getField].
  set (col := match at_index _ _ with Some c => c | None => _ end).
  assert (truthy col = true) as Hc.
  { pose proof (parseColumns_ok (x_cols (ex_search x))) as (Hne & _ & Hc). fold (ex_columns x) in Hne, Hc.
    assert (col ∈ ex_columns x) as Hin.
    { subst col. unfold at_index. destruct (ex_focusedColumn x <? 0); [|destruct (ex_columns x !! Z.to_nat _) eqn:E; [by apply list_elem_of_lookup_2 in E|]].
      all: destruct (ex_columns x); [done|left]. }
    rewrite Forall_forall in Hc. apply Hc in Hin. unfold column_ok in Hin. by apply andb_prop in Hin as [[? _]%andb_prop _]. }
  destruct (getField row col) as [w|] eqn:Eg; [|done]. cbn -[getField]. intros [= <- <-]. exists row. split; [done|].
  destruct (decide (col = $"timestamp")) as [E|]; [|done]. rewrite getField_time, <- E. done.
Qed.

Lemma selects_value `{RegExpEngine} filter field value (exclude : bool) row : query_ok filter = true → selects filter row = true →
  selects (addValueFilter filter field value exclude) row = xorb exclude (bool_decide (nullish (getField row field) [] = value)).
Proof.
  intros Hq Hs. rewrite match_andTerms, addValueFilter_terms, forallb_app by done. rewrite match_andTerms in Hs.
  rewrite (forallb_filter _ _ _ Hs). cbn [forallb andb]. rewrite andb_true_r. by destruct exclude.
Qed.

(** Filtering and excluding by the cell in focus.  Pressing [f] leaves a
    query without an error whose rows are exactly the former ones that have the
    cell's value in its column, the selected row among them; pressing [x] leaves
    exactly the others, so the selected row is gone; the native query stays. *)
Theorem focused_cell_filters `{RegExpEngine} rows x field value row :
  focusedValue rows x = Some (field, value) → selectedRow rows x = Some row → selects (ex_filter x) row = true →
  let kept := key_filter rows x in
  let dropped := key_exclude rows x in
  dq_error (ex_query kept) = None ∧ dq_error (ex_query dropped) = None
  ∧ dq_native (ex_query kept) = dq_native (ex_query x) ∧ dq_native (ex_query dropped) = dq_native (ex_query x)
  ∧ selects (ex_filter kept) row = true ∧ selects (ex_filter dropped) row = false
  ∧ (∀ r, selects (ex_filter x) r = true →
       selects (ex_filter kept) r = bool_decide (nullish (getField r field) [] = value)
       ∧ selects (ex_filter dropped) r = negb (selects (ex_filter kept) r)).
Proof.
  intros Hf Hr Hs kept dropped. destruct (focusedValue_cell _ _ _ _ Hf) as (row' & Hr' & Hg & Ht).
  assert (row' = row) as -> by congruence.
  subst kept dropped. unfold key_filter, key_exclude. rewrite Hf. unfold onFilter, onExclude.
  pose proof (ex_filter_ok x) as Hq.
  destruct (ex_query_setFilter (addValueFilter (ex_filter x) field value false) x) as (-> & -> & ->); [by apply addValueFilter_ok|].
  destruct (ex_query_setFilter (addValueFilter (ex_filter x) field value true) x) as (-> & -> & ->); [by apply addValueFilter_ok|].
  split_and!; try done.
  - rewrite selects_value by done. rewrite Hg. cbn. by rewrite bool_decide_true.
  - rewrite selects_value by done. rewrite Hg. cbn. by rewrite bool_decide_true.
  - intros r Hsr. rewrite !selects_value by done. cbn. split; [done|]. by destruct (bool_decide _).
Qed.

Definition demo_row : LogRow :=
  MkLogRow $"2026-09-14T10:00:00Z" None (Some $"login failed") (Some $"web-1") None None None None None (Some $"err") None None None None
    (Some $"sshd") None None None None None None None None None None None None None (MkRowRef [] []).
Definition demo_page : Explorer :=
  key_right (key_down [demo_row] (explorer_init (demo_search (Some $"failed") None) None)).
Lemma focused_cell_filters_witness :
  selects (H := no_regexp) (ex_filter (key_filter [demo_row] demo_page)) demo_row = true
  ∧ x_q (ex_search (key_filter [demo_row] demo_page)) = Some ([DQUOTE] ++ $"failed" ++ [DQUOTE] ++ $" AND hostname=web-1").
Proof.
  split; [|vm_compute; reflexivity].
  destruct (focused_cell_filters (H := no_regexp) [demo_row] demo_page $"hostname" $"web-1" demo_row) as (_ & _ & _ & _ & G & _);
    [vm_compute; reflexivity..|exact G].
Defined.

(** * The selection *)

(** A page with the rows loaded so far.  Rows are appended; a render that sees
    another selection starts over. *)
Inductive ex_step `{TimeZones} (displayTz : jsstr) : Explorer * list LogRow → Explorer * list LogRow → Prop :=
| es_key h x rows : ex_step displayTz (x, rows) (explorer_key h rows x, rows)
| es_select i x rows : 0 <= i < Z.of_nat (length rows) → ex_step displayTz (x, rows) (select_row i x, rows)
| es_open i x rows : 0 <= i < Z.of_nat (length rows) → ex_step displayTz (x, rows) (open_row i x, rows)
| es_prev x x' rows : drawer_prev x = Some x' → ex_step displayTz (x, rows) (x', rows)
| es_next x x' rows : drawer_next rows x = Some x' → ex_step displayTz (x, rows) (x', rows)
| es_url f x rows : ex_step displayTz (x, rows) (with_search f x, rows)
| es_more more x rows : ex_step displayTz (x, rows) (x, rows ++ more)
| es_render now x rows rows' : (ex_prevSelection x = ex_selection_id displayTz x now → rows' = rows) →
    ex_step displayTz (x, rows) (ex_render displayTz x now, rows').

Definition ex_inv (p : Explorer * list LogRow) : Prop :=
  (∀ i, ex_selectedIndex p.1 = Some i → -1 <= i < Z.max 1 (Z.of_nat (length p.2))) ∧ 0 <= ex_focusedColumn p.1.

Lemma columns_length x : (0 < length (ex_columns x))%nat.
Proof. destruct (parseColumns_ok (x_cols (ex_search x))) as (Hne & _). unfold ex_columns. destruct (parseColumns _); [done|cbn; lia]. Qed.

Lemma explorer_key_inv h x rows : ex_inv (x, rows) → ex_inv (explorer_key h rows x, rows).
Proof.
  unfold ex_inv. cbn [fst snd]. intros [Hi Hc]. pose proof (columns_length x) as Hl.
  destruct h as [|[|[|[|[|[|[|[|[|[|[|h]]]]]]]]]]]; cbn [explorer_key];
    try done; try (unfold key_filter, key_exclude; case_match; [destruct p|]; done).
  - split; [|done]. intros i [= <-]. destruct (ex_selectedIndex x) as [j|]; [specialize (Hi j eq_refl)|]; lia.
  - split; [|done]. intros i [= <-]. destruct (ex_selectedIndex x) as [j|]; [specialize (Hi j eq_refl)|]; lia.
  - split; [done|]. cbn. lia.
  - split; [done|]. cbn. lia.
  - unfold key_open. destruct (ex_selectedIndex x) eqn:E; [|by rewrite E]. cbn. by rewrite E.
Qed.

Lemma ex_step_inv `{TimeZones} d p p' : ex_step d p p' → ex_inv p → ex_inv p'.
Proof.
  unfold ex_inv. destruct 1 as [h x rows|i x rows Hi|i x rows Hi|x x' rows E|x x' rows E|f x rows|more x rows|now x rows rows' Hr];
    cbn [fst snd]; intros [Hx Hc].
  - by apply (explorer_key_inv h x rows).
  - split; [|done]. intros j [= <-]. lia.
  - split; [|done]. intros j [= <-]. lia.
  - unfold drawer_prev in E. destruct (ex_selectedIndex x) as [i|]; [|done]. destruct (0 <? i) eqn:Hp; [|done].
    injection E as <-. split; [|done]. intros j [= <-]. specialize (Hx i eq_refl). lia.
  - unfold drawer_next in E. destruct (ex_selectedIndex x) as [i|]; [|done]. destruct (i <? _) eqn:Hp; [|done].
    injection E as <-. split; [|done]. intros j [= <-]. specialize (Hx i eq_refl). lia.
  - done.
  - rewrite length_app. split; [|done]. intros i Hi. specialize (Hx i Hi). lia.
  - unfold ex_render. destruct (decide _) as [E|]; [|done]. by rewrite (Hr E).
Qed.

(** The selection stays on the rows.  Through any sequence of keys, clicks,
    drawer arrows, URL changes, loaded pages and new queries the selected index is
    at least -1 and below the number of rows (or 0 while there are none), so once
    rows are there a selection that is not the -1 of an early key is a row. *)
Theorem selection_in_bounds `{TimeZones} displayTz s id x rows :
  rtc (ex_step displayTz) (explorer_init s id, []) (x, rows) →
  match ex_selectedIndex x with
  | Some i => -1 <= i < Z.max 1 (Z.of_nat (length rows)) ∧ (rows ≠ [] → 0 <= i → is_Some (selectedRow rows x))
  | None => selectedRow rows x = None
  end ∧ 0 <= ex_focusedColumn x.
Proof.
  intros Hr. assert (ex_inv (x, rows)) as [Hi Hc].
  { remember (explorer_init s id, []) as p eqn:Ep. remember (x, rows) as p' eqn:Ep'. assert (ex_inv p) as H0 by (by subst).
    clear Ep Ep'. induction Hr as [|a b c Hs _ IH]; [done|]. by apply IH, (ex_step_inv displayTz a). }
  split; [|done]. unfold selectedRow. destruct (ex_selectedIndex x) as [i|] eqn:E; [|done]. specialize (Hi i E). cbn in Hi.
  split; [done|]. intros Hne H0. cbn. unfold at_index. destruct (i <? 0) eqn:Hneg; [lia|]. apply lookup_lt_is_Some.
  destruct rows; [done|]. cbn in *. lia.
Qed.

Lemma selection_in_bounds_witness :
  is_Some (selectedRow [demo_row] (key_down [demo_row] (explorer_init (demo_search None None) None))).
Proof.
  set (x := key_down _ _).
  assert (rtc (ex_step (H := utc_zones) $"UTC") (explorer_init (demo_search None None) None, []) (x, [demo_row])) as Hr.
  { eapply rtc_l; [apply (es_more _ [demo_row])|]. apply rtc_once. apply (es_key _ 3). }
  destruct (selection_in_bounds (H := utc_zones) _ _ _ _ _ Hr) as [[_ G] _]. apply G; [done|]. vm_compute. congruence.
Defined.

(** The -1: [j] before any row is there, then rows, then Enter opens the drawer on
    no row at all. *)
Theorem early_key_empty_drawer `{TimeZones} displayTz s id rows : rows ≠ [] →
  ∃ x, rtc (ex_step displayTz) (explorer_init s id, []) (x, rows) ∧ ex_drawerOpen x = true ∧ selectedRow rows x = None.
Proof.
  intros Hne. exists (key_open (key_down [] (explorer_init s id))). split; [|done].
  eapply rtc_l; [apply (es_key _ 3)|]. eapply rtc_l; [apply (es_more _ rows)|]. apply rtc_once. apply (es_key _ 7).
Qed.

(** A column change keeps the selection only while there is no filter: the filter
    is parsed anew from the whole search object, and the selection with it. *)
Theorem column_change_resets :
  let toggled q := ex_render (H := utc_zones) $"UTC"
    (onToggleColumn $"source_ip" (key_down [demo_row] (ex_render (H := utc_zones) $"UTC" (explorer_init (demo_search q None) None) 0))) 0 in
  ex_selectedIndex (toggled None) = Some 0 ∧ ex_selectedIndex (toggled (Some $"failed")) = None.
Proof. vm_compute. done. Qed.

(** A key that ends a sequence of the shell is also a shortcut of the page: after
    [g], [l] goes to the logs and moves the column, [t] goes to the live tail and
    opens the time picker. *)
Definition plain_key (k : jsstr) : KeyboardEvent := MkKey k false false false None.
Definition two_keys (bs : bindings) (k1 k2 : jsstr) : option nat :=
  (onKey (plain_key k2) (onKey (plain_key k1) (effect true (mounted bs))).1).2.
Theorem sequence_keys_collide :
  two_keys shell_bindings $"g" $"l" = Some 4%nat ∧ two_keys explorer_bindings $"g" $"l" = Some 6%nat
  ∧ two_keys shell_bindings $"g" $"t" = Some 5%nat ∧ two_keys explorer_bindings $"g" $"t" = Some 1%nat.
Proof. vm_compute. done. Qed.

(** Escape closes the drawer, but not while somebody types in an input; the shortcut to run
    the query works there. *)
Definition key_in_input (k : jsstr) (ctrl : bool) : KeyboardEvent := MkKey k false ctrl false (Some (MkTarget $"INPUT" false false)).
Theorem escape_ignored_in_inputs :
  let page := effect true (mounted explorer_bindings) in
  is_Some (onKey (plain_key $"Escape") page).2 ∧ (onKey (key_in_input $"Escape" false) page).2 = None
  ∧ is_Some (onKey (key_in_input $"Enter" true) page).2.
Proof. vm_compute. split_and!; [by eexists|done|by eexists]. Qed.

(** * Links *)

Lemma params_set_get k v k' ps : assoc_get (params_set k v ps) k' = if decide (k = k') then Some v else assoc_get ps k'.
Proof.
  assert (∀ ps, assoc_get (params_remove k ps) k' = if decide (k = k') then None else assoc_get ps k') as Hr.
  { clear. induction ps as [|[a b] ps IH]; cbn; [by destruct (decide _)|].
    destruct (decide (a = k)) as [->|]; [rewrite IH; by destruct (decide (k = k'))|]. cbn. rewrite IH.
    destruct (decide (a = k')), (decide (k = k')); congruence. }
  induction ps as [|[a b] ps IH]; cbn; [done|]. destruct (decide (a = k)) as [->|]; cbn; [rewrite Hr|rewrite IH];
    destruct (decide (k = k')); try done. destruct (decide (a = k')); congruence.
Qed.

Lemma params_set_nodup k v ps : NoDup ps.*1 → NoDup (params_set k v ps).*1.
Proof.
  assert (∀ ps, k ∉ ps.*1 → params_remove k ps = ps) as Hr.
  { clear. induction ps as [|[a b] ps IH]; [done|]. cbn. intros Hk. rewrite not_elem_of_cons in Hk. destruct Hk as [Hne Hk].
    rewrite decide_False by done. by rewrite IH. }
  assert (∀ ps x, x ∈ (params_set k v ps).*1 → x = k ∨ x ∈ ps.*1) as Hin.
  { clear -Hr. induction ps as [|[a b] ps IH]; cbn; [intros x ->%list_elem_of_singleton; by left|]. intros x.
    destruct (decide (a = k)) as [->|]; cbn; rewrite !elem_of_cons.
    - intros [->|Hx]; [by left|right; right]. clear -Hx. induction ps as [|[a b] ps IH]; cbn in *; [done|].
      destruct (decide (a = k)); [right; auto|]. cbn in Hx. rewrite elem_of_cons in *. naive_solver.
    - intros [->|Hx%IH]; [by right; left|naive_solver]. }
  induction ps as [|[a b] ps IH]; cbn; [intros _; apply NoDup_singleton|]. intros [Ha Hd]%NoDup_cons.
  destruct (decide (a = k)) as [->|Hne]; cbn; [rewrite Hr by done; by constructor|].
  constructor; [|auto]. intros [->|?]%Hin; done.
Qed.

Lemma params_set_forall k v ps (P : jsstr * jsstr → Prop) : P (k, v) → Forall P ps → Forall P (params_set k v ps).
Proof.
  intros Hk. induction 1 as [|[a b] ps Hp Hps IH]; cbn; [by repeat constructor|]. destruct (decide (a = k)); constructor; try done.
  clear -Hps. induction Hps as [|[a b] ps Hp _ IH]; cbn; [done|]. destruct (decide (a = k)); [done|by constructor].
Qed.

Lemma ascii_well_formed s : forallb (λ c, (c <? 128)%N) s = true → well_formed s = true.
Proof.
  induction s as [|c s IH]; [done|]. cbn [forallb well_formed]. intros [Hc Hs]%andb_prop.
  rewrite IH by done. btrue. assert (is_high c = false ∧ is_low c = false) as [-> ->].
  { unfold is_high, is_low. split; units. }
  cbn. rewrite andb_true_r. apply N.ltb_lt. lia.
Qed.
Lemma digits_ascii s : forallb is_digit s = true → forallb (λ c, (c <? 128)%N) s = true.
Proof. induction s as [|c s IH]; [done|]. cbn [forallb]. intros [Hc Hs]%andb_prop. rewrite IH by done. unfold is_digit, in_range in Hc. btrue. rewrite andb_true_r. apply N.ltb_lt. lia. Qed.
Lemma iso_well_formed t : well_formed (iso_string t) = true.
Proof.
  apply ascii_well_formed. unfold iso_string. destruct (civil_of_days _) as [[y m] d]. unfold pad2, pad3, iso_year.
  rewrite !forallb_app, !(digits_ascii (pad_left _ _)) by apply pad_left_digits.
  destruct ((0 <=? y) && (y <=? 9999)); [by rewrite digits_ascii by apply pad_left_digits|].
  cbn [forallb]. rewrite digits_ascii by apply pad_left_digits. by destruct (y <? 0).
Qed.

(** The search string without its question mark, parsed. *)
Lemma params_of_search search :
  NoDup search.*1 → Forall (λ kv, well_formed kv.1 = true ∧ well_formed kv.2 = true) (search_params search) →
  let s := stringifySearchParams search in
  params_parse (if starts_with [QUESTION] s then drop 1 s else s) = search_params search.
Proof.
  intros Hd Hw. assert (NoDup (search_params search).*1) as Hd' by (eapply sublist_NoDup; [exact Hd|apply search_params_keys]).
  unfold stringifySearchParams. rewrite build_params by done. cbn [app].
  destruct (params_to_string (search_params search)) as [|c r] eqn:E.
  - apply params_to_string_nil in E. by rewrite E.
  - cbn [truthy]. change (starts_with [QUESTION] (QUESTION :: c :: r)) with true. cbv iota.
    change (drop 1 (QUESTION :: c :: r)) with (drop 0 (c :: r)). rewrite drop_0, <- E. by apply params_parse_to_string.
Qed.

Lemma parse_params ps : NoDup ps.*1 → Forall (λ kv, well_formed kv.1 = true ∧ well_formed kv.2 = true) ps → ps ≠ [] →
  parseSearchParams (QUESTION :: params_to_string ps) = ps.
Proof.
  intros Hd Hw Hne. unfold parseSearchParams. change (starts_with [QUESTION] (QUESTION :: params_to_string ps)) with true. cbv iota.
  change (drop 1 (QUESTION :: params_to_string ps)) with (drop 0 (params_to_string ps)). rewrite drop_0, params_parse_to_string by done.
  by rewrite build_object.
Qed.

(** A link with absolute time keeps its window.  For a page whose range is
    valid, the copied link opens on the same page with every other parameter as it
    was, and its range resolves to the very same instants whenever, and in
    whatever time zone, it is opened. *)
Theorem shared_link_absolute `{TimeZones} s e search path hash :
  0 <= year_of s <= 9999 → 0 <= year_of e <= 9999 → s < e →
  NoDup search.*1 → Forall (λ kv, well_formed kv.1 = true ∧ well_formed kv.2 = true) (search_params search) →
  ∃ url f t, share true (Some (MkResolved (Some s) (Some e))) (MkLocation path (stringifySearchParams search) hash) = Ok url
  ∧ l_pathname url = path ∧ l_hash url = hash
  ∧ assoc_get (parseSearchParams (l_search url)) $"from" = Some f
  ∧ assoc_get (parseSearchParams (l_search url)) $"to" = Some t
  ∧ (∀ now tz, resolveRange f t now tz = Ok (MkResolved (Some s) (Some e)))
  ∧ ∀ k, k ≠ $"from" → k ≠ $"to" → assoc_get (parseSearchParams (l_search url)) k = assoc_get (search_params search) k.
Proof.
  intros Hs He Hlt Hd Hw. eexists _, (iso_string s), (iso_string e). split; [reflexivity|]. cbn [l_pathname l_hash l_search].
  rewrite params_of_search by done. set (ps := params_set $"to" _ _).
  assert (NoDup (search_params search).*1) as Hd' by (eapply sublist_NoDup; [exact Hd|apply search_params_keys]).
  assert (parseSearchParams (QUESTION :: params_to_string ps) = ps) as ->.
  { apply parse_params; [by apply params_set_nodup, params_set_nodup| |].
    - apply params_set_forall; [split; [vm_compute; reflexivity|apply iso_well_formed]|].
      apply params_set_forall; [split; [vm_compute; reflexivity|apply iso_well_formed]|done].
    - intros E. pose proof (params_set_get $"to" (iso_string e) $"to" (params_set $"from" (iso_string s) (search_params search))) as G.
      fold ps in G. rewrite E, decide_True in G by done. done. }
  subst ps. split; [done|]. split; [done|]. split; [|split; [|split]].
  - rewrite params_set_get, decide_False by (vm_compute; congruence). by rewrite params_set_get, decide_True.
  - by rewrite params_set_get, decide_True.
  - intros now tz. unfold resolveRange. rewrite !resolve_iso by done. cbn. by replace (e <=? s) with false by lia.
  - intros k Hf Ht. by rewrite !params_set_get, !decide_False.
Qed.

Lemma shared_link_absolute_witness :
  ∃ url f t, share true (Some (MkResolved (Some 1789380000000) (Some 1789383600000)))
      (MkLocation $"/logs" (stringifySearchParams [($"from", VString $"now-1h"); ($"q", VString $"a=b")]) []) = Ok url
  ∧ resolveRange (H := utc_zones) f t 0 $"UTC" = Ok (MkResolved (Some 1789380000000) (Some 1789383600000))
  ∧ assoc_get (parseSearchParams (l_search url)) $"q" = Some $"a=b".
Proof.
  destruct (shared_link_absolute (H := utc_zones) 1789380000000 1789383600000 [($"from", VString $"now-1h"); ($"q", VString $"a=b")] $"/logs" [])
    as (url & f & t & E & _ & _ & _ & _ & G & K); [split; vm_compute; congruence..|lia|vm_decide|repeat constructor|].
  exists url, f, t. split; [exact E|]. split; [apply G|]. rewrite K by (vm_compute; congruence). vm_compute. reflexivity.
Defined.
