(* ===== verification/QueryEditor.v ===== *)
(** The query bar and the filter editor (src/frontend/src/features/explorer/QueryBar.tsx
    and FilterBuilder.tsx): their state, their handlers, and what their callbacks do
    to the explorer page. *)
From Stdlib Require Import ZArith Lia SpecFloat.
From stdpp Require Import base list numbers strings.
From S2P Require Import Prelude Unicode FilterAst FilterLex FilterText FilterTextFacts FilterRoundTrip FilterProps Fields FilterSem.
From S2P Require Import JsNumber JsDate TimeRange UrlState UrlStateProps ApiClient QueryCache ApiHooks Router ExplorerPage ExplorerProps.
Open Scope nat_scope.

(** * The query bar *)

(** [editing]: the index of a term, or a new one. *)
Inductive Editing := edit_none | edit_new | edit_term (i : nat).
Record QueryBar := MkQueryBar {
  qb_text : jsstr; qb_textError : option jsstr; qb_editing : Editing; qb_draftNative : jsstr; qb_prevNative : jsstr
}.
Definition qb_init (native : jsstr) : QueryBar := MkQueryBar [] None edit_none native native.
(** The state adjustment at render time. *)
Definition qb_render (native : jsstr) (b : QueryBar) : QueryBar :=
  if decide (qb_prevNative b = native) then b else MkQueryBar (qb_text b) (qb_textError b) (qb_editing b) native native.

(** The callbacks of the bar, in the order they are called. *)
Inductive qb_call := c_filter (f : option FilterExpr) | c_native (t : jsstr) | c_mode (m : QueryMode) | c_run.

Definition set_text (t : jsstr) (b : QueryBar) : QueryBar := MkQueryBar t None (qb_editing b) (qb_draftNative b) (qb_prevNative b).
Definition set_editing (e : Editing) (b : QueryBar) : QueryBar :=
  MkQueryBar (qb_text b) (qb_textError b) e (qb_draftNative b) (qb_prevNative b).

Definition replaceTerms (next : list FilterExpr) : list qb_call := [c_filter (combineAnd next)].

Definition commitText (filter : option FilterExpr) (b : QueryBar) : QueryBar * list qb_call :=
  let t := trim (qb_text b) in
  if negb (truthy t) then (b, [c_run])
  else
    match parseFilter t with
    | Ok parsed =>
        (MkQueryBar [] None (qb_editing b) (qb_draftNative b) (qb_prevNative b),
         match parsed with Some p => replaceTerms (andTerms filter ++ andTerms (Some p)) | None => [] end)
    | Err e => (MkQueryBar (qb_text b) (Some (error_message e)) (qb_editing b) (qb_draftNative b) (qb_prevNative b), [])
    end.

(** [terms.slice(0, -1)] *)
Definition slice_last {A} (l : list A) : list A := take (length l - 1) l.
Definition qb_onKeyDown (key : jsstr) (filter : option FilterExpr) (b : QueryBar) : QueryBar * list qb_call :=
  let terms := andTerms filter in
  if decide (key = $"Enter") then commitText filter b
  else if decide (key = $"Backspace") then
    if bool_decide (qb_text b = []) && (0 <? length terms) then (b, replaceTerms (slice_last terms)) else (b, [])
  else (b, []).

(** The buttons of a term, and its editor. *)
Definition negate_term (i : nat) (filter : option FilterExpr) : list qb_call :=
  replaceTerms (imap (λ j t, if j =? i then negate t else t) (andTerms filter)).
Definition remove_term (i : nat) (filter : option FilterExpr) : list qb_call :=
  replaceTerms (concat (imap (λ j t, if j =? i then [] else [t]) (andTerms filter))).
Definition edit_submit (i : nat) (expr : FilterExpr) (filter : option FilterExpr) (b : QueryBar) : QueryBar * list qb_call :=
  (set_editing edit_none b,
   replaceTerms (concat (imap (λ j t, if j =? i then andTerms (Some expr) else [t]) (andTerms filter)))).
Definition new_submit (expr : FilterExpr) (filter : option FilterExpr) (b : QueryBar) : QueryBar * list qb_call :=
  (set_editing edit_none b, replaceTerms (andTerms filter ++ andTerms (Some expr))).

Definition run_click (mode : QueryMode) (native : jsstr) (filter : option FilterExpr) (b : QueryBar) : QueryBar * list qb_call :=
  if bool_decide (mode = advanced) && negb (bool_decide (qb_draftNative b = native))
  then (b, [c_native (qb_draftNative b); c_run])
  else let '(b, cs) := commitText filter b in (b, cs ++ [c_run]).
Definition editor_run (v : jsstr) : list qb_call := [c_native v; c_run].
(** The compiled query is taken over for editing by hand. *)
Definition edit_as_native (compiled : jsstr) : list qb_call := [c_native compiled; c_filter None; c_mode advanced].

Definition qb_preview (filter : option FilterExpr) (native : jsstr) (mode : QueryMode) : UseQuery :=
  useValidateQuery filter (if truthy (trim native) then Some (MkNativeQuery native) else None)
    (bool_decide (mode = visual) && (0 <? length (andTerms filter))).
(** The line below the bar. *)
Definition qb_alert (parseError : option jsstr) (mode : QueryMode) (native_error : option jsstr) (b : QueryBar) : option jsstr :=
  match parseError with
  | Some e => Some ($"Filter in URL could not be parsed: " ++ e)
  | None =>
      match qb_textError b with
      | Some e => Some e
      | None => if bool_decide (mode = advanced) then native_error else None
      end
  end.

(** The callbacks as the explorer page passes them. *)
Definition explorer_call (c : qb_call) (x : Explorer) : Explorer :=
  match c with
  | c_filter f => setFilter f x
  | c_native t => onNativeChange t x
  | c_mode m => onModeChange m x
  | c_run => ex_run x
  end.
Definition explorer_calls (cs : list qb_call) (x : Explorer) : Explorer := fold_left (λ x c, explorer_call c x) cs x.

(** * The filter editor *)

Inductive BuilderTab := tab_builder | tab_text.
Record Builder := MkBuilder {
  b_tab : BuilderTab; b_field : jsstr; b_op : BuilderOp; b_value : jsstr; b_text : jsstr; b_error : option jsstr; b_fieldFocus : bool
}.

Definition initialState (term : option FilterExpr) : jsstr * BuilderOp * jsstr :=
  match term with
  | Some (FieldExistsExpr o f) => (f, B_exists o, [])
  | Some (FieldValuesExpr o f vs) => (f, B_values o, join $", " vs)
  | Some (FieldValueExpr o f v) => (f, B_value o, v)
  | _ => ([], B_value op_eq, [])
  end.
Definition builder_open (term : option FilterExpr) : Builder :=
  let '(field, op, value) := initialState term in
  MkBuilder (match term with Some t => if isSimpleTerm t then tab_builder else tab_text | None => tab_builder end)
    field op value (match term with Some t => formatFilter (Some t) | None => [] end) None (negb (truthy field)).

Section builder.
Context `{RegExpEngine}.

(** Either the state with the complaint or the filter that is submitted. *)
Definition builder_submit (b : Builder) : result Builder FilterExpr :=
  let complain msg := MkBuilder (b_tab b) (b_field b) (b_op b) (b_value b) (b_text b) (Some msg) (b_fieldFocus b) in
  match b_tab b with
  | tab_text =>
      match parseFilter (b_text b) with
      | Ok (Some e) => Ok e
      | Ok None => Err (complain $"Enter a filter.")
      | Err e => Err (complain (error_message e))
      end
  | tab_builder =>
      match buildExpr (b_field b) (b_op b) (b_value b) with
      | Ok e => Ok e
      | Err msg => Err (complain msg)
      end
  end.

Definition builder_tab (t : BuilderTab) (b : Builder) : Builder :=
  let text :=
    match t, b_tab b with
    | tab_text, tab_builder =>
        match buildExpr (b_field b) (b_op b) (b_value b) with Ok e => formatFilter (Some e) | Err _ => b_text b end
    | _, _ => b_text b
    end in
  MkBuilder t (b_field b) (b_op b) (b_value b) text None (b_fieldFocus b).
End builder.

(** The value searched for among the suggestions, and when they are asked. *)
Definition is_list_op (op : BuilderOp) : bool := match op with B_values _ => true | _ => false end.
Definition is_no_value (op : BuilderOp) : bool := match op with B_exists _ => true | _ => false end.
Definition valueSearch (op : BuilderOp) (debounced : jsstr) : jsstr :=
  if is_list_op op then trim (List.last (split_on (λ c, (c =? COMMA)%N) debounced) []) else debounced.
Definition builder_values (sel : option Selection) (b : Builder) (debounced : jsstr) : UseQuery :=
  useFieldValues sel (or_undef (trim (b_field b))) (valueSearch (b_op b) debounced)
    (negb (is_no_value (b_op b)) && truthy (trim (b_field b))).

(** The suggested fields: names as filters use them, containing what is typed, at most 60. *)
Definition fieldOptions (fields : list jsstr) (field : jsstr) : list jsstr :=
  take 60 (List.filter (λ n, includes (to_lower field) (to_lower n))
             (map apiFieldName (List.filter (λ n, negb (bool_decide (n ∈ HIDDEN_FIELDS))) fields))).

(** A click on a suggested value: it replaces the value, or the last of a list. *)
Definition pick_value (op : BuilderOp) (v prev : jsstr) : jsstr :=
  if is_list_op op then
    let parts := map trim (split_on (λ c, (c =? COMMA)%N) prev) in
    join $", " (List.filter truthy (slice_last parts ++ [v])) ++ $", "
  else v.

(** * The editor of native queries (AdvancedEditor.tsx)

    [before] is the text the editor's library matches against: that of the cursor's line
    up to the cursor. *)

(** [\[\w.@-\]] *)
Definition is_name_unit (c : N) : bool :=
  is_lower c || is_upper c || is_digit c || bool_decide (c ∈ [UNDERSCORE; DOT; 64; MINUS]%N).
(** Neither a blank nor a quote, a pipe or a parenthesis. *)
Definition is_value_unit (c : N) : bool := negb (is_space c) && negb (bool_decide (c ∈ [DQUOTE; 124; LPAREN; 41]%N)).
(** A name, a colon, an optional equals sign, an optional quote and units of a value up to
    the cursor, from the first unit of the text where that matches. *)
Record ValueMatch := MkValueMatch { vm_field : jsstr; vm_eq : bool; vm_quote : bool; vm_partial : jsstr }.
Definition match_value (s : jsstr) : option ValueMatch :=
  let field := take_while is_name_unit s in
  match field, drop_while is_name_unit s with
  | _ :: _, c :: r =>
      if (c =? COLON)%N then
        let '(eq, r) := match r with d :: r' => if (d =? EQUALS)%N then (true, r') else (false, r) | [] => (false, r) end in
        let '(quote, r) := match r with d :: r' => if (d =? DQUOTE)%N then (true, r') else (false, r) | [] => (false, r) end in
        if forallb is_value_unit r then Some (MkValueMatch field eq quote r) else None
      else None
  | _, _ => None
  end.
Fixpoint find_value (s : jsstr) : option (nat * ValueMatch) :=
  match match_value s with
  | Some m => Some (0, m)
  | None => match s with [] => None | _ :: r => (λ p, (S p.1, p.2)) <$> find_value r end
  end.
(** The name before the cursor, which may be empty. *)
Definition word_before (s : jsstr) : jsstr := rev (take_while is_name_unit (rev s)).

(** The suggestions: where they start in [before] and what they insert. *)
Record Suggestions := MkSuggestions { sg_from : nat; sg_labels : list jsstr }.
Definition KEYWORD_LABELS : list jsstr :=
  [$"AND"; $"OR"; $"NOT"; $"stats"; $"sort by"; $"limit"; $"fields"; $"top"; $"uniq by"; $"filter"].
(** The values and the fields are what the server answers, [None] when it fails; the
    fields are asked for once and kept for as long as the editor lives. *)
Definition complete (sel : bool) (explicit : bool) (before : jsstr) (values fields : option (list jsstr)) (cache : option (list jsstr)) :
    option Suggestions * option (list jsstr) :=
  if negb sel then (None, cache)
  else
    match find_value before with
    | Some (i, m) =>
        ((λ vs, MkSuggestions (i + length (vm_field m) + 1 + (if vm_eq m then 1 else 0)) (map json_string vs)) <$> values, cache)
    | None =>
        let word := word_before before in
        if negb (truthy word) && negb explicit then (None, cache)
        else
          let names := match cache with
                       | Some l => l
                       | None => List.filter (λ f, negb (bool_decide (f ∈ HIDDEN_FIELDS))) (nullish fields [])
                       end in
          (Some (MkSuggestions (length before - length word) (map (λ f, f ++ [COLON]) names ++ KEYWORD_LABELS)), Some names)
    end.
(** Taking a suggestion replaces the text from its start to the cursor. *)
Definition accept (s : Suggestions) (label before : jsstr) : jsstr := take (sg_from s) before ++ label.
(** The request for values. *)
Definition completion_request (m : ValueMatch) : jsstr * jsstr * Z := (apiFieldName (vm_field m), vm_partial m, 20%Z).

(** The marker of an error: one unit at its position, within the document. *)
Definition diagnostic (position : option nat) (len : nat) : nat * nat := (Nat.min (nullish position 0) len, Nat.min (nullish position 0 + 1) len).
(** A value from outside replaces the document when it differs. *)
Definition sync_document (value doc : jsstr) : option jsstr := if decide (doc = value) then None else Some value.

Example complete_ex :
  complete true false $"severity:err host:=" (Some [$"fw 01"]) None None = (Some (MkSuggestions 19 [DQUOTE :: $"fw 01" ++ [DQUOTE]]), None).
Proof. vm_compute. reflexivity. Qed.
