(* ===== verification/QueryEditorProps.v ===== *)
(** What editing a query promises: typed text narrows it, the buttons of a term
    act on that term alone, and the filter editor gives back what it was opened
    with. *)
From Stdlib Require Import ZArith Lia SpecFloat.
From stdpp Require Import base list numbers strings.
From S2P Require Import Prelude Unicode FilterAst FilterLex FilterText FilterTextFacts FilterRoundTrip FilterProps Fields FilterSem.
From S2P Require Import JsNumber JsDate TimeRange UrlState UrlStateProps ApiClient QueryCache ApiHooks Router ExplorerPage ExplorerProps QueryEditor.
Open Scope nat_scope.

(** * Queries made of good terms *)

Lemma query_good f : query_ok f = true ↔ match f with Some e => good e | None => True end.
Proof. destruct f as [e|]; [|done]. unfold query_ok, good. by rewrite andb_true_iff. Qed.

Lemma andTerms_good f : query_ok f = true → Forall good (andTerms f).
Proof.
  intros Hq. apply andTerms_ok in Hq. apply Forall_forall. intros t Ht%list_elem_of_In. rewrite forallb_forall in Hq.
  specialize (Hq t Ht). unfold term_ok in Hq. apply andb_prop in Hq as [Hq _]. by apply andb_prop in Hq.
Qed.
Lemma combineAnd_good terms : Forall good terms → query_ok (combineAnd terms) = true.
Proof.
  intros Hg. destruct terms as [|a [|b l]]; [done|apply query_good; by inversion Hg|].
  apply query_good. cbn [combineAnd]. by apply (combine_args_good op_and (a :: b :: l)).
Qed.

Lemma negate_good t : good t → t ≠ FieldExistsExpr op_not_exists [] → good (negate t).
Proof. unfold good. destruct t as [| | |[]|[]|[] [|c f]]; cbn; naive_solver. Qed.

(** A changed list of terms reaches the page without an error. *)
Lemma terms_reach_page `{RegExpEngine} next x : Forall good next →
  let x' := explorer_calls (replaceTerms next) x in
  dq_error (ex_query x') = None ∧ dq_native (ex_query x') = dq_native (ex_query x)
  ∧ ∀ r, selects (ex_filter x') r = forallb (matchFilter r) next.
Proof.
  intros Hg x'. destruct (ex_query_setFilter (combineAnd next) x (combineAnd_good _ Hg)) as (Hf & He & Hn).
  subst x'. unfold explorer_calls, replaceTerms. cbn [fold_left explorer_call]. rewrite Hf. split_and!; [done..|].
  intros r. apply match_combineAnd.
Qed.

Lemma ex_terms `{RegExpEngine} x r : selects (ex_filter x) r = forallb (matchFilter r) (andTerms (ex_filter x)).
Proof. apply match_andTerms. Qed.

(** * Typed text *)


(** * The buttons of a term *)

(** One term among the others. *)
Lemma concat_imap_at {A} (l : list A) i t (new : list A) : l !! i = Some t →
  concat (imap (λ j a, if j =? i then new else [a]) l) = take i l ++ new ++ drop (S i) l.
Proof.
  revert i. induction l as [|a l IH]; intros i Hi; [done|]. rewrite imap_cons. destruct i as [|i].
  - injection Hi as ->. cbn. f_equal. clear IH. rewrite (imap_ext _ (const (λ a, [a]))) by done. rewrite imap_const, drop_0.
    induction l as [|b l IH]; [done|]. cbn. by rewrite IH.
  - cbn. f_equal. by rewrite <- (IH i Hi).
Qed.
Lemma imap_at {A} (f : A → A) (l : list A) i t : l !! i = Some t →
  imap (λ j a, if j =? i then f a else a) l = take i l ++ f t :: drop (S i) l.
Proof.
  revert i. induction l as [|a l IH]; intros i Hi; [done|]. rewrite imap_cons. destruct i as [|i].
  - injection Hi as ->. cbn. f_equal. clear IH. rewrite (imap_ext _ (const id)) by done. by rewrite imap_const, list_fmap_id, drop_0.
  - cbn. f_equal. by rewrite <- (IH i Hi).
Qed.

Lemma others_good (l : list FilterExpr) i : Forall good l → Forall good (take i l) ∧ Forall good (drop i l).
Proof. intros Hl. split; [by apply Forall_take|by apply Forall_drop]. Qed.

(** The buttons of a term act on that term alone.  Removing a term leaves the
    rows the others select; negating it leaves those of them it did not select
    (where the term has a name to negate); replacing it in the editor leaves those
    the new filter selects.  None of them leaves an error in the query. *)
Theorem term_buttons `{RegExpEngine} x b i t expr :
  andTerms (ex_filter x) !! i = Some t → t ≠ FieldExistsExpr op_not_exists [] → good expr →
  let removed := explorer_calls (remove_term i (ex_filter x)) x in
  let negated := explorer_calls (negate_term i (ex_filter x)) x in
  let replaced := explorer_calls (edit_submit i expr (ex_filter x) b).2 x in
  dq_error (ex_query removed) = None ∧ dq_error (ex_query negated) = None ∧ dq_error (ex_query replaced) = None
  ∧ ∀ r, selects (ex_filter x) r = matchFilter r t && selects (ex_filter removed) r
         ∧ selects (ex_filter negated) r = negb (matchFilter r t) && selects (ex_filter removed) r
         ∧ selects (ex_filter replaced) r = matchFilter r expr && selects (ex_filter removed) r.
Proof.
  intros Ht Hne He removed negated replaced. pose proof (andTerms_good _ (ex_filter_ok x)) as Hg.
  set (terms := andTerms (ex_filter x)) in *. destruct (others_good terms i Hg) as [Hb _], (others_good terms (S i) Hg) as [_ Ha].
  assert (good t) as Hgt by (rewrite Forall_forall in Hg; eapply Hg, list_elem_of_lookup_2, Ht).
  destruct (terms_reach_page (take i terms ++ [] ++ drop (S i) terms) x) as (E1 & _ & S1); [by apply Forall_app|].
  destruct (terms_reach_page (take i terms ++ negate t :: drop (S i) terms) x) as (E2 & _ & S2).
  { apply Forall_app. split; [done|]. constructor; [by apply negate_good|done]. }
  destruct (terms_reach_page (take i terms ++ andTerms (Some expr) ++ drop (S i) terms) x) as (E3 & _ & S3).
  { apply Forall_app. split; [done|]. apply Forall_app. split; [|done]. by apply andTerms_good, query_good. }
  subst removed negated replaced. unfold remove_term, negate_term, edit_submit. cbn [snd]. fold terms.
  rewrite !(concat_imap_at _ _ _ _ Ht), (imap_at _ _ _ _ Ht). split_and!; [done..|]. intros r. rewrite S1, S2, S3, ex_terms.
  fold terms. rewrite <- (take_drop_middle _ _ _ Ht) at 1. rewrite !forallb_app. cbn [forallb app]. rewrite match_negate.
  pose proof (match_andTerms r (Some expr)) as Hx. cbn [selects] in Hx. rewrite <- Hx.
  destruct (forallb _ (take i terms)), (forallb _ (drop (S i) terms)), (matchFilter r t), (matchFilter r expr); done.
Qed.

Definition edited_page : Explorer := explorer_init (demo_search (Some $"a=1 b=2 c=3") None) None.
Lemma term_buttons_witness :
  selects (H := no_regexp) (ex_filter (explorer_calls (negate_term 1 (ex_filter edited_page)) edited_page)) demo_row
  = negb (matchFilter (H := no_regexp) demo_row (FieldValueExpr op_eq $"b" $"2"))
    && selects (H := no_regexp) (ex_filter (explorer_calls (remove_term 1 (ex_filter edited_page)) edited_page)) demo_row
  ∧ x_q (ex_search (explorer_calls (negate_term 1 (ex_filter edited_page)) edited_page)) = Some $"a=1 AND b!=2 AND c=3".
Proof.
  split; [|vm_compute; reflexivity].
  destruct (term_buttons (H := no_regexp) edited_page (qb_init []) 1 (FieldValueExpr op_eq $"b" $"2") (TextExpr $"x"))
    as (_ & _ & _ & G); [vm_compute; reflexivity|done|done|exact (proj1 (proj2 (G demo_row)))].
Defined.

(** * The filter editor *)

(** A value the comma-separated field keeps. *)
Definition list_value (v : jsstr) : bool := bool_decide (trim v = v) && forallb (λ u, negb (u =? COMMA)%N) v.

Lemma split_on_cons p c r : p c = false → ∃ w ws, split_on p r = w :: ws ∧ split_on p (c :: r) = (c :: w) :: ws.
Proof.
  intros Hc. assert (∃ w ws, split_on p r = w :: ws) as (w & ws & E).
  { induction r as [|d r (w & ws & IH)]; cbn [split_on]; [by eexists _, _|]. rewrite IH. destruct (p d); by eexists _, _. }
  exists w, ws. split; [done|]. cbn [split_on]. by rewrite Hc, E.
Qed.
Lemma trim_space s : trim (SPACE :: s) = trim s.
Proof. reflexivity. Qed.

Lemma split_listed vs : vs ≠ [] → Forall (λ v, list_value v = true) vs →
  map trim (split_on (λ c, (c =? COMMA)%N) (join $", " vs)) = vs.
Proof.
  intros Hne Hv. induction Hv as [|v vs Hv Hvs IH]; [done|].
  apply andb_prop in Hv as [Ht%bool_decide_eq_true Hc]. destruct vs as [|w vs].
  - change (join $", " [v]) with v. rewrite split_on_none by done. cbn. by rewrite Ht.
  - change (join $", " (v :: w :: vs)) with (v ++ COMMA :: SPACE :: join $", " (w :: vs)). rewrite split_on_app by done.
    destruct (split_on_cons (λ c, (c =? COMMA)%N) SPACE (join $", " (w :: vs)) eq_refl) as (a & l & E & ->).
    specialize (IH ltac:(done)). rewrite E in IH. cbn [map] in *. rewrite Ht, trim_space. by rewrite IH.
Qed.

Section editable.
Context `{RegExpEngine}.

(** What the structured form can hold. *)
Definition editable (t : FilterExpr) : Prop :=
  match t with
  | FieldExistsExpr _ f => trim f = f ∧ truthy f = true
  | FieldValuesExpr _ f vs => trim f = f ∧ truthy f = true ∧ vs ≠ [] ∧ Forall (λ v, truthy v = true ∧ list_value v = true) vs
  | FieldValueExpr o f v =>
      trim f = f ∧ truthy f = true
      ∧ match o with
        | op_gt | op_gte | op_lt | op_lte => truthy (trim v) = true ∧ isNaN (str_to_number v) = false
        | op_regex => re_compiles v = true
        | op_cidr => CIDR_RE (trim v) = true
        | _ => True
        end
  | _ => good t
  end.

(** The filter editor gives back what it was opened with.  Opening a term and
    submitting it unchanged gives that very term: in the structured form for a
    comparison whose parts it can hold, as text for any other term; and switching
    to the text tab in between changes nothing. *)
Theorem editor_gives_back t :
  editable t →
  builder_submit (builder_open (Some t)) = Ok t
  ∧ (good t → builder_submit (builder_tab tab_text (builder_open (Some t))) = Ok t).
Proof.
  intros Ht. assert (good t → parseFilter (formatFilter (Some t)) = Ok (Some t)) as Hp.
  { intros Hg. apply formatFilter_query. by apply query_good. }
  assert (isSimpleTerm t = false ∧ editable t = good t
    ∨ isSimpleTerm t = true ∧ ∃ f op v, initialState (Some t) = (f, op, v) ∧ buildExpr f op v = Ok t) as [[Hs Hg]|(Hs & f & op & v & Hi & Hb)].
  { destruct t as [| | |o f v|o f vs|o f]; [by left..| | |]; right; (split; [done|]); eexists _, _, _; (split; [reflexivity|]); unfold buildExpr.
    - destruct Ht as (-> & -> & Ho). cbn [negb]. destruct o; cbn beta iota in Ho;
        match type of Ho with
        | _ ∧ _ => destruct Ho as [E1 E2]; rewrite E1, E2
        | True => idtac
        | _ => rewrite Ho
        end; reflexivity.
    - destruct Ht as (-> & -> & Hne & Hv). cbn [negb]. rewrite split_listed; [|done|by eapply Forall_impl; [exact Hv|naive_solver]].
      rewrite filter_truthy by (eapply Forall_impl; [exact Hv|naive_solver]). by destruct vs.
    - destruct Ht as (-> & ->). done. }
  - rewrite Hg in Ht. unfold builder_submit, builder_open, builder_tab. destruct (initialState (Some t)) as [[f op] v]. rewrite Hs.
    cbn -[formatFilter parseFilter]. by rewrite Hp.
  - unfold builder_submit, builder_open, builder_tab. rewrite Hi, Hs. cbn -[formatFilter parseFilter buildExpr]. rewrite Hb. split; [done|]. intros Hg. by rewrite Hp.
Qed.

(** A click on a suggestion completes the list: the values typed before stay, the
    one being typed is replaced. *)
Theorem picked_value_listed o field v prev :
  truthy (trim field) = true → truthy v = true → list_value v = true →
  buildExpr field (B_values o) (pick_value (B_values o) v prev)
  = Ok (FieldValuesExpr o (trim field)
          (List.filter truthy (slice_last (map trim (split_on (λ c, (c =? COMMA)%N) prev))) ++ [v])).
Proof.
  intros Hf Hv Hl. unfold buildExpr, pick_value. cbn [is_list_op]. rewrite Hf. cbn [negb]. cbv zeta.
  set (ps := map trim (split_on _ prev)). rewrite List.filter_app. cbn [List.filter]. rewrite Hv.
  set (ws := List.filter truthy (slice_last ps)).
  assert (Forall (λ v, list_value v = true) ws) as Hws.
  { apply Forall_forall. intros w [Hw _]%elem_of_List_filter. unfold slice_last in Hw. apply elem_of_take in Hw as (i & Hw & _).
    apply list_elem_of_lookup_2 in Hw. subst ps. apply list_elem_of_In, in_map_iff in Hw as (u & <- & Hu%list_elem_of_In).
    unfold list_value. rewrite trim_idem, bool_decide_true by done. cbn [andb]. apply trim_units.
    pose proof (split_on_units (λ c, (c =? COMMA)%N) prev) as Hs. rewrite Forall_forall in Hs. by apply Hs. }
  assert (join $", " (ws ++ [v]) ++ $", " = join $", " ((ws ++ [v]) ++ [[]])) as ->.
  { destruct (ws ++ [v]) as [|a l] eqn:E; [by destruct ws|]. cbn [app]. rewrite !join_cons, bind_app, <- app_assoc. do 2 f_equal. }
  rewrite split_listed; [|by destruct ws|].
  - rewrite !List.filter_app. cbn [List.filter truthy]. rewrite Hv, app_nil_r. subst ws. rewrite filter_filter_same. by destruct (List.filter _ _).
  - apply Forall_app. split; [apply Forall_app; split; [done|by constructor]|]. by repeat constructor.
Qed.
End editable.

Lemma editor_gives_back_witness :
  builder_submit (H := no_regexp) (builder_open (Some (FieldValuesExpr op_in $"severity" [$"err"; $"crit"])))
  = Ok (FieldValuesExpr op_in $"severity" [$"err"; $"crit"]).
Proof.
  refine (proj1 (editor_gives_back (H := no_regexp) (FieldValuesExpr op_in $"severity" [$"err"; $"crit"]) _)).
  split; [reflexivity|]. split; [reflexivity|]. split; [done|].
  repeat (constructor; [split; vm_compute; reflexivity|]). constructor.
Defined.

(** A value with a comma is two values to the structured form: submitting the
    editor unchanged changes the query. *)
Theorem editor_splits_commas :
  builder_submit (H := no_regexp) (builder_open (Some (FieldValuesExpr op_in $"user" [$"Doe, Jane"])))
  = Ok (FieldValuesExpr op_in $"user" [$"Doe"; $"Jane"]).
Proof. vm_compute. reflexivity. Qed.

(** * The editor of native queries *)

Lemma match_value_text s m : match_value s = Some m →
  s = vm_field m ++ COLON :: (if vm_eq m then [EQUALS] else []) ++ (if vm_quote m then [DQUOTE] else []) ++ vm_partial m ∧ vm_field m ≠ [].
Proof.
  pose proof (take_drop_while is_name_unit s) as Es. unfold match_value. revert Es. destruct (take_while is_name_unit s) as [|f fs]; [done|].
  destruct (drop_while is_name_unit s) as [|c r]; [done|]. intros <-. destruct (N.eqb_spec c COLON) as [->|]; [|done].
  destruct r as [|d r]; [by intros [= <-]|]. destruct (N.eqb_spec d EQUALS) as [->|].
  - destruct r as [|e r]; [by intros [= <-]|]. destruct (N.eqb_spec e DQUOTE) as [->|]; (destruct (forallb _ _); [|done]); by intros [= <-].
  - destruct (N.eqb_spec d DQUOTE) as [->|]; (destruct (forallb _ _); [|done]); by intros [= <-].
Qed.
Lemma find_value_text s i m : find_value s = Some (i, m) → match_value (drop i s) = Some m ∧ i ≤ length s.
Proof.
  revert i. induction s as [|c s IH]; intros i; cbn [find_value].
  - by destruct (match_value []) eqn:E.
  - destruct (match_value (c :: s)) as [m'|] eqn:E; [intros [= <- <-]; split; [done|lia]|].
    destruct (find_value s) as [[j m']|]; [|done]. intros [= <- <-]. destruct (IH j eq_refl). split; [done|cbn; lia].
Qed.

(** Taking a suggestion keeps what stands before it.  With the text before the cursor
    ending in a field, a colon and the start of a value, accepting a value leaves everything
    up to the colon (and the equals sign) and the value as a quoted string, in place of
    what was typed of it, quote included; otherwise the suggested name takes the
    place of the word before the cursor.  A marker stays within the document. *)
Theorem suggestion_replaces_typed before explicit values fields cache s cache' label :
  complete true explicit before values fields cache = (Some s, cache') → label ∈ sg_labels s →
  (∃ pre m v, before = pre ++ vm_field m ++ COLON :: (if vm_eq m then [EQUALS] else []) ++ (if vm_quote m then [DQUOTE] else []) ++ vm_partial m
     ∧ v ∈ nullish values [] ∧ label = json_string v
     ∧ accept s label before = pre ++ vm_field m ++ COLON :: (if vm_eq m then [EQUALS] else []) ++ json_string v)
  ∨ (∃ pre word, before = pre ++ word ∧ forallb is_name_unit word = true ∧ accept s label before = pre ++ label).
Proof.
  unfold complete. cbn [negb]. destruct (find_value before) as [[i m]|] eqn:Ef.
  - destruct values as [vs|]; [|done]. intros [= <- <-] Hl. cbn [sg_labels] in Hl. apply list_elem_of_fmap in Hl as (v & -> & Hv). left.
    apply find_value_text in Ef as [Em Hi]. apply match_value_text in Em as [Ed _]. exists (take i before), m, v.
    assert (length (take i before) = i) as Hlen by (rewrite length_take; lia).
    assert (before = take i before ++ drop i before) as Eb by (by rewrite take_drop). rewrite Ed in Eb. revert Eb Hlen. generalize (take i before) as pre.
    intros pre -> Hlen. split_and!; [done|done|done|]. unfold accept. cbn [sg_from]. set (eqs := if vm_eq m then [EQUALS] else []).
    replace (i + length (vm_field m) + 1 + (if vm_eq m then 1 else 0)) with (length (pre ++ vm_field m ++ COLON :: eqs)).
    + assert (∀ t, pre ++ vm_field m ++ COLON :: eqs ++ t = (pre ++ vm_field m ++ COLON :: eqs) ++ t) as Ea by (intros t; by rewrite <- !app_assoc).
      by rewrite !Ea, take_app_length.
    + rewrite !length_app. cbn [length]. subst eqs. destruct (vm_eq m); cbn; lia.
  - intros E Hl. right. exists (take (length before - length (word_before before)) before), (word_before before).
    assert (before = take (length before - length (word_before before)) before ++ word_before before) as Eb.
    { unfold word_before. set (w := take_while is_name_unit (rev before)). assert (before = rev (drop_while is_name_unit (rev before)) ++ rev w) as E'.
      { unfold w. rewrite <- rev_app_distr, take_drop_while. by rewrite rev_involutive. }
      rewrite E' at 2 3. rewrite length_app, Nat.add_sub, take_app_length. exact E'. }
    split_and!; [done| |].
    + unfold word_before. apply forallb_forall. intros c Hc%in_rev. pose proof (take_while_all is_name_unit (rev before)) as Ht.
      rewrite Forall_forall in Ht. apply Ht. by apply list_elem_of_In.
    + destruct (_ && _); [done|]. injection E as <- <-. done.
Qed.
Lemma marker_inside position len : (diagnostic position len).1 ≤ (diagnostic position len).2 ≤ len.
Proof. unfold diagnostic. cbn. lia. Qed.

Lemma suggestion_replaces_typed_witness :
  (∃ pre m v, $"host:fw" = pre ++ vm_field m ++ COLON :: (if vm_eq m then [EQUALS] else []) ++ (if vm_quote m then [DQUOTE] else []) ++ vm_partial m
     ∧ v ∈ nullish (Some [$"fw01"]) [] ∧ json_string $"fw01" = json_string v
     ∧ accept (MkSuggestions 5 [json_string $"fw01"]) (json_string $"fw01") $"host:fw" = pre ++ vm_field m ++ COLON :: (if vm_eq m then [EQUALS] else []) ++ json_string v)
  ∨ (∃ pre word, $"host:fw" = pre ++ word ∧ forallb is_name_unit word = true
     ∧ accept (MkSuggestions 5 [json_string $"fw01"]) (json_string $"fw01") $"host:fw" = pre ++ json_string $"fw01").
Proof.
  apply (suggestion_replaces_typed $"host:fw" false (Some [$"fw01"]) None None (MkSuggestions 5 [json_string $"fw01"]) None (json_string $"fw01"));
    [vm_compute; reflexivity|left].
Defined.

(** When the fields could not be read, none are suggested from then on. *)
Theorem failed_fields_stay :
  let cache := (complete true true [] None None None).2 in
  cache = Some [] ∧ (complete true true [] None (Some [$"app_name"]) cache).1 = Some (MkSuggestions 0 KEYWORD_LABELS).
Proof. vm_compute. auto. Qed.
