(* ===== verification/ExplorerDialogs.v ===== *)
(** The dialogs and panels of the explorer (src/frontend/src/features/explorer/dialogs.tsx
    and FieldSidebar.tsx, features/time-range/TimePicker.tsx).

    A dialog is told by its parent whether it is open; the dialog component calls
    [onOpenChange] for what the user does inside it, not for a change of the
    property, so [page_opens] leaves the dialog's own state alone. *)
From Stdlib Require Import ZArith Lia SpecFloat.
From stdpp Require Import base list numbers strings.
From S2P Require Import Prelude Unicode FilterAst FilterLex FilterText Fields FilterSem JsNumber JsDate TimeRange UrlState Format Severity HostHistory.
From S2P Require Import ApiClient Session QueryCache ApiHooks Router ExplorerPage.
Open Scope Z_scope.

(** * Export *)

Inductive ExportScope := scope_columns | scope_all.
#[export] Instance ExportScope_eq_dec : EqDecision ExportScope.
Proof. solve_decision. Defined.
#[export] Instance ExportFormat_eq_dec : EqDecision ExportFormat.
Proof. solve_decision. Defined.
Definition EXPORT_MAX_ROWS : Z := 1000000.

Record ExportDialog := MkExportDialog {
  ed_format : ExportFormat; ed_scope : ExportScope; ed_limit : jsstr; ed_status : option jsstr; ed_error : option jsstr; ed_busy : bool
}.
Definition export_init : ExportDialog := MkExportDialog format_csv scope_columns $"100000" None None false.
Record ExportRequest := MkExportRequest { er_selection : Selection; er_fields : option (list jsstr); er_limit : Number }.

Section export.
Context `{Locale}.

Definition export_complain (msg : jsstr) (d : ExportDialog) : ExportDialog :=
  MkExportDialog (ed_format d) (ed_scope d) (ed_limit d) (ed_status d) (Some msg) (ed_busy d).
Definition export_submit (selection : option Selection) (columns : list jsstr) (d : ExportDialog) :
    ExportDialog * option (ExportFormat * ExportRequest) :=
  match selection with
  | None => (d, None)
  | Some sel =>
      let n := str_to_number (ed_limit d) in
      if negb (isInteger n) || nlt n (num 1) || nlt (num EXPORT_MAX_ROWS) n
      then (export_complain ($"Row limit must be between 1 and " ++ formatExact (Some (num EXPORT_MAX_ROWS)) ++ $".") d, None)
      else if bool_decide (ed_format d = format_csv) && bool_decide (ed_scope d = scope_all)
      then (export_complain ($"CSV exports need explicit columns; choose " ++ [DQUOTE] ++ $"Current columns" ++ [DQUOTE] ++ $" or another format.") d, None)
      else (MkExportDialog (ed_format d) (ed_scope d) (ed_limit d) (ed_status d) None true,
            Some (ed_format d, MkExportRequest sel (if decide (ed_scope d = scope_columns) then Some columns else None) n))
  end.
End export.

Inductive ExportMode := mode_stream | mode_blob | mode_form.
(** What the browser is told to do, in order. *)
Inductive export_effect :=
| x_picker (suggested : jsstr)
| x_fetch (path : jsstr) (body : ExportRequest)
| x_pipe
| x_download (filename : jsstr)
| x_form (action : jsstr) (request : ExportRequest) (csrf_token : jsstr).
(** [picker]: the browser can ask where to save; [mock]: the demo build. *)
Definition runExport (picker mock : bool) (csrf : option jsstr) (format : ExportFormat) (request : ExportRequest) (now : Z) :
    list export_effect * ExportMode :=
  let filename := exportFilename format now in
  let path := $"/api/v1/logs/export?format=" ++ format_text format in
  if picker then ([x_picker filename; x_fetch path request; x_pipe], mode_stream)
  else if mock then ([x_fetch path request; x_download filename], mode_blob)
  else ([x_form path request (nullish csrf [])], mode_form).
(** The dialog after the export, and whether it closes itself. *)
Definition export_done (m : ExportMode) (d : ExportDialog) : ExportDialog * bool :=
  (MkExportDialog (ed_format d) (ed_scope d) (ed_limit d)
     (Some (match m with mode_form => $"Download started in your browser." | _ => $"Export complete." end)) (ed_error d) false,
   match m with mode_stream => false | _ => true end).
(** [aborted]: the user closed the file picker. *)
Definition export_failed (aborted : bool) (message : jsstr) (d : ExportDialog) : ExportDialog :=
  if aborted then MkExportDialog (ed_format d) (ed_scope d) (ed_limit d) None (ed_error d) false
  else MkExportDialog (ed_format d) (ed_scope d) (ed_limit d) (ed_status d) (Some message) false.
Definition export_onOpenChange (o : bool) (d : ExportDialog) : ExportDialog :=
  if o then MkExportDialog (ed_format d) (ed_scope d) (ed_limit d) None None (ed_busy d) else d.

(** * Saving a search *)

Inductive Visibility := vis_private | vis_shared.
(** The members of a stored search the dialog reads. *)
Record Existing := MkExisting {
  xs_id : jsstr; xs_name : jsstr; xs_description : option jsstr; xs_visibility : Visibility; xs_version : Z
}.
Record SaveDialog := MkSaveDialog { sd_name : jsstr; sd_description : jsstr; sd_visibility : Visibility; sd_error : option jsstr }.
Definition save_init : SaveDialog := MkSaveDialog [] [] vis_private None.

Definition save_reset (existing : option Existing) : SaveDialog :=
  match existing with
  | Some e => MkSaveDialog (xs_name e) (nullish (xs_description e) []) (xs_visibility e) None
  | None => save_init
  end.
Definition save_onOpenChange (existing : option Existing) (o : bool) (d : SaveDialog) : SaveDialog :=
  if o then save_reset existing else d.
(** The page sets [open]; the dialog only reads it. *)
Definition page_opens {D} (d : D) : D := d.

Record SavePayload := MkSavePayload {
  sp_name : jsstr; sp_description : option jsstr; sp_filter : option FilterExpr; sp_native : option NativeQuery;
  sp_columns : list jsstr; sp_range : jsstr * jsstr; sp_visibility : Visibility
}.
Definition save_payload (x : Explorer) (d : SaveDialog) : SavePayload :=
  MkSavePayload (trim (sd_name d)) (or_undef (trim (sd_description d))) (ex_filter x) (dq_native (ex_query x)) (ex_columns x)
    (x_from (ex_search x), x_to (ex_search x)) (sd_visibility d).

Definition saveNew (x : Explorer) (d : SaveDialog) : result SaveDialog SavePayload :=
  if negb (truthy (trim (sd_name d)))
  then Err (MkSaveDialog (sd_name d) (sd_description d) (sd_visibility d) (Some $"Name is required."))
  else Ok (save_payload x d).
(** The id, the body and the version it was based on. *)
Definition saveExisting (existing : option Existing) (x : Explorer) (d : SaveDialog) : option (jsstr * SavePayload * Z) :=
  match existing with Some e => Some (xs_id e, save_payload x d, xs_version e) | None => None end.
Definition save_onError (message : jsstr) (d : SaveDialog) : SaveDialog :=
  MkSaveDialog (sd_name d) (sd_description d) (sd_visibility d) (Some message).

(** * The time picker *)

Section picker.
Context `{Locale} `{TimeZones}.

Record TimePicker := MkTimePicker {
  tp_quick : jsstr; tp_quickError : option jsstr; tp_tz : jsstr; tp_start : jsstr; tp_end : jsstr; tp_error : option jsstr
}.

Definition safeISO (expr : jsstr) (now : Z) (tz : jsstr) : jsstr :=
  match resolveExpr expr now tz with
  | Ok d => match toISOString d with Ok s => s | Err _ => iso_string now end
  | Err _ => iso_string now
  end.
Definition isoToLocalInput (iso tz : jsstr) : jsstr := formatTimestamp (Some (TsString iso)) tz $"yyyy-MM-dd'T'HH:mm:ss".

Definition tp_init (from to displayTz : jsstr) (now : Z) : TimePicker :=
  MkTimePicker [] None displayTz (isoToLocalInput (safeISO from now displayTz) displayTz) (isoToLocalInput (safeISO to now displayTz) displayTz) None.
Definition tp_onOpenChange (from to displayTz : jsstr) (now : Z) (o : bool) (p : TimePicker) : TimePicker :=
  if o then MkTimePicker (tp_quick p) (tp_quickError p) displayTz (isoToLocalInput (safeISO from now displayTz) displayTz)
              (isoToLocalInput (safeISO to now displayTz) displayTz) None
  else p.

(** A range applied: the preferences remember it and the page gets it. *)
Record Applied := MkApplied { ap_from : jsstr; ap_to : jsstr; ap_tz : option jsstr }.
Definition onQuick (p : TimePicker) : TimePicker * option Applied :=
  match parseQuickInput (tp_quick p) with
  | None => (MkTimePicker (tp_quick p) (Some $"Try 15m, 2h, 7d or now-3d.") (tp_tz p) (tp_start p) (tp_end p) (tp_error p), None)
  | Some rel => (MkTimePicker (tp_quick p) None (tp_tz p) (tp_start p) (tp_end p) (tp_error p), Some (MkApplied rel $"now" None))
  end.
Definition onCustom (maxRangeMs : option Z) (p : TimePicker) : TimePicker * option Applied :=
  let err := validateCustomRange (tp_start p) (tp_end p) (tp_tz p) maxRangeMs in
  (MkTimePicker (tp_quick p) (tp_quickError p) (tp_tz p) (tp_start p) (tp_end p) err,
   match err with
   | Some _ => None
   | None =>
       match localInputToISO (tp_start p) (tp_tz p), localInputToISO (tp_end p) (tp_tz p) with
       | Some s, Some e => Some (MkApplied s e (Some (tp_tz p)))
       | _, _ => None
       end
   end).
Definition onPreset (p : Preset) : Applied := MkApplied (preset_from p) $"now" None.
(** Every way of choosing a range goes through [apply], which remembers it. *)
Definition tp_apply (writable : bool) (a : Applied) (m : PrefsModule) : PrefsModule * list nat * Applied :=
  (pushRecentRange writable (ap_from a) (ap_to a) m, a).
Definition tp_label (from to displayTz : jsstr) : jsstr :=
  rangeLabel (λ d, formatTimestamp (Some (TsDate d)) displayTz $"MMM d, HH:mm:ss") from to.
Definition tp_zones (displayTz : jsstr) : list jsstr := dedup (displayTz :: $"UTC" :: COMMON_TIMEZONES).
End picker.

(** * The field sidebar *)

Inductive FieldKind := kind_core | kind_label | kind_dynamic.
#[export] Instance FieldKind_eq_dec : EqDecision FieldKind.
Proof. solve_decision. Defined.
Definition kind_text (k : FieldKind) : jsstr := match k with kind_core => $"core" | kind_label => $"label" | kind_dynamic => $"dynamic" end.
Record FieldInfo := MkFieldInfo { fi_name : jsstr; fi_kind : FieldKind; fi_count : option Number }.

Section sidebar.
Context (localeCompare : jsstr → jsstr → Z).

(** Dynamic fields first, then by kind, then by name. *)
Definition compareFields (a b : FieldInfo) : Z :=
  if decide (fi_kind a = fi_kind b) then localeCompare (fi_name a) (fi_name b)
  else if decide (fi_kind a = kind_dynamic) then -1
  else if decide (fi_kind b = kind_dynamic) then 1
  else localeCompare (kind_text (fi_kind a)) (kind_text (fi_kind b)).

Definition availableFields (fields : list FieldInfo) (query : jsstr) : list FieldInfo :=
  array_sort compareFields
    (List.filter (λ f, negb (bool_decide (fi_name f ∈ PINNED_FACETS)) && includes (to_lower query) (to_lower (fi_name f)))
       (map (λ f, MkFieldInfo (apiFieldName (fi_name f)) (fi_kind f) (fi_count f))
          (List.filter (λ f, negb (bool_decide (fi_name f ∈ HIDDEN_FIELDS))) fields))).
End sidebar.

(** The groups that are open or closed, as a set of names. *)
Definition toggle_group (name : jsstr) (expanded : list jsstr) : list jsstr :=
  if bool_decide (name ∈ expanded) then List.filter (λ n, negb (bool_decide (n = name))) expanded else expanded ++ [name].
(** A facet is open until it is toggled, another field once it is. *)
Definition facet_open (field : jsstr) (expanded : list jsstr) : bool := negb (bool_decide ($"facet:" ++ field ∈ expanded)).
Definition field_open (field : jsstr) (expanded : list jsstr) : bool := bool_decide (field ∈ expanded).
Definition shownFacets (query : jsstr) : list jsstr := List.filter (includes (to_lower query)) PINNED_FACETS.

Record ValueCount := MkValueCount { vc_value : jsstr; vc_count : Number }.
Definition facet_total (values : list ValueCount) : Number := fold_left (λ n v, nadd n (vc_count v)) values (num 0).
Definition facet_values (facets : list (jsstr * list ValueCount)) (field : jsstr) : list ValueCount := nullish (assoc_get facets field) [].
(** The bar of a value, and the share it is of a facet. *)
Definition value_max (values : list ValueCount) : Number := math_max (num 1 :: map vc_count values).
Definition value_width (values : list ValueCount) (v : ValueCount) : Number := ndiv (vc_count v) (value_max values).
Definition value_share (total : option Number) (v : ValueCount) : option jsstr :=
  match total with
  | Some t => if isNaN t || neq t (num 0) then None else Some (to_fixed (nmul (ndiv (vc_count v) t) (num 100)) 0 ++ $"%")
  | None => None
  end.
