(* ===== verification/DialogProps.v ===== *)
(** What the dialogs of the explorer promise, and where opening them from the page
    leaves their state behind. *)
From Stdlib Require Import ZArith Lia SpecFloat.
From stdpp Require Import base list numbers strings.
From S2P Require Import Prelude Unicode FilterAst FilterLex FilterText Fields FilterSem FilterProps JsNumber JsDate TimeRange TimeRangeProps.
From S2P Require Import UrlState UrlStateProps Format ApiClient Session QueryCache ApiHooks Router ExplorerPage ExplorerProps ExplorerDialogs.
Open Scope Z_scope.

(** * Export *)

(** Only a whole number of rows within the maximum is ever asked for, and a CSV
    always with its columns. *)
Lemma export_request_ok `{Locale} sel columns d d' f r : export_submit sel columns d = (d', Some (f, r)) →
  isInteger (er_limit r) = true ∧ nlt (er_limit r) (num 1) = false ∧ nlt (num EXPORT_MAX_ROWS) (er_limit r) = false
  ∧ f = ed_format d ∧ Some (er_selection r) = sel ∧ (f = format_csv → er_fields r = Some columns) ∧ ed_error d' = None.
Proof.
  unfold export_submit. destruct sel as [s|]; [|done]. cbv zeta.
  destruct (negb (isInteger _) || _ || _) eqn:E; [done|]. rewrite !orb_false_iff, negb_false_iff in E. destruct E as [[E1 E2] E3].
  destruct (bool_decide _ && _) eqn:Ec; [done|]. intros [= <- <- <-]. cbn. split_and!; try done. intros Hf.
  rewrite Hf, bool_decide_true in Ec by done. cbn in Ec. apply bool_decide_eq_false in Ec. by destruct (ed_scope d).
Qed.

(** The page opens the dialog by its property, so what the last export said is
    still there. *)
Theorem export_status_stays d : ed_status (page_opens (export_done mode_stream d).1) = Some $"Export complete.".
Proof. reflexivity. Qed.

(** * Saved searches *)

Lemma native_trimmed x n : dq_native (ex_query x) = Some n → trim (n_text n) = n_text n ∧ truthy (n_text n) = true.
Proof.
  assert (dq_native (ex_query x) = let t := match x_native (ex_search x) with Some t => trim t | None => [] end in
    if truthy t then Some (MkNativeQuery t) else None) as ->.
  { unfold ex_query, decodeQuery. by destruct (parseFilter _). }
  cbv zeta. destruct (x_native (ex_search x)) as [t|]; [|done]. destruct (truthy (trim t)) eqn:E; [|done].
  intros [= <-]. split; [apply trim_idem|done].
Qed.

(** The dialog of an existing search, opened by the page for the first time, has
    the fields of a new one: updating sends no name and no description, and makes
    a shared search private. *)
Theorem update_forgets e x :
  let d := page_opens save_init in
  saveExisting (Some e) x d = Some (xs_id e, save_payload x d, xs_version e)
  ∧ sp_name (save_payload x d) = [] ∧ sp_description (save_payload x d) = None ∧ sp_visibility (save_payload x d) = vis_private.
Proof. done. Qed.

(** * The time picker *)

Lemma localInput_iso `{TimeZones} v tz s : localInputToISO v tz = Some s → ∃ t, s = iso_string t.
Proof.
  unfold localInputToISO. intros E. repeat case_match; try done. unfold time_clip in E. case_match; [|done].
  injection E as <-. by eexists.
Qed.

Lemma date_parse_iso `{TimeZones} t : 0 <= year_of t <= 9999 → date_parse (iso_string t) = Some t.
Proof. intros Ht. unfold date_parse. by rewrite iso_parse_string. Qed.
Lemma custom_ordered `{TimeZones} max z a b start_ end_ :
  validateCustomRange start_ end_ z max = None → localInputToISO start_ z = Some a → localInputToISO end_ z = Some b →
  time_ge (date_parse a) (date_parse b) = false.
Proof. unfold validateCustomRange. intros Ev Es Ee. rewrite Es, Ee in Ev. by destruct (time_ge _ _). Qed.
Lemma custom_resolves `{TimeZones} s e :
  time_ge (date_parse (iso_string s)) (date_parse (iso_string e)) = false → 0 <= year_of s <= 9999 → 0 <= year_of e <= 9999 →
  s < e ∧ ∀ now tz, resolveRange (iso_string s) (iso_string e) now tz = Ok (MkResolved (Some s) (Some e)).
Proof.
  intros Eg Hs He. rewrite !date_parse_iso in Eg by done. apply Z.leb_gt in Eg. split; [done|]. intros now tz.
  apply resolveRange_ok. rewrite !resolve_iso by done. split_and!; [done..|]. by intros ? ? [= <-] [= <-].
Qed.

(** What the picker applies resolves.  A custom range it accepts (within the
    years 0 to 9999) resolves, whenever and wherever it is read, to exactly the two
    instants entered, the first before the second; a quick range is relative to
    now. *)
Theorem picker_applies `{TimeZones} p p' max a :
  (onCustom max p = (p', Some a) →
     localInputToISO (tp_start p) (tp_tz p) = Some (ap_from a) ∧ localInputToISO (tp_end p) (tp_tz p) = Some (ap_to a)
     ∧ ap_tz a = Some (tp_tz p) ∧ tp_error p' = None
     ∧ (∃ s e, ap_from a = iso_string s ∧ ap_to a = iso_string e)
     ∧ (∀ s e, ap_from a = iso_string s → ap_to a = iso_string e → 0 <= year_of s <= 9999 → 0 <= year_of e <= 9999 →
        s < e ∧ ∀ now tz, resolveRange (ap_from a) (ap_to a) now tz = Ok (MkResolved (Some s) (Some e))))
  ∧ (onQuick p = (p', Some a) → isRelative (ap_from a) = true ∧ ap_to a = $"now" ∧ tp_quickError p' = None).
Proof.
  split.
  - unfold onCustom. destruct (validateCustomRange _ _ _ _) as [m|] eqn:Ev; [done|].
    destruct (localInputToISO (tp_start p) (tp_tz p)) as [s|] eqn:Es; [|done].
    destruct (localInputToISO (tp_end p) (tp_tz p)) as [e|] eqn:Ee; [|done]. intros [= <- <-].
    cbn [ap_from ap_to ap_tz tp_error]. split_and!; try done.
    { destruct (localInput_iso _ _ _ Es) as [ts ->], (localInput_iso _ _ _ Ee) as [te ->]. by exists ts, te. }
    intros ts te -> -> Hs He. apply custom_resolves; [|done..]. by apply (custom_ordered _ _ _ _ _ _ Ev).
  - unfold onQuick. destruct (parseQuickInput (tp_quick p)) as [rel|] eqn:E; [|done]. intros [= <- <-]. cbn. split; [|done].
    by apply (parseQuickInput_resolves _ _ 0 $"UTC") in E as [E _].
Qed.

(** * The field sidebar *)

Definition dynamic_first (l : list FieldInfo) : Prop :=
  ∃ a b, l = a ++ b ∧ Forall (λ f, fi_kind f = kind_dynamic) a ∧ Forall (λ f, fi_kind f ≠ kind_dynamic) b.

Lemma insert_dynamic_first lc x l : dynamic_first l → dynamic_first (insert_sorted (compareFields lc) x l).
Proof.
  intros (a & b & -> & Ha & Hb). induction Ha as [|y a Hy Ha IH]; cbn [app insert_sorted].
  - destruct (decide (fi_kind x = kind_dynamic)) as [Hx|Hx].
    + exists [x], b. split_and!; [|by repeat constructor|done]. destruct b as [|z b]; [done|]. cbn. apply Forall_cons in Hb as [Hz _].
      unfold compareFields. rewrite (decide_False (P := fi_kind z = fi_kind x)) by congruence.
      by rewrite (decide_False (P := fi_kind z = kind_dynamic)), decide_True.
    + exists [], (insert_sorted (compareFields lc) x b). split_and!; [done|done|]. apply Forall_forall. intros f Hf.
      rewrite (insert_sorted_perm (compareFields lc)) in Hf. apply elem_of_cons in Hf as [->|Hf]; [done|].
      rewrite Forall_forall in Hb. auto.
  - destruct (0 <? compareFields lc y x) eqn:E.
    + exists (x :: y :: a), b. split_and!; [done| |done]. constructor; [|by constructor].
      destruct (decide (fi_kind x = kind_dynamic)) as [|Hx]; [done|]. exfalso. unfold compareFields in E.
      rewrite decide_False, decide_True in E by congruence. done.
    + destruct IH as (a' & b' & Eq & Ha' & Hb'). exists (y :: a'), b'. split_and!; [cbn; by rewrite Eq|by constructor|done].
Qed.

(** The sidebar lists every field once it may be chosen.  The fields offered
    are exactly those of the answer that are neither internal nor facets and whose
    name contains what is typed, whatever its case, under the names filters use;
    the dynamic ones come first, in any locale. *)
Theorem sidebar_fields lc fields query :
  (∀ f, f ∈ availableFields lc fields query ↔
     ∃ g, g ∈ fields ∧ fi_name g ∉ HIDDEN_FIELDS ∧ f = MkFieldInfo (apiFieldName (fi_name g)) (fi_kind g) (fi_count g)
       ∧ fi_name f ∉ PINNED_FACETS ∧ includes (to_lower query) (to_lower (fi_name f)) = true)
  ∧ dynamic_first (availableFields lc fields query).
Proof.
  split.
  - intros f. unfold availableFields. rewrite array_sort_perm, elem_of_List_filter, list_elem_of_In, in_map_iff.
    setoid_rewrite filter_In. setoid_rewrite <- list_elem_of_In. rewrite andb_true_iff, negb_true_iff, bool_decide_eq_false.
    setoid_rewrite negb_true_iff. setoid_rewrite bool_decide_eq_false. naive_solver.
  - unfold availableFields, array_sort. assert (dynamic_first []) as H0 by (by exists [], []). revert H0. generalize (@nil FieldInfo) as acc.
    induction (List.filter _ (map _ _)) as [|f l IH]; intros acc Hacc; [done|]. cbn [sort_acc]. by apply IH, insert_dynamic_first.
Qed.
