(* ===== verification/LiveTailPage.v ===== *)
(** The live tail page (src/frontend/src/features/live-tail/LiveTailPage.tsx): its
    state together with the store it drives (TailStore.v) and what the connection
    (TailSource.v) tells it.

    The rows on the screen are those of a memo: a render computes them anew only when
    the version of the store, the highlighted text or the choice to see only what
    matches has changed since.  Renders are events of their own. *)
From Stdlib Require Import ZArith Lia SpecFloat.
From stdpp Require Import base list numbers strings.
From S2P Require Import Prelude Unicode JsNumber FilterAst FilterText Fields FilterSem FilterProps BoundedFifo RingBuffer TailStore TailSource UrlState UrlStateProps.
Open Scope nat_scope.

Record LiveSearch := MkLiveSearch { lv_q : option jsstr; lv_native : option jsstr }.
Definition ROW_HEIGHT : Z := 22.

Section page.
Context {B : Type} `{BoundedFifoLaws B LogRow}.

(** What [useMemo] keeps: what it depends on, and the rows. *)
Record RowsMemo := MkRowsMemo { mm_version : nat; mm_only : bool; mm_highlight : jsstr; mm_rows : list LogRow }.
Record LivePage := MkLivePage {
  lp_search : LiveSearch;
  lp_maxRows : nat;
  lp_paused : bool;
  lp_autoScroll : bool;
  lp_highlight : jsstr;
  lp_onlyMatching : bool;
  lp_status : TailStatus * option jsstr;
  lp_selected : option nat;
  lp_mode : QueryMode;
  lp_store : TailStore B;
  lp_memo : RowsMemo
}.

Definition live_query (p : LivePage) : DecodedQuery := decodeQuery (lv_q (lp_search p)) (lv_native (lp_search p)).

(** A page with a new store of 2000 rows, after its first render. *)
Definition live_init (search : LiveSearch) (s : TailStore B) : LivePage :=
  MkLivePage search 2000 false true [] false (connecting, None) None
    (if truthy (nullish (lv_native search) []) then advanced else visual) s
    (MkRowsMemo (version s) false [] (snapshot s)).

Definition with_store (s : TailStore B) (p : LivePage) : LivePage :=
  MkLivePage (lp_search p) (lp_maxRows p) (lp_paused p) (lp_autoScroll p) (lp_highlight p) (lp_onlyMatching p) (lp_status p)
    (lp_selected p) (lp_mode p) s (lp_memo p).

(** The effect that runs when the query changes: the new connection's rows start
    from an empty store; a query that does not parse connects to nothing. *)
Definition query_effect (p : LivePage) : LivePage * bool :=
  match dq_error (live_query p) with
  | Some _ => (p, false)
  | None => (with_store (store_clear (lp_store p)) p, true)
  end.

(** The handlers given to the connection. *)
Definition tail_call {Stats} (c : call LogRow Stats) (p : LivePage) : LivePage :=
  match c with
  | onRows r => with_store (store_push r (lp_store p)) p
  | onStatus s detail =>
      MkLivePage (lp_search p) (lp_maxRows p) (lp_paused p) (lp_autoScroll p) (lp_highlight p) (lp_onlyMatching p) (s, detail)
        (lp_selected p) (lp_mode p) (lp_store p) (lp_memo p)
  | onStats _ => p
  end.

(** What is shown: the snapshot, or only what matches the highlighted text. *)
Definition row_matches (needle : jsstr) (r : LogRow) : bool :=
  includes needle (to_lower (nullish (r_message r) [])) || includes needle (to_lower (nullish (r_hostname r) [])).
Definition matching_rows (only : bool) (highlight : jsstr) (all : list LogRow) : list LogRow :=
  if negb only || negb (truthy highlight) then all else List.filter (row_matches (to_lower highlight)) all.
(** What a computation now gives, and what is shown. *)
Definition fresh_rows (p : LivePage) : list LogRow := matching_rows (lp_onlyMatching p) (lp_highlight p) (snapshot (lp_store p)).
Definition live_rows (p : LivePage) : list LogRow := mm_rows (lp_memo p).
Definition memo_valid (p : LivePage) : bool :=
  (mm_version (lp_memo p) =? version (lp_store p)) && eqb (mm_only (lp_memo p)) (lp_onlyMatching p)
  && bool_decide (mm_highlight (lp_memo p) = lp_highlight p).
Definition live_render (p : LivePage) : LivePage :=
  if memo_valid p then p
  else MkLivePage (lp_search p) (lp_maxRows p) (lp_paused p) (lp_autoScroll p) (lp_highlight p) (lp_onlyMatching p) (lp_status p)
         (lp_selected p) (lp_mode p) (lp_store p)
         (MkRowsMemo (version (lp_store p)) (lp_onlyMatching p) (lp_highlight p) (fresh_rows p)).

Definition togglePause (p : LivePage) : LivePage :=
  let next := negb (lp_paused p) in
  MkLivePage (lp_search p) (lp_maxRows p) next (lp_autoScroll p) (lp_highlight p) (lp_onlyMatching p) (lp_status p)
    (lp_selected p) (lp_mode p) (setPaused next (lp_store p)) (lp_memo p).
Definition onClear (p : LivePage) : LivePage := with_store (store_clear (lp_store p)) p.
(** The new maximum is an option of the list. *)
Definition onMaxRows (n : nat) (p : LivePage) : LivePage :=
  MkLivePage (lp_search p) n (lp_paused p) (lp_autoScroll p) (lp_highlight p) (lp_onlyMatching p) (lp_status p)
    (lp_selected p) (lp_mode p) (step (lp_store p) (EResize (num (Z.of_nat n)))) (lp_memo p).
Definition set_autoScroll (b : bool) (p : LivePage) : LivePage :=
  MkLivePage (lp_search p) (lp_maxRows p) (lp_paused p) b (lp_highlight p) (lp_onlyMatching p) (lp_status p)
    (lp_selected p) (lp_mode p) (lp_store p) (lp_memo p).
Definition set_highlight (h : jsstr) (only : bool) (p : LivePage) : LivePage :=
  MkLivePage (lp_search p) (lp_maxRows p) (lp_paused p) (lp_autoScroll p) h only (lp_status p) (lp_selected p) (lp_mode p) (lp_store p) (lp_memo p).
Definition set_selected (i : option nat) (p : LivePage) : LivePage :=
  MkLivePage (lp_search p) (lp_maxRows p) (lp_paused p) (lp_autoScroll p) (lp_highlight p) (lp_onlyMatching p) (lp_status p)
    i (lp_mode p) (lp_store p) (lp_memo p).
Definition set_search (s : LiveSearch) (p : LivePage) : LivePage :=
  MkLivePage s (lp_maxRows p) (lp_paused p) (lp_autoScroll p) (lp_highlight p) (lp_onlyMatching p) (lp_status p)
    (lp_selected p) (lp_mode p) (lp_store p) (lp_memo p).

(** Scrolling away from the end stops following it, scrolling back resumes. *)
Definition live_onScroll (scrollHeight scrollTop clientHeight : Z) (p : LivePage) : LivePage :=
  let atBottom := (scrollHeight - scrollTop - clientHeight <? ROW_HEIGHT * 2)%Z in
  if negb atBottom && lp_autoScroll p then set_autoScroll false p
  else if atBottom && negb (lp_autoScroll p) then set_autoScroll true p
  else p.
(** The row the effect scrolls to. *)
Definition follow_row (p : LivePage) : option nat :=
  if lp_autoScroll p && negb (lp_paused p) && (0 <? length (live_rows p)) then Some (length (live_rows p) - 1) else None.

Inductive LiveDot := ld_idle | ld_ok | ld_warn | ld_fail.
Definition statusView (p : LivePage) : LiveDot * jsstr :=
  match (lp_status p).1 with
  | connecting => (ld_idle, $"Connecting…")
  | live => (ld_ok, if lp_paused p then $"Paused" else $"Live")
  | reconnecting => (ld_warn, $"Reconnecting…")
  | error => (ld_fail, $"Error")
  end.
Definition status_dot (p : LivePage) : LiveDot := if lp_paused p then ld_warn else (statusView p).1.
Definition live_nativeError (p : LivePage) : option jsstr :=
  match lp_status p with
  | (error, Some d) => if truthy d then Some d else None
  | _ => None
  end.

Definition live_selectedRow (p : LivePage) : option LogRow := lp_selected p ≫= λ i, live_rows p !! i.
(** The button that says how much is held back. *)
Definition pending_button (p : LivePage) : option nat :=
  if lp_paused p && (0 <? pendingCount (lp_store p)) then Some (pendingCount (lp_store p)) else None.

(** The query bar and the actions of the drawer. *)
Definition live_setFilter (f : option FilterExpr) (p : LivePage) : LivePage :=
  set_search (MkLiveSearch (encodeFilter f) (lv_native (lp_search p))) p.
Definition live_onFilter (f v : jsstr) (p : LivePage) : LivePage := live_setFilter (addValueFilter (dq_filter (live_query p)) f v false) p.
Definition live_onExclude (f v : jsstr) (p : LivePage) : LivePage := live_setFilter (addValueFilter (dq_filter (live_query p)) f v true) p.
Definition live_onNative (t : jsstr) (p : LivePage) : LivePage :=
  set_search (MkLiveSearch (lv_q (lp_search p)) (if truthy (trim t) then Some t else None)) p.

(** The figure of the timer, every two seconds. *)
Definition live_rate (last : nat) (p : LivePage) : Number := ndiv (num (Z.of_nat (received (lp_store p)) - Z.of_nat last)) (num 2).

(** * Everything that happens to a page *)

Inductive live_event :=
| le_call (c : call LogRow ()) | le_toggle | le_clear | le_max (n : nat) | le_autoScroll (b : bool) | le_highlight (h : jsstr) (only : bool)
| le_select (i : option nat) | le_search (s : LiveSearch) | le_query | le_scroll (sh st ch : Z) | le_frame | le_render.

Definition live_step (p : LivePage) (e : live_event) : LivePage :=
  match e with
  | le_call c => tail_call c p
  | le_toggle => togglePause p
  | le_clear => onClear p
  | le_max n => onMaxRows n p
  | le_autoScroll b => set_autoScroll b p
  | le_highlight h only => set_highlight h only p
  | le_select i => set_selected i p
  | le_search s => set_search s p
  | le_query => (query_effect p).1
  | le_scroll a b c => live_onScroll a b c p
  | le_frame => with_store (step (lp_store p) EFrame) p
  | le_render => live_render p
  end.
(** The maximum is chosen from the list. *)
Definition live_event_ok (e : live_event) : Prop := match e with le_max n => n ∈ MAX_ROW_OPTIONS | _ => True end.
Definition live_run (p : LivePage) (es : list live_event) : LivePage := fold_left live_step es p.

(** * The page and its store agree *)

(** Rows of a memo match, and as long as no frame is due those of this version are what
    the store has. *)
Definition memo_ok (s : TailStore B) (m : RowsMemo) : Prop :=
  mm_version m ≤ version s
  ∧ (mm_only m = true → mm_highlight m ≠ [] → Forall (λ r, row_matches (to_lower (mm_highlight m)) r = true) (mm_rows m))
  ∧ (scheduled s = false → mm_version m = version s → mm_rows m = matching_rows (mm_only m) (mm_highlight m) (snapshot s)).
Definition live_inv (p : LivePage) : Prop :=
  store_ok (lp_store p) ∧ paused (lp_store p) = lp_paused p ∧ store_capacity (lp_store p) = lp_maxRows p ∧ memo_ok (lp_store p) (lp_memo p).

Lemma matching_rows_spec only h all : sublist (matching_rows only h all) all
  ∧ (only = true → h ≠ [] → Forall (λ r, row_matches (to_lower h) r = true) (matching_rows only h all)).
Proof.
  unfold matching_rows. destruct only; cbn [negb orb]; [|done]. destruct h as [|c h]; cbn [truthy negb]; [done|]. split; [|intros _ _].
  - induction all as [|r l IH]; cbn; [constructor|]. case_match; by constructor.
  - apply Forall_forall. intros r Hr. apply list_elem_of_In, filter_In in Hr. naive_solver.
Qed.
(** A change of the store asks for a frame, and a frame makes every memo old. *)
Lemma notified_memo s s' m : version s = version s' → memo_ok s m → memo_ok (notify s') m.
Proof.
  intros Hv (Hle & Hm & _). unfold memo_ok, notify. destruct (scheduled s') eqn:E; cbn; rewrite <- Hv; split_and!; try done; congruence.
Qed.
Lemma step_memo s e m : memo_ok s m → memo_ok (step s e) m.
Proof.
  intros Hm. destruct e as [l|b| |n|l|l|]; cbn [step]; try done.
  - apply (notified_memo s); [by destruct (paused s)|done].
  - apply (notified_memo s); [by destruct b|done].
  - by apply (notified_memo s).
  - unfold store_resize. destruct (fifo_resize n (rows s)) as [r|]; [|done]. cbn. destruct (fifo_resize n (pending s)) as [q|]; [|done]. cbn.
    by apply (notified_memo s).
  - destruct (frames s =? 0); [done|]. destruct Hm as (Hle & Hm & _). split_and!; cbn; [lia|done|]. intros _ E. lia.
Qed.
(** After a render the memo is of this version and of what is asked for. *)
Lemma live_render_spec p : memo_ok (lp_store p) (lp_memo p) →
  memo_ok (lp_store p) (lp_memo (live_render p)) ∧ mm_version (lp_memo (live_render p)) = version (lp_store p)
  ∧ mm_only (lp_memo (live_render p)) = lp_onlyMatching p ∧ mm_highlight (lp_memo (live_render p)) = lp_highlight p
  ∧ lp_store (live_render p) = lp_store p ∧ lp_paused (live_render p) = lp_paused p ∧ lp_maxRows (live_render p) = lp_maxRows p.
Proof.
  intros Hm. unfold live_render. destruct (memo_valid p) eqn:E; cbn.
  - unfold memo_valid in E. apply andb_prop in E as [[Hv%Nat.eqb_eq Ho%eqb_prop]%andb_prop Hh%bool_decide_eq_true_1]. done.
  - split_and!; try done. split_and!; cbn; [done|apply matching_rows_spec|done].
Qed.

Lemma option_capacity n : n ∈ MAX_ROW_OPTIONS → capacity_of (num (Z.of_nat n)) = Ok n.
Proof. revert n. apply Forall_forall. repeat constructor. Qed.

Lemma resize_capacity n (s : TailStore B) : store_ok s → n ∈ MAX_ROW_OPTIONS →
  store_capacity (step s (EResize (num (Z.of_nat n)))) = n ∧ paused (step s (EResize (num (Z.of_nat n)))) = paused s.
Proof.
  intros (Hr & Hp & _) Hn%option_capacity. cbn [step]. unfold store_resize.
  destruct (fifo_resize_ok _ _ (rows s) Hr Hn) as (r & -> & _ & Hc & _), (fifo_resize_ok _ _ (pending s) Hp Hn) as (q & -> & _).
  cbn. unfold store_capacity. destruct (notify_fields (MkTailStore r q (paused s) (version s) (scheduled s) (listeners s) (received s) (frames s)))
    as (-> & _ & ->). done.
Qed.

Lemma live_step_inv p e : live_event_ok e → live_inv p → live_inv (live_step p e).
Proof.
  intros He (Hs & Hp & Hc & Hm). unfold live_inv.
  assert (∀ e', match e' with EPush _ | EClear | EFrame => True | _ => False end →
    store_ok (step (lp_store p) e') ∧ paused (step (lp_store p) e') = lp_paused p ∧ store_capacity (step (lp_store p) e') = lp_maxRows p
    ∧ memo_ok (step (lp_store p) e') (lp_memo p)) as Hst.
  { intros e' He'. split_and!; [by apply step_ok| |rewrite step_capacity; [done|done|by destruct e']|by apply step_memo]. rewrite <- Hp.
    destruct e'; try done; cbn [step]; [unfold store_push|unfold store_clear|by case_match];
      rewrite (proj2 (proj2 (notify_fields _))); [by destruct (paused (lp_store p))|done]. }
  destruct e as [c| | |n|b|h only|i|s| |a b c| |]; cbn [live_step]; try (by cbn).
  - destruct c as [st d|r|st]; cbn; [done| |done]. apply (Hst (EPush r)). done.
  - cbn. split_and!; [by apply (step_ok _ (EPause _))| | |by apply (step_memo _ (EPause _))].
    + unfold setPaused. rewrite (proj2 (proj2 (notify_fields _))). by destruct (negb _).
    + rewrite <- Hc. by apply (step_capacity _ (EPause _)).
  - cbn. by apply (Hst EClear).
  - cbn [onMaxRows lp_store lp_paused lp_maxRows lp_memo]. destruct (resize_capacity n _ Hs He) as [Hc' Hp'].
    split_and!; [by apply step_ok|congruence|done|by apply step_memo].
  - unfold query_effect. destruct (dq_error _); cbn; [done|]. by apply (Hst EClear).
  - unfold live_onScroll. by repeat case_match.
  - by apply (Hst EFrame).
  - destruct (live_render_spec p Hm) as (Hm' & _ & _ & _ & -> & -> & ->). done.
Qed.
End page.
#[global] Arguments LivePage : clear implicits.
#[global] Arguments live_event : clear implicits.

(** * Properties

    What the live tail page promises: it and its store agree, pausing stops the
    view, and what is shown is bounded and matches. *)
From Stdlib Require Import ZArith Lia SpecFloat.
From stdpp Require Import base list numbers strings.
From S2P Require Import Prelude Unicode JsNumber FilterAst FilterText Fields FilterSem BoundedFifo RingBuffer TailStore TailSource UrlState.
Open Scope nat_scope.

Section props.
Context {B : Type} `{BoundedFifoLaws B LogRow}.

Lemma live_run_inv es (p : LivePage B) : Forall live_event_ok es → live_inv p → live_inv (live_run p es).
Proof. intros He. revert p. induction He as [|e es He _ IH]; intros p Hp; [done|]. by apply IH, live_step_inv. Qed.

Lemma live_max_step (p : LivePage B) e : live_event_ok e → lp_maxRows p ∈ MAX_ROW_OPTIONS → lp_maxRows (live_step p e) ∈ MAX_ROW_OPTIONS.
Proof.
  intros He Hm. destruct e as [[]| | | | | | | | | | |]; cbn; try done; [unfold query_effect; by case_match| |].
  - unfold live_onScroll. by repeat case_match.
  - unfold live_render. by case_match.
Qed.
Lemma live_max_options es (p : LivePage B) : Forall live_event_ok es → lp_maxRows p ∈ MAX_ROW_OPTIONS →
  lp_maxRows (live_run p es) ∈ MAX_ROW_OPTIONS.
Proof. intros He. revert p. induction He as [|e es He _ IH]; intros p Hp; [done|]. by apply IH, live_max_step. Qed.

(** A render when no frame is due shows what the store has. *)
Lemma render_fresh (p : LivePage B) : live_inv p → scheduled (lp_store p) = false → live_rows (live_render p) = fresh_rows p.
Proof.
  intros (_ & _ & _ & Hm) Hs. destruct (live_render_spec p Hm) as ((_ & _ & Hr) & Hv & Ho & Hh & _). unfold live_rows, fresh_rows.
  by rewrite Hr, Ho, Hh.
Qed.
Lemma frame_settles (p : LivePage B) : live_inv p →
  let q := live_step p le_frame in live_inv q ∧ scheduled (lp_store q) = false ∧ fresh_rows q = fresh_rows p.
Proof.
  intros Hi q. pose proof (live_step_inv p le_frame I Hi) as Hq. split; [done|]. destruct Hi as ((_ & _ & _ & _ & Hf & _) & _).
  unfold q, fresh_rows. cbn. rewrite Hf. by destruct (scheduled (lp_store p)) eqn:E; cbn.
Qed.

(** C18: the live page and its store agree.  Whatever rows and statuses arrive,
    frames and renders run and buttons are pressed, in any order, the store is paused
    exactly when the page says so, its capacity is the chosen maximum, and nothing is
    held back or announced while the page runs.  A render shows only matching rows when
    only those are wanted.  The next frame and the render that follows it, or a render
    while no frame is due, show exactly the rows the store keeps, or those of them that
    match, so at most the chosen maximum; until that frame the rows computed before the
    last change of the store may still be on the screen. *)
Theorem live_page_agrees search (s : TailStore B) es :
  make (num 2000) = Ok s → Forall live_event_ok es →
  let p := live_run (live_init search s) es in
  paused (lp_store p) = lp_paused p ∧ store_capacity (lp_store p) = lp_maxRows p ∧ lp_maxRows p ∈ MAX_ROW_OPTIONS
  ∧ (lp_paused p = false → pending_button p = None ∧ pendingCount (lp_store p) = 0)
  ∧ (lp_onlyMatching p = true → lp_highlight p ≠ [] → Forall (λ r, row_matches (to_lower (lp_highlight p)) r = true) (live_rows (live_render p)))
  ∧ live_rows (live_run p [le_frame; le_render]) = fresh_rows p
  ∧ (scheduled (lp_store p) = false → live_rows (live_render p) = fresh_rows p)
  ∧ length (fresh_rows p) ≤ lp_maxRows p ∧ sublist (fresh_rows p) (snapshot (lp_store p)).
Proof.
  intros Hm He p. destruct (make_ok _ _ Hm) as (Hok & _ & Hpa).
  assert (live_inv (live_init search s)) as Hinit.
  { split; [done|]. split; [done|]. split; [by apply (make_capacity (num 2000))|done]. }
  pose proof (live_run_inv es _ He Hinit) as Hi. fold p in Hi. pose proof Hi as (Hs & Hp & Hc & Hmemo).
  destruct (matching_rows_spec (lp_onlyMatching p) (lp_highlight p) (snapshot (lp_store p))) as [Hsub _].
  split_and!; try done.
  - apply live_max_options; [done|]. vm_decide.
  - intros Hf. unfold pending_button. rewrite Hf. split; [done|]. unfold pendingCount. destruct Hs as (_ & Hq & _ & _ & _ & Hz & _).
    rewrite fifo_size_items by done. by rewrite Hz by congruence.
  - destruct (live_render_spec p Hmemo) as ((_ & Hmatch & _) & _ & Ho & Hh & _). by rewrite Ho, Hh in Hmatch.
  - destruct (frame_settles p Hi) as (Hi' & Hs' & <-). by apply render_fresh.
  - by apply render_fresh.
  - rewrite <- Hc. etrans; [by apply sublist_length|]. by apply snapshot_bounded.
Qed.

(** Events that come by themselves, and scrolling and selecting. *)
Definition passive (e : live_event) : Prop :=
  match e with le_call _ | le_frame | le_render | le_scroll _ _ _ | le_autoScroll _ | le_select _ => True | _ => False end.

(** While the page is paused, what arrives does not move a view that shows what the store has. *)
Theorem paused_view_still es (p : LivePage B) :
  live_inv p → lp_paused p = true → live_rows p = fresh_rows p → Forall passive es → live_rows (live_run p es) = live_rows p.
Proof.
  intros Hi Hp Hf He. revert p Hi Hp Hf. induction He as [|e es He _ IH]; intros p Hi Hp Hf; [done|].
  change (live_run p (e :: es)) with (live_run (live_step p e) es).
  assert (live_event_ok e) as Hok by (by destruct e). pose proof (live_step_inv p e Hok Hi) as Hi'.
  destruct Hi as (_ & Hps & _). rewrite Hp in Hps.
  assert (fresh_rows (live_step p e) = fresh_rows p ∧ lp_paused (live_step p e) = true
    ∧ (live_rows (live_step p e) = live_rows p ∨ live_rows (live_step p e) = fresh_rows p)) as (Hr & Hp' & Hl).
  { destruct e as [[]| | | | | | | | | | |]; try done; cbn [live_step]; try (by split_and!; [..|left]).
    - unfold fresh_rows. cbn. unfold store_push, snapshot. rewrite Hps, (proj1 (notify_fields _)). by split_and!; [..|left].
    - unfold live_onScroll. repeat case_match; by split_and!; [..|left].
    - unfold fresh_rows. cbn. case_match; by split_and!; [..|left].
    - unfold live_render. case_match; split_and!; try done; [by left|by right]. }
  assert (live_rows (live_step p e) = live_rows p) as El by (destruct Hl; congruence).
  rewrite (IH _ Hi' Hp'); congruence.
Qed.

(** The drawer follows the place and not the row: once the store is full, each row
    that arrives replaces what the open drawer shows by the row after it. *)
Theorem selected_row_drifts (p : LivePage B) i r :
  live_inv p → lp_paused p = false → lp_onlyMatching p = false → length (snapshot (lp_store p)) = lp_maxRows p →
  lp_selected p = Some i → scheduled (lp_store p) = false →
  live_selectedRow (live_render p) = snapshot (lp_store p) !! i
  ∧ live_selectedRow (live_run p [le_call (onRows [r]); le_frame; le_render]) = (snapshot (lp_store p) ++ [r]) !! S i.
Proof.
  intros Hi Hp Ho Hl Hsel Hsch. pose proof (live_step_inv p (le_call (onRows [r])) I Hi) as Hi2.
  assert (∀ q : LivePage B, live_selectedRow q = lp_selected q ≫= λ k, live_rows q !! k) as Es by done. rewrite !Es. clear Es.
  assert (lp_selected (live_render p) = Some i) as -> by (unfold live_render; by case_match).
  assert (lp_selected (live_run p [le_call (onRows [r]); le_frame; le_render]) = Some i) as -> by (cbn; unfold live_render; by case_match).
  cbn [mbind option_bind]. rewrite (render_fresh p Hi Hsch). split; [unfold fresh_rows; by rewrite Ho|].
  change (live_run p [le_call (onRows [r]); le_frame; le_render]) with (live_render (live_step (tail_call (Stats := ()) (onRows [r]) p) le_frame)).
  destruct (frame_settles _ Hi2) as (Hi3 & Hs3 & Ef). cbn [live_step] in Hi3, Hs3, Ef |- *. rewrite (render_fresh _ Hi3 Hs3), Ef.
  destruct Hi as (Hs & Hps & Hc & _). rewrite Hp in Hps. unfold fresh_rows. cbn. rewrite Ho. unfold matching_rows. cbn [negb orb].
  unfold store_push. rewrite Hps. unfold snapshot. rewrite (proj1 (notify_fields _)). cbn. destruct Hs as (Hr & _ & _ & Hpos & _).
  rewrite fifo_push_items by done. unfold store_capacity in Hc. rewrite Hc. unfold last_n, snapshot in *.
  rewrite length_app, lookup_drop. cbn. f_equal. lia.
Qed.
End props.

Definition live_row (m : jsstr) : LogRow :=
  MkLogRow $"2026-09-14T10:00:00Z" None (Some m) None None None None None None None None None None None None None None None None None
    None None None None None None None None (MkRowRef [] []).
#[export] Instance row_undefined : Undefined LogRow := live_row [].
Definition live_sample : list live_event :=
  [le_call (onRows [live_row $"a"; live_row $"b"]); le_highlight $"B" true; le_toggle; le_call (onRows [live_row $"b2"]); le_max 500; le_frame; le_render].
(** Rows that were cleared stay on the screen until the frame. *)
Example cleared_rows_linger : ∀ s : TailStore (RingBuffer LogRow), make (num 2000) = Ok s →
  let p := live_run (live_init (MkLiveSearch None None) s)
             [le_call (onRows [live_row $"a"]); le_frame; le_render; le_clear; le_autoScroll false; le_render] in
  snapshot (lp_store p) = [] ∧ live_rows p = [live_row $"a"] ∧ live_rows (live_run p [le_frame; le_render]) = [].
Proof. intros s E. vm_compute in E. injection E as <-. by vm_compute. Qed.

Lemma live_page_agrees_witness :
  ∃ s : TailStore (RingBuffer LogRow), make (num 2000) = Ok s ∧
  let p := live_run (live_init (MkLiveSearch None None) s) live_sample in
  paused (lp_store p) = lp_paused p ∧ length (live_rows p) = 1 ∧ pending_button p = Some 1.
Proof.
  destruct (make (B := RingBuffer LogRow) (num 2000)) as [s|] eqn:E; [|by vm_compute in E]. exists s. split; [done|].
  split; [exact (proj1 (live_page_agrees (MkLiveSearch None None) s live_sample E ltac:(by repeat constructor)))|].
  vm_compute in E. injection E as <-. by vm_compute.
Defined.
