(* ===== verification/AdminPages.v ===== *)
(** The administration pages: users (src/frontend/src/features/users/UsersPage.tsx),
    API keys and settings (features/settings), saved searches and the audit log.
    Each has its state, its handlers and the request a form sends. *)
From Stdlib Require Import ZArith Lia SpecFloat.
From stdpp Require Import base list numbers strings.
From S2P Require Import Prelude Unicode JsNumber JsDate TimeRange UrlState Format Retention Session HostHistory.
Open Scope nat_scope.

(** * Users *)

Inductive Role := role_admin | role_operator | role_viewer.
#[export] Instance Role_eq_dec : EqDecision Role.
Proof. solve_decision. Defined.
Definition ROLES : list (Role * jsstr) :=
  [(role_admin, $"Administrator — full access, including users and sources");
   (role_operator, $"Operator — search, tail, export and manage sources");
   (role_viewer, $"Viewer — search and read dashboards")].

Record AdminUser := MkAdminUser {
  au_id : jsstr; au_username : jsstr; au_display_name : option jsstr; au_role : Role; au_must_change_password : bool;
  au_disabled : option bool; au_created_at : jsstr; au_last_login_at : option jsstr; au_generated_password : option jsstr
}.
Definition is_disabled (u : AdminUser) : bool := nullish (au_disabled u) false.
Inductive UserStatus := us_disabled | us_must_change | us_active.
Definition user_status (u : AdminUser) : UserStatus :=
  if is_disabled u then us_disabled else if au_must_change_password u then us_must_change else us_active.

Inductive UserAction := act_delete | act_revoke.
Record UsersPage := MkUsersPage {
  up_creating : bool; up_editing : option AdminUser; up_confirm : option (AdminUser * UserAction);
  up_generated : option (jsstr * jsstr); up_banner : option jsstr
}.
Definition users_init : UsersPage := MkUsersPage false None None None None.
Definition set_creating (o : bool) (p : UsersPage) : UsersPage := MkUsersPage o (up_editing p) (up_confirm p) (up_generated p) (up_banner p).
Definition set_user_editing (u : option AdminUser) (p : UsersPage) : UsersPage :=
  MkUsersPage (up_creating p) u (up_confirm p) (up_generated p) (up_banner p).
Definition set_user_confirm (c : option (AdminUser * UserAction)) (p : UsersPage) : UsersPage :=
  MkUsersPage (up_creating p) (up_editing p) c (up_generated p) (up_banner p).
Definition set_generated (g : option (jsstr * jsstr)) (p : UsersPage) : UsersPage :=
  MkUsersPage (up_creating p) (up_editing p) (up_confirm p) g (up_banner p).
(** The buttons of a row; one cannot delete oneself. *)
Definition user_actions (self : option jsstr) (u : AdminUser) : list UserAction :=
  act_revoke :: (if bool_decide (Some (au_id u) = self) then [] else [act_delete]).
Definition onCreated (u : AdminUser) (p : UsersPage) : UsersPage :=
  let p := set_creating false p in
  match au_generated_password u with
  | Some (c :: pw) => set_generated (Some (au_username u, c :: pw)) p
  | _ => p
  end.
(** The request a confirmed action sends, and the page after its answer. *)
Definition confirm_click (p : UsersPage) : UsersPage * option (UserAction * jsstr) :=
  match up_confirm p with
  | None => (p, None)
  | Some (u, a) => (MkUsersPage (up_creating p) (up_editing p) (up_confirm p) (up_generated p) None, Some (a, au_id u))
  end.
Definition confirm_done (err : option jsstr) (p : UsersPage) : UsersPage :=
  match err with
  | None => set_user_confirm None p
  | Some m => MkUsersPage (up_creating p) (up_editing p) None (up_generated p) (Some m)
  end.

Record CreateUser := MkCreateUser { cu_username : jsstr; cu_displayName : jsstr; cu_role : Role; cu_password : jsstr; cu_error : option jsstr }.
Definition create_init : CreateUser := MkCreateUser [] [] role_viewer [] None.
Record UserCreateInput := MkUserCreateInput { uc_username : jsstr; uc_display_name : option jsstr; uc_role : Role; uc_password : option jsstr }.
Definition create_submit (d : CreateUser) : CreateUser * option UserCreateInput :=
  if negb (truthy (trim (cu_username d)))
  then (MkCreateUser (cu_username d) (cu_displayName d) (cu_role d) (cu_password d) (Some $"Username is required."), None)
  else (MkCreateUser (cu_username d) (cu_displayName d) (cu_role d) (cu_password d) None,
        Some (MkUserCreateInput (trim (cu_username d)) (or_undef (trim (cu_displayName d))) (cu_role d) (or_undef (cu_password d)))).
Definition create_onOpenChange (o : bool) (d : CreateUser) : CreateUser := if o then create_init else d.

Record EditUser := MkEditUser { eu_displayName : jsstr; eu_role : Role; eu_disabled : bool; eu_newPassword : jsstr; eu_error : option jsstr }.
Definition edit_init (u : AdminUser) : EditUser := MkEditUser (nullish (au_display_name u) []) (au_role u) (is_disabled u) [] None.
Record UserUpdateInput := MkUserUpdateInput {
  uu_display_name : option jsstr; uu_role : option Role; uu_disabled : option bool; uu_new_password : option jsstr
}.
Definition edit_user_submit (u : AdminUser) (d : EditUser) : EditUser * (jsstr * UserUpdateInput) :=
  (MkEditUser (eu_displayName d) (eu_role d) (eu_disabled d) (eu_newPassword d) None,
   (au_id u, MkUserUpdateInput (or_undef (trim (eu_displayName d))) (if decide (eu_role d = au_role u) then None else Some (eu_role d))
      (if Bool.eqb (eu_disabled d) (is_disabled u) then None else Some (eu_disabled d)) (or_undef (eu_newPassword d)))).
(** What can be typed: the role and the box are fixed for oneself. *)
Inductive edit_event := ee_displayName (s : jsstr) | ee_role (r : Role) | ee_disabled (b : bool) | ee_password (s : jsstr).
Definition edit_change (isSelf : bool) (d : EditUser) (e : edit_event) : EditUser :=
  match e with
  | ee_displayName s => MkEditUser s (eu_role d) (eu_disabled d) (eu_newPassword d) (eu_error d)
  | ee_role r => if isSelf then d else MkEditUser (eu_displayName d) r (eu_disabled d) (eu_newPassword d) (eu_error d)
  | ee_disabled b => if isSelf then d else MkEditUser (eu_displayName d) (eu_role d) b (eu_newPassword d) (eu_error d)
  | ee_password s => MkEditUser (eu_displayName d) (eu_role d) (eu_disabled d) s (eu_error d)
  end.

(** * API keys *)

Inductive ApiKeyScope := sc_ingest | sc_search | sc_tail | sc_export.
#[export] Instance ApiKeyScope_eq_dec : EqDecision ApiKeyScope.
Proof. solve_decision. Defined.
Definition SCOPES : list (ApiKeyScope * jsstr) :=
  [(sc_ingest, $"Ingest logs (POST /api/v1/ingest)"); (sc_search, $"Search logs"); (sc_tail, $"Live tail"); (sc_export, $"Export logs")].
Record ApiKeysPage := MkApiKeysPage {
  kp_open : bool; kp_name : jsstr; kp_scopes : list ApiKeyScope; kp_expires : jsstr; kp_secret : option jsstr; kp_error : option jsstr;
  kp_confirm : option (jsstr * jsstr)
}.
Definition keys_init : ApiKeysPage := MkApiKeysPage false [] [sc_ingest] [] None None None.
Definition open_create (p : ApiKeysPage) : ApiKeysPage := MkApiKeysPage true [] [sc_ingest] [] None None (kp_confirm p).
Definition key_error (m : jsstr) (p : ApiKeysPage) : ApiKeysPage :=
  MkApiKeysPage (kp_open p) (kp_name p) (kp_scopes p) (kp_expires p) (kp_secret p) (Some m) (kp_confirm p).
Definition toggle_scope (s : ApiKeyScope) (checked : bool) (p : ApiKeysPage) : ApiKeysPage :=
  MkApiKeysPage (kp_open p) (kp_name p)
    (if checked then kp_scopes p ++ [s] else List.filter (λ x, negb (bool_decide (x = s))) (kp_scopes p))
    (kp_expires p) (kp_secret p) (kp_error p) (kp_confirm p).
Record ApiKeyInput := MkApiKeyInput { ki_name : jsstr; ki_scopes : list ApiKeyScope; ki_expires_at : option jsstr }.
(** The date is of an input of dates: the start of that day, in UTC. *)
Definition key_submit `{TimeZones} (p : ApiKeysPage) : result TimeError (ApiKeysPage * option ApiKeyInput) :=
  if negb (truthy (trim (kp_name p))) then Ok (key_error $"Name is required." p, None)
  else match kp_scopes p with
  | [] => Ok (key_error $"Choose at least one scope." p, None)
  | _ =>
      let p' := MkApiKeysPage (kp_open p) (kp_name p) (kp_scopes p) (kp_expires p) (kp_secret p) None (kp_confirm p) in
      if truthy (kp_expires p)
      then s ← toISOString (date_parse (kp_expires p)); Ok (p', Some (MkApiKeyInput (trim (kp_name p)) (kp_scopes p) (Some s)))
      else Ok (p', Some (MkApiKeyInput (trim (kp_name p)) (kp_scopes p) None))
  end.
Definition key_created (secret : jsstr) (p : ApiKeysPage) : ApiKeysPage :=
  MkApiKeysPage (kp_open p) (kp_name p) (kp_scopes p) (kp_expires p) (Some secret) (kp_error p) (kp_confirm p).
Definition set_key_confirm (c : option (jsstr * jsstr)) (p : ApiKeysPage) : ApiKeysPage :=
  MkApiKeysPage (kp_open p) (kp_name p) (kp_scopes p) (kp_expires p) (kp_secret p) (kp_error p) c.

(** * Saved searches *)

(** Who sees the button that deletes a search. *)
Definition canDelete (may_write : bool) (created_by self role : option jsstr) : bool :=
  may_write && (bool_decide (created_by = self) || bool_decide (role = Some $"admin")).

(** * Retention *)

Record RetentionForm := MkRetentionForm { rf_period : jsstr; rf_error : option jsstr; rf_saved : option jsstr }.
Definition retention_init (desired : option jsstr) (configured : jsstr) : RetentionForm := MkRetentionForm (nullish desired configured) None None.
Definition retention_change (s : jsstr) : RetentionForm := MkRetentionForm s None None.
(** The form after the button, and the period that is sent. *)
Definition retention_submit (f : RetentionForm) : RetentionForm * option jsstr :=
  match validatePeriod (rf_period f) with
  | Some invalid => (MkRetentionForm (rf_period f) (Some invalid) None, None)
  | None => (MkRetentionForm (rf_period f) None None, Some (normalizePeriod (rf_period f)))
  end.
Definition retention_saved (desired : jsstr) (restart_required : bool) (f : RetentionForm) : RetentionForm :=
  MkRetentionForm desired (rf_error f) (if restart_required then None else Some ($"Saved. " ++ desired ++ $" is already in force.")).
Definition retention_failed (m : jsstr) (f : RetentionForm) : RetentionForm := MkRetentionForm (rf_period f) (Some m) (rf_saved f).
(** The line under the form. *)
Definition retention_hint (f : RetentionForm) : jsstr :=
  match rf_error f, rf_saved f with
  | Some (c :: e), _ => c :: e
  | _, Some (c :: s) => c :: s
  | _, _ => $"Whole days or a Go duration: 30d, 90d, 720h. Between 1d and 3650d."
  end.
Definition editable (r_editable may_manage : bool) : bool := r_editable && may_manage.

Record StorageUsage := MkUsage {
  us_compressed : option Number; us_uncompressed : option Number; us_free : option Number; us_total : option Number
}.
Definition nonzero (n : option Number) : option Number := n ≫= λ x, if isNaN x || neq x (num 0) then None else Some x.
(** The compression ratio, when both sizes are known. *)
Definition compression (u : option StorageUsage) : option jsstr :=
  match u ≫= (λ u, nonzero (us_uncompressed u)), u ≫= (λ u, nonzero (us_compressed u)) with
  | Some a, Some b => let ratio := ndiv a b in if isNaN ratio || neq ratio (num 0) then None else Some (to_fixed ratio 1 ++ $"× compression")
  | _, _ => None
  end.
Inductive BarTone := bar_danger | bar_warning | bar_success.
Record StorageBar := MkStorageBar { bar_used : Number; bar_logs : Number; bar_tone : BarTone; bar_other : Number }.
Definition nmin (a b : Number) : Number := if isNaN a || isNaN b then NaN else if nlt b a then b else if nlt a b then a
  else match a with S754_zero false => b | _ => a end.
Definition storage_bar (u : option StorageUsage) : option StorageBar :=
  match u ≫= λ u, nonzero (us_total u) with
  | None => None
  | Some total =>
      let free := nullish (u ≫= us_free) (num 0) in
      let compressed := nullish (u ≫= us_compressed) (num 0) in
      let used := nsub (num 1) (ndiv free total) in
      Some (MkStorageBar used (nmin used (ndiv compressed total))
        (if nlt (num_of_decimal 9 (-1)) used then bar_danger else if nlt (num_of_decimal 75 (-2)) used then bar_warning else bar_success)
        (nmax (num 0) (nsub (nsub total free) compressed)))
  end.

(** * The audit log *)

Definition audit_filtered (s : AuditSearch) : bool :=
  truthy (nullish (a_action s) []) || truthy (nullish (a_actor s) []) || match a_outcome s with outcome_any => false | _ => true end.
Definition audit_toggle (expanded : option jsstr) (id : jsstr) : option jsstr := if decide (expanded = Some id) then None else Some id.
(** The details on one line: blanks collapsed, without the braces. *)
Fixpoint collapse_blanks (s : jsstr) : jsstr :=
  match s with
  | [] => []
  | c :: r => if is_space c then match r with d :: _ => if is_space d then collapse_blanks r else SPACE :: collapse_blanks r | [] => [SPACE] end
              else c :: collapse_blanks r
  end.
Definition audit_summary (details : option jsstr) : jsstr :=
  match details with
  | None | Some [] => []
  | Some t => let u := collapse_blanks t in trim (take (length u - 2) (drop 1 u))
  end.
