(* ===== verification/MockLogs.v ===== *)
(** The log endpoints of the mock server (src/frontend/src/mocks/handlers.ts and
    mocks/data.ts): what a query selects, the pages of a search, histograms, facets,
    aggregations and exports.

    Instants are whole milliseconds and steps whole seconds, so the quotients the
    source floors are at least a millisecond away from the next integer, and are
    computed exactly.  The figures a response adds about its own duration are left
    out. *)
From Stdlib Require Import ZArith Lia SpecFloat.
From stdpp Require Import base list numbers strings.
From S2P Require Import Prelude Unicode FilterAst FilterText JsNumber Fields FilterSem JsDate TimeRange UrlState.
Open Scope nat_scope.

(** * Answers *)

Record MockProblem := MkMockProblem {
  mp_status : Z; mp_code : jsstr; mp_title : jsstr; mp_detail : option jsstr; mp_errors : option (list (jsstr * option nat * jsstr))
}.
Definition mp_type (p : MockProblem) : jsstr := $"https://syslogc.dev/problems/" ++ mp_code p.
Definition mp_request_id (p : MockProblem) : jsstr := $"mock-" ++ mp_code p.
Definition problem (status : Z) (code title : jsstr) (detail : option jsstr) : MockProblem := MkMockProblem status code title detail None.
Definition validationProblem (pointer message : jsstr) : MockProblem :=
  MkMockProblem 422 $"validation_failed" $"Validation failed" (Some message) (Some [(pointer, None, message)]).
Definition unauthenticated : MockProblem := problem 401 $"unauthenticated" $"Authentication required" None.
(** A handler answers, refuses with a problem, or throws. *)
Inductive failure := refused (p : MockProblem) | threw (e : TimeError).
Definition requireAuth (loggedIn : bool) : result failure () := if loggedIn then Ok () else Err (refused unauthenticated).
Definition may_throw {A} (r : result TimeError A) : result failure A := match r with Ok a => Ok a | Err e => Err (threw e) end.

(** * Native queries *)

Definition count_quotes (s : jsstr) : nat := length (List.filter (λ c, (c =? DQUOTE)%N) s).
(** [s.indexOf(p)] *)
Fixpoint index_of_str (p s : jsstr) : option nat :=
  if starts_with p s then Some 0 else match s with [] => None | _ :: r => S <$> index_of_str p r end.
(** [/\|\s*$/] *)
Definition ends_in_pipe (s : jsstr) : bool := match rev (trim_end s) with c :: _ => (c =? 124)%N | [] => false end.

Definition nativeError (text : option jsstr) : option MockProblem :=
  match text with
  | None | Some [] => None
  | Some text =>
      let idx := index_of_str $"syntax(" text in
      if Nat.odd (count_quotes text) || bool_decide (is_Some idx) || ends_in_pipe text then
        let position := match idx with Some i => i | None => length text - 1 end in
        Some (MkMockProblem 422 $"query_invalid" $"Invalid query"
          (Some ($"cannot parse query: unexpected token at position " ++ decn position))
          (Some [($"/native/text", Some position, $"unexpected token")]))
      else None
  end.
Definition native_guard (text : option jsstr) : result failure () :=
  match nativeError text with Some p => Err (refused p) | None => Ok () end.

Definition compileLogsql (filter : option FilterExpr) (native : option jsstr) : jsstr :=
  or_else (join $" " (match filter with Some f => [$"(" ++ formatFilter (Some f) ++ $")"] | None => [] end
                      ++ match native with Some t => if truthy t then [t] else [] | None => [] end)) $"*".

(** The words of a query, as the regular expression takes them: quoted texts and
    runs without blanks. *)
Fixpoint native_words (fuel : nat) (s : jsstr) : list jsstr :=
  match fuel, s with
  | O, _ | _, [] => []
  | S fuel, c :: r =>
      if is_space c then native_words fuel r
      else
        match (if (c =? DQUOTE)%N then index_of DQUOTE r else None) with
        | Some k => (c :: take (S k) r) :: native_words fuel (drop (S k) r)
        | None => take_while (λ c, negb (is_space c)) s :: native_words fuel (drop_while (λ c, negb (is_space c)) s)
        end
  end.
Definition is_key_unit (c : N) : bool := is_lower c || is_upper c || is_digit c || (c =? UNDERSCORE)%N || (c =? DOT)%N || (c =? 64)%N.
Definition strip_one (c : N) (s : jsstr) : jsstr := match s with d :: r => if (c =? d)%N then r else s | [] => [] end.
(** A word such as [field:value], the value after an optional equals sign and in
    optional quotes. *)
Definition native_kv (w : jsstr) : option (jsstr * jsstr) :=
  match take_while is_key_unit w, drop_while is_key_unit w with
  | k :: ks, 58%N :: rest =>
      let s := strip_one DQUOTE (strip_one EQUALS rest) in
      let v := take_while (λ c, negb (c =? DQUOTE)%N) s in
      match drop (length v) s with [] | [_] => Some (k :: ks, v) | _ => None end
  | _, _ => None
  end.
Definition word_matches (r : LogRow) (w : jsstr) : bool :=
  match native_kv w with
  | Some (f, v) => bool_decide (nullish (getField r f) [] = v)
  | None => includes (to_lower (List.filter (λ c, negb (c =? DQUOTE)%N) w)) (to_lower (nullish (r_message r) []))
  end.
(** [text.split('|')[0].trim()] *)
Definition native_head (text : jsstr) : jsstr := trim (take_while (λ c, negb (c =? 124)%N) text).
Definition native_matches (native : option jsstr) (r : LogRow) : bool :=
  match native with
  | None => true
  | Some text =>
      let n := native_head text in
      if truthy n && negb (bool_decide (n = $"*")) then forallb (word_matches r) (native_words (S (length n)) n) else true
  end.

(** * Selecting rows *)

(** [Number(BigInt(time_ns) / 1_000_000n)]; [time_ns] is a decimal numeral. *)
Definition rowTimeMs (r : LogRow) : Z := Z.of_N (digits_val (time_ns (r_ref r)) / 1000000).

Definition in_window (start end_ : option Z) (r : LogRow) : bool :=
  match start, end_ with
  | Some s, Some e => (s <=? rowTimeMs r)%Z && (rowTimeMs r <? e)%Z
  | _, _ => false
  end.

Section logs.
Context `{RegExpEngine} `{TimeZones} (localeCompare : jsstr → jsstr → Z).

Definition mock_resolve (from to : jsstr) (tz : option jsstr) (now : Z) : result TimeError Resolved :=
  resolveRange from to now (or_else (nullish tz []) $"UTC").
Definition native_text (sel : Selection) : option jsstr := n_text <$> sel_native sel.
Definition row_selected (sel : Selection) (w : Resolved) (r : LogRow) : bool :=
  in_window (r_start w) (r_end w) r && selects (sel_filter sel) r && native_matches (native_text sel) r.
Definition selectRows (logs : list LogRow) (sel : Selection) (now : Z) : result TimeError (list LogRow * Resolved) :=
  w ← mock_resolve (sel_from sel) (sel_to sel) (sel_tz sel) now;
  Ok (List.filter (row_selected sel w) logs, w).
(** [resolved(start, end)]: throws when one of them is no date. *)
Definition resolved (w : Resolved) : result TimeError (jsstr * jsstr) :=
  s ← toISOString (r_start w); e ← toISOString (r_end w); Ok (s, e).

(** * The fields of a row that were asked for *)

Definition renamed (f : jsstr) : jsstr := if decide (f = $"_msg") then $"message" else if decide (f = $"_time") then $"timestamp" else f.
Definition keep {A} (names : list jsstr) (name : jsstr) (v : option A) : option A := if decide (name ∈ names) then v else None.
Definition pick (o : list (jsstr * jsstr)) (names : list jsstr) : option (list (jsstr * jsstr)) :=
  let picked := fold_left (λ acc n, match prop_get o n with Some v => assoc_set acc n v | None => acc end) names [] in
  match picked with [] => None | _ => Some picked end.
Definition project (row : LogRow) (fields : option (list jsstr)) : LogRow :=
  match fields with
  | None | Some [] => row
  | Some fs =>
      let names := map renamed fs in
      let other := List.filter (λ n, negb (bool_decide (n ∈ CORE_FIELDS))) names in
      let k {A} := @keep A names in
      MkLogRow (r_timestamp row) (k $"received_at" (r_received_at row)) (k $"message" (r_message row)) (k $"hostname" (r_hostname row))
        (k $"source_ip" (r_source_ip row)) (k $"source_port" (r_source_port row)) (k $"peer_ip" (r_peer_ip row))
        (k $"facility" (r_facility row)) (k $"facility_code" (r_facility_code row)) (k $"severity" (r_severity row))
        (k $"severity_code" (r_severity_code row)) (k $"priority" (r_priority row)) (k $"protocol" (r_protocol row))
        (k $"format" (r_format row)) (k $"app_name" (r_app_name row)) (k $"process_id" (r_process_id row))
        (k $"message_id" (r_message_id row)) (k $"source" (r_source row)) (k $"source_type" (r_source_type row))
        (k $"raw_message" (r_raw_message row)) (k $"parse_error" (r_parse_error row)) (k $"time_source" (r_time_source row))
        (k $"severity_source" (r_severity_source row)) (k $"timestamp_raw" (r_timestamp_raw row)) (k $"truncated" (r_truncated row))
        (k $"fields_dropped" (r_fields_dropped row))
        (pick (nullish (r_labels row) []) (map (drop 7) (List.filter (starts_with $"labels.") other)))
        (pick (nullish (r_fields row) []) (List.filter (λ n, negb (starts_with $"labels." n)) other))
        (r_ref row)
  end.

(** * Counting values *)

Definition bump (counts : list (jsstr * nat)) (v : jsstr) : list (jsstr * nat) := assoc_set counts v (S (nullish (assoc_get counts v) 0)).
(** What a row counts as: nothing without the field, or when it does not match. *)
Definition counted (field search : jsstr) (r : LogRow) : option jsstr :=
  match getField r field with
  | None | Some [] => None
  | Some v => if truthy search && negb (includes (to_lower search) (to_lower v)) then None else Some v
  end.
Definition value_counts (rows : list LogRow) (field search : jsstr) : list (jsstr * nat) :=
  fold_left (λ counts r, match counted field search r with Some v => bump counts v | None => counts end) rows [].
Definition by_count (a b : jsstr * nat) : Z :=
  let d := (Z.of_nat b.2 - Z.of_nat a.2)%Z in if (d =? 0)%Z then localeCompare a.1 b.1 else d.
Definition topValues (rows : list LogRow) (field : jsstr) (limit : nat) (search : jsstr) : list (jsstr * nat) :=
  take limit (array_sort by_count (value_counts rows field search)).

(** * Histograms *)

Definition STEPS : list Z := [1; 5; 10; 30; 60; 300; 600; 900; 1800; 3600; 10800; 21600; 43200; 86400]%Z.
Definition stepLabel (sec : Z) : jsstr :=
  if (sec mod 86400 =? 0)%Z then decz (sec / 86400) ++ $"d"
  else if (sec mod 3600 =? 0)%Z then decz (sec / 3600) ++ $"h"
  else if (sec mod 60 =? 0)%Z then decz (sec / 60) ++ $"m"
  else decz sec ++ $"s".
(** The smallest step that needs no more than so many buckets; [span] in ms. *)
Definition step_for (span bucketsTarget : Z) : Z := nullish (List.find (λ s, (span <=? bucketsTarget * s * 1000)%Z) STEPS) 86400%Z.
(** [Math.ceil(a / b)] *)
Definition ceil_div (a b : Z) : Z := (- (- a / b))%Z.

Record Bucket := MkBucket { bk_t : jsstr; bk_total : nat; bk_split : option (list (jsstr * nat)) }.
Record Histogram := MkHistogram {
  hg_step : Z; hg_total : nat; hg_split_by : option jsstr; hg_split_values : list jsstr; hg_split_other : bool; hg_buckets : list Bucket
}.
Definition split_key (splitValues : list jsstr) (v : jsstr) : jsstr := if bool_decide (v ∈ splitValues) then v else $"other".
Definition fill_bucket (splitBy : option jsstr) (splitValues : list jsstr) (r : LogRow) (b : Bucket) : Bucket :=
  MkBucket (bk_t b) (S (bk_total b))
    (match splitBy, bk_split b with
     | Some f, Some sp => Some (bump sp (split_key splitValues (nullish (getField r f) [])))
     | _, sp => sp
     end).
(** [buckets\[idx\]] of a row: an index below zero or past the end is no bucket. *)
Definition bucket_index (first step : Z) (r : LogRow) : Z := ((rowTimeMs r - first * 1000) / (step * 1000))%Z.
Definition add_row (first step : Z) (splitBy : option jsstr) (splitValues : list jsstr) (bs : list Bucket) (r : LogRow) : list Bucket :=
  let idx := bucket_index first step r in
  if (idx <? 0)%Z then bs else alter (fill_bucket splitBy splitValues r) (Z.to_nat idx) bs.
(** [start] and [end_] in ms; a [splitBy] that is empty is none. *)
Definition histogram (rows : list LogRow) (start end_ : Z) (splitBy : option jsstr) (bucketsTarget : Z) (splitLimit : nat) : Histogram :=
  let step := step_for (end_ - start) bucketsTarget in
  let first := (start / (1000 * step) * step)%Z in
  let n := ceil_div (end_ - first * 1000) (step * 1000) in
  let by_ := splitBy ≫= or_undef in
  let splitValues := match by_ with Some f => map fst (topValues rows f splitLimit []) | None => [] end in
  let allValues := match by_ with Some f => dedup (map (λ r, nullish (getField r f) []) rows) | None => [] end in
  let empty i := MkBucket (iso_string ((first + Z.of_nat i * step) * 1000)) 0 (match by_ with Some _ => Some [] | None => None end) in
  MkHistogram step (length rows) splitBy splitValues (length splitValues <? length allValues)
    (fold_left (add_row first step by_ splitValues) rows (map empty (seq 0 (Z.to_nat n)))).

(** * The endpoints *)

(** [l.slice(a, b)] for numbers: ToIntegerOrInfinity, from the end when negative. *)
Definition slice_index (len : nat) (x : Number) : nat :=
  match x with
  | S754_nan => 0
  | S754_infinity neg => if neg then 0 else len
  | _ =>
      match math_trunc x with
      | Some z => if (z <? 0)%Z then Z.to_nat (Z.of_nat len + z) else Nat.min (Z.to_nat z) len
      | None => 0
      end
  end.
Definition js_slice {A} (l : list A) (a b : Number) : list A :=
  let i := slice_index (length l) a in take (slice_index (length l) b - i) (drop i l).

Record SearchBody := MkSearchBody { sb_sel : Selection; sb_fields : option (list jsstr); sb_limit : option Number; sb_cursor : option jsstr }.
Inductive SearchAnswer :=
| table_answer (columns : list jsstr) (rows : list (jsstr * jsstr)) (compiled : jsstr)
| logs_answer (rows : list LogRow) (returned : nat) (next_cursor : option jsstr) (compiled : jsstr).

(** [/by \((\w+)\)/]: the first group of a by-clause. *)
Definition is_word_unit (c : N) : bool := is_lower c || is_upper c || is_digit c || (c =? UNDERSCORE)%N.
Fixpoint by_group (s : jsstr) : option jsstr :=
  match s with
  | [] => None
  | _ :: r =>
      if starts_with $"by (" s then
        let rest := drop 4 s in
        match take_while is_word_unit rest, drop_while is_word_unit rest with
        | c :: w, 41%N :: _ => Some (c :: w)
        | _, _ => by_group r
        end
      else by_group r
  end.

(** The offset a cursor stands for, and the rows of its page. *)
Definition search_offset (cursor : option jsstr) : Number := match cursor with Some (c :: s) => str_to_number (c :: s) | _ => num 0 end.
Definition search_page (rows : list LogRow) (fields : option (list jsstr)) (limit : Number) (cursor : option jsstr) : list LogRow * option jsstr :=
  let offset := search_offset cursor in
  let upto := nadd offset limit in
  (map (λ r, project r fields) (js_slice rows offset upto),
   if nlt upto (num (Z.of_nat (length rows))) then Some (num_to_string upto) else None).

Definition search_handler (loggedIn : bool) (logs : list LogRow) (now : Z) (body : SearchBody) : result failure (jsstr * jsstr * SearchAnswer) :=
  requireAuth loggedIn ≫= λ _,
  let sel := sb_sel body in
  native_guard (native_text sel) ≫= λ _,
  may_throw (selectRows logs sel now) ≫= λ '(rows, w),
  let compiled := compileLogsql (sel_filter sel) (native_text sel) in
  may_throw (resolved w) ≫= λ range,
  let text := nullish (native_text sel) [] in
  if bool_decide (124%N ∈ text) then
    let field := nullish (by_group text) $"severity" in
    Ok (range, table_answer [field; $"count"] (map (λ v, (v.1, decn v.2)) (topValues rows field 50 [])) compiled)
  else
    let '(page, next) := search_page rows (sb_fields body) (nullish (sb_limit body) (num 200)) (sb_cursor body) in
    Ok (range, logs_answer page (length page) next compiled).

(** What the other endpoints over a selection have in common. *)
Definition over_selection {A} (guard loggedIn : bool) (logs : list LogRow) (now : Z) (sel : Selection)
    (answer : list LogRow → Resolved → result failure A) : result failure (jsstr * jsstr * A) :=
  requireAuth loggedIn ≫= λ _,
  (if guard then native_guard (native_text sel) else Ok ()) ≫= λ _,
  may_throw (selectRows logs sel now) ≫= λ '(rows, w),
  may_throw (resolved w) ≫= λ range,
  answer rows w ≫= λ a, Ok (range, a).

Definition histogram_of (rows : list LogRow) (w : Resolved) (splitBy : option jsstr) (buckets : Z) (limit : nat) : result failure Histogram :=
  match r_start w, r_end w with
  | Some s, Some e => Ok (histogram rows s e splitBy buckets limit)
  | _, _ => Err (threw InvalidTimeValue)
  end.
Definition histogram_handler (loggedIn : bool) (logs : list LogRow) (now : Z) (sel : Selection) (split_by : option jsstr)
    (buckets : option Z) (split_limit : option nat) : result failure (jsstr * jsstr * Histogram) :=
  over_selection true loggedIn logs now sel (λ rows w, histogram_of rows w split_by (nullish buckets 120%Z) (nullish split_limit 8)).
Definition facets_handler (loggedIn : bool) (logs : list LogRow) (now : Z) (sel : Selection) (fields : list jsstr) (limit : option nat) :=
  over_selection true loggedIn logs now sel (λ rows _, Ok (map (λ f, (f, topValues rows f (nullish limit 10) [])) fields)).

Inductive Aggregation := agg_count | agg_distinct (field : option jsstr) | agg_top (field : option jsstr) (limit : option nat).
Inductive AggResult := res_value (v : nat) | res_values (vs : list (jsstr * nat)).
(** The size of a set of values, [undefined] among them. *)
Definition distinct (vs : list (option jsstr)) : nat := length (remove_dups vs).
Definition aggregate (rows : list LogRow) (a : Aggregation) : AggResult :=
  match a with
  | agg_count => res_value (length rows)
  | agg_distinct f => res_value (distinct (map (λ r, getField r (nullish f [])) rows))
  | agg_top f limit => res_values (topValues rows (nullish f []) (nullish limit 10) [])
  end.
Definition stats_handler (loggedIn : bool) (logs : list LogRow) (now : Z) (sel : Selection) (aggs : list Aggregation) :=
  over_selection false loggedIn logs now sel (λ rows _, Ok (map (aggregate rows) aggs)).

(** The fields of the selected rows, and how many rows have each. *)
Inductive MockKind := mk_core | mk_label | mk_dynamic.
Definition row_fields (r : LogRow) : list (jsstr * MockKind) :=
  map (λ c, (c.1, mk_core)) (List.filter (λ c, bool_decide (is_Some c.2)) (core_columns r))
  ++ map (λ l, ($"labels." ++ l.1, mk_label)) (nullish (r_labels r) [])
  ++ map (λ f, (f.1, mk_dynamic)) (nullish (r_fields r) []).
Definition bump_field (counts : list (jsstr * (nat * MockKind))) (f : jsstr * MockKind) : list (jsstr * (nat * MockKind)) :=
  let '(n, k) := nullish (assoc_get counts f.1) (0, f.2) in assoc_set counts f.1 (S n, k).
Definition field_counts (rows : list LogRow) : list (jsstr * (nat * MockKind)) := fold_left bump_field (concat (map row_fields rows)) [].
Definition fields_handler (loggedIn : bool) (logs : list LogRow) (now : Z) (sel : Selection) :=
  over_selection false loggedIn logs now sel (λ rows _, Ok (array_sort (λ a b, localeCompare a.1 b.1) (field_counts rows))).
Definition values_handler (loggedIn : bool) (logs : list LogRow) (now : Z) (sel : Selection) (field : jsstr) (limit : option nat) (search : option jsstr) :=
  over_selection false loggedIn logs now sel (λ rows _, Ok (topValues rows field (nullish limit 20) (nullish search []))).
Definition time_only (from to : jsstr) (tz : option jsstr) : Selection := MkSelection from to tz None None.
Definition volume_handler (loggedIn : bool) (logs : list LogRow) (now : Z) (from to : jsstr) (tz : option jsstr) :=
  over_selection false loggedIn logs now (time_only from to tz) (λ rows w, histogram_of rows w (Some $"severity") 96 8).
Definition top_handler (loggedIn : bool) (logs : list LogRow) (now : Z) (from to : jsstr) (tz : option jsstr) (field : jsstr) (limit : option nat) :=
  over_selection false loggedIn logs now (time_only from to tz)
    (λ rows _, Ok (map (λ v, (v.1, v.2 * 1873)) (topValues rows field (nullish limit 10) []))).
Definition validate_handler (filter : option FilterExpr) (native : option jsstr) : result MockProblem jsstr :=
  match nativeError native with Some p => Err p | None => Ok (compileLogsql filter native) end.

(** * Exports *)

(** A cell is kept from being read as a formula, and quoted where it must be. *)
Definition is_formula_unit (c : N) : bool := bool_decide (c ∈ [EQUALS; 43; MINUS; 64; 9; 13]%N).
Definition csv_safe (v : jsstr) : jsstr := match v with c :: _ => if is_formula_unit c then 39%N :: v else v | [] => [] end.
Definition csv_special (c : N) : bool := bool_decide (c ∈ [DQUOTE; COMMA; 10; 13]%N).
Definition csv_quote (v : jsstr) : jsstr := [DQUOTE] ++ concat (map (λ c, if (c =? DQUOTE)%N then [DQUOTE; DQUOTE] else [c]) v) ++ [DQUOTE].
Definition csv_esc (v : jsstr) : jsstr := let safe := csv_safe v in if existsb csv_special safe then csv_quote safe else safe.
Definition csv_line (fields : list jsstr) (r : LogRow) : jsstr := join [COMMA] (map (λ f, csv_esc (nullish (getField r f) [])) fields).
Definition csv_content (fields : list jsstr) (rows : list LogRow) : jsstr :=
  join [LF] (join [COMMA] fields :: map (csv_line fields) rows) ++ [LF].
(** The text of an export, or the rows its JSON is of. *)
Inductive ExportContent := export_csv (text : jsstr) | export_json (rows : list LogRow) | export_ndjson (rows : list LogRow).
Definition export_fields (fields : option (list jsstr)) : list jsstr :=
  match fields with None | Some [] => [$"timestamp"; $"hostname"; $"severity"; $"app_name"; $"message"] | Some fs => fs end.
Definition export_content (format : jsstr) (fields : list jsstr) (rows : list LogRow) : ExportContent :=
  if decide (format = $"csv") then export_csv (csv_content fields rows)
  else if decide (format = $"json") then export_json (map (λ r, project r (Some fields)) rows)
  else export_ndjson (map (λ r, project r (Some fields)) rows).
Definition export_handler (loggedIn : bool) (logs : list LogRow) (now : Z) (format : option jsstr) (sel : Selection)
    (fields : option (list jsstr)) (limit : option nat) : result failure ExportContent :=
  requireAuth loggedIn ≫= λ _,
  may_throw (selectRows logs sel now) ≫= λ '(rows, _),
  Ok (export_content (nullish format $"ndjson") (export_fields fields) (take (nullish limit (100 * 1000)) rows)).

(** * Analytics *)

Inductive MetricType := metric_count | metric_distinct.
Record AnalyticsMetric := MkMetric { am_type : MetricType; am_field : option jsstr }.
Definition group_rows (rows : list LogRow) (groupBy : jsstr) : list (jsstr * list LogRow) :=
  fold_left (λ buckets r,
    match (if truthy groupBy then getField r groupBy else Some []) with
    | None => buckets
    | Some v => if truthy groupBy && negb (truthy v) then buckets else assoc_set buckets v (nullish (assoc_get buckets v) [] ++ [r])
    end) rows [].
Definition measure (metric : AnalyticsMetric) (rows : list LogRow) : nat :=
  match am_type metric with
  | metric_distinct => length (dedup (omap (λ r, getField r (nullish (am_field metric) [])) rows))
  | metric_count => length rows
  end.
Definition groupMetric (rows : list LogRow) (groupBy : jsstr) (metric : AnalyticsMetric) : list (jsstr * nat) :=
  array_sort by_count (map (λ b, (b.1, measure metric b.2)) (group_rows rows groupBy)).
Definition analyticsValidationError (groupBy : jsstr) (metric : AnalyticsMetric) (limit buckets : option Z) : option MockProblem :=
  if negb (truthy groupBy) then Some (validationProblem $"/group_by" $"group_by is required")
  else if match am_type metric with metric_distinct => negb (truthy (nullish (am_field metric) [])) | metric_count => false end
  then Some (validationProblem $"/metric/field" $"count_distinct needs a field")
  else if match limit with Some l => (50 <? l)%Z | None => false end then Some (validationProblem $"/limit" $"limit must be at most 50")
  else if match buckets with Some b => (1000 <? b)%Z | None => false end then Some (validationProblem $"/buckets" $"buckets must be at most 1000")
  else None.
Definition analytics_guard (e : option MockProblem) : result failure () := match e with Some p => Err (refused p) | None => Ok () end.

(** [l.slice(0, n)] *)
Definition slice_to {A} (l : list A) (n : Z) : list A := take (Z.to_nat (if (n <? 0)%Z then Z.of_nat (length l) + n else n)) l.
Record Breakdown := MkBreakdown { bd_rows : list (jsstr * nat * Number); bd_total : nat; bd_groups : nat }.
Definition share_of (m total : nat) : Number := if total =? 0 then num 0 else ndiv (num (Z.of_nat m)) (num (Z.of_nat total)).
Definition breakdown (rows : list LogRow) (group_by : jsstr) (metric : AnalyticsMetric) (limit : Z) : Breakdown :=
  let groups := groupMetric rows group_by metric in
  let total := measure metric rows in
  MkBreakdown (map (λ g, (g.1, g.2, share_of g.2 total)) (slice_to groups limit)) total (length groups).
Definition breakdown_handler (loggedIn : bool) (logs : list LogRow) (now : Z) (sel : Selection) (group_by : jsstr) (metric : AnalyticsMetric) (limit : option Z) :=
  requireAuth loggedIn ≫= λ _,
  analytics_guard (analyticsValidationError group_by metric limit None) ≫= λ _,
  over_selection true loggedIn logs now sel (λ rows _, Ok (breakdown rows group_by metric (nullish limit 10%Z))).

Record SeriesGroup := MkSeriesGroup { sg_value : jsstr; sg_total : nat; sg_points : list nat }.
Record SeriesAnswer := MkSeriesAnswer { sa_step : Z; sa_timestamps : list jsstr; sa_groups : list SeriesGroup }.
Definition in_bucket (lo step : Z) (r : LogRow) : bool := (lo <=? rowTimeMs r)%Z && (rowTimeMs r <? lo + step * 1000)%Z.
Definition series (rows : list LogRow) (start end_ : Z) (group_by : option jsstr) (metric : AnalyticsMetric) (buckets limit : Z) : SeriesAnswer :=
  let step := step_for (end_ - start) buckets in
  let first := (ceil_div start (1000 * step) * step)%Z in
  let count := Z.max 1 (ceil_div (end_ - first * 1000) (step * 1000)) in
  let ticks := map (λ i, ((first + Z.of_nat i * step) * 1000)%Z) (seq 0 (Z.to_nat count)) in
  let by_ := nullish group_by [] in
  let inGroup value := if truthy by_ then List.filter (λ r, bool_decide (nullish (getField r by_) [] = value)) rows else rows in
  MkSeriesAnswer step (map iso_string ticks)
    (map (λ g, MkSeriesGroup g.1 g.2 (map (λ lo, measure metric (List.filter (in_bucket lo step) (inGroup g.1))) ticks))
       (slice_to (groupMetric rows by_ metric) limit)).
Definition series_handler (loggedIn : bool) (logs : list LogRow) (now : Z) (sel : Selection) (group_by : option jsstr) (metric : AnalyticsMetric)
    (limit buckets : option Z) :=
  requireAuth loggedIn ≫= λ _,
  analytics_guard (analyticsValidationError (nullish group_by $"x") metric limit buckets) ≫= λ _,
  over_selection true loggedIn logs now sel (λ rows w,
    match r_start w, r_end w with
    | Some s, Some e => Ok (series rows s e group_by metric (nullish buckets 120%Z) (nullish limit 5%Z))
    | _, _ => Err (threw InvalidTimeValue)
    end).
End logs.

(** [appendMockRows]: the newest first, at most so many. *)
Definition appendMockRows (rows logs : list LogRow) : list LogRow := take (20 * 1000) (rev rows ++ logs).
