(* ===== verification/MockLogsProps.v ===== *)
(** What the log endpoints of the mock server promise. *)
From Stdlib Require Import ZArith Lia SpecFloat.
From stdpp Require Import base list numbers strings sorting.
From S2P Require Import Prelude Unicode FilterAst FilterText JsNumber JsNumberFacts JsExact Fields FilterSem JsDate TimeRange UrlState.
From S2P Require Import QueryCache ApiHooks HooksProps MockLogs.
Open Scope nat_scope.

(** * Counting *)

Lemma sum_bump counts v : sum_list (map snd (bump counts v)) = S (sum_list (map snd counts)).
Proof.
  unfold bump. induction counts as [|[k n] counts IH]; [done|]. cbn [assoc_set assoc_get]. case_decide; [done|]. cbn. rewrite IH. lia.
Qed.
Lemma bump_get counts v w : nullish (assoc_get (bump counts v) w) 0 = (if decide (w = v) then 1 else 0) + nullish (assoc_get counts w) 0.
Proof.
  unfold bump. case_decide as E; [subst; by rewrite assoc_get_set_eq|]. by rewrite assoc_get_set_ne by done.
Qed.

Lemma bump_positive counts v : Forall (λ c, 0 < c.2) counts → Forall (λ c, 0 < c.2) (bump counts v).
Proof. intros Hc. apply assoc_set_forall; [done|cbn; lia]. Qed.

(** * Histograms *)

Definition bucket_sum (bs : list Bucket) : nat := sum_list (map bk_total bs).
(** A bucket is split exactly when a field is given, and then the parts add up. *)
Definition bucket_ok (splitBy : option jsstr) (b : Bucket) : Prop :=
  match splitBy, bk_split b with
  | Some _, Some sp => sum_list (map snd sp) = bk_total b
  | None, None => True
  | _, _ => False
  end.

Lemma bucket_sum_alter f i bs : (∀ b, bk_total (f b) = S (bk_total b)) → i < length bs → bucket_sum (alter f i bs) = S (bucket_sum bs).
Proof.
  intros Hf. unfold bucket_sum. revert i. induction bs as [|b bs IH]; intros [|i] Hi; cbn in *; [lia|lia|by rewrite Hf|]. rewrite IH by lia. lia.
Qed.
Lemma bucket_ok_fill splitBy vs r b : bucket_ok splitBy b → bucket_ok splitBy (fill_bucket splitBy vs r b).
Proof.
  unfold bucket_ok, fill_bucket. cbn. destruct splitBy as [f|], (bk_split b) as [sp|]; try done. intros E. by rewrite sum_bump, E.
Qed.

(** What the loop has done to one bucket: the rows whose index it is. *)
Lemma fold_buckets first step splitBy vs rows bs :
  let out := fold_left (add_row first step splitBy vs) rows bs in
  length out = length bs
  ∧ (Forall (bucket_ok splitBy) bs → Forall (bucket_ok splitBy) out)
  ∧ ∀ i b, bs !! i = Some b → ∃ b', out !! i = Some b' ∧ bk_t b' = bk_t b
      ∧ bk_total b' = bk_total b + length (List.filter (λ r, (bucket_index first step r =? Z.of_nat i)%Z) rows).
Proof.
  cbv zeta. revert bs. induction rows as [|r rows IH]; intros bs; cbn [fold_left List.filter length].
  { split_and!; [done|done|]. intros i b Hb. exists b. split_and!; [done|done|cbn; lia]. }
  destruct (IH (add_row first step splitBy vs bs r)) as (Hl & Hok & Hget). unfold add_row in Hl, Hok, Hget |- *.
  destruct (Z.ltb_spec (bucket_index first step r) 0) as [Hneg|Hpos].
  { split_and!; [done|done|]. intros i b Hb. destruct (Hget i b Hb) as (b' & ? & ? & ?). exists b'. split_and!; [done|done|].
    destruct (Z.eqb_spec (bucket_index first step r) (Z.of_nat i)); [lia|done]. }
  split_and!; [by rewrite Hl, length_alter| |].
  - intros Hbs. apply Hok. apply Forall_alter; [done|]. intros b _ Hb. by apply bucket_ok_fill.
  - intros i b Hb. set (k := Z.to_nat (bucket_index first step r)) in *. destruct (decide (i = k)) as [->|Hne].
    + destruct (Hget k (fill_bucket splitBy vs r b)) as (b' & Hb' & Ht & Hn).
      { by rewrite list_lookup_alter_eq, Hb. }
      exists b'. split_and!; [done|done|]. rewrite Hn. subst k. rewrite (proj2 (Z.eqb_eq _ _)) by lia. cbn. lia.
    + destruct (Hget i b) as (b' & Hb' & Ht & Hn); [by rewrite list_lookup_alter_ne|].
      exists b'. split_and!; [done|done|]. rewrite Hn. destruct (Z.eqb_spec (bucket_index first step r) (Z.of_nat i)); [lia|done].
Qed.

Lemma fold_bucket_sum first step splitBy vs rows bs :
  Forall (λ r, (0 <= bucket_index first step r < Z.of_nat (length bs))%Z) rows →
  bucket_sum (fold_left (add_row first step splitBy vs) rows bs) = bucket_sum bs + length rows.
Proof.
  intros Hr. revert bs Hr. induction rows as [|r rows IH]; intros bs Hr; cbn [fold_left length]; [lia|].
  apply Forall_cons in Hr as [Hi Hr].
  assert (length (add_row first step splitBy vs bs r) = length bs) as Hl by (unfold add_row; case_match; [done|apply length_alter]).
  rewrite IH by (by rewrite Hl). unfold add_row. destruct (Z.ltb_spec (bucket_index first step r) 0); [lia|].
  rewrite bucket_sum_alter; [lia|done|lia].
Qed.

Lemma ceil_div_bound a b : (0 < b)%Z → (a <= ceil_div a b * b)%Z ∧ (ceil_div a b * b < a + b)%Z.
Proof.
  intros Hb. unfold ceil_div. pose proof (Z.div_mod (- a) b ltac:(lia)). pose proof (Z.mod_pos_bound (- a) b Hb). nia.
Qed.
Lemma step_for_pos span target : (0 < step_for span target)%Z.
Proof.
  unfold step_for. destruct (List.find _ _) as [s|] eqn:E; cbn; [|lia]. apply List.find_some in E as [Hin _].
  assert (Forall (λ s, 0 < s)%Z STEPS) as Hall by (unfold STEPS; repeat constructor).
  rewrite Forall_forall in Hall. apply Hall. by apply list_elem_of_In.
Qed.
Lemma step_for_enough span target : (0 <= target)%Z → (span <= target * 86400 * 1000)%Z → (span <= target * step_for span target * 1000)%Z.
Proof.
  intros Ht Hs. unfold step_for. destruct (List.find _ _) as [s|] eqn:E; cbn; [|done]. apply List.find_some in E as [_ E]. lia.
Qed.

(** The row's index is [i] exactly when its time is in the [i]th interval. *)
Lemma index_in_bucket first step i r : (0 < step)%Z →
  (bucket_index first step r =? i)%Z = in_bucket ((first + i * step) * 1000) step r.
Proof.
  intros Hs. unfold bucket_index, in_bucket. set (t := rowTimeMs r).
  pose proof (Z.div_mod (t - first * 1000) (step * 1000) ltac:(lia)). pose proof (Z.mod_pos_bound (t - first * 1000) (step * 1000) ltac:(lia)).
  apply eq_true_iff_eq. rewrite Z.eqb_eq, andb_true_iff, Z.leb_le, Z.ltb_lt. nia.
Qed.
Lemma index_in_window start end_ first step r :
  (0 < step)%Z → (first * 1000 <= start)%Z → in_window (Some start) (Some end_) r = true →
  (0 <= bucket_index first step r < ceil_div (end_ - first * 1000) (step * 1000))%Z.
Proof.
  intros Hs Hf [H1 H2]%andb_prop. apply Z.leb_le in H1. apply Z.ltb_lt in H2. unfold bucket_index.
  destruct (ceil_div_bound (end_ - first * 1000) (step * 1000) ltac:(lia)) as [Hn _].
  split; [apply Z.div_pos; lia|]. apply Z.div_lt_upper_bound; nia.
Qed.

(** For rows inside the window the loop loses none and puts each where it belongs. *)
Lemma histogram_conserves lc rows start end_ splitBy target limit :
  (0 <= target)%Z → Forall (λ r, in_window (Some start) (Some end_) r = true) rows →
  let h := histogram lc rows start end_ splitBy target limit in
  let first := (start / (1000 * hg_step h) * hg_step h)%Z in
  bucket_sum (hg_buckets h) = hg_total h
  ∧ Forall (bucket_ok (splitBy ≫= or_undef)) (hg_buckets h)
  ∧ (∀ i b, hg_buckets h !! i = Some b →
       bk_t b = iso_string ((first + Z.of_nat i * hg_step h) * 1000)
       ∧ bk_total b = length (List.filter (in_bucket ((first + Z.of_nat i * hg_step h) * 1000) (hg_step h)) rows))
  ∧ ((end_ - start <= target * 86400 * 1000)%Z → (Z.of_nat (length (hg_buckets h)) <= target + 1)%Z).
Proof.
  intros Ht Hrows h first. subst h. unfold histogram in *. cbn [hg_step hg_total hg_buckets] in *.
  set (step := step_for (end_ - start) target) in *. pose proof (step_for_pos (end_ - start) target) as Hstep. fold step in Hstep. fold first.
  set (n := ceil_div (end_ - first * 1000) (step * 1000)). set (by_ := splitBy ≫= or_undef).
  match goal with |- context [fold_left (add_row first step by_ ?v) rows ?b] => set (vs := v); set (bs := b) end.
  assert (length bs = Z.to_nat n) as Hlen by (subst bs; by rewrite length_map, length_seq).
  destruct (ceil_div_bound (end_ - first * 1000) (step * 1000) ltac:(lia)) as [Hn1 Hn2]. fold n in Hn1, Hn2.
  assert (first * 1000 <= start < first * 1000 + 1000 * step)%Z as Hfirst.
  { pose proof (Z.div_mod start (1000 * step) ltac:(lia)). pose proof (Z.mod_pos_bound start (1000 * step) ltac:(lia)). subst first. nia. }
  assert (Forall (λ r, (0 <= bucket_index first step r < Z.of_nat (length bs))%Z) rows) as Hidx.
  { eapply Forall_impl; [exact Hrows|]. intros r Hr. pose proof (index_in_window start end_ first step r Hstep ltac:(lia) Hr). rewrite Hlen. lia. }
  destruct (fold_buckets first step by_ vs rows bs) as (Hl & Hok & Hget).
  assert (∀ i, i < length bs → bs !! i = Some (MkBucket (iso_string ((first + Z.of_nat i * step) * 1000)) 0
    (match by_ with Some _ => Some [] | None => None end))) as Hbs.
  { intros i Hi. subst bs. rewrite list_lookup_fmap, lookup_seq_lt; [done|by rewrite <- Hlen]. }
  split_and!.
  - rewrite fold_bucket_sum by done. subst bs. unfold bucket_sum. rewrite map_map. cbn.
    assert (∀ l, sum_list (map (λ _ : nat, 0) l) = 0) as -> by (induction l; [done|by cbn]). lia.
  - apply Hok. subst bs. apply Forall_fmap, Forall_true. intros i. unfold bucket_ok. cbn. by destruct by_.
  - intros i b Hb. assert (i < length bs) as Hi by (rewrite <- Hl; by eapply lookup_lt_Some).
    destruct (Hget i _ (Hbs i Hi)) as (b' & Hb' & Ht' & Hn). rewrite Hb in Hb'. injection Hb' as <-. split; [done|].
    rewrite Hn. cbn. f_equal. apply List.filter_ext. intros r. by apply index_in_bucket.
  - intros Hspan. rewrite Hl, Hlen. pose proof (step_for_enough (end_ - start) target Ht Hspan) as He. fold step in He.
    assert (n < target + 2)%Z by nia. lia.
Qed.

(** A histogram accounts for every selected row.  When the endpoint answers,
    the bucket totals add up to the number of rows the query selects, each bucket
    holds exactly the rows of its interval, the parts of a split bucket add up to
    its total, and a window of at most so many days as buckets are wanted has at
    most one bucket more. *)
Theorem histogram_answers `{RegExpEngine} `{TimeZones} lc loggedIn logs now sel split_by buckets split_limit range h :
  (0 <= buckets)%Z → histogram_handler lc loggedIn logs now sel split_by (Some buckets) split_limit = Ok (range, h) →
  loggedIn = true ∧
  ∃ w s e, mock_resolve (sel_from sel) (sel_to sel) (sel_tz sel) now = Ok w ∧ r_start w = Some s ∧ r_end w = Some e ∧
    let rows := List.filter (row_selected sel w) logs in
    let first := (s / (1000 * hg_step h) * hg_step h)%Z in
    hg_total h = length rows ∧ bucket_sum (hg_buckets h) = length rows ∧ Forall (bucket_ok (split_by ≫= or_undef)) (hg_buckets h)
    ∧ (∀ i b, hg_buckets h !! i = Some b →
         bk_t b = iso_string ((first + Z.of_nat i * hg_step h) * 1000)
         ∧ bk_total b = length (List.filter (in_bucket ((first + Z.of_nat i * hg_step h) * 1000) (hg_step h)) rows))
    ∧ ((e - s <= buckets * 86400 * 1000)%Z → (Z.of_nat (length (hg_buckets h)) <= buckets + 1)%Z).
Proof.
  intros Hb. unfold histogram_handler, over_selection, selectRows. destruct loggedIn; [|done]. cbn [requireAuth mbind result_bind].
  destruct (native_guard (native_text sel)); [|done]. cbn [mbind result_bind].
  destruct (mock_resolve _ _ _ now) as [w|]; [|done]. cbn [mbind result_bind may_throw].
  unfold histogram_of. destruct (resolved w) as [rg|]; [|done]. cbn [mbind result_bind may_throw].
  destruct (r_start w) as [s|] eqn:Es; [|done]. destruct (r_end w) as [e|] eqn:Ee; [|done]. cbn [mbind result_bind nullish].
  intros [= <- <-]. split; [done|]. exists w, s, e. do 3 (split; [done|]).
  assert (Forall (λ r, in_window (Some s) (Some e) r = true) (List.filter (row_selected sel w) logs)) as Hin.
  { apply Forall_forall. intros r Hr. apply list_elem_of_In, filter_In in Hr as [_ Hr]. unfold row_selected in Hr. rewrite Es, Ee in Hr.
    by apply andb_prop in Hr as [[Hr _]%andb_prop _]. }
  destruct (histogram_conserves lc _ s e split_by buckets (nullish split_limit 8) Hb Hin) as (H1 & H2 & H3 & H4). by split_and!.
Qed.

Definition mock_row (ns message hostname : jsstr) : LogRow :=
  MkLogRow $"t" None (Some message) (Some hostname) None None None None None None None None None None None None None None None None None
    None None None None None None None (MkRowRef [] ns).
Definition mock_logs : list LogRow :=
  [mock_row $"1789380065000000000" $"b" $"web-1"; mock_row $"1789380030500000000" $"a,b" $"web-1"; mock_row $"1789380000000000000" $"=1" $"web-2"].
Definition mock_window : Selection := MkSelection $"2026-09-14T10:00:00.000Z" $"2026-09-14T10:02:00.000Z" None None None.
Definition no_order (a b : jsstr) : Z := 0.
Lemma histogram_answers_witness :
  ∃ range h, histogram_handler (H := no_regexp) (H0 := utc_zones) no_order true mock_logs 0 mock_window (Some $"hostname") (Some 4%Z) None = Ok (range, h)
  ∧ bucket_sum (hg_buckets h) = 3 ∧ map bk_total (hg_buckets h) = [1; 1; 1; 0].
Proof.
  destruct (histogram_handler (H := no_regexp) (H0 := utc_zones) no_order true mock_logs 0 mock_window (Some $"hostname") (Some 4%Z) None)
    as [[range h]|] eqn:E; [|by vm_compute in E].
  exists range, h. split; [done|].
  destruct (histogram_answers no_order true mock_logs 0 mock_window (Some $"hostname") 4 None range h ltac:(lia) E)
    as (_ & w & s & e & Hw & _ & _ & _ & Hsum & _).
  vm_compute in Hw. injection Hw as <-. rewrite Hsum. vm_compute in E. injection E as <- <-. split; vm_compute; reflexivity.
Defined.

(** * The pages of a search *)

Lemma math_trunc_num z : (0 <= z < 2 ^ 53)%Z → math_trunc (num z) = Some z.
Proof.
  intros Hz. destruct z as [|p|p]; [done| |lia]. destruct (num_pos p) as (m & e & -> & He & Hm); [lia|]. unfold math_trunc.
  destruct (Z.leb_spec 0 e).
  - assert (e = 0)%Z as -> by lia. change (2 ^ - 0)%Z with 1%Z in Hm. change (2 ^ 0)%Z with 1%Z. by rewrite Hm, !Z.mul_1_r.
  - rewrite Hm, Z.div_mul by (apply Z.pow_nonzero; lia). done.
Qed.
Lemma slice_index_num len z : (0 <= z < 2 ^ 53)%Z → slice_index len (num z) = Nat.min (Z.to_nat z) len.
Proof.
  intros Hz. unfold slice_index. rewrite math_trunc_num by done.
  assert (∀ a, match num z with S754_nan => 0 | S754_infinity neg => if neg then 0 else len | _ => a end = a) as ->.
  { intros a. destruct z as [|p|p]; [done| |lia]. destruct (num_pos p) as (m & e & -> & _); [lia|done]. }
  destruct (Z.ltb_spec z 0); [lia|done].
Qed.
Lemma js_slice_num {A} (l : list A) a b : (0 <= a)%Z → (a <= b < 2 ^ 53)%Z →
  js_slice l (num a) (num b) = take (Z.to_nat (b - a)) (drop (Z.to_nat a) l).
Proof.
  intros Ha Hb. unfold js_slice. rewrite !slice_index_num by lia. destruct (Nat.le_gt_cases (Z.to_nat a) (length l)) as [Hl|Hl].
  - rewrite (Nat.min_l (Z.to_nat a)) by lia. destruct (Nat.le_gt_cases (Z.to_nat b) (length l)).
    + rewrite (Nat.min_l (Z.to_nat b)) by lia. f_equal. lia.
    + rewrite (Nat.min_r (Z.to_nat b)), !take_ge by (rewrite ?length_drop; lia). done.
  - rewrite (Nat.min_r (Z.to_nat a)), !drop_ge by lia. by rewrite !take_nil.
Qed.
Lemma offset_of_number z : (0 <= z < 2 ^ 52)%Z → search_offset (Some (num_to_string (num z))) = num z.
Proof.
  intros Hz. unfold search_offset. pose proof (number_round_trip z Hz) as E. rewrite num_to_string_num in E |- * by done.
  pose proof (dec_nonempty (Z.to_N z)). by destruct (dec (Z.to_N z)).
Qed.

(** A page at an offset, and where the next one starts. *)
Lemma search_page_at rows fields limit cursor o :
  search_offset cursor = num o → (0 <= o)%Z → (0 <= limit)%Z → (o + limit < 2 ^ 52)%Z → (Z.of_nat (length rows) < 2 ^ 52)%Z →
  search_page rows fields (num limit) cursor =
  (map (λ r, project r fields) (take (Z.to_nat limit) (drop (Z.to_nat o) rows)),
   if (o + limit <? Z.of_nat (length rows))%Z then Some (num_to_string (num (o + limit))) else None).
Proof.
  intros Ho H0 Hl Hb Hr. unfold search_page. rewrite Ho, nadd_num, js_slice_num, nlt_num by lia. by replace (o + limit - o)%Z with limit by lia.
Qed.

(** The explorer asking the mock server for page after page; [enc] is the JSON of
    a row. *)
Section paging.
Context (enc : LogRow → json) (rows : list LogRow) (fields : option (list jsstr)).

Fixpoint client_load (fuel : nat) (loaded : list SearchPage) (cursor : option jsstr) : list (list LogRow) :=
  let '(page, next) := search_page rows fields (num SEARCH_PAGE_SIZE) cursor in
  let p := MkSearchPage true (Some (map enc page)) next in
  page ::
  match getNextPageParam p (loaded ++ [p]), fuel with
  | Some c, S fuel => client_load fuel (loaded ++ [p]) (Some c)
  | _, _ => []
  end.

Definition projected : list LogRow := map (λ r, project r fields) rows.
(** One request: the next two hundred rows, and whether another follows. *)
Lemma client_step fuel k loaded cursor :
  search_offset cursor = num (200 * Z.of_nat k) → loaded_rows loaded = (200 * Z.of_nat k)%Z → k < 50 → (Z.of_nat (length rows) < 2 ^ 51)%Z →
  ∃ loaded' cursor', search_offset (Some cursor') = num (200 * Z.of_nat (S k))
    ∧ (S k * 200 < length rows → loaded_rows loaded' = (200 * Z.of_nat (S k))%Z)
    ∧ client_load fuel loaded cursor = take 200 (drop (k * 200) projected) ::
        (if (S k * 200 <? length rows) && (S k <? 50) then match fuel with S fuel => client_load fuel loaded' (Some cursor') | O => [] end else []).
Proof.
  intros Ho Hl Hk Hr. set (cursor' := num_to_string (num (200 * Z.of_nat k + 200))).
  set (page := take 200 (drop (k * 200) projected)). set (more := S k * 200 <? length rows).
  assert (search_page rows fields (num SEARCH_PAGE_SIZE) cursor = (page, if more then Some cursor' else None)) as Hpage.
  { rewrite (search_page_at rows fields SEARCH_PAGE_SIZE cursor (200 * Z.of_nat k)) by (done || unfold SEARCH_PAGE_SIZE; lia).
    subst page. unfold projected. rewrite <- fmap_drop, <- fmap_take. f_equal; [|].
    - f_equal. change (Z.to_nat SEARCH_PAGE_SIZE) with 200. by replace (Z.to_nat (200 * Z.of_nat k)) with (k * 200) by lia.
    - subst more. unfold SEARCH_PAGE_SIZE. destruct (Z.ltb_spec (200 * Z.of_nat k + 200) (Z.of_nat (length rows))), (Nat.ltb_spec (S k * 200) (length rows)); (done || lia). }
  set (p := MkSearchPage true (Some (map enc page)) (if more then Some cursor' else None)).
  exists (loaded ++ [p]), cursor'.
  assert (loaded_rows (loaded ++ [p]) = (200 * Z.of_nat k + Z.of_nat (length page))%Z) as Hlp.
  { rewrite loaded_rows_snoc, Hl. unfold page_rows. cbn. by rewrite length_map. }
  assert (more = true → length page = 200) as Hfull.
  { intros Hm%Nat.ltb_lt. subst page. unfold projected. rewrite length_take, length_drop, length_map. lia. }
  split_and!.
  - subst cursor'. replace (200 * Z.of_nat (S k))%Z with (200 * Z.of_nat k + 200)%Z by lia. apply offset_of_number. lia.
  - intros Hm. rewrite Hlp, Hfull by (by apply Nat.ltb_lt). lia.
  - destruct fuel; cbn [client_load]; rewrite Hpage; fold p; f_equal; unfold getNextPageParam; cbn [sp_logs negb orb p sp_next_cursor]; rewrite Hlp.
    all: destruct more; cbn [andb]; [rewrite Hfull by done|by destruct (_ <=? _)%Z].
    all: unfold MAX_LOADED_ROWS; destruct (Z.leb_spec 10000 (200 * Z.of_nat k + Z.of_nat 200)), (Nat.ltb_spec (S k) 50); (done || lia).
Qed.

Lemma client_load_from fuel k loaded cursor :
  search_offset cursor = num (200 * Z.of_nat k) → loaded_rows loaded = (200 * Z.of_nat k)%Z → k < 50 → 49 - k ≤ fuel →
  (Z.of_nat (length rows) < 2 ^ 51)%Z →
  concat (client_load fuel loaded cursor) = take ((50 - k) * 200) (drop (k * 200) projected)
  ∧ length (client_load fuel loaded cursor) ≤ 50 - k.
Proof.
  revert k loaded cursor. induction fuel as [fuel IH] using lt_wf_ind. intros k loaded cursor Ho Hl Hk Hf Hr.
  destruct (client_step fuel k loaded cursor Ho Hl Hk Hr) as (loaded' & cursor' & Ho' & Hl' & ->). cbn [concat length].
  assert (length projected = length rows) as Hlen by apply length_map.
  destruct (Nat.ltb_spec (S k * 200) (length rows)) as [Hm|Hm]; cbn [andb concat length].
  2: { split; [|lia]. rewrite app_nil_r, !take_ge by (rewrite length_drop; lia). done. }
  destruct (Nat.ltb_spec (S k) 50) as [H50|H50]; cbn [andb concat length].
  2: { assert (k = 49) as -> by lia. split; [by rewrite app_nil_r|lia]. }
  destruct fuel as [|fuel]; [lia|]. destruct (IH fuel (Nat.lt_succ_diag_r _) (S k) loaded' (Some cursor')) as [-> Hn]; [done|by apply Hl'|lia|lia|done|].
  split; [|lia]. replace ((50 - k) * 200) with (200 + (50 - S k) * 200) by lia.
  rewrite <- take_take_drop, drop_drop. by replace (k * 200 + 200) with (S k * 200) by lia.
Qed.
End paging.

(** C23: the explorer loads what is there.  Asking the mock server for page after
    page as long as the hook offers a next one ends after at most fifty requests
    and has loaded exactly the first ten thousand selected rows, or all of them when
    there are fewer: each once, in order, with the fields that were asked for. *)
Theorem explorer_loads_all enc rows fields fuel :
  (Z.of_nat (length rows) < 2 ^ 51)%Z → 49 ≤ fuel →
  concat (client_load enc rows fields fuel [] None) = take (Z.to_nat MAX_LOADED_ROWS) (map (λ r, project r fields) rows)
  ∧ length (client_load enc rows fields fuel [] None) ≤ 50.
Proof.
  intros Hr Hf. destruct (client_load_from enc rows fields fuel 0 [] None) as [-> Hn]; [done|done|lia|lia|done|].
  split; [|lia]. rewrite drop_0. done.
Qed.

(** * Top values *)

(** How many rows count as [v]. *)
Definition occurrences (rows : list LogRow) (field search v : jsstr) : nat :=
  length (List.filter (λ r, bool_decide (counted field search r = Some v)) rows).

Lemma value_counts_get rows field search v : nullish (assoc_get (value_counts rows field search) v) 0 = occurrences rows field search v.
Proof.
  unfold value_counts, occurrences. induction rows as [|r rows IH] using rev_ind; [done|].
  rewrite fold_left_app, List.filter_app, length_app. cbn [fold_left List.filter]. destruct (counted field search r) as [w|].
  - rewrite bump_get, IH. case_decide as E; [subst; rewrite bool_decide_true by done|rewrite bool_decide_false by congruence]; cbn; lia.
  - rewrite bool_decide_false by done. cbn. lia.
Qed.
Lemma value_counts_ok rows field search :
  NoDup (value_counts rows field search).*1 ∧ Forall (λ c, 0 < c.2) (value_counts rows field search).
Proof.
  unfold value_counts. induction rows as [|r rows [IHd IHp]] using rev_ind; [by split; constructor|].
  rewrite fold_left_app. cbn [fold_left]. destruct (counted field search r) as [w|]; [|done].
  split; [by apply assoc_set_nodup|by apply bump_positive].
Qed.
Lemma value_counts_elem rows field search v n :
  (v, n) ∈ value_counts rows field search ↔ n = occurrences rows field search v ∧ 0 < n.
Proof.
  destruct (value_counts_ok rows field search) as [Hd Hp]. rewrite assoc_get_elem by done. rewrite <- value_counts_get. split.
  - intros E. rewrite E. split; [done|]. apply assoc_get_elem in E; [|done]. rewrite Forall_forall in Hp. by apply (Hp (v, n)).
  - intros [-> Hn]. destruct (assoc_get _ v); [done|cbn in Hn; lia].
Qed.

(** Inserting keeps a list ordered by anything the comparison respects. *)
Section sorted.
Context {A : Type} (cmp : A → A → Z) (R : A → A → Prop) `{!Transitive R}.
Context (Hgt : ∀ x y, (0 < cmp y x)%Z → R x y) (Hle : ∀ x y, (cmp y x <= 0)%Z → R y x).

Lemma insert_sorted_ordered x l : StronglySorted R l → StronglySorted R (insert_sorted cmp x l).
Proof.
  induction 1 as [|y l Hl IH Hy]; cbn [insert_sorted]; [repeat constructor|]. destruct (Z.ltb_spec 0 (cmp y x)) as [Hc|Hc].
  - constructor; [by constructor|]. constructor; [by apply Hgt|]. eapply Forall_impl; [exact Hy|]. intros z Hz. etrans; [by apply Hgt|done].
  - constructor; [done|]. rewrite insert_sorted_perm. constructor; [by apply Hle|done].
Qed.
Lemma array_sort_ordered l : StronglySorted R (array_sort cmp l).
Proof.
  unfold array_sort. assert (∀ acc, StronglySorted R acc → StronglySorted R (sort_acc cmp acc l)) as Hs; [|apply Hs; constructor].
  induction l as [|x l IH]; intros acc Ha; [done|]. cbn. by apply IH, insert_sorted_ordered.
Qed.
End sorted.

Definition more_often (a b : jsstr * nat) : Prop := b.2 ≤ a.2.
#[export] Instance more_often_trans : Transitive more_often.
Proof. intros x y z. unfold more_often. lia. Qed.
Lemma by_count_sorted lc l : StronglySorted more_often (array_sort (by_count lc) l).
Proof.
  apply array_sort_ordered; [apply _| |]; intros x y; unfold by_count, more_often; destruct (Z.eqb_spec (Z.of_nat x.2 - Z.of_nat y.2) 0); lia.
Qed.

(** The top values are the most frequent ones.  Each comes once, with the
    number of selected rows that have it (and match what is searched for), most
    frequent first; as many as asked for or all; and none that is left out occurs
    more often than one that is listed. *)
Theorem top_values_spec lc rows field limit search :
  let top := topValues lc rows field limit search in
  NoDup top.*1 ∧ StronglySorted more_often top
  ∧ (∀ v n, (v, n) ∈ top → n = occurrences rows field search v ∧ 0 < n)
  ∧ (∀ v, 0 < occurrences rows field search v → v ∉ top.*1 →
       length top = limit ∧ ∀ w n, (w, n) ∈ top → occurrences rows field search v ≤ n).
Proof.
  cbv zeta. unfold topValues. set (counts := value_counts rows field search). set (sorted := array_sort (by_count lc) counts).
  assert (sorted ≡ₚ counts) as Hp by apply array_sort_perm. destruct (value_counts_ok rows field search) as [Hd _].
  assert (StronglySorted more_often sorted) as Hs by apply by_count_sorted.
  assert (NoDup sorted.*1) as Hnd by (by rewrite Hp).
  rewrite <- (take_drop limit sorted) in Hs, Hnd. rewrite fmap_app in Hnd. apply NoDup_app in Hnd as (Hnd & Hdis & _).
  apply StronglySorted_app in Hs as (Hcross & Hst & _).
  split_and!; [done|done| |].
  - intros v n Hv. apply value_counts_elem. fold counts. rewrite <- Hp. rewrite <- (take_drop limit sorted). apply elem_of_app. by left.
  - intros v Hv Hout. assert ((v, occurrences rows field search v) ∈ sorted) as Hin by (rewrite Hp; by apply value_counts_elem).
    rewrite <- (take_drop limit sorted) in Hin. apply elem_of_app in Hin as [Hin|Hin].
    { exfalso. apply Hout. apply list_elem_of_fmap. by exists (v, occurrences rows field search v). }
    split.
    + rewrite length_take. destruct (Nat.le_gt_cases limit (length sorted)); [lia|]. rewrite drop_ge in Hin by lia. by apply elem_of_nil in Hin.
    + intros w n Hw. by apply (Hcross (w, n) (v, _) Hw Hin).
Qed.

(** * Exports: a reader of comma-separated values (RFC 4180) *)

Inductive csv_state := cs_start | cs_plain (cell : jsstr) | cs_quoted (cell : jsstr) | cs_closing (cell : jsstr).
Fixpoint csv_rows (st : csv_state) (row : list jsstr) (s : jsstr) : option (list (list jsstr)) :=
  match s with
  | [] => match st, row with cs_start, [] => Some [] | _, _ => None end
  | c :: s =>
      let end_cell cell :=
        if (c =? COMMA)%N then csv_rows cs_start (row ++ [cell]) s
        else if (c =? LF)%N then (λ rest, (row ++ [cell]) :: rest) <$> csv_rows cs_start [] s
        else None in
      let plain cell :=
        if csv_special c then if (c =? DQUOTE)%N then None else end_cell cell else csv_rows (cs_plain (cell ++ [c])) row s in
      match st with
      | cs_start => if (c =? DQUOTE)%N then csv_rows (cs_quoted []) row s else plain []
      | cs_plain cell => plain cell
      | cs_quoted cell => if (c =? DQUOTE)%N then csv_rows (cs_closing cell) row s else csv_rows (cs_quoted (cell ++ [c])) row s
      | cs_closing cell => if (c =? DQUOTE)%N then csv_rows (cs_quoted (cell ++ [DQUOTE])) row s else end_cell cell
      end
  end.
(** What follows a cell: a comma and the next cell, or the end of the row. *)
Definition csv_after (cell : jsstr) (row : list jsstr) (c : N) (s : jsstr) : option (list (list jsstr)) :=
  if (c =? COMMA)%N then csv_rows cs_start (row ++ [cell]) s else (λ rest, (row ++ [cell]) :: rest) <$> csv_rows cs_start [] s.

Lemma read_plain v cell row c s : existsb csv_special v = false → c = COMMA ∨ c = LF →
  csv_rows (cs_plain cell) row (v ++ c :: s) = csv_after (cell ++ v) row c s.
Proof.
  intros Hv Hc. revert cell Hv. induction v as [|d v IH]; intros cell Hv; cbn [existsb app csv_rows] in *.
  - rewrite app_nil_r. destruct Hc as [-> | ->]; done.
  - apply orb_false_iff in Hv as [-> Hv]. rewrite IH by done. by rewrite <- app_assoc.
Qed.
Lemma read_quoted v cell row c s : c = COMMA ∨ c = LF →
  csv_rows (cs_quoted cell) row (concat (map (λ c, if (c =? DQUOTE)%N then [DQUOTE; DQUOTE] else [c]) v) ++ DQUOTE :: c :: s)
  = csv_after (cell ++ v) row c s.
Proof.
  intros Hc. revert cell. induction v as [|d v IH]; intros cell; cbn [map concat app csv_rows].
  - rewrite app_nil_r. destruct Hc as [-> | ->]; done.
  - destruct (N.eqb_spec d DQUOTE) as [->|Hd].
    + rewrite <- app_assoc. cbn [app csv_rows]. rewrite N.eqb_refl, IH. by rewrite <- app_assoc.
    + cbn [app csv_rows]. rewrite (proj2 (N.eqb_neq d DQUOTE)), IH by done. by rewrite <- app_assoc.
Qed.
Lemma read_bare v row c s : existsb csv_special v = false → c = COMMA ∨ c = LF → csv_rows cs_start row (v ++ c :: s) = csv_after v row c s.
Proof.
  intros Hv Hc. destruct v as [|d v]; [destruct Hc as [-> | ->]; done|]. cbn [existsb app csv_rows] in *.
  apply orb_false_iff in Hv as [Hd Hv]. rewrite Hd. destruct (N.eqb_spec d DQUOTE) as [->|_]; [done|]. by rewrite read_plain.
Qed.
(** A cell is read back as it was made safe. *)
Lemma read_cell v row c s : c = COMMA ∨ c = LF → csv_rows cs_start row (csv_esc v ++ c :: s) = csv_after (csv_safe v) row c s.
Proof.
  intros Hc. unfold csv_esc. destruct (existsb csv_special (csv_safe v)) eqn:E; [|by apply read_bare].
  unfold csv_quote. rewrite <- !app_assoc. cbn [app csv_rows]. rewrite N.eqb_refl. by apply (read_quoted (csv_safe v) []).
Qed.

Lemma read_line (cell value : jsstr → jsstr) fs row s :
  (∀ f row c s, f ∈ fs → c = COMMA ∨ c = LF → csv_rows cs_start row (cell f ++ c :: s) = csv_after (value f) row c s) → fs ≠ [] →
  csv_rows cs_start row (join [COMMA] (map cell fs) ++ LF :: s) = (λ rest, (row ++ map value fs) :: rest) <$> csv_rows cs_start [] s.
Proof.
  intros Hcell Hne. revert row. induction fs as [|f fs IH]; intros row; [done|]. destruct fs as [|g fs].
  - cbn [map join]. rewrite Hcell; [done|by left|by right].
  - assert (join [COMMA] (map cell (f :: g :: fs)) = cell f ++ COMMA :: join [COMMA] (map cell (g :: fs))) as -> by done.
    rewrite <- app_assoc. cbn [app]. rewrite Hcell by (by left). unfold csv_after. rewrite N.eqb_refl, IH; [|intros h r c u Hh Hc; apply Hcell; [by right|done]|done].
    by rewrite <- app_assoc.
Qed.

Lemma csv_safe_no_formula v c r : csv_safe v = c :: r → is_formula_unit c = false.
Proof. unfold csv_safe. destruct v as [|d v]; [done|]. destruct (is_formula_unit d) eqn:E; intros [= <- <-]; [done|done]. Qed.

(** C26: an exported table reads back.  Whatever the values are (quotes, commas and
    line breaks in them, or none), and for columns whose names have none of these, reading
    the file as comma-separated values gives the names of the columns and one row per log
    with the value of every column, in order.  A value that a spreadsheet would take for
    a formula, and only such a one, has an apostrophe in front, so no value starts like
    a formula.  (The names of the columns are written as they are.) *)
Theorem csv_round_trip fields rows :
  fields ≠ [] → Forall (λ f, existsb csv_special f = false) fields →
  csv_rows cs_start [] (csv_content fields rows)
  = Some (fields :: map (λ r, map (λ f, csv_safe (nullish (getField r f) [])) fields) rows)
  ∧ (∀ v c s, csv_safe v = c :: s → is_formula_unit c = false)
  ∧ (∀ v, (∃ c s, v = c :: s ∧ is_formula_unit c = true) → csv_safe v = 39%N :: v)
  ∧ (∀ v, (∀ c s, v = c :: s → is_formula_unit c = false) → csv_safe v = v).
Proof.
  intros Hne Hf. split; [|split_and!; [exact csv_safe_no_formula|intros v (c & s & -> & Hc); unfold csv_safe; by rewrite Hc|]].
  2: { intros [|c v] Hv; [done|]. unfold csv_safe. by rewrite (Hv c v eq_refl). }
  unfold csv_content. rewrite join_cons, <- app_assoc.
  assert (∀ l, (l ≫= λ x, [LF] ++ x) ++ [LF] = LF :: concat (map (λ x, x ++ [LF]) l)) as Hlines.
  { induction l as [|x l IH]; [done|]. rewrite bind_cons, <- app_assoc, IH. cbn. by rewrite <- app_assoc. }
  rewrite Hlines. pose proof (read_line (λ f, f) (λ f, f) fields []) as Hhead. rewrite !map_id in Hhead. rewrite Hhead; [|intros f row c s Hin Hc|done].
  2: { apply read_bare; [|done]. rewrite Forall_forall in Hf. by apply Hf. }
  cbn [app]. assert (csv_rows cs_start [] (concat (map (λ x, x ++ [LF]) (map (csv_line fields) rows)))
    = Some (map (λ r, map (λ f, csv_safe (nullish (getField r f) [])) fields) rows)) as ->; [|done].
  induction rows as [|r rows IH]; [done|]. cbn [map concat]. rewrite <- app_assoc. cbn [app]. unfold csv_line at 1.
  rewrite (read_line (λ f, csv_esc (nullish (getField r f) [])) (λ f, csv_safe (nullish (getField r f) [])) fields []); [|intros; by apply read_cell|done].
  by rewrite IH.
Qed.

(** The names of the columns are neither quoted nor made safe. *)
Theorem csv_header_raw :
  csv_rows cs_start [] (csv_content [$"a,b"] []) = Some [[$"a"; $"b"]] ∧ csv_rows cs_start [] (csv_content [$"@version"] []) = Some [[$"@version"]]
  ∧ is_formula_unit 64 = true.
Proof. vm_compute. auto. Qed.

(** * Rows with the fields that were asked for *)

Lemma prop_assoc {A} (o : list (jsstr * A)) k : prop_get o k = assoc_get o k.
Proof. induction o as [|[k' v] o IH]; [done|]. cbn. by rewrite IH. Qed.
Lemma pick_get o names k : k ∈ names → (pick o names ≫= λ p, prop_get p k) = prop_get o k.
Proof.
  intros Hk. unfold pick. set (step := λ acc n, match prop_get o n with Some v => assoc_set acc n v | None => acc end).
  assert (prop_get (fold_left step names []) k = prop_get o k) as <-; [|by destruct (fold_left step names [])].
  assert (∀ l acc, prop_get (fold_left step l acc) k = if decide (k ∈ l) then match prop_get o k with Some v => Some v | None => prop_get acc k end else prop_get acc k) as Hl.
  { induction l as [|n l IH]; intros acc; [done|]. cbn [fold_left]. rewrite IH.
    assert (prop_get (step acc n) k = if decide (k = n) then match prop_get o k with Some v => Some v | None => prop_get acc k end else prop_get acc k) as Hs.
    { subst step. cbn beta. destruct (decide (k = n)) as [<-|E]; [destruct (prop_get o k); [|done]; by rewrite prop_assoc, assoc_get_set_eq|].
      destruct (prop_get o n); [|done]. by rewrite !prop_assoc, assoc_get_set_ne. }
    rewrite Hs. destruct (decide (k ∈ l)) as [Hin|Hin], (decide (k ∈ n :: l)) as [Hin'|Hin']; rewrite elem_of_cons in Hin'; try tauto.
    all: destruct (decide (k = n)); try tauto; by destruct (prop_get o k). }
  rewrite Hl, decide_True by done. by destruct (prop_get o k).
Qed.

(** Two columns of the same name, of the same value if the name was asked for. *)
Definition same_column (names : list jsstr) (a b : jsstr * option jsstr) : Prop := a.1 = b.1 ∧ (a.1 ∈ names → a.2 = b.2).
Lemma keep_column names k v : same_column names (k, keep names k v) (k, v).
Proof. split; [done|]. intros Hk. unfold keep. by rewrite decide_True. Qed.
Lemma keep_column_fmap {A} (h : A → jsstr) names k v : same_column names (k, h <$> keep names k v) (k, h <$> v).
Proof. split; [done|]. intros Hk. unfold keep. by rewrite decide_True. Qed.
Lemma same_column_refl names a : same_column names a a.
Proof. done. Qed.
Lemma same_columns_get names l l' n : Forall2 (same_column names) l l' → n ∈ names → prop_get l n = prop_get l' n.
Proof.
  intros Hl Hn. induction Hl as [|[k v] [k' v'] l l' [Hk Hv] Hl IH]; [done|]. cbn in *. subst k'. case_decide; [|done]. subst. f_equal. by apply Hv.
Qed.

Lemma core_keep r fs n : n ∈ map renamed fs → fs ≠ [] → prop_get (core_columns (project r (Some fs))) n = prop_get (core_columns r) n.
Proof.
  intros Hn Hne. destruct fs as [|f fs]; [done|]. eapply same_columns_get; [|exact Hn]. unfold core_columns, project.
  cbn [r_timestamp r_received_at r_message r_hostname r_source_ip r_source_port r_peer_ip r_facility r_facility_code r_severity r_severity_code
    r_priority r_protocol r_format r_app_name r_process_id r_message_id r_source r_source_type r_raw_message r_parse_error r_time_source
    r_severity_source r_timestamp_raw r_truncated r_fields_dropped].
  repeat first [apply Forall2_nil_2 | apply Forall2_cons_2; [first [apply keep_column | apply keep_column_fmap | apply same_column_refl]|]].
Qed.

(** A column of the page keeps its value when only the columns are asked for. *)
Theorem projected_fields r fs f : f ∈ fs → getField (project r (Some fs)) f = getField r f.
Proof.
  intros Hf. assert (fs ≠ []) as Hne by (by intros ->; apply elem_of_nil in Hf).
  assert (apiFieldName f = renamed f) as Hr by (unfold apiFieldName, renamed; by repeat case_decide; subst).
  assert (renamed f ∈ map renamed fs) as Hn by (apply list_elem_of_fmap; by exists f).
  unfold getField. rewrite Hr. case_bool_decide as Hc; [by rewrite core_keep|].
  assert (renamed f ∈ List.filter (λ n, negb (bool_decide (n ∈ CORE_FIELDS))) (map renamed fs)) as Ho.
  { apply list_elem_of_In, filter_In. split; [by apply list_elem_of_In|]. by rewrite bool_decide_false. }
  destruct fs as [|g fs]; [done|]. cbn [project r_labels r_fields]. destruct (starts_with $"labels." (renamed f)) eqn:El.
  - assert (∀ l : option (list (jsstr * jsstr)), match l with Some l => prop_get l (drop 7 (renamed f)) | None => None end
      = (l ≫= λ p, prop_get p (drop 7 (renamed f)))) as Hm by done.
    rewrite !Hm. rewrite pick_get; [by destruct (r_labels r)|]. apply list_elem_of_fmap. exists (renamed f). split; [done|].
    apply list_elem_of_In, filter_In. split; [by apply list_elem_of_In|done].
  - assert (∀ l : option (list (jsstr * jsstr)), match l with Some l => prop_get l (renamed f) | None => None end
      = (l ≫= λ p, prop_get p (renamed f))) as Hm by done.
    rewrite !Hm. rewrite pick_get; [by destruct (r_fields r)|].
    apply list_elem_of_In, filter_In. split; [by apply list_elem_of_In|by rewrite El].
Qed.

Lemma explorer_loads_all_witness :
  concat (client_load (λ _, JNull) mock_logs (Some [$"message"]) 60 [] None)
  = take (Z.to_nat MAX_LOADED_ROWS) (map (λ r, project r (Some [$"message"])) mock_logs).
Proof. refine (proj1 (explorer_loads_all (λ _, JNull) mock_logs (Some [$"message"]) 60 _ _)); [vm_compute; reflexivity|lia]. Defined.

Lemma csv_round_trip_witness :
  csv_rows cs_start [] (csv_content [$"hostname"; $"message"] mock_logs)
  = Some [[$"hostname"; $"message"]; [$"web-1"; $"b"]; [$"web-1"; $"a,b"]; [$"web-2"; $"'=1"]].
Proof.
  refine (eq_trans (proj1 (csv_round_trip [$"hostname"; $"message"] mock_logs _ _)) _); [done|by vm_decide|vm_compute; reflexivity].
Defined.
