(* ===== verification/MockAdmin.v ===== *)
(** The stateful endpoints of the mock server (src/frontend/src/mocks/handlers.ts):
    the session, saved searches, API keys, users, forward targets, sources, the
    retention period and the service catalog.

    What the browser draws at random or reads from the clock (ids, passwords, the
    instant) is an argument of the handler that uses it; a timer is an operation of
    its own.  An answer is the resource it carries, a refusal the problem it
    reports. *)
From Stdlib Require Import ZArith Lia SpecFloat.
From stdpp Require Import base list numbers strings.
From S2P Require Import Prelude Unicode FilterAst FilterText JsNumber Fields JsDate TimeRange UrlState Severity Retention.
From S2P Require Import SourceTemplates SourceForm ForwardForm ServiceCatalog ExplorerDialogs AdminPages MockLogs.
Open Scope nat_scope.

(** * Stored resources *)

(** What the stores have in common: ids and versions. *)
Class Resource (R : Type) := { res_id : R → jsstr; res_version : R → Z }.
Definition find_by_id `{Resource R} (id : jsstr) (l : list R) : option R := List.find (λ x, bool_decide (res_id x = id)) l.
Definition replace_by_id `{Resource R} (id : jsstr) (u : R) (l : list R) : list R := map (λ x, if bool_decide (res_id x = id) then u else x) l.
Definition remove_by_id `{Resource R} (id : jsstr) (l : list R) : list R := List.filter (λ x, negb (bool_decide (res_id x = id))) l.

(** * The session *)

Definition SESSION_USER_ID : jsstr := $"0192f0c4-0000-7000-8000-000000000001".
(** The new state of the flag, and the user name of the answer. *)
Definition login_handler (loggedIn : bool) (username password : option jsstr) : bool * result MockProblem jsstr :=
  match username, password with
  | Some (c :: u), Some (d :: p) =>
      if decide (d :: p = $"wrong") then (loggedIn, Err (problem 401 $"unauthenticated" $"Invalid credentials" None))
      else (true, Ok (c :: u))
  | _, _ => (loggedIn, Err (problem 401 $"unauthenticated" $"Invalid credentials" None))
  end.
Definition logout_handler (loggedIn : bool) : bool := false.
Definition password_handler (current_password : jsstr) : result MockProblem () :=
  if decide (current_password = $"wrong") then Err (problem 401 $"unauthenticated" $"Current password is incorrect" None) else Ok ().

(** * Saved searches *)

Record MockSaved := MkMockSaved {
  vs_id : jsstr; vs_name : jsstr; vs_description : option jsstr; vs_filter : option FilterExpr; vs_native : option NativeQuery;
  vs_columns : list jsstr; vs_range : jsstr * jsstr; vs_visibility : Visibility; vs_version : Z
}.
#[export] Instance saved_resource : Resource MockSaved := {| res_id := vs_id; res_version := vs_version |}.
(** A native query makes the search one of its dialect. *)
Definition saved_dialect (s : MockSaved) : option jsstr := (λ _, $"logsql") <$> vs_native s.

Definition saved_list (q : option jsstr) (l : list MockSaved) : list MockSaved :=
  let q := to_lower (nullish q []) in
  List.filter (λ s, negb (truthy q) || includes q (to_lower (vs_name s)) || includes q (to_lower (nullish (vs_description s) []))) l.
Definition saved_post (id : jsstr) (body : SavePayload) (l : list MockSaved) : result MockProblem (MockSaved * list MockSaved) :=
  if existsb (λ s, bool_decide (vs_name s = sp_name body)) l
  then Err (problem 409 $"conflict" $"A saved search with this name already exists" None)
  else
    let s := MkMockSaved id (sp_name body) (sp_description body) (sp_filter body) (sp_native body) (sp_columns body) (sp_range body)
               (sp_visibility body) 1 in
    Ok (s, s :: l).
Definition saved_get (id : jsstr) (l : list MockSaved) : result MockProblem MockSaved :=
  match find_by_id id l with Some s => Ok s | None => Err (problem 404 $"not_found" $"Saved search not found" None) end.
(** The members of a stored search the explorer reads; a range that was sent without a zone
    has none. *)
Definition saved_view (s : MockSaved) : SavedSearch :=
  MkSavedSearch (vs_id s) (vs_filter s) (vs_native s) (Some (MkSavedTimeRange (vs_range s).1 (vs_range s).2 None)) (Some (vs_columns s)).
(** Members the body leaves out stay as they are; its query and columns replace. *)
Definition saved_put (id : jsstr) (body : SavePayload) (version : Z) (l : list MockSaved) : result MockProblem (MockSaved * list MockSaved) :=
  match find_by_id id l with
  | None => Err (problem 404 $"not_found" $"Saved search not found" None)
  | Some s =>
      if negb (vs_version s =? version)%Z then Err (problem 409 $"conflict" $"The saved search was modified by someone else" None)
      else
        let u := MkMockSaved (vs_id s) (sp_name body) (match sp_description body with Some d => Some d | None => vs_description s end)
                   (sp_filter body) (sp_native body) (sp_columns body) (sp_range body) (sp_visibility body) (vs_version s + 1) in
        Ok (u, replace_by_id (vs_id s) u l)
  end.
Definition saved_delete (id : jsstr) (l : list MockSaved) : list MockSaved := remove_by_id id l.

(** * API keys *)

Record MockKey := MkMockKey {
  mk_id : jsstr; mk_key_id : jsstr; mk_name : jsstr; mk_scopes : list ApiKeyScope; mk_created_at : jsstr; mk_expires_at : option jsstr
}.
(** The key and the secret, which is in no key. *)
Definition key_post (id keyId random now : jsstr) (body : ApiKeyInput) (l : list MockKey) : MockKey * jsstr * list MockKey :=
  let k := MkMockKey id keyId (ki_name body) (ki_scopes body) now (ki_expires_at body) in
  (k, $"slc_" ++ keyId ++ $"_" ++ take 43 random, k :: l).
Definition key_delete (id : jsstr) (l : list MockKey) : list MockKey := List.filter (λ k, negb (bool_decide (mk_id k = id))) l.

(** * Users *)

Definition user_named (name : jsstr) (u : AdminUser) : bool := bool_decide (au_username u = name).
Definition find_user (id : jsstr) (l : list AdminUser) : option AdminUser := List.find (λ u, bool_decide (au_id u = id)) l.
Definition short_password (p : option jsstr) : bool := match p with Some (c :: r) => length (c :: r) <? 12 | _ => false end.
(** The first users. *)
Definition mock_users (ago : Z → jsstr) : list AdminUser :=
  [MkAdminUser SESSION_USER_ID $"admin" (Some $"Administrator") role_admin false None (ago (30 * 86400000)%Z) (Some (ago 3600000%Z)) None;
   MkAdminUser $"0192f0c4-0000-7000-8000-000000000002" $"alice" (Some $"Alice Chen") role_operator false None (ago (21 * 86400000)%Z)
     (Some (ago (5 * 3600000)%Z)) None;
   MkAdminUser $"0192f0c4-0000-7000-8000-000000000003" $"bob" (Some $"Bob Novak") role_viewer true None (ago (2 * 86400000)%Z) None None;
   MkAdminUser $"0192f0c4-0000-7000-8000-000000000004" $"contractor" None role_viewer false (Some true) (ago (90 * 86400000)%Z)
     (Some (ago (40 * 86400000)%Z)) None].

Definition without_password (u : AdminUser) : AdminUser :=
  MkAdminUser (au_id u) (au_username u) (au_display_name u) (au_role u) (au_must_change_password u) (au_disabled u) (au_created_at u)
    (au_last_login_at u) None.
Definition user_post (id random now : jsstr) (body : UserCreateInput) (l : list AdminUser) : result MockProblem (AdminUser * list AdminUser) :=
  if existsb (user_named (uc_username body)) l
  then Err (problem 409 $"conflict" $"Conflict" (Some ($"a user named " ++ [DQUOTE] ++ uc_username body ++ [DQUOTE] ++ $" already exists")))
  else if short_password (uc_password body) then Err (validationProblem $"/password" $"password must be at least 12 characters")
  else
    let u := MkAdminUser id (uc_username body) (uc_display_name body) (uc_role body) true None now None
               (if truthy (nullish (uc_password body) []) then None else Some ($"rk7-" ++ take 16 random)) in
    Ok (u, l ++ [without_password u]).
Definition user_put (id : jsstr) (body : UserUpdateInput) (l : list AdminUser) : result MockProblem (AdminUser * list AdminUser) :=
  match find_user id l with
  | None => Err (problem 404 $"not_found" $"Not found" (Some $"no such user"))
  | Some u =>
      let self := bool_decide (au_id u = SESSION_USER_ID) in
      if self && match uu_role body with Some r => negb (bool_decide (r = au_role u)) | None => false end
      then Err (validationProblem $"/role" $"you cannot change your own role")
      else if self && nullish (uu_disabled body) false then Err (validationProblem $"/disabled" $"you cannot disable your own account")
      else if short_password (uu_new_password body) then Err (validationProblem $"/new_password" $"password must be at least 12 characters")
      else
        let updated := MkAdminUser (au_id u) (au_username u) (match uu_display_name body with Some d => Some d | None => au_display_name u end)
          (nullish (uu_role body) (au_role u)) (if truthy (nullish (uu_new_password body) []) then true else au_must_change_password u)
          (match uu_disabled body with Some d => Some d | None => au_disabled u end) (au_created_at u) (au_last_login_at u) (au_generated_password u) in
        Ok (updated, map (λ x, if bool_decide (au_id x = au_id u) then updated else x) l)
  end.
Definition active_admins (l : list AdminUser) : list AdminUser := List.filter (λ x, bool_decide (au_role x = role_admin) && negb (is_disabled x)) l.
Definition user_delete (id : jsstr) (l : list AdminUser) : result MockProblem (list AdminUser) :=
  match find_user id l with
  | None => Err (problem 404 $"not_found" $"Not found" (Some $"no such user"))
  | Some u =>
      if decide (au_id u = SESSION_USER_ID) then Err (validationProblem $"/id" $"you cannot delete your own account")
      else if bool_decide (au_role u = role_admin) && (length (active_admins l) <=? 1)
      then Err (validationProblem $"/id" $"the last administrator cannot be deleted")
      else Ok (List.filter (λ x, negb (bool_decide (au_id x = au_id u))) l)
  end.

(** * Retention *)

Definition RETENTION_IN_FORCE : jsstr := $"30d".
Record RetentionState := MkRetentionState { rs_configured : jsstr; rs_desired : option jsstr; rs_restart_required : option bool }.
Definition retentionState (desired : option jsstr) : RetentionState :=
  match desired with
  | None => MkRetentionState RETENTION_IN_FORCE None None
  | Some d => MkRetentionState RETENTION_IN_FORCE (Some d) (Some (negb (samePeriod (Some d) (Some RETENTION_IN_FORCE))))
  end.
Definition retention_put (loggedIn : bool) (period : option jsstr) (desired : option jsstr) : option jsstr * result failure RetentionState :=
  if negb loggedIn then (desired, Err (refused unauthenticated))
  else match validatePeriod (nullish period []) with
  | Some invalid => (desired, Err (refused (validationProblem $"/period" invalid)))
  | None => let d := normalizePeriod (nullish period []) in (Some d, Ok (retentionState (Some d)))
  end.

(** * The service catalog *)

Definition nameProblem (name : jsstr) : option jsstr :=
  if decide (name = []) then Some $"is required"
  else if 64 <? length name then Some $"longer than 64 characters"
  else match List.find (λ c, negb (is_slug c)) (code_points name) with
       | None => None
       | Some bad => Some ($"unexpected character " ++ [DQUOTE] ++ unit_of_cp bad ++ [DQUOTE] ++ $" (use lower-case letters, digits, - and _)")
       end.
Definition domainProblem (domain : jsstr) : option jsstr :=
  if negb (truthy (trim domain)) then Some $"is empty"
  else if 253 <? length domain then Some $"longer than 253 characters"
  else if existsb (λ c, (c =? DQUOTE)%N || (c =? SQUOTE)%N || (c =? STAR)%N || is_space c) domain
  then Some $"must be a plain domain name, without spaces or wildcards"
  else if negb (includes [46%N] (normalDomain domain)) then Some $"must be a domain name, such as tiktok.com"
  else None.
Definition owned_form (d : jsstr) : jsstr := normalDomain (to_lower (trim d)).
Definition country_ok (c : jsstr) : bool := (length c =? 2) && forallb (λ u, is_upper u || is_lower u) c.
Definition quoted (s : jsstr) : jsstr := [DQUOTE] ++ s ++ [DQUOTE].
Definition complain (where_ : jsstr) (pre : jsstr) (m : option jsstr) : list jsstr :=
  match m with Some m => [where_ ++ $": " ++ pre ++ m] | None => [] end.
(** The complaints about the service at position [i], after the names before it. *)
Definition service_complaints (i : nat) (seen : list jsstr) (s : TrendService) : list jsstr :=
  let where_ := if truthy (sv_name s) then $"service " ++ quoted (sv_name s) else $"service " ++ decn (i + 1) in
  let owned := map owned_form (sv_domains s) in
  match nameProblem (sv_name s) with
  | Some m => [where_ ++ $": name: " ++ m]
  | None => if bool_decide (sv_name s ∈ seen) then [where_ ++ $": name: already used by another service"] else []
  end
  ++ (if 64 <? length (sv_label s) then [where_ ++ $": label: longer than 64 characters"] else [])
  ++ (match sv_country s with
      | Some (c :: cs) => if country_ok (c :: cs) then [] else [where_ ++ $": country: must be a two-letter ISO 3166-1 code such as SE, or empty"]
      | _ => []
      end)
  ++ (match sv_domains s with
      | [] => [where_ ++ $": needs at least one domain"]
      | ds => if 32 <? length ds then [where_ ++ $": at most 32 domains are allowed, it has " ++ decn (length ds)] else []
      end)
  ++ (sv_domains s ≫= λ d, complain where_ ($"domain " ++ quoted d ++ $": ") (domainProblem d))
  ++ (nullish (sv_main_domains s) [] ≫= λ d,
        match domainProblem d with
        | Some m => [where_ ++ $": main domain " ++ quoted d ++ $": " ++ m]
        | None => if bool_decide (owned_form d ∈ owned) then [] else [where_ ++ $": main domain " ++ quoted d ++ $" is not one of its domains"]
        end).
Fixpoint services_complaints (i : nat) (seen : list jsstr) (l : list TrendService) : list jsstr :=
  match l with
  | [] => []
  | s :: r => service_complaints i seen s ++ services_complaints (S i) (sv_name s :: seen) r
  end.
Definition catalogValidationError (services : list TrendService) : option MockProblem :=
  let messages :=
    (if 32 <? length services then [$"at most 32 services are allowed, the catalog has " ++ decn (length services)] else [])
    ++ services_complaints 0 [] services in
  match messages with [] => None | _ => Some (validationProblem $"/services" (join [LF] messages)) end.

Definition catalog_put (loggedIn : bool) (services : option (list TrendService)) (stored : list TrendService) :
    list TrendService * result failure (list TrendService) :=
  if negb loggedIn then (stored, Err (refused unauthenticated))
  else match catalogValidationError (nullish services []) with
  | Some p => (stored, Err (refused p))
  | None => (nullish services [], Ok (nullish services []))
  end.
