(* ===== verification/MockTargets.v ===== *)
(** Forward targets and sources of the mock server (src/frontend/src/mocks/handlers.ts):
    validation, what is stored, what is read back, and the timers that report a
    state later. *)
From Stdlib Require Import ZArith Lia SpecFloat.
From stdpp Require Import base list numbers strings.
From S2P Require Import Prelude Unicode JsNumber JsDate Severity SourceTemplates SourceForm ForwardForm MockLogs MockAdmin.
Open Scope nat_scope.

(** * Forward targets *)

Record TargetStatus := MkTargetStatus {
  ts_name : jsstr; ts_healthy : bool; ts_queued : Z; ts_sent : Z; ts_dropped : Z; ts_last_success : option jsstr; ts_last_error : option jsstr;
  ts_min_severity : option Severity; ts_sources : option (list jsstr); ts_enabled : bool
}.
Record MockTarget := MkMockTarget { mt_id : jsstr; mt_config : ForwardTargetConfig; mt_enabled : bool; mt_status : option TargetStatus; mt_version : Z }.
#[export] Instance target_resource : Resource MockTarget := {| res_id := mt_id; res_version := mt_version |}.
(** The targets with the tokens, which are kept apart from them. *)
Record Targets := MkTargets { tg_list : list MockTarget; tg_tokens : list (jsstr * jsstr) }.
Record TargetBody := MkTargetBody { tb_config : ForwardTargetConfig; tb_token : option jsstr; tb_enabled : option bool; tb_version : option Z }.

Definition FILE_TARGET_NAMES : list jsstr := [$"dr-site"].

(** What is read back of a target: whether a token is held, not the token. *)
Definition forwardResponse (tokens : list (jsstr * jsstr)) (t : MockTarget) : MockTarget * bool :=
  (t, truthy (mt_id t) && bool_decide (is_Some (assoc_get tokens (mt_id t)))).
Definition forward_list (s : Targets) : list (MockTarget * bool) := map (forwardResponse (tg_tokens s)) (tg_list s).

Definition assoc_delete {A} (k : jsstr) (l : list (jsstr * A)) : list (jsstr * A) := List.filter (λ x, negb (bool_decide (x.1 = k))) l.
Definition applyForwardToken (id : jsstr) (token : option jsstr) (tokens : list (jsstr * jsstr)) : list (jsstr * jsstr) :=
  match token with
  | None => tokens
  | Some [] => assoc_delete id tokens
  | Some t => assoc_set tokens id t
  end.

Definition forwardStatus (previous : option TargetStatus) (c : ForwardTargetConfig) : TargetStatus :=
  let p := nullish previous (MkTargetStatus [] true 0 0 0 None None None None true) in
  MkTargetStatus (fc_name c) (ts_healthy p) (ts_queued p) (ts_sent p) (ts_dropped p) (ts_last_success p) (ts_last_error p)
    (nullish (fc_min_severity c) None) (fc_sources c) true.

(** A severity and a compression that are none cannot be written here. *)
Definition forward_complaints_of (targets : list MockTarget) (c : ForwardTargetConfig) (selfId : option jsstr) : list jsstr :=
  let name := to_lower (fc_name c) in
  (if truthy (fc_name c) then [] else [$"target: name is required"])
  ++ (if negb (truthy (fc_url c)) then [$"target: url is required"]
      else if negb (HTTP_RE (fc_url c)) then [$"target: url must be http or https"] else [])
  ++ (match fc_queue c ≫= q_max_messages with
      | Some n => if nlt n (num 1) then [$"target: queue.max_messages must be at least 1"] else []
      | None => []
      end)
  ++ (match fc_batch c ≫= b_max_rows with
      | Some n => if nlt n (num 1) then [$"target: batch.max_rows must be at least 1"] else []
      | None => []
      end)
  ++ (match List.find (λ n, bool_decide (to_lower n = name)) FILE_TARGET_NAMES with
      | Some n => [$"target: name is already used by a forward target in the configuration file (" ++ quoted n ++ $")"]
      | None => []
      end)
  ++ (match List.find (λ t, negb (bool_decide (Some (mt_id t) = selfId)) && bool_decide (to_lower (fc_name (mt_config t)) = name)) targets with
      | Some t => [$"target: name is already used by target " ++ quoted (fc_name (mt_config t))]
      | None => []
      end).
Definition forwardValidationError (targets : list MockTarget) (c : ForwardTargetConfig) (selfId : option jsstr) : option MockProblem :=
  match forward_complaints_of targets c selfId with
  | [] => None
  | complaints => Some (validationProblem $"/config" (join $"; " complaints))
  end.

(** A new target is switched off whatever was asked for. *)
Definition target_post (id : jsstr) (body : TargetBody) (s : Targets) : result MockProblem (MockTarget * Targets) :=
  match forwardValidationError (tg_list s) (tb_config body) None with
  | Some p => Err p
  | None =>
      let t := MkMockTarget id (tb_config body) false None 1 in
      Ok (t, MkTargets (tg_list s ++ [t]) (applyForwardToken id (tb_token body) (tg_tokens s)))
  end.
(** The answer, and whether the timer that reports the new state is set. *)
Definition target_put (id : jsstr) (body : TargetBody) (s : Targets) : result MockProblem (MockTarget * Targets * bool) :=
  match find_by_id id (tg_list s) with
  | None => Err (problem 404 $"not_found" $"Not found" (Some $"no such forward target"))
  | Some t =>
      if negb (bool_decide (tb_version body = Some (mt_version t)))
      then Err (problem 409 $"version_conflict" $"Conflict" (Some $"the target was modified by someone else; reload it"))
      else match forwardValidationError (tg_list s) (tb_config body) (Some (mt_id t)) with
      | Some p => Err p
      | None =>
          let enabled := nullish (tb_enabled body) (mt_enabled t) in
          let starting := enabled && negb (mt_enabled t) in
          let u := MkMockTarget (mt_id t) (tb_config body) enabled
                     (if enabled && negb starting then Some (forwardStatus (mt_status t) (tb_config body)) else None) (mt_version t + 1) in
          Ok (u, MkTargets (replace_by_id (mt_id t) u (tg_list s)) (applyForwardToken (mt_id t) (tb_token body) (tg_tokens s)), starting)
      end
  end.
(** Two seconds later; [previous] is the status from before the change. *)
Definition target_timer (id : jsstr) (previous : option TargetStatus) (s : Targets) : Targets :=
  MkTargets
    (map (λ x, if bool_decide (mt_id x = id) && mt_enabled x
               then MkMockTarget (mt_id x) (mt_config x) (mt_enabled x) (Some (forwardStatus previous (mt_config x))) (mt_version x) else x) (tg_list s))
    (tg_tokens s).
Definition target_delete (id : jsstr) (s : Targets) : Targets := MkTargets (remove_by_id id (tg_list s)) (assoc_delete id (tg_tokens s)).

(** * Sources *)

Record MockCert := MkMockCert { mc_subject : jsstr; mc_dns_names : list jsstr; mc_not_before : jsstr; mc_not_after : jsstr }.
Record MockAcme := MkMockAcme { ma_domains : list jsstr; ma_staging : bool; ma_obtained : option (list (jsstr * jsstr)); ma_last_tried : jsstr }.
Inductive ListenerState := ls_running | ls_disabled.
Record SourceStatus := MkSourceStatus {
  ss_name : jsstr; ss_type : SourceType; ss_protocol : option Protocol; ss_address : option jsstr; ss_state : ListenerState
}.
Record MockSource := MkMockSource {
  so_id : jsstr; so_config : SourceConfig; so_enabled : bool; so_adopted : bool; so_certificate : option MockCert; so_acme : option MockAcme;
  so_status : option SourceStatus; so_version : Z
}.
#[export] Instance source_resource : Resource MockSource := {| res_id := so_id; res_version := so_version |}.
Record FileSource := MkFileSource { fl_config : SourceConfig; fl_enabled : bool; fl_status : option SourceStatus }.
Record SourceBody := MkSourceBody { bd_config : SourceConfig; bd_enabled : option bool; bd_version : option Z }.

Definition with_tls (c : SourceConfig) (tls : option SourceTLSConfig) : SourceConfig :=
  MkSourceConfig (sc_name c) (sc_type c) (sc_protocol c) (sc_address c) (sc_format c) (sc_timezone c) (sc_allowed_cidrs c)
    (sc_max_message_bytes c) (sc_raw_message c) (sc_hostname_fallback c) (sc_sd_flatten c) (sc_labels c) (sc_framing c) (sc_max_connections c)
    (sc_idle_timeout c) (sc_udp c) tls (sc_extract c) (sc_template c) (sc_template_parts c).
Definition with_key (t : SourceTLSConfig) (key : option jsstr) : SourceTLSConfig :=
  MkTls (tl_cert_file t) (tl_key_file t) (tl_cert t) key (tl_min_version t) (tl_client_auth t) (tl_client_ca_file t) (tl_client_ca t) (tl_acme t).
Definition opt_trim (o : option jsstr) : jsstr := trim (nullish o []).

(** What is read back: whether a key is stored, and the configuration without it. *)
Definition sourceResponse (s : MockSource) : MockSource * option bool :=
  match sc_tls (so_config s) with
  | None => (s, None)
  | Some tls =>
      (MkMockSource (so_id s) (with_tls (so_config s) (Some (with_key tls None))) (so_enabled s) (so_adopted s) (so_certificate s) (so_acme s)
         (so_status s) (so_version s), Some (truthy (opt_trim (tl_key tls))))
  end.

Definition describeCertificate (now : Z) (c : SourceConfig) (previous : option MockSource) : option MockCert :=
  let cert := opt_trim (sc_tls c ≫= tl_cert) in
  if negb (truthy cert) then None
  else
    let fresh := MkMockCert ($"CN=" ++ sc_name c) [sc_name c] (iso_string (now - 3600000)) (iso_string (now + 90 * 86400000)) in
    match previous ≫= so_certificate, previous ≫= λ p, trim <$> (sc_tls (so_config p) ≫= tl_cert) with
    | Some old, Some text => if decide (text = cert) then Some old else Some fresh
    | _, _ => Some fresh
    end.
Definition describeAcme (now : Z) (c : SourceConfig) (previous : option MockSource) : option MockAcme :=
  match sc_tls c ≫= tl_acme with
  | None => None
  | Some acme =>
      if negb (nullish (ac_enabled acme) false) then None
      else
        let domains := nullish (ac_domains acme) [] in
        let staging := nullish (ac_staging acme) false in
        let fresh := MkMockAcme domains staging None (iso_string now) in
        match previous ≫= so_acme with
        | Some before =>
            if Bool.eqb (ma_staging before) staging && bool_decide (join [COMMA] (ma_domains before) = join [COMMA] domains) then Some before else Some fresh
        | None => Some fresh
        end
  end.
Definition obtainedNow (now : Z) (a : MockAcme) : MockAcme :=
  MkMockAcme (ma_domains a) (ma_staging a) (Some (fold_left (λ o d, assoc_set o d (iso_string now)) (ma_domains a) [])) (iso_string now).

Definition tlsValidationError (tls : option SourceTLSConfig) : option MockProblem :=
  let acme := tls ≫= tl_acme in
  let cert := opt_trim (tls ≫= tl_cert) in
  let key := opt_trim (tls ≫= tl_key) in
  if nullish (acme ≫= ac_enabled) false then
    if match acme ≫= ac_domains with Some (_ :: _) => false | _ => true end
    then Some (validationProblem $"/config" $"source: tls.acme.domains: at least one hostname is required to ask for a certificate")
    else if negb (nullish (acme ≫= ac_accept_terms) false)
    then Some (validationProblem $"/config" ($"source: tls.acme.accept_terms must be set: asking a certificate authority for a certificate accepts its "
                 ++ $"subscriber agreement, https://letsencrypt.org/repository/"))
    else None
  else if truthy cert then
    if negb (starts_with $"-----BEGIN CERTIFICATE-----" cert)
    then Some (validationProblem $"/config/tls/cert"
           (if includes $"PRIVATE KEY-----" cert
            then $"that is a private key, not a certificate; the certificate begins with -----BEGIN CERTIFICATE-----"
            else $"that is not PEM; a certificate begins with -----BEGIN CERTIFICATE-----"))
    else if negb (truthy key) then Some (validationProblem $"/config" $"source: tls.key is required alongside tls.cert")
    else None
  else if negb (truthy (nullish (tls ≫= tl_cert_file) [])) || negb (truthy (nullish (tls ≫= tl_key_file) []))
  then Some (validationProblem $"/config/tls" $"a TLS source needs a certificate: paste it, or give the path to one on the server")
  else None.

Section sources.
Context (FILE_SOURCES : list FileSource) (TEMPLATE_IDS : list jsstr).

Definition source_names (sources : list MockSource) : list (option jsstr * jsstr) :=
  map (λ f, (None, sc_name (fl_config f))) FILE_SOURCES ++ map (λ s, (Some (so_id s), sc_name (so_config s))) sources.
(** A source of that name, without regard to case, that is another one. *)
Definition name_clash (sources : list MockSource) (name : jsstr) (selfId : option jsstr) : option jsstr :=
  snd <$> List.find (λ n : option jsstr * jsstr, negb (match selfId with Some _ => bool_decide (n.1 = selfId) | None => false end)
                                                  && bool_decide (to_lower n.2 = to_lower name)) (source_names sources).
Definition is_syslog (c : SourceConfig) : bool := match sc_type c with ty_syslog => true | ty_http_json => false end.
Definition source_complaints (sources : list MockSource) (c : SourceConfig) (selfId : option jsstr) : list jsstr :=
  let template := opt_trim (sc_template c) in
  (if truthy (sc_name c) then [] else [$"source: name is required"])
  ++ (if is_syslog c && negb (truthy (nullish (sc_address c) [])) then [$"source: address: missing port"] else [])
  ++ (match is_syslog c, sc_protocol c, sc_max_message_bytes c with
      | true, Some pr_udp, Some (d :: m) => if nlt (num 65535) (str_to_number (d :: m)) then [$"source: max_message_bytes cannot exceed 65535 for udp"] else []
      | _, _, _ => []
      end)
  ++ (if truthy template && negb (bool_decide (template ∈ TEMPLATE_IDS)) then [$"source: template: unknown template " ++ quoted template] else [])
  ++ (match name_clash sources (sc_name c) selfId with
      | Some n => [$"source: name is already used by source " ++ quoted n]
      | None => []
      end).
Definition tls_problem (c : SourceConfig) : option MockProblem :=
  if is_syslog c then match sc_protocol c with Some pr_tls => tlsValidationError (sc_tls c) | _ => None end else None.
Definition sourceValidationError (sources : list MockSource) (c : SourceConfig) (selfId : option jsstr) : option MockProblem :=
  match tls_problem c with
  | Some p => Some p
  | None => match source_complaints sources c selfId with [] => None | complaints => Some (validationProblem $"/config" (join $"; " complaints)) end
  end.

(** A file source that was adopted is replaced by its copy. *)
Definition source_list (sources : list MockSource) : list FileSource * list (MockSource * option bool) :=
  let adopted := map (λ s, sc_name (so_config s)) (List.filter so_adopted sources) in
  (List.filter (λ f, negb (bool_decide (sc_name (fl_config f) ∈ adopted))) FILE_SOURCES, map sourceResponse sources).
Definition source_adopt (id name : jsstr) (sources : list MockSource) : result MockProblem (MockSource * list MockSource) :=
  match List.find (λ f, bool_decide (sc_name (fl_config f) = name)) FILE_SOURCES with
  | None => Err (problem 404 $"not_found" $"Not found" (Some ($"no source named " ++ quoted name ++ $" in the configuration file")))
  | Some f =>
      if existsb (λ s, bool_decide (sc_name (so_config s) = name)) sources
      then Err (problem 409 $"conflict" $"Conflict" (Some (quoted name ++ $" is already managed here")))
      else let s := MkMockSource id (fl_config f) (fl_enabled f) true None None (fl_status f) 1 in Ok (s, sources ++ [s])
  end.
Definition source_get (id : jsstr) (sources : list MockSource) : result MockProblem (MockSource * option bool) :=
  match find_by_id id sources with
  | Some s => Ok (sourceResponse s)
  | None => Err (problem 404 $"not_found" $"Not found" (Some $"no such source"))
  end.
Definition status_of (c : SourceConfig) (state : ListenerState) : SourceStatus := MkSourceStatus (sc_name c) (sc_type c) (sc_protocol c) (sc_address c) state.
Definition source_post (id : jsstr) (now : Z) (body : SourceBody) (sources : list MockSource) : result MockProblem (MockSource * list MockSource) :=
  match sourceValidationError sources (bd_config body) None with
  | Some p => Err p
  | None =>
      let s := MkMockSource id (bd_config body) (nullish (bd_enabled body) true) false (describeCertificate now (bd_config body) None)
                 (describeAcme now (bd_config body) None) None 1 in
      Ok (s, sources ++ [s])
  end.
(** The listener has started: two and a half seconds later. *)
Definition source_timer (id : jsstr) (now : Z) (sources : list MockSource) : list MockSource :=
  map (λ x, if bool_decide (so_id x = id)
            then MkMockSource (so_id x) (so_config x) (so_enabled x) (so_adopted x) (so_certificate x)
                   (if so_enabled x then obtainedNow now <$> so_acme x else so_acme x)
                   (Some (status_of (so_config x) (if so_enabled x then ls_running else ls_disabled))) (so_version x)
            else x) sources.
(** A save without a key keeps the stored one. *)
Definition kept_key (body old : SourceConfig) : SourceConfig :=
  match sc_tls body with
  | Some tls =>
      let stored := nullish (sc_tls old ≫= tl_key) [] in
      if negb (truthy (opt_trim (tl_key tls))) && truthy stored then with_tls body (Some (with_key tls (Some stored))) else body
  | None => body
  end.
Definition source_put (id : jsstr) (now : Z) (body : SourceBody) (sources : list MockSource) : result MockProblem (MockSource * list MockSource) :=
  match find_by_id id sources with
  | None => Err (problem 404 $"not_found" $"Not found" (Some $"no such source"))
  | Some s =>
      if negb (bool_decide (bd_version body = Some (so_version s)))
      then Err (problem 409 $"version_conflict" $"Conflict" (Some $"the source was modified by someone else; reload it"))
      else
        let c := kept_key (bd_config body) (so_config s) in
        match sourceValidationError sources c (Some (so_id s)) with
        | Some p => Err p
        | None =>
            let u := MkMockSource (so_id s) c (nullish (bd_enabled body) (so_enabled s)) (so_adopted s) (describeCertificate now c (Some s))
                       (describeAcme now c (Some s))
                       (Some (status_of c (match bd_enabled body with Some false => ls_disabled | _ => ls_running end))) (so_version s + 1) in
            Ok (u, replace_by_id (so_id s) u sources)
        end
  end.
Definition source_delete (id : jsstr) (sources : list MockSource) : list MockSource := remove_by_id id sources.
End sources.

(** The first targets; [ago n] is the instant [n] milliseconds before. *)
Definition plain_target (name url : jsstr) (min : option Severity) (sources : option (list jsstr)) (cp : ForwardCompression)
    (timeout : option jsstr) (queue : option ForwardQueueConfig) : ForwardTargetConfig :=
  MkForwardConfig name url sources (Some <$> min) (Some cp) timeout None None None queue None None.
Definition mock_targets (ago : Z → jsstr) : Targets :=
  MkTargets
    [MkMockTarget $"0192f0c4-4444-7000-8000-000000000001"
       (plain_target $"cold-storage" $"https://vlogs-archive.example.com:9428" (Some warning) (Some [$"syslog-tcp"]) cp_zstd (Some $"30s") None) true
       (Some (MkTargetStatus $"cold-storage" true 15 692441 0 (Some (ago 2000%Z)) None (Some warning) (Some [$"syslog-tcp"]) true)) 2;
     MkMockTarget $"0192f0c4-4444-7000-8000-000000000002"
       (plain_target $"siem-archive" $"http://10.0.0.9:9428" (Some sev_error) None cp_gzip None (Some (MkQueue (Some (num 50000)) None))) true
       (Some (MkTargetStatus $"siem-archive" false 48120 88412003 1204880 (Some (ago (19 * 60000)%Z))
          (Some $"storage write unavailable: dial tcp 10.0.0.9:9428: connect: connection refused") (Some sev_error) None true)) 7;
     MkMockTarget $"0192f0c4-4444-7000-8000-000000000003" (plain_target $"lab-replica" $"http://vlogs-lab.internal:9428" None None cp_gzip None None)
       false None 1]
    [($"0192f0c4-4444-7000-8000-000000000001", $"mock-bearer-token")].
