(* ===== verification/MockAdminProps.v ===== *)
(** What the stores of the mock server promise, and how the forms of the application
    get on with them. *)
From Stdlib Require Import ZArith Lia SpecFloat.
From stdpp Require Import base list numbers strings.
From S2P Require Import Prelude Unicode FilterAst FilterText JsNumber Fields JsDate TimeRange UrlState Severity Retention.
From S2P Require Import FilterSem FilterProps UrlStateProps TimeRangeProps ExplorerPage ExplorerProps DialogProps SourceTemplates SourceForm ForwardForm ForwardProps ServiceCatalog CatalogProps ExplorerDialogs AdminPages MockLogs MockAdmin MockTargets.
Open Scope nat_scope.

(** * Stores with versions *)

(** A store whose [put] carries the version the change is based on. *)
Class VersionedStore (S B R : Type) `{Resource R} := {
  st_items : S → list R;
  st_put : jsstr → B → S → result MockProblem (R * S);
  st_based_on : B → option Z
}.
Class VersionedLaws (S B R : Type) `{VersionedStore S B R} : Prop := {
  put_missing id b s : find_by_id id (st_items s) = None → ∃ p, st_put id b s = Err p ∧ mp_status p = 404%Z;
  put_stale id b s r : find_by_id id (st_items s) = Some r → st_based_on b ≠ Some (res_version r) →
    ∃ p, st_put id b s = Err p ∧ mp_status p = 409%Z;
  put_ok id b s u s' : st_put id b s = Ok (u, s') →
    ∃ r, find_by_id id (st_items s) = Some r ∧ st_based_on b = Some (res_version r) ∧ res_id u = res_id r
         ∧ res_version u = (res_version r + 1)%Z ∧ st_items s' = replace_by_id (res_id r) u (st_items s)
}.

Section store.
Context {S B R : Type} `{VersionedLaws S B R}.

(** Puts one after the other; one that is refused changes nothing. *)
Definition put_step (s : S) (op : jsstr * B) : S := match st_put op.1 op.2 s with Ok (_, s') => s' | Err _ => s end.
Definition puts (ops : list (jsstr * B)) (s : S) : S := fold_left put_step ops s.

Lemma find_id id (l : list R) r : find_by_id id l = Some r → res_id r = id ∧ r ∈ l.
Proof. intros [Hin Hid]%List.find_some. split; [by apply bool_decide_eq_true in Hid|by apply list_elem_of_In]. Qed.
Lemma find_replaced id (u : R) l : res_id u = id → is_Some (find_by_id id l) → find_by_id id (replace_by_id id u l) = Some u.
Proof.
  intros Hu. unfold find_by_id, replace_by_id. induction l as [|x l IH]; cbn; [by intros []|].
  case_bool_decide as E; cbn; [intros _; by rewrite bool_decide_true|]. intros Hs. rewrite bool_decide_false by done. by apply IH.
Qed.
Lemma find_replaced_ne id id' (u : R) l : res_id u = id → id ≠ id' → find_by_id id' (replace_by_id id u l) = find_by_id id' l.
Proof.
  intros Hu Hne. unfold find_by_id, replace_by_id. induction l as [|x l IH]; cbn; [done|].
  destruct (decide (res_id x = id)) as [E|E]; [rewrite (bool_decide_true (res_id x = id)) by done|rewrite (bool_decide_false (res_id x = id)) by done; by rewrite IH].
  rewrite !bool_decide_false by congruence. done.
Qed.

Lemma put_keeps id op s r : find_by_id id (st_items s) = Some r →
  ∃ r', find_by_id id (st_items (put_step s op)) = Some r' ∧ (res_version r <= res_version r')%Z.
Proof.
  intros Hr. unfold put_step. destruct (st_put op.1 op.2 s) as [[u s']|] eqn:E; [|by exists r].
  destruct (put_ok _ _ _ _ _ E) as (r0 & Hr0 & _ & Hid & Hv & ->). destruct (find_id _ _ _ Hr0) as [Hi0 _].
  destruct (decide (res_id r0 = id)) as [<-|Hne].
  - rewrite find_replaced; [|done|by eexists]. exists u. split; [done|]. rewrite Hi0 in Hr. rewrite Hr0 in Hr. injection Hr as <-. lia.
  - rewrite find_replaced_ne by done. by exists r.
Qed.
Lemma puts_keep id ops s r : find_by_id id (st_items s) = Some r →
  ∃ r', find_by_id id (st_items (puts ops s)) = Some r' ∧ (res_version r <= res_version r')%Z.
Proof.
  revert s r. induction ops as [|op ops IH]; intros s r Hr; [by exists r|].
  destruct (put_keeps id op s r Hr) as (r1 & Hr1 & Hv1). destruct (IH _ _ Hr1) as (r2 & Hr2 & Hv2). exists r2. split; [done|lia].
Qed.

(** Two changes based on the same version: once one is stored, the other is refused
    whatever else was stored in between. *)
Definition second_refused : Prop := ∀ id (r u : R) b1 b2 s s1 ops,
  find_by_id id (st_items s) = Some r → st_put id b1 s = Ok (u, s1) → st_based_on b2 = Some (res_version r) →
  find_by_id id (st_items s1) = Some u ∧ ∃ p, st_put id b2 (puts ops s1) = Err p ∧ mp_status p = 409%Z.
Lemma versions_protect : second_refused.
Proof.
  intros id r u b1 b2 s s1 ops Hr E Hb. destruct (put_ok _ _ _ _ _ E) as (r0 & Hr0 & _ & Hid & Hv & Hi). rewrite Hr in Hr0. injection Hr0 as <-.
  destruct (find_id _ _ _ Hr) as [Hri _]. assert (find_by_id id (st_items s1) = Some u) as Hu.
  { rewrite Hi, Hri. apply find_replaced; [congruence|]. rewrite Hr. by eexists. }
  split; [done|]. destruct (puts_keep id ops s1 u Hu) as (r' & Hr' & Hge). apply (put_stale _ _ _ _ Hr'). rewrite Hb. intros [= Heq]. lia.
Qed.
End store.

(** The three stores. *)
#[export] Instance saved_store : VersionedStore (list MockSaved) (SavePayload * Z) MockSaved :=
  {| st_items := λ l, l; st_put := λ id b l, saved_put id b.1 b.2 l; st_based_on := λ b, Some b.2 |}.
#[export] Instance saved_laws : VersionedLaws (list MockSaved) (SavePayload * Z) MockSaved.
Proof.
  constructor; cbv beta iota delta [st_items st_put st_based_on saved_store].
  - intros id [b v] l E. unfold saved_put. rewrite E. by eexists.
  - intros id [b v] l r E Hv. unfold saved_put. rewrite E. cbn [fst snd res_version saved_resource] in *. destruct (Z.eqb_spec (vs_version r) v) as [<-|]; [by destruct Hv|]. by eexists.
  - intros id [b v] l u l' E. unfold saved_put in E. destruct (find_by_id id l) as [r|] eqn:Er; [|done]. cbn in E.
    destruct (Z.eqb_spec (vs_version r) v) as [<-|]; [|done]. cbn in E. injection E as <- <-. exists r. done.
Qed.

#[export] Instance target_store : VersionedStore Targets TargetBody MockTarget :=
  {| st_items := tg_list; st_put := λ id b s, match target_put id b s with Ok (u, s', _) => Ok (u, s') | Err p => Err p end; st_based_on := tb_version |}.
#[export] Instance target_laws : VersionedLaws Targets TargetBody MockTarget.
Proof.
  constructor; cbv beta iota delta [st_items st_put st_based_on target_store].
  - intros id b s E. unfold target_put. rewrite E. by eexists.
  - intros id b s r E Hv. unfold target_put. rewrite E, bool_decide_false by done. by eexists.
  - intros id b s u s' E. unfold target_put in E. destruct (find_by_id id (tg_list s)) as [r|] eqn:Er; [|done].
    case_bool_decide as Hv; [|done]. cbn [negb] in E. destruct (forwardValidationError _ _ _); [done|]. injection E as <- <-. exists r. done.
Qed.

Section source_store.
Context (FILE_SOURCES : list FileSource) (TEMPLATE_IDS : list jsstr).
(** The change and the instant it is made. *)
Instance source_store : VersionedStore (list MockSource) (SourceBody * Z) MockSource :=
  {| st_items := λ l, l; st_put := λ id b l, source_put FILE_SOURCES TEMPLATE_IDS id b.2 b.1 l; st_based_on := λ b, bd_version b.1 |}.
Instance source_laws : VersionedLaws (list MockSource) (SourceBody * Z) MockSource.
Proof.
  constructor; cbv beta iota delta [st_items st_put st_based_on source_store].
  - intros id b s E. unfold source_put. rewrite E. by eexists.
  - intros id b s r E Hv. unfold source_put. rewrite E, bool_decide_false by done. by eexists.
  - intros id b s u s' E. unfold source_put in E. destruct (find_by_id id s) as [r|] eqn:Er; [|done].
    case_bool_decide as Hv; [|done]. cbn [negb] in E. destruct (sourceValidationError _ _ _ _ _); [done|]. injection E as <- <-. exists r. done.
Qed.

(** C27: no update is lost.  Of two changes of a saved search, a forward target or
    a source that are based on the same version, the one that comes second is
    refused with a conflict and changes nothing, whatever else is changed in
    between; the first is what is stored. *)
Theorem no_lost_update :
  second_refused (S := list MockSaved) (B := SavePayload * Z) ∧ second_refused (S := Targets) (B := TargetBody)
  ∧ second_refused (S := list MockSource) (B := SourceBody * Z).
Proof. split_and!; apply versions_protect. Qed.
End source_store.

(** * Users *)

(** What can happen to the users; a new id is one nobody has. *)
Inductive user_op (l : list AdminUser) : list AdminUser → Prop :=
| uo_post id random now body u l' : id ∉ map au_id l → user_post id random now body l = Ok (u, l') → user_op l l'
| uo_put id body u l' : user_put id body l = Ok (u, l') → user_op l l'
| uo_delete id l' : user_delete id l = Ok l' → user_op l l'.
Inductive users_reached (ago : Z → jsstr) : list AdminUser → Prop :=
| ur_first : users_reached ago (mock_users ago)
| ur_next l l' : users_reached ago l → user_op l l' → users_reached ago l'.

Definition signed_in (u : AdminUser) : Prop := au_id u = SESSION_USER_ID ∧ au_role u = role_admin ∧ is_disabled u = false.
Record users_ok (l : list AdminUser) : Prop := {
  uk_ids : NoDup (map au_id l);
  uk_names : NoDup (map au_username l);
  uk_self : ∃ u, u ∈ l ∧ signed_in u;
  uk_secret : Forall (λ u, au_generated_password u = None) l
}.

Lemma find_user_elem id l u : find_user id l = Some u → u ∈ l ∧ au_id u = id.
Proof. intros [Hin Hid]%List.find_some. split; [by apply list_elem_of_In|by apply bool_decide_eq_true in Hid]. Qed.
Lemma ids_unique l u v : NoDup (map au_id l) → u ∈ l → v ∈ l → au_id u = au_id v → u = v.
Proof.
  induction l as [|x l IH]; [by intros _ ?%elem_of_nil|]. cbn. intros [Hx Hd]%NoDup_cons [->|Hu]%elem_of_cons [->|Hv]%elem_of_cons E; [done| | |by apply IH].
  - exfalso. apply Hx. apply list_elem_of_fmap. by exists v.
  - exfalso. apply Hx. apply list_elem_of_fmap. exists u. by rewrite E.
Qed.

Lemma user_post_ok id random now body l u l' : users_ok l → id ∉ map au_id l → user_post id random now body l = Ok (u, l') → users_ok l'.
Proof.
  intros [Hi Hn Hs Hp] Hid. unfold user_post. destruct (existsb (user_named (uc_username body)) l) eqn:En; [done|].
  destruct (short_password (uc_password body)); [done|]. intros [= <- <-]. constructor; rewrite ?map_app; cbn [map without_password au_id au_username].
  - apply NoDup_app. split_and!; [done| |apply NoDup_singleton]. intros x Hx ->%list_elem_of_singleton. done.
  - apply NoDup_app. split_and!; [done| |apply NoDup_singleton]. intros x Hx ->%list_elem_of_singleton. apply list_elem_of_fmap in Hx as (y & E & Hy).
    assert (existsb (user_named (uc_username body)) l = true) as Ht; [|congruence]. apply existsb_exists. exists y. split; [by apply list_elem_of_In|].
    by apply bool_decide_true.
  - destruct Hs as (v & Hv & Hsv). exists v. split; [|done]. apply elem_of_app. by left.
  - apply Forall_app. split; [done|]. by apply Forall_singleton.
Qed.

Lemma user_put_ok id body l u l' : users_ok l → user_put id body l = Ok (u, l') → users_ok l'.
Proof.
  intros [Hi Hn Hs Hp]. unfold user_put. destruct (find_user id l) as [v|] eqn:Ev; [|done]. destruct (find_user_elem _ _ _ Ev) as [Hv _].
  destruct (bool_decide (au_id v = SESSION_USER_ID) && _) eqn:Er; [done|]. destruct (bool_decide (au_id v = SESSION_USER_ID) && nullish _ _) eqn:Ed; [done|].
  destruct (short_password _); [done|]. match goal with |- Ok (?w, _) = _ → _ => set (w0 := w) end. intros [= <- <-].
  set (upd := λ x : AdminUser, if bool_decide (au_id x = au_id v) then w0 else x).
  assert (∀ x, x ∈ l → au_id (upd x) = au_id x ∧ au_username (upd x) = au_username x) as Hsame.
  { intros x Hx. unfold upd. destruct (decide (au_id x = au_id v)) as [E|E]; [|by rewrite bool_decide_false].
    rewrite bool_decide_true by done. by rewrite (ids_unique l x v Hi Hx Hv E). }
  assert (∀ (f : AdminUser → jsstr), (∀ x, x ∈ l → f (upd x) = f x) → map f (map upd l) = map f l) as Hmap.
  { intros f Hf. rewrite map_map. apply map_ext_in. intros x Hx. apply Hf. by apply list_elem_of_In. }
  constructor.
  - rewrite Hmap; [done|]. intros x Hx. by apply Hsame.
  - rewrite Hmap; [done|]. intros x Hx. by apply Hsame.
  - destruct Hs as (w & Hw & Hid & Hr & Hd). exists (upd w). split; [apply list_elem_of_fmap; by exists w|]. unfold upd.
    destruct (decide (au_id w = au_id v)) as [E|E]; [rewrite bool_decide_true by done|by rewrite bool_decide_false].
    pose proof (ids_unique l w v Hi Hw Hv E) as ->. rewrite Hid, bool_decide_true in Er, Ed by done. cbn in Er, Ed. unfold signed_in, is_disabled, w0. cbn.
    split_and!; [done| |].
    + revert Er. destruct (uu_role body) as [r|]; [|done]. cbn. case_bool_decide; [by subst|done].
    + revert Ed. destruct (uu_disabled body) as [b|]; by cbn.
  - apply Forall_forall. intros x (y & -> & Hy)%list_elem_of_fmap. rewrite Forall_forall in Hp. unfold upd.
    destruct (decide (au_id y = au_id v)) as [E|E]; [rewrite bool_decide_true by done|rewrite bool_decide_false by done; by apply Hp].
    unfold w0. cbn. by apply Hp.
Qed.

Lemma user_delete_ok id l l' : users_ok l → user_delete id l = Ok l' → users_ok l'.
Proof.
  intros [Hi Hn Hs Hp]. unfold user_delete. destruct (find_user id l) as [v|] eqn:Ev; [|done]. case_decide as Hv; [done|].
  destruct (bool_decide _ && _); [done|]. intros [= <-].
  set (keep := λ x : AdminUser, negb (bool_decide (au_id x = au_id v))).
  assert (sublist (List.filter keep l) l) as Hsub.
  { clear. induction l as [|x l IH]; cbn; [constructor|]. case_match; by constructor. }
  constructor.
  - eapply sublist_NoDup; [exact Hi|by apply fmap_sublist].
  - eapply sublist_NoDup; [exact Hn|by apply fmap_sublist].
  - destruct Hs as (w & Hw & Hsw). exists w. split; [|done]. apply list_elem_of_In, filter_In. split; [by apply list_elem_of_In|].
    unfold keep. rewrite bool_decide_false; [done|]. destruct Hsw as (E & _). congruence.
  - apply Forall_forall. intros x Hx. rewrite Forall_forall in Hp. apply Hp. apply list_elem_of_In, filter_In in Hx as [Hx _]. by apply list_elem_of_In.
Qed.

(** Everything the mock server starts with. *)
Lemma mock_users_ok ago : users_ok (mock_users ago).
Proof.
  constructor; [cbn [map mock_users]; vm_decide|cbn [map mock_users]; vm_decide| |by repeat constructor].
  eexists. split; [left|]. done.
Qed.

(** C32: the administrator stays.  However users are created, changed and deleted,
    ids and user names stay distinct, whoever is signed in is still there, still an
    administrator and not disabled, and no generated password is kept. *)
Theorem users_stay_sound ago l : users_reached ago l → users_ok l ∧ active_admins l ≠ [].
Proof.
  intros Hl. assert (users_ok l) as Hok.
  { induction Hl as [|l l' _ IH Hop]; [|destruct Hop; [by eapply user_post_ok|by eapply user_put_ok|by eapply user_delete_ok]].
    apply mock_users_ok. }
  split; [done|]. destruct Hok as [_ _ (u & Hu & _ & Hr & Hd) _]. intros E.
  assert (u ∈ active_admins l) as Hin; [|rewrite E in Hin; by apply elem_of_nil in Hin].
  apply list_elem_of_In, filter_In. split; [by apply list_elem_of_In|]. by rewrite Hr, Hd.
Qed.

Definition alice_update : UserUpdateInput := MkUserUpdateInput None (Some role_admin) None (Some $"correct-horse-battery").
Lemma users_stay_sound_witness :
  ∃ u l, user_put $"0192f0c4-0000-7000-8000-000000000002" alice_update (mock_users iso_string) = Ok (u, l)
  ∧ length (active_admins l) = 2 ∧ active_admins l ≠ [].
Proof.
  destruct (user_put $"0192f0c4-0000-7000-8000-000000000002" alice_update (mock_users iso_string)) as [[u l]|] eqn:E; [|by vm_compute in E].
  exists u, l. split; [done|]. split; [vm_compute in E; injection E as <- <-; vm_compute; reflexivity|].
  exact (proj2 (users_stay_sound iso_string l (ur_next _ _ l (ur_first _) (uo_put _ _ _ _ _ E)))).
Defined.

(** * The dialog that edits a user *)

Definition edited (isSelf : bool) (u : AdminUser) (es : list edit_event) : EditUser := fold_left (edit_change isSelf) es (edit_init u).
Lemma edited_self u es : eu_role (edited true u es) = au_role u ∧ eu_disabled (edited true u es) = is_disabled u.
Proof. unfold edited. induction es as [|e es IH] using rev_ind; [done|]. rewrite fold_left_app. cbn. destruct e; exact IH. Qed.

(** The dialog stores what it shows.  Whatever is typed for a user the server
    knows, and with no new password or one that is long enough, saving is accepted
    and leaves the user with the role, the state and the display name on show, the
    old display name where the field was emptied; a new password has to be changed
    at the next login.  Nobody else is touched, and for oneself role and state
    cannot change. *)
Theorem edit_dialog_saves l u es :
  users_ok l → u ∈ l → (au_id u = SESSION_USER_ID → signed_in u) →
  let d := edited (bool_decide (au_id u = SESSION_USER_ID)) u es in
  let request := (edit_user_submit u d).2 in
  short_password (or_undef (eu_newPassword d)) = false →
  ∃ u', user_put request.1 request.2 l = Ok (u', map (λ x, if bool_decide (au_id x = au_id u) then u' else x) l)
  ∧ au_role u' = eu_role d ∧ is_disabled u' = eu_disabled d
  ∧ au_display_name u' = (if truthy (trim (eu_displayName d)) then Some (trim (eu_displayName d)) else au_display_name u)
  ∧ (truthy (eu_newPassword d) = true → au_must_change_password u' = true)
  ∧ au_id u' = au_id u ∧ au_username u' = au_username u
  ∧ (au_id u = SESSION_USER_ID → au_role u' = role_admin ∧ is_disabled u' = false).
Proof.
  intros [Hi _ _ _] Hu Hself d. cbn [edit_user_submit fst snd]. intros Hpw. unfold user_put.
  assert (find_user (au_id u) l = Some u) as ->.
  { unfold find_user. destruct (List.find _ l) as [v|] eqn:E.
    - apply List.find_some in E as [Hv E]. apply bool_decide_eq_true in E. f_equal. apply (ids_unique l); [done|by apply list_elem_of_In|done|done].
    - pose proof (List.find_none _ _ E u (proj1 (list_elem_of_In _ _) Hu)) as Hf. cbn in Hf. by rewrite bool_decide_true in Hf. }
  set (body := MkUserUpdateInput _ _ _ _).
  assert (bool_decide (au_id u = SESSION_USER_ID) && match uu_role body with Some r => negb (bool_decide (r = au_role u)) | None => false end = false) as ->.
  { case_bool_decide as Es; [|done]. cbn. assert (eu_role d = au_role u) as Er by (subst d; rewrite ?bool_decide_true by done; apply edited_self).
    by rewrite decide_True. }
  assert (bool_decide (au_id u = SESSION_USER_ID) && nullish (uu_disabled body) false = false) as ->.
  { case_bool_decide as Es; [|done]. cbn. assert (eu_disabled d = is_disabled u) as Ed by (subst d; rewrite ?bool_decide_true by done; apply edited_self).
    by rewrite Ed, Bool.eqb_reflx. }
  replace (short_password (uu_new_password body)) with false by done.
  assert (nullish (uu_role body) (au_role u) = eu_role d) as Hrole by (cbn; by case_decide).
  eexists. split; [reflexivity|]. cbn [au_role au_display_name au_must_change_password au_id au_username].
  assert (is_disabled (MkAdminUser (au_id u) (au_username u) (match uu_display_name body with Some d => Some d | None => au_display_name u end)
    (nullish (uu_role body) (au_role u)) (if truthy (nullish (uu_new_password body) []) then true else au_must_change_password u)
    (match uu_disabled body with Some d => Some d | None => au_disabled u end) (au_created_at u) (au_last_login_at u) (au_generated_password u))
    = eu_disabled d) as Hdis.
  { unfold is_disabled at 1. cbn. destruct (Bool.eqb (eu_disabled d) (is_disabled u)) eqn:Eb; [|done]. apply Bool.eqb_prop in Eb. by rewrite Eb. }
  split_and!; [done|done| | |done|done|].
  - cbn. by destruct (trim (eu_displayName d)).
  - cbn. unfold or_undef. by destruct (eu_newPassword d).
  - intros Es. rewrite Hdis, Hrole. destruct (Hself Es) as (_ & Hr & Hd).
    assert (eu_role d = au_role u ∧ eu_disabled d = is_disabled u) as [-> ->] by (subst d; rewrite ?bool_decide_true by done; apply edited_self). done.
Qed.

Definition bob : AdminUser := MkAdminUser $"0192f0c4-0000-7000-8000-000000000003" $"bob" (Some $"Bob Novak") role_viewer true None
  (iso_string (2 * 86400000)) None None.
Lemma edit_dialog_saves_witness :
  ∃ u', user_put $"0192f0c4-0000-7000-8000-000000000003" (MkUserUpdateInput None (Some role_operator) None None) (mock_users iso_string)
        = Ok (u', map (λ x, if bool_decide (au_id x = au_id bob) then u' else x) (mock_users iso_string))
  ∧ au_role u' = role_operator ∧ au_display_name u' = Some $"Bob Novak".
Proof.
  destruct (edit_dialog_saves (mock_users iso_string) bob [ee_displayName $" "; ee_role role_operator] (mock_users_ok _)) as (u' & E & Hr & _ & Hn & _).
  - right. right. left.
  - intros E. exfalso. vm_compute in E. congruence.
  - vm_compute. reflexivity.
  - exists u'. split_and!; [exact E|exact Hr|exact Hn].
Defined.

(** The display name of a user cannot be removed: an emptied field is left out of
    the request, and what is left out stays. *)
Theorem display_name_stays u d : trim (eu_displayName d) = [] → uu_display_name (edit_user_submit u d).2.2 = None.
Proof. intros E. cbn. by rewrite E. Qed.

(** The page opens the dialog for a new user by its property, so it still holds what
    was typed for the one before, the password included. *)
Theorem create_dialog_keeps d input d' :
  create_submit d = (d', Some input) → cu_username (page_opens d') = cu_username d ∧ cu_password (page_opens d') = cu_password d.
Proof. unfold create_submit. destruct (negb _); [done|]. intros [= <- <-]. done. Qed.

(** * Saved searches of the explorer *)

(** C36: saving and opening a search.  Whatever the page shows, a search saved from it
    (under a name, which no other search has) is read back from the mock server and,
    opened, shows the same filter, native query and columns and the same expressions for
    the range, without an error, and is not marked as modified.  The range is the same
    instants too, at any time, when the page has no time zone of its own, which is not
    saved. *)
Theorem saved_search_round_trip `{TimeZones} x d p id sid l s l' :
  saveNew x d = Ok p → saved_post id p l = Ok (s, l') →
  let y := explorer_init (savedSearchToExplorerSearch (saved_view s)) sid in
  saved_get id l' = Ok s
  ∧ ex_filter y = ex_filter x ∧ dq_native (ex_query y) = dq_native (ex_query x) ∧ dq_error (ex_query y) = None
  ∧ ex_columns y = ex_columns x ∧ x_from (ex_search y) = x_from (ex_search x) ∧ x_to (ex_search y) = x_to (ex_search x)
  ∧ (x_tz (ex_search x) = None → ∀ displayTz now, ex_range displayTz y now = ex_range displayTz x now)
  ∧ isModified (saved_view s) (ex_search y) (ex_columns y) = false.
Proof.
  intros E Es y. unfold saveNew in E. destruct (negb _) in E; [done|]. injection E as E. subst p.
  unfold saved_post in Es. destruct (existsb _ _) in Es; [done|]. injection Es as Es <-.
  pose proof (ex_filter_ok x) as Hq. destruct (parseColumns_ok (x_cols (ex_search x))) as (Hne & Hnd & Hok). fold (ex_columns x) in Hne, Hnd, Hok.
  assert (nonempty_columns (Some (ex_columns x)) = Some (ex_columns x)) as Hnc by (by destruct (ex_columns x)).
  assert (ex_columns y = ex_columns x) as Hc.
  { unfold ex_columns at 1. subst y s. cbn [explorer_init ex_search savedSearchToExplorerSearch saved_view vs_columns x_cols ss_columns save_payload sp_columns].
    rewrite Hnc. by apply parse_format_columns. }
  assert (nullish (x_q (ex_search y)) [] = formatFilter (ex_filter x)) as Hxq by (subst y s; apply nullish_or_undef).
  assert (x_native (ex_search y) = n_text <$> dq_native (ex_query x)) as Hxn.
  { subst y s. cbn. destruct (dq_native (ex_query x)) as [n|] eqn:En; [|done]. cbn. destruct (native_trimmed x n En) as [_ Ht].
    by destruct (n_text n). }
  assert (ex_query y = MkDecodedQuery (ex_filter x) (dq_native (ex_query x)) None) as Hy.
  { unfold ex_query at 1, decodeQuery. rewrite Hxq, formatFilter_query, Hxn by done. f_equal.
    destruct (dq_native (ex_query x)) as [n|] eqn:En; [|done]. cbn. destruct (native_trimmed x n En) as [-> ->]. by destruct n. }
  assert (ex_search y = savedSearchToExplorerSearch (saved_view s)) as Hs by done.
  split_and!; [|by unfold ex_filter at 1; rewrite Hy|by rewrite Hy|by rewrite Hy|done|by rewrite Hs, <- Es..| |].
  - unfold saved_get, find_by_id. subst s. cbn. by rewrite bool_decide_true.
  - intros Hz displayTz now. unfold ex_range, ex_tz. rewrite Hs, <- Es, Hz. done.
  - unfold isModified. rewrite Hxq, Hxn, Hc. rewrite <- Es. cbn [saved_view ss_filter ss_native ss_columns vs_filter vs_native vs_columns save_payload sp_filter sp_native sp_columns].
    rewrite Hnc. rewrite !bool_decide_true; [done|done|by destruct (dq_native (ex_query x))|done].
Qed.

Definition demo_explorer : Explorer := explorer_init (demo_search (Some $"a=1 b=2") (Some $"message")) None.
Definition demo_payload : SavePayload := save_payload demo_explorer (MkSaveDialog $"mine" [] vis_private None).
Definition demo_saved : MockSaved :=
  MkMockSaved $"s1" (sp_name demo_payload) (sp_description demo_payload) (sp_filter demo_payload) (sp_native demo_payload) (sp_columns demo_payload)
    (sp_range demo_payload) (sp_visibility demo_payload) 1.
Lemma saved_search_round_trip_witness :
  let _ := utc_zones in
  ex_filter (explorer_init (savedSearchToExplorerSearch (saved_view demo_saved)) None) = ex_filter demo_explorer.
Proof.
  intros Z. refine (proj1 (proj2 (@saved_search_round_trip Z demo_explorer (MkSaveDialog $"mine" [] vis_private None) demo_payload $"s1" None [] demo_saved [demo_saved] _ _)));
    reflexivity.
Defined.

(** A native query with blanks around it is stored without them, so the search just
    saved counts as modified. *)
Theorem saved_native_modified :
  let x := explorer_init (MkExplorerSearch $"now-1h" $"now" None None (Some $"error ") advanced None None None) None in
  match saved_post $"s1" (save_payload x save_init) [] with
  | Ok (s, _) => isModified (saved_view s) (ex_search x) (ex_columns x) = true
  | Err _ => False
  end.
Proof. vm_compute. reflexivity. Qed.

(** The time zone of the page is not saved: today in Tokyo is opened as today where the
    reader is. *)
Definition tokyo_offset (tz : jsstr) : Z := if decide (tz = $"Asia/Tokyo") then 32400000%Z else 0%Z.
Definition tokyo_zones : TimeZones := {|
  tz_date := λ tz t, @tz_date utc_zones tz (t + tokyo_offset tz)%Z;
  tz_time := λ tz y m d h mi s, (λ t, t - tokyo_offset tz)%Z <$> @tz_time utc_zones tz y m d h mi s;
  date_parse_other := λ _ : jsstr, None
|}.
Theorem saved_search_forgets_zone :
  let x := explorer_init (MkExplorerSearch $"now/d" $"now" (Some $"Asia/Tokyo") None None visual None None None) None in
  ex_range (H := tokyo_zones) $"UTC" x 1789380000000 = Ok (MkResolved (Some 1789311600000%Z) (Some 1789380000000%Z))
  ∧ match saved_post $"s1" (save_payload x save_init) [] with
    | Ok (s, _) =>
        ex_range (H := tokyo_zones) $"UTC" (explorer_init (savedSearchToExplorerSearch (saved_view s)) None) 1789380000000
        = Ok (MkResolved (Some 1789344000000%Z) (Some 1789380000000%Z))
    | Err _ => False
    end.
Proof. split; vm_compute; reflexivity. Qed.
