(* ===== verification/MockTargetProps.v ===== *)
(** What the forward targets, the sources and the catalog of the mock server promise
    to the forms of the application. *)
From Stdlib Require Import ZArith Lia SpecFloat.
From stdpp Require Import base list numbers strings.
From S2P Require Import Prelude Unicode JsNumber JsDate Severity SourceTemplates SourceForm SourceFormProps ForwardForm ForwardProps ServiceCatalog CatalogProps.
From S2P Require Import AdminPages MockLogs MockAdmin MockTargets MockAdminProps.
Open Scope nat_scope.

(** * Forward targets *)

Definition lower_name (t : MockTarget) : jsstr := to_lower (fc_name (mt_config t)).
Definition complete (c : ForwardTargetConfig) : Prop :=
  fc_name c ≠ [] ∧ HTTP_RE (fc_url c) = true
  ∧ (∀ n, fc_queue c ≫= q_max_messages = Some n → nlt n (num 1) = false) ∧ (∀ n, fc_batch c ≫= b_max_rows = Some n → nlt n (num 1) = false).
Definition name_free (targets : list MockTarget) (c : ForwardTargetConfig) (self : option jsstr) : Prop :=
  Forall (λ n, to_lower n ≠ to_lower (fc_name c)) FILE_TARGET_NAMES
  ∧ Forall (λ t, Some (mt_id t) ≠ self → lower_name t ≠ to_lower (fc_name c)) targets.

Lemma find_none_forall {A} (p : A → bool) l : List.find p l = None ↔ Forall (λ x, p x = false) l.
Proof.
  induction l as [|x l IH]; cbn; [by split|]. destruct (p x) eqn:E; [split; [done|intros [? _]%Forall_cons; congruence]|].
  rewrite IH. split; [by constructor|by intros [_ ?]%Forall_cons].
Qed.

(** The server refuses exactly what is incomplete or has a name that is taken. *)
Lemma forward_valid targets c self : forwardValidationError targets c self = None ↔ complete c ∧ name_free targets c self.
Proof.
  unfold forwardValidationError. assert (forward_complaints_of targets c self = [] ↔ complete c ∧ name_free targets c self) as H.
  { unfold forward_complaints_of, complete, name_free, lower_name. rewrite !app_nil.
    assert ((if truthy (fc_name c) then [] else [$"target: name is required"]) = [] ↔ fc_name c ≠ []) as -> by (by destruct (fc_name c)).
    assert ((if negb (truthy (fc_url c)) then [$"target: url is required"]
      else if negb (HTTP_RE (fc_url c)) then [$"target: url must be http or https"] else []) = [] ↔ HTTP_RE (fc_url c) = true) as ->.
    { destruct (fc_url c) as [|u us]; [done|]. cbn [truthy negb]. by destruct (HTTP_RE _). }
    assert (∀ (o : option Number) m, match o with Some n => if nlt n (num 1) then [m] else [] | None => [] end = ([] : list jsstr)
      ↔ ∀ n, o = Some n → nlt n (num 1) = false) as Hcount.
    { intros [n|] m; [|by split]. destruct (nlt n (num 1)) eqn:E; split; try done; [intros H; specialize (H n eq_refl); congruence|intros _ ? [= <-]; done]. }
    rewrite !Hcount.
    assert (∀ A (p : A → bool) (l : list A) (m : A → jsstr), match List.find p l with Some n => [m n] | None => [] end = ([] : list jsstr)
      ↔ Forall (λ x, p x = false) l) as Hfind.
    { intros A p l m. rewrite <- find_none_forall. by destruct (List.find p l). }
    rewrite (Hfind _ _ FILE_TARGET_NAMES), (Hfind _ _ targets).
    assert (∀ n, bool_decide (to_lower n = to_lower (fc_name c)) = false ↔ to_lower n ≠ to_lower (fc_name c)) as Hf by (intros n; apply bool_decide_eq_false).
    assert (∀ t, negb (bool_decide (Some (mt_id t) = self)) && bool_decide (to_lower (fc_name (mt_config t)) = to_lower (fc_name c)) = false
      ↔ (Some (mt_id t) ≠ self → to_lower (fc_name (mt_config t)) ≠ to_lower (fc_name c))) as Ht.
    { intros t. rewrite andb_false_iff, negb_false_iff, bool_decide_eq_true, bool_decide_eq_false. destruct (decide (Some (mt_id t) = self)); tauto. }
    rewrite (Forall_iff _ _ _ Hf), (Forall_iff _ _ _ Ht).
    tauto. }
  rewrite <- H. by destruct (forward_complaints_of targets c self).
Qed.

(** What the dialog accepts, the server takes.  A forward target without errors
    in the dialog is refused for its name alone, and only when a target of the
    configuration file or another stored one has that name already, whatever the
    case of its letters. *)
Theorem forward_form_taken targets self f i e :
  formToForwardInput f = (i, e) → hasForwardErrors e = false →
  forwardValidationError targets (in_config i) self = None ↔ name_free targets (in_config i) self.
Proof.
  intros E He. rewrite forward_valid. split; [by intros [_ ?]|]. intros Hn. split; [|done].
  destruct (formToForwardInput_accepted f i e E He) as [[Hname Hurl Hq Hb] ->]. unfold complete. cbn [in_config forward_config fc_name fc_url].
  split_and!.
  - by destruct (trim (w_name f)).
  - unfold urlError in Hurl. by destruct (truthy (trim (w_url f))), (HTTP_RE (trim (w_url f))).
  - intros n En. destruct (queue_members (count_of (w_queue_max_messages f)) (trimmed (w_queue_max_bytes f))) as [Q1 _].
    apply (Hq n). rewrite <- Q1. exact En.
  - intros n En. destruct (batch_members (count_of (w_batch_max_rows f)) (trimmed (w_batch_max_bytes f)) (trimmed (w_batch_max_wait f))) as [B1 _].
    apply (Hb n). rewrite <- B1. exact En.
Qed.

Lemma forward_form_taken_witness :
  ∃ i, formToForwardInput demo_target = (i, emptyForwardErrors)
  ∧ forwardValidationError (tg_list (mock_targets iso_string)) (in_config i) None = None.
Proof.
  eexists. split; [vm_compute; reflexivity|].
  apply (forward_form_taken (tg_list (mock_targets iso_string)) None demo_target _ emptyForwardErrors); [vm_compute; reflexivity|reflexivity|].
  split; repeat constructor; intros; vm_compute; congruence.
Defined.

(** What can happen to the targets; a new id is one no target has. *)
Inductive target_op (s : Targets) : Targets → Prop :=
| to_post id body t s' : id ∉ map mt_id (tg_list s) → target_post id body s = Ok (t, s') → target_op s s'
| to_put id body t s' timer : target_put id body s = Ok (t, s', timer) → target_op s s'
| to_timer id previous : target_op s (target_timer id previous s)
| to_delete id : target_op s (target_delete id s).
Inductive targets_reached (ago : Z → jsstr) : Targets → Prop :=
| tr_first : targets_reached ago (mock_targets ago)
| tr_next s s' : targets_reached ago s → target_op s s' → targets_reached ago s'.

Record target_ok (t : MockTarget) : Prop := {
  tk_complete : complete (mt_config t);
  tk_file : Forall (λ n, to_lower n ≠ lower_name t) FILE_TARGET_NAMES;
  tk_status : is_Some (mt_status t) → mt_enabled t = true
}.
Record targets_ok (s : Targets) : Prop := {
  ok_ids : NoDup (map mt_id (tg_list s));
  ok_names : NoDup (map lower_name (tg_list s));
  ok_each : Forall target_ok (tg_list s);
  ok_tokens : (tg_tokens s).*1 ⊆ map mt_id (tg_list s)
}.

Lemma assoc_delete_keys {A} k (l : list (jsstr * A)) x : x ∈ (assoc_delete k l).*1 ↔ x ∈ l.*1 ∧ x ≠ k.
Proof.
  unfold assoc_delete. induction l as [|[k' v] l IH]; cbn; [by rewrite elem_of_nil; naive_solver|]. destruct (decide (k' = k)) as [->|Hne].
  - rewrite bool_decide_true by done. cbn. rewrite IH, elem_of_cons. naive_solver.
  - rewrite bool_decide_false by done. cbn. rewrite !elem_of_cons, IH. naive_solver.
Qed.
Lemma applyForwardToken_keys id token l x : x ∈ (applyForwardToken id token l).*1 → x = id ∨ x ∈ l.*1.
Proof.
  unfold applyForwardToken. destruct token as [[|c t]|]; [|rewrite assoc_set_in; tauto|by right]. rewrite assoc_delete_keys. tauto.
Qed.

(** A target put in the place of the one with its id. *)
Lemma replaced_ok s t u : targets_ok s → find_by_id (mt_id t) (tg_list s) = Some t → mt_id u = mt_id t → target_ok u →
  name_free (tg_list s) (mt_config u) (Some (mt_id t)) →
  NoDup (map mt_id (replace_by_id (mt_id t) u (tg_list s))) ∧ NoDup (map lower_name (replace_by_id (mt_id t) u (tg_list s)))
  ∧ Forall target_ok (replace_by_id (mt_id t) u (tg_list s)) ∧ map mt_id (replace_by_id (mt_id t) u (tg_list s)) = map mt_id (tg_list s).
Proof.
  intros [Hi Hn He _] _ Hid Hu [_ Hfree]. unfold replace_by_id. generalize (tg_list s) as l, Hi, Hn, He, Hfree. clear -Hid Hu. intros l Hi Hn He Hfree.
  assert (map mt_id (map (λ x, if bool_decide (res_id x = mt_id t) then u else x) l) = map mt_id l) as Hids.
  { rewrite map_map. apply map_ext. intros x. change (res_id x) with (mt_id x). case_bool_decide; congruence. }
  split_and!; [by rewrite Hids| | |done].
  - clear Hids. induction l as [|x l IH]; cbn; [constructor|]. cbn in Hi, Hn. apply NoDup_cons in Hi as [Hx Hi], Hn as [Hy Hn].
    apply Forall_cons in He as [_ He], Hfree as [Hfx Hfree]. constructor; [|by apply IH].
    intros (y & E & Hyl)%list_elem_of_fmap. apply list_elem_of_fmap in Hyl as (z & -> & Hz).
    assert (mt_id z ≠ mt_id x) as Hne by (intros Ez; apply Hx; apply list_elem_of_fmap; by exists z).
    rewrite Forall_forall in Hfree. change (res_id x) with (mt_id x) in E. change (res_id z) with (mt_id z) in E.
    destruct (decide (mt_id x = mt_id t)) as [Ex|Ex], (decide (mt_id z = mt_id t)) as [Ez|Ez].
    all: rewrite ?(bool_decide_true (mt_id x = mt_id t)), ?(bool_decide_true (mt_id z = mt_id t)), ?(bool_decide_false (mt_id x = mt_id t)),
      ?(bool_decide_false (mt_id z = mt_id t)) in E by done.
    + congruence.
    + apply (Hfree z Hz); [congruence|done].
    + apply Hfx; [congruence|done].
    + apply Hy. rewrite E. apply list_elem_of_fmap. by exists z.
  - apply Forall_fmap. eapply Forall_impl; [exact He|]. intros x Hx. unfold compose. by destruct (bool_decide _).
Qed.

Lemma target_post_ok id body s t s' : targets_ok s → id ∉ map mt_id (tg_list s) → target_post id body s = Ok (t, s') → targets_ok s' ∧ mt_enabled t = false.
Proof.
  intros [Hi Hn He Ht] Hid. unfold target_post. destruct (forwardValidationError _ _ _) eqn:E; [done|]. apply forward_valid in E as [Hc [Hf Hfree]].
  intros [= <- <-]. split; [|done]. constructor; cbn [tg_list tg_tokens]; rewrite ?map_app; cbn [map mt_id].
  - apply NoDup_app. split_and!; [done| |apply NoDup_singleton]. intros x Hx ->%list_elem_of_singleton. done.
  - apply NoDup_app. split_and!; [done| |apply NoDup_singleton]. intros x (y & -> & Hy)%list_elem_of_fmap E%list_elem_of_singleton.
    rewrite Forall_forall in Hfree. by apply (Hfree y Hy).
  - apply Forall_app. split; [done|]. apply Forall_singleton. constructor; cbn; [done|done|by intros []].
  - intros x [->|Hx]%applyForwardToken_keys; apply elem_of_app; [right; by apply list_elem_of_singleton|left; by apply Ht].
Qed.
Lemma target_put_ok id body s t s' timer : targets_ok s → target_put id body s = Ok (t, s', timer) → targets_ok s'.
Proof.
  intros Hok. pose proof Hok as [Hi Hn He Ht]. unfold target_put. destruct (find_by_id id (tg_list s)) as [r|] eqn:Er; [|done].
  destruct (find_id _ _ _ Er) as [Hid Hin]. cbn in Hid. subst id. destruct (negb _); [done|]. destruct (forwardValidationError _ _ _) eqn:E; [done|].
  apply forward_valid in E as [Hc Hfree]. match goal with |- Ok (?w, _, _) = _ → _ => set (u := w) end. intros [= <- <- <-].
  destruct (replaced_ok s r u Hok Er) as (R1 & R2 & R3 & R4); [done| |done|].
  - constructor; [done|apply Hfree|]. unfold u. cbn. destruct (nullish (tb_enabled body) (mt_enabled r)); [done|by intros []].
  - constructor; [done|done|done|]. cbn [tg_list tg_tokens]. rewrite R4. intros x [->|Hx]%applyForwardToken_keys; [|by apply Ht].
    apply list_elem_of_fmap. by exists r.
Qed.
Lemma target_timer_ok id previous s : targets_ok s → targets_ok (target_timer id previous s).
Proof.
  intros [Hi Hn He Ht]. set (upd := λ x : MockTarget, if bool_decide (mt_id x = id) && mt_enabled x
    then MkMockTarget (mt_id x) (mt_config x) (mt_enabled x) (Some (forwardStatus previous (mt_config x))) (mt_version x) else x).
  assert (map mt_id (map upd (tg_list s)) = map mt_id (tg_list s) ∧ map lower_name (map upd (tg_list s)) = map lower_name (tg_list s)) as [E1 E2].
  { rewrite !map_map. split; apply map_ext; intros x; unfold upd, lower_name; by destruct (_ && _). }
  unfold target_timer. fold upd. constructor; cbn [tg_list tg_tokens]; rewrite ?E1, ?E2; [done|done| |done].
  apply Forall_fmap. eapply Forall_impl; [exact He|]. intros x [Hc Hf Hs]. unfold compose, upd.
  destruct (bool_decide (mt_id x = id) && mt_enabled x) eqn:Eb; [|by constructor]. apply andb_prop in Eb as [_ Ee].
  constructor; cbn; [exact Hc|exact Hf|done].
Qed.
Lemma target_delete_ok id s : targets_ok s → targets_ok (target_delete id s).
Proof.
  intros [Hi Hn He Ht]. unfold target_delete, remove_by_id. set (keep := λ x : MockTarget, negb (bool_decide (res_id x = id))).
  assert (sublist (List.filter keep (tg_list s)) (tg_list s)) as Hsub.
  { generalize (tg_list s). induction l as [|x l IH]; cbn [List.filter]; [constructor|]. case_match; by constructor. }
  constructor; cbn [tg_list tg_tokens].
  - eapply sublist_NoDup; [exact Hi|by apply fmap_sublist].
  - eapply sublist_NoDup; [exact Hn|by apply fmap_sublist].
  - rewrite Forall_forall in He |- *. intros x Hx. apply He. apply list_elem_of_In, filter_In in Hx as [Hx _]. by apply list_elem_of_In.
  - intros x [Hx Hne]%assoc_delete_keys. apply Ht in Hx. apply list_elem_of_fmap in Hx as (y & -> & Hy). apply list_elem_of_fmap. exists y. split; [done|].
    apply list_elem_of_In, filter_In. split; [by apply list_elem_of_In|]. unfold keep. by rewrite bool_decide_false.
Qed.

Lemma plain_target_ok id name url min sources cp timeout q en st v :
  truthy name = true → HTTP_RE url = true → match q ≫= q_max_messages with Some n => negb (nlt n (num 1)) | None => true end = true →
  forallb (λ n, negb (bool_decide (to_lower n = to_lower name))) FILE_TARGET_NAMES = true → (is_Some st → en = true) →
  target_ok (MkMockTarget id (plain_target name url min sources cp timeout q) en st v).
Proof.
  intros Hn Hu Hq Hf Hs. constructor; cbn [mt_config mt_status mt_enabled]; [|unfold lower_name; cbn|done].
  - split_and!; [by destruct name|done| |done]. unfold plain_target. cbn [fc_queue]. intros n E. rewrite E in Hq. by apply negb_true_iff.
  - apply Forall_forall. intros n Hin. rewrite forallb_forall in Hf. specialize (Hf n (proj1 (list_elem_of_In _ _) Hin)).
    apply negb_true_iff, bool_decide_eq_false in Hf. exact Hf.
Qed.
Lemma mock_targets_ok ago : targets_ok (mock_targets ago).
Proof.
  constructor; [cbn [map mock_targets tg_list]; vm_decide|cbn [map mock_targets tg_list]; vm_decide| |].
  - unfold mock_targets. cbn [tg_list].
    repeat first [apply Forall_nil_2 | apply Forall_cons; split; [apply plain_target_ok; first [vm_compute; reflexivity|done|by intros []]|]].
  - unfold mock_targets. cbn [tg_tokens tg_list fmap list_fmap fst map mt_id]. intros x ->%list_elem_of_singleton. apply elem_of_cons. by left.
Qed.

(** C33: copies go where they should.  However targets are created, changed, switched
    on and off and deleted, and whenever the timers fire: ids are distinct, so are
    names without regard to case, also from those of the configuration file; every
    target is complete; only one that is switched on reports a state; every token
    belongs to a target; and a new target is switched off whatever was asked for. *)
Theorem targets_stay_sound ago s : targets_reached ago s →
  targets_ok s ∧ ∀ id body t s', id ∉ map mt_id (tg_list s) → target_post id body s = Ok (t, s') → mt_enabled t = false.
Proof.
  intros Hr. assert (targets_ok s) as Hok.
  { induction Hr as [|s s' _ IH Hop].
    - apply mock_targets_ok.
    - destruct Hop; [by eapply target_post_ok|by eapply target_put_ok|by apply target_timer_ok|by apply target_delete_ok]. }
  split; [done|]. intros id body t s' Hid Hp. by apply (target_post_ok _ _ _ _ _ Hok Hid Hp).
Qed.

Lemma targets_stay_sound_witness :
  targets_ok (target_delete $"0192f0c4-4444-7000-8000-000000000001" (mock_targets iso_string))
  ∧ tg_tokens (target_delete $"0192f0c4-4444-7000-8000-000000000001" (mock_targets iso_string)) = [].
Proof.
  split; [|vm_compute; reflexivity].
  exact (proj1 (targets_stay_sound iso_string _ (tr_next _ _ _ (tr_first _) (to_delete _ $"0192f0c4-4444-7000-8000-000000000001")))).
Defined.

(** * The service catalog *)

Definition mock_service_ok (s : TrendService) : Prop :=
  (sv_name s ≠ [] ∧ length (sv_name s) ≤ 64 ∧ forallb is_slug (sv_name s) = true)
  ∧ length (sv_label s) ≤ 64 ∧ match sv_country s with Some (c :: r) => country_ok (c :: r) = true | _ => True end
  ∧ (sv_domains s ≠ [] ∧ length (sv_domains s) ≤ 32) ∧ Forall (λ d, domainProblem d = None) (sv_domains s)
  ∧ Forall (λ d, domainProblem d = None ∧ owned_form d ∈ map owned_form (sv_domains s)) (nullish (sv_main_domains s) []).

Lemma bind_nil {A B} (f : A → list B) l : l ≫= f = [] ↔ Forall (λ x, f x = []) l.
Proof. induction l as [|x l IH]; [done|]. rewrite bind_cons, app_nil, Forall_cons, IH. done. Qed.
Lemma nameProblem_none name : nameProblem name = None ↔ name ≠ [] ∧ length name ≤ 64 ∧ forallb is_slug name = true.
Proof.
  rewrite <- name_error_none. unfold nameProblem, serviceNameError, MAX_NAME_CHARS. case_decide; [done|]. destruct (64 <? length name); [done|].
  by destruct (List.find _ _).
Qed.
Lemma service_complaints_none i seen s : service_complaints i seen s = [] ↔ mock_service_ok s ∧ sv_name s ∉ seen.
Proof.
  unfold service_complaints, mock_service_ok. cbv zeta. set (w := if truthy (sv_name s) then _ else _). rewrite !app_nil, <- nameProblem_none.
  assert (match nameProblem (sv_name s) with Some m => [w ++ $": name: " ++ m]
    | None => if bool_decide (sv_name s ∈ seen) then [w ++ $": name: already used by another service"] else [] end = []
    ↔ nameProblem (sv_name s) = None ∧ sv_name s ∉ seen) as ->.
  { destruct (nameProblem (sv_name s)); [naive_solver|]. case_bool_decide; naive_solver. }
  assert ((if 64 <? length (sv_label s) then [w ++ $": label: longer than 64 characters"] else []) = [] ↔ length (sv_label s) ≤ 64) as ->.
  { destruct (Nat.ltb_spec 64 (length (sv_label s))); split; (done || lia). }
  assert (match sv_country s with Some (c :: cs) => if country_ok (c :: cs) then []
      else [w ++ $": country: must be a two-letter ISO 3166-1 code such as SE, or empty"] | _ => [] end = []
    ↔ match sv_country s with Some (c :: r) => country_ok (c :: r) = true | _ => True end) as ->.
  { destruct (sv_country s) as [[|c r]|]; [done| |done]. by destruct (country_ok _). }
  assert (match sv_domains s with [] => [w ++ $": needs at least one domain"]
      | ds => if 32 <? length ds then [w ++ $": at most 32 domains are allowed, it has " ++ decn (length ds)] else [] end = []
    ↔ sv_domains s ≠ [] ∧ length (sv_domains s) ≤ 32) as ->.
  { destruct (sv_domains s) as [|d ds]; [split; [intros ?; discriminate|by intros [? _]]|]. cbv zeta. destruct (Nat.ltb_spec 32 (length (d :: ds))).
    - split; [intros ?; discriminate|intros [_ ?]; lia].
    - split; [intros _; by split|done]. }
  rewrite !bind_nil.
  assert (∀ d, complain w ($"domain " ++ quoted d ++ $": ") (domainProblem d) = [] ↔ domainProblem d = None) as H1 by (intros d; unfold complain; by destruct (domainProblem d)).
  assert (∀ d, match domainProblem d with Some m => [w ++ $": main domain " ++ quoted d ++ $": " ++ m]
      | None => if bool_decide (owned_form d ∈ map owned_form (sv_domains s)) then [] else [w ++ $": main domain " ++ quoted d ++ $" is not one of its domains"] end = []
    ↔ domainProblem d = None ∧ owned_form d ∈ map owned_form (sv_domains s)) as H2.
  { intros d. destruct (domainProblem d); [naive_solver|]. case_bool_decide; naive_solver. }
  rewrite (Forall_iff _ _ _ H1), (Forall_iff _ _ _ H2). tauto.
Qed.

Lemma services_complaints_none i seen l : services_complaints i seen l = [] ↔
  Forall mock_service_ok l ∧ NoDup (map sv_name l) ∧ Forall (λ s, sv_name s ∉ seen) l.
Proof.
  revert i seen. induction l as [|s l IH]; intros i seen; cbn [services_complaints map]; [split; [intros _; split_and!; constructor|done]|].
  rewrite app_nil, service_complaints_none, IH, !Forall_cons, NoDup_cons.
  assert (Forall (λ x, sv_name x ∉ sv_name s :: seen) l ↔ sv_name s ∉ map sv_name l ∧ Forall (λ x, sv_name x ∉ seen) l) as ->; [|tauto].
  rewrite list_elem_of_fmap, !Forall_forall. setoid_rewrite not_elem_of_cons. split.
  - intros H. split; [intros (x & E & Hx); by destruct (H x Hx)|intros x Hx; by apply H].
  - intros [H1 H2] x Hx. split; [intros E; apply H1; by exists x|by apply H2].
Qed.
Lemma catalog_taken l : catalogValidationError l = None ↔ length l ≤ 32 ∧ Forall mock_service_ok l ∧ NoDup (map sv_name l).
Proof.
  unfold catalogValidationError. cbv zeta.
  assert ((if 32 <? length l then [$"at most 32 services are allowed, the catalog has " ++ decn (length l)] else []) ++ services_complaints 0 [] l = []
    ↔ length l ≤ 32 ∧ Forall mock_service_ok l ∧ NoDup (map sv_name l)) as <-; [|by destruct (_ ++ _)].
  rewrite app_nil, services_complaints_none. assert (Forall (λ s, sv_name s ∉ []) l) by (apply Forall_forall; intros s _; apply not_elem_of_nil).
  destruct (Nat.ltb_spec 32 (length l)); [split; [naive_solver|naive_solver lia]|naive_solver].
Qed.

(** A domain on which both sides agree: lower case already, and not too long. *)
Definition short_lower (d : jsstr) : Prop := length d ≤ 253 ∧ to_lower d = d.
Lemma plain_domain_problem d : plain_domain d → length d ≤ 253 → domainProblem d = None.
Proof.
  intros [Hp Hd] Hl. unfold domainProblem. rewrite <- existsb_none in Hp. rewrite Hp, Hd. destruct (Nat.ltb_spec 253 (length d)); [lia|].
  destruct (trim d) eqn:Et; [|done]. exfalso. apply trim_nil in Et. destruct d as [|c d]; [by vm_compute in Hd|].
  apply Forall_cons in Et as [Hc _]. cbn in Hp. apply orb_false_iff in Hp as [Hp _]. rewrite Hc, !orb_true_r in Hp. done.
Qed.
Lemma owned_plain d : plain_domain d → to_lower d = d → owned_form d = normalDomain d.
Proof.
  intros [Hp _] Hl. unfold owned_form. assert (trim d = d) as ->; [|by rewrite Hl].
  assert (∀ s, forallb (λ c, negb (is_space c)) s = true → drop_while is_space s = s) as Hdw.
  { intros [|c s]; [done|]. cbn. intros [Hc _]%andb_prop. by destruct (is_space c). }
  assert (forallb (λ c, negb (is_space c)) d = true) as Hns.
  { revert Hp. clear. induction d as [|c d IH]; [done|]. cbn. rewrite !negb_orb, !andb_true_iff. naive_solver. }
  unfold trim, trim_end, trim_start. rewrite (Hdw d Hns), Hdw, rev_involutive; [done|].
  rewrite forallb_forall in Hns |- *. intros c Hc. apply Hns. by apply in_rev.
Qed.
Lemma country_normal c : match or_undef (normalCountry c) with Some (a :: r) => country_ok (a :: r) = true | _ => True end.
Proof.
  unfold normalCountry. destruct (_ && _) eqn:E; [|done]. apply andb_prop in E as [E1 E2]. destruct (to_upper _) as [|a r]; [done|]. cbn [or_undef truthy].
  unfold country_ok. rewrite E1. cbn [andb]. rewrite forallb_forall in E2 |- *. intros x Hx. by rewrite (E2 x Hx).
Qed.

Lemma form_accepted forms : hasCatalogErrors (validateCatalog forms) = false →
  Forall (λ s, Forall short_lower (sv_domains s) ∧ Forall short_lower (nullish (sv_main_domains s) [])) (formToServices forms) →
  catalogValidationError (formToServices forms) = None.
Proof.
  intros He Hl.
  unfold validateCatalog in He. cbv zeta in He. rewrite validateRows_clean in He. destruct He as (Hrows & Hnd & _ & Hmax).
  apply catalog_taken. split_and!.
  - unfold formToServices. rewrite length_map. destruct (Nat.ltb_spec MAX_SERVICES (length forms)); [done|]. unfold MAX_SERVICES in *. lia.
  - unfold formToServices in *. apply Forall_fmap. apply Forall_fmap in Hl. rewrite Forall_forall in Hrows, Hl |- *. intros f Hf.
    destruct (Hrows f Hf) as [[Hn Hlab Hd Hp Hm] _]. destruct (Hl f Hf) as [Hsd Hsm]. unfold compose. split_and!; try done.
    + by apply Hn. + by apply Hn. + by apply Hn.
    + apply (country_normal (Some (g_country f))).
    + by apply Hd. + by apply Hd.
    + rewrite Forall_forall in Hp, Hsd |- *. intros d Hdd. apply plain_domain_problem; [by apply Hp|by apply Hsd].
    + rewrite Forall_forall in Hm, Hp, Hsd, Hsm |- *. intros d Hdd. destruct (Hm d Hdd) as [Hpl Hown]. destruct (Hsm d Hdd) as [Hlen Hlow].
      split; [by apply plain_domain_problem|]. rewrite owned_plain by done. apply list_elem_of_fmap in Hown as (d' & E & Hd').
      apply list_elem_of_fmap. exists d'. split; [|done]. rewrite owned_plain; [done|by apply Hp|by apply Hsd].
  - unfold formToServices. rewrite map_map. exact Hnd.
Qed.

(** What the catalog editor accepts, the server takes.  A catalog the editor
    shows no error for is stored unchanged, provided its domains are no longer than
    253 characters and in lower case as the editor writes them. *)
Theorem catalog_form_taken forms stored :
  hasCatalogErrors (validateCatalog forms) = false →
  Forall (λ s, Forall short_lower (sv_domains s) ∧ Forall short_lower (nullish (sv_main_domains s) [])) (formToServices forms) →
  catalog_put true (Some (formToServices forms)) stored = (formToServices forms, Ok (formToServices forms)).
Proof. intros He Hl. unfold catalog_put. cbn [negb nullish]. by rewrite form_accepted. Qed.

Definition catalog_form (domains main : jsstr) : list ServiceForm := [MkServiceForm $"service-1" $" tiktok" $"TikTok" domains main $"cn" true].
Lemma catalog_form_taken_witness :
  catalog_put true (Some (formToServices (catalog_form $"tiktok.com, .TikTokV.com" $"tiktok.com"))) []
  = (formToServices (catalog_form $"tiktok.com, .TikTokV.com" $"tiktok.com"),
     Ok (formToServices (catalog_form $"tiktok.com, .TikTokV.com" $"tiktok.com"))).
Proof.
  apply (catalog_form_taken (catalog_form $"tiktok.com, .TikTokV.com" $"tiktok.com") []); [vm_compute; reflexivity|].
  apply Forall_singleton. split; (apply (bool_decide_unpack _); vm_compute; exact I).
Defined.

(** The editor has no limit on the length of a domain, the server has. *)
Definition long_domain : jsstr := replicate 250 97%N ++ $".com".
Theorem long_domain_refused :
  hasCatalogErrors (validateCatalog (catalog_form long_domain [])) = false
  ∧ ∃ p, catalogValidationError (formToServices (catalog_form long_domain [])) = Some p.
Proof. split; [vm_compute; reflexivity|]. eexists. vm_compute. reflexivity. Qed.

(** * Sources *)

Section sources.
Context (FILE_SOURCES : list FileSource) (TEMPLATE_IDS : list jsstr).

(** An adopted source cannot be saved again under its name: the file source it was
    copied from still counts as another one of that name. *)
Theorem adopted_not_saved id name now body sources s sources' :
  source_adopt FILE_SOURCES id name sources = Ok (s, sources') → id ∉ map so_id sources →
  sc_name (bd_config body) = name → ∃ p, source_put FILE_SOURCES TEMPLATE_IDS id now body sources' = Err p.
Proof.
  unfold source_adopt. destruct (List.find _ FILE_SOURCES) as [f|] eqn:Ef; [|done]. destruct (existsb _ sources); [done|]. intros [= <- <-] Hid Hname.
  apply List.find_some in Ef as [Hf E]. apply bool_decide_eq_true in E. unfold source_put.
  destruct (find_by_id id _) as [r|]; [|by eexists]. destruct (negb _); [by eexists|].
  assert (sc_name (kept_key (bd_config body) (so_config r)) = name) as Hk.
  { rewrite <- Hname. unfold kept_key. destruct (sc_tls (bd_config body)); [|done]. by destruct (_ && _). }
  assert (∃ p, sourceValidationError FILE_SOURCES TEMPLATE_IDS (sources ++ [MkMockSource id (fl_config f) (fl_enabled f) true None None (fl_status f) 1])
    (kept_key (bd_config body) (so_config r)) (Some (so_id r)) = Some p) as [p ->]; [|by eexists].
  unfold sourceValidationError. destruct (tls_problem _); [by eexists|].
  assert (is_Some (name_clash FILE_SOURCES (sources ++ [MkMockSource id (fl_config f) (fl_enabled f) true None None (fl_status f) 1])
    (sc_name (kept_key (bd_config body) (so_config r))) (Some (so_id r)))) as [n Hn].
  { rewrite Hk. unfold name_clash. apply fmap_is_Some. destruct (List.find _ _) eqn:En; [by eexists|].
    assert (In (None, sc_name (fl_config f)) (source_names FILE_SOURCES (sources ++ [MkMockSource id (fl_config f) (fl_enabled f) true None None (fl_status f) 1]))) as Hin.
    { unfold source_names. apply in_app_iff. left. apply in_map_iff. by exists f. }
    pose proof (List.find_none _ _ En _ Hin) as Hnone. apply andb_false_iff in Hnone as [Hx|Hx]; cbn [fst snd] in Hx.
    - apply negb_false_iff, bool_decide_eq_true in Hx. done.
    - apply bool_decide_eq_false in Hx. congruence. }
  destruct (source_complaints _ _ _ _ _) eqn:Ec; [|by eexists]. exfalso. unfold source_complaints in Ec. cbv zeta in Ec. rewrite !app_nil, Hn in Ec. naive_solver.
Qed.

(** The key of a source is never read back, and a save without one keeps it. *)
Theorem source_key_kept id now body sources s s' sources' :
  find_by_id id sources = Some s → source_put FILE_SOURCES TEMPLATE_IDS id now body sources = Ok (s', sources') →
  (∀ t, sc_tls (bd_config body) = Some t → truthy (opt_trim (tl_key t)) = false → truthy (nullish (sc_tls (so_config s) ≫= tl_key) []) = true →
     sc_tls (so_config s') ≫= tl_key = sc_tls (so_config s) ≫= tl_key)
  ∧ Forall (λ v, sc_tls (so_config v.1) ≫= tl_key = None) (source_list FILE_SOURCES sources').2.
Proof.
  intros Hf. unfold source_put. rewrite Hf. destruct (negb _); [done|]. destruct (sourceValidationError _ _ _ _ _); [done|]. intros [= <- <-]. split.
  - intros t Ht Hb Hs. cbn [so_config]. unfold kept_key. rewrite Ht, Hb, Hs. cbn. destruct (sc_tls (so_config s) ≫= tl_key); [done|by cbn in Hs].
  - cbn. apply Forall_fmap, Forall_true. intros x. unfold compose, sourceResponse. destruct (sc_tls (so_config x)) eqn:E; cbn; [done|]. by rewrite E.
Qed.
End sources.
