(* ===== verification/FormFields.v ===== *)
(** Forms as the pages use them: a record edited by key, and the labelled fields that
    show it (src/frontend/src/features/sources/SourceFields.tsx, ChoiceCards.tsx).
    A form has a type for each key, as in TypeScript; the pages are written against
    the interface and the source and forward target forms implement it. *)
From Stdlib Require Import Eqdep_dec Lia.
From stdpp Require Import base list strings.
From S2P Require Import Prelude.

(** * Records edited by key *)

(** [F\[K\]], reading a member and building a record from its members. *)
Class KeyedForm (K F : Type) `{EqDecision K} := {
  form_ty : K → Type;
  form_get : ∀ k, F → form_ty k;
  form_of : (∀ k, form_ty k) → F
}.
Class KeyedFormLaws (K F : Type) `{KeyedForm K F} : Prop := {
  get_of g k : form_get k (form_of g) = g k;
  of_get f : form_of (λ k, form_get k f) = f;
  of_ext g h : (∀ k, g k = h k) → form_of g = form_of h
}.

Section keyed.
Context {K F : Type} `{KeyedForm K F}.

(** [{ ...f, \[key\]: value }] *)
Definition form_set (k : K) (v : form_ty k) (f : F) : F :=
  form_of (λ k', match decide (k = k') with left E => eq_rect k form_ty v k' E | right _ => form_get k' f end).

Context `{!KeyedFormLaws K F}.

Lemma get_set k v f : form_get k (form_set k v f) = v.
Proof.
  unfold form_set. rewrite get_of. destruct (decide (k = k)) as [E|]; [|done].
  symmetry. apply eq_rect_eq_dec. intros x y. destruct (decide (x = y)); auto.
Qed.
Lemma get_set_ne k k' v f : k ≠ k' → form_get k' (form_set k v f) = form_get k' f.
Proof. intros Hk. unfold form_set. rewrite get_of. by destruct (decide (k = k')). Qed.
Lemma form_ext f g : (∀ k, form_get k f = form_get k g) → f = g.
Proof. intros Hg. rewrite <- (of_get f), <- (of_get g). by apply of_ext. Qed.
Lemma set_get k f : form_set k (form_get k f) f = f.
Proof. apply form_ext. intros k'. destruct (decide (k = k')) as [<-|Hk]; [apply get_set|by apply get_set_ne]. Qed.
Lemma set_set k v w f : form_set k v (form_set k w f) = form_set k v f.
Proof. apply form_ext. intros k'. destruct (decide (k = k')) as [<-|Hk]; [by rewrite !get_set|by rewrite !get_set_ne]. Qed.
Lemma set_comm k k' v w f : k ≠ k' → form_set k v (form_set k' w f) = form_set k' w (form_set k v f).
Proof.
  intros Hk. apply form_ext. intros j. destruct (decide (k = j)) as [<-|Hj].
  - by rewrite get_set, get_set_ne, get_set.
  - rewrite (get_set_ne k j) by done. destruct (decide (k' = j)) as [<-|Hj']; [by rewrite !get_set|by rewrite !get_set_ne].
Qed.
End keyed.

(** * Fields *)

(** The control of a field for values of a type, without its looks: inputs with a
    placeholder, drop-down lists and cards with what they offer, boxes for a list or
    for the names of a text that has one on each line, and a single box. *)
Inductive Widget : Type → Type :=
| w_input (placeholder : jsstr) : Widget jsstr
| w_textarea (rows : nat) (placeholder : jsstr) : Widget jsstr
| w_select {A} (options : list (jsstr * A)) : Widget A
| w_cards {A} (choices : list (A * jsstr * jsstr)) : Widget A
| w_checks {A} (choices : list (A * jsstr * jsstr)) : Widget (list A)
| w_boxes (names : list jsstr) : Widget jsstr
| w_checkbox : Widget bool.
Arguments w_input placeholder : clear implicits.

(** What can be entered. *)
Definition can_enter {A} (w : Widget A) : A → Prop :=
  match w in Widget A return A → Prop with
  | w_select options => λ v, v ∈ map snd options
  | w_cards choices => λ v, v ∈ map (λ c, c.1.1) choices
  | _ => λ _, True
  end.

(** A field on the page: its key, the keys whose errors it shows, of which it shows
    the first there is, and its hint. *)
Record FieldView (K : Type) (ty : K → Type) := MkFieldView {
  fv_id : jsstr; fv_label : jsstr; fv_hint : jsstr; fv_key : K; fv_errors : list K; fv_widget : Widget (ty fv_key)
}.
Arguments MkFieldView {K ty}.
Arguments fv_id {K ty}.
Arguments fv_label {K ty}.
Arguments fv_hint {K ty}.
Arguments fv_key {K ty}.
Arguments fv_errors {K ty}.
Arguments fv_widget {K ty}.

(** The line under a field: its error or its hint. *)
Inductive FieldNote := note_error (m : jsstr) | note_hint (m : jsstr) | note_none.

Section notes.
Context {K : Type} `{EqDecision K}.

(** [errors.fields.a ?? errors.fields.b] *)
Fixpoint first_error (fields : list (K * jsstr)) (keys : list K) : option jsstr :=
  match keys with
  | [] => None
  | k :: r => match assoc_get fields k with Some m => Some m | None => first_error fields r end
  end.

Definition field_note {ty} (fields : list (K * jsstr)) (v : FieldView K ty) : FieldNote :=
  match first_error fields (fv_errors v) with
  | Some (c :: m) => note_error (c :: m)
  | _ => if truthy (fv_hint v) then note_hint (fv_hint v) else note_none
  end.

(** The errors shown at the fields. *)
Definition shown_errors {ty} (fields : list (K * jsstr)) (views : list (FieldView K ty)) : list jsstr :=
  views ≫= λ v, match field_note fields v with note_error m => [m] | _ => [] end.

Lemma first_error_nil keys : first_error [] keys = None.
Proof. by induction keys as [|k keys IH]. Qed.
Lemma shown_errors_nil {ty} (views : list (FieldView K ty)) : shown_errors [] views = [].
Proof.
  unfold shown_errors. induction views as [|v views IH]; [done|]. cbn. rewrite IH. unfold field_note.
  rewrite first_error_nil. by destruct (truthy _).
Qed.
Lemma shown_at {ty} fields (views : list (FieldView K ty)) v k m :
  v ∈ views → fv_errors v = [k] → assoc_get fields k = Some m → m ≠ [] → m ∈ shown_errors fields views.
Proof.
  intros Hv Hk Hm Hn. apply list_elem_of_bind. exists v. split; [|done]. unfold field_note. rewrite Hk. cbn. rewrite Hm.
  destruct m; [done|]. by apply list_elem_of_singleton.
Qed.

(** A field of the list shows the errors of the key. *)
Definition shows {ty} (k : K) (l : list (FieldView K ty)) : bool := existsb (λ v, bool_decide (fv_errors v = [k])) l.
Lemma shows_app {ty} k (a b : list (FieldView K ty)) : shows k (a ++ b) = shows k a || shows k b.
Proof. apply existsb_app. Qed.
Lemma shows_shown {ty} k (l : list (FieldView K ty)) fields m :
  shows k l = true → assoc_get fields k = Some m → m ≠ [] → m ∈ shown_errors fields l.
Proof.
  intros (v & Hv & Hk)%existsb_exists. apply bool_decide_eq_true in Hk. apply shown_at with v; [by apply list_elem_of_In|done].
Qed.
End notes.

(** * Numbered rows *)

(** Rows of a list in a form have a key, a prefix with the number of a counter, by
    which the page tells them apart. *)
Class NumberedRow (R : Type) := { row_key : R → jsstr; row_prefix : jsstr }.

Section rows.
Context {R : Type} `{NumberedRow R}.

(** The keys are distinct and were counted. *)
Definition keys_ok (seq : nat) (rows : list R) : Prop :=
  NoDup (map row_key rows) ∧ Forall (λ r, ∃ n, 0 < n ≤ seq ∧ row_key r = row_prefix ++ decn n) rows.

Lemma keys_nil s : keys_ok s [].
Proof. split; constructor. Qed.
Lemma keys_mono a b rows : a ≤ b → keys_ok a rows → keys_ok b rows.
Proof. intros Hab [Hn Hf]. split; [done|]. eapply Forall_impl; [done|]. intros r (n & Hl & E). exists n. split; [lia|done]. Qed.
Lemma keys_perm s a b : a ≡ₚ b → keys_ok s a → keys_ok s b.
Proof. intros Hp [Hn Hf]. split; [by rewrite <- Hp|by rewrite <- Hp]. Qed.
Lemma keys_sub s a b : sublist a b → keys_ok s b → keys_ok s a.
Proof.
  intros Hs [Hn Hf]. split.
  - eapply sublist_NoDup; [done|]. by apply (fmap_sublist row_key).
  - rewrite Forall_forall in *. intros r Hr. apply Hf. by eapply elem_of_sublist.
Qed.
Lemma keys_same s a b : map row_key a = map row_key b → keys_ok s a → keys_ok s b.
Proof.
  intros E [Hn Hf]. rewrite E in Hn. split; [done|]. rewrite Forall_forall in *. intros r Hr.
  assert (row_key r ∈ map row_key a) as (r' & Ek & Hr')%list_elem_of_fmap by (rewrite E; by apply list_elem_of_fmap_2).
  rewrite Ek. by apply Hf.
Qed.
Lemma keys_fresh s rows n : s < n → keys_ok s rows → row_prefix ++ decn n ∉ map row_key rows.
Proof.
  intros Hn [_ Hf] (r & E & Hr)%list_elem_of_fmap. rewrite Forall_forall in Hf. destruct (Hf r Hr) as (m & Hm & Em).
  rewrite Em in E. apply app_inv_head, (f_equal digits_val) in E. unfold decn in E. rewrite !dec_val in E. lia.
Qed.
Lemma keys_snoc s rows r : row_key r = row_prefix ++ decn (s + 1) → keys_ok s rows → keys_ok (s + 1) (rows ++ [r]).
Proof.
  intros Er Hk. pose proof (keys_fresh s rows (s + 1) ltac:(lia) Hk) as Hfresh.
  apply (keys_mono _ (s + 1)) in Hk as [Hn Hf]; [|lia]. split.
  - rewrite map_app. apply NoDup_app. split_and!; [done| |apply NoDup_singleton].
    intros x Hx ->%list_elem_of_singleton. by rewrite Er in Hx.
  - apply Forall_app. split; [done|]. apply Forall_singleton. exists (s + 1). split; [lia|done].
Qed.
(** [rows.filter((_, j) => j !== i)] *)
Lemma keys_remove s i rows : keys_ok s rows → keys_ok s (take i rows ++ drop (S i) rows).
Proof.
  apply keys_sub. rewrite <- (take_drop i rows) at 3. apply sublist_app; [done|].
  replace (drop (S i) rows) with (drop 1 (drop i rows)) by by rewrite drop_drop, Nat.add_1_r. apply sublist_drop.
Qed.
(** [rows.map((r, j) => (j === i ? { ...r, ...patch } : r))] *)
Lemma keys_patch i (p : R → R) rows : (∀ r, row_key (p r) = row_key r) →
  map row_key (imap (λ j r, if j =? i then p r else r) rows) = map row_key rows.
Proof.
  intros Hp. apply list_eq. intros j. rewrite !list_lookup_fmap, list_lookup_imap. destruct (rows !! j) as [r|]; [|done].
  cbn. destruct (j =? i); [by rewrite Hp|done].
Qed.
End rows.
