(* ===== verification/SourcePanels.v ===== *)
(** The panels of the source editor: the extract rules and their dry run
    (src/frontend/src/features/sources/ExtractEditor.tsx), the template of a source
    and its setup guide (TemplateGuide.tsx), and the list of sources
    (SourcesPage.tsx). *)
From Stdlib Require Import ZArith Lia.
From stdpp Require Import base list numbers strings.
From S2P Require Import Prelude Unicode JsNumber UrlState SourceTemplates SourceForm AnalysisViews FormFields SourceEditor.
Open Scope nat_scope.

(** * Extract rules *)

Definition MAX_SAMPLES : nat := 10.

Inductive rule_patch := pa_name (s : jsstr) | pa_contains (s : jsstr) | pa_prefix (s : jsstr) | pa_regex (s : jsstr).
Definition patch_rule (p : rule_patch) (r : ExtractRuleForm) : ExtractRuleForm :=
  match p with
  | pa_name s => MkExtractRuleForm (rf_key r) s (rf_contains r) (rf_prefix r) (rf_regex r)
  | pa_contains s => MkExtractRuleForm (rf_key r) (rf_name r) s (rf_prefix r) (rf_regex r)
  | pa_prefix s => MkExtractRuleForm (rf_key r) (rf_name r) (rf_contains r) s (rf_regex r)
  | pa_regex s => MkExtractRuleForm (rf_key r) (rf_name r) (rf_contains r) (rf_prefix r) s
  end.
(** [rules.map((r, j) => (j === i ? { ...r, ...patch } : r))] *)
Definition rules_replace (i : nat) (p : rule_patch) (rules : list ExtractRuleForm) : list ExtractRuleForm :=
  imap (λ j r, if j =? i then patch_rule p r else r) rules.
(** [next.splice(to, 0, ...next.splice(i, 1))]: the rule is taken out first. *)
Definition rules_move (i to : nat) (rules : list ExtractRuleForm) : list ExtractRuleForm :=
  let out := take 1 (drop i rules) in
  let next := take i rules ++ drop (S i) rules in
  take to next ++ out ++ drop to next.
(** [rules.filter((_, j) => j !== i)] *)
Definition rules_remove (i : nat) (rules : list ExtractRuleForm) : list ExtractRuleForm := take i rules ++ drop (S i) rules.

Record ExtractPreset := MkPreset { pr_id : jsstr; pr_title : jsstr; pr_description : jsstr; pr_rule : ExtractRule }.
(** The rule a preset adds. *)
Definition preset_rule (seq : nat) (p : ExtractPreset) : ExtractRuleForm * nat :=
  newExtractRule seq (nullish (er_name (pr_rule p)) (pr_id p)) (orEmpty (er_contains (pr_rule p))) (orEmpty (er_prefix (pr_rule p)))
    (er_regex (pr_rule p)).

(** What can be done in the panel; up and down are disabled at the ends. *)
Inductive rules_event := re_add | re_preset (p : ExtractPreset) | re_up (i : nat) | re_down (i : nat) | re_remove (i : nat) | re_edit (i : nat) (p : rule_patch).
Definition rules_step (seq : nat) (rules : list ExtractRuleForm) (ev : rules_event) : list ExtractRuleForm * nat :=
  match ev with
  | re_add => let '(r, seq) := newExtractRule seq [] [] [] [] in (rules ++ [r], seq)
  | re_preset p => let '(r, seq) := preset_rule seq p in (rules ++ [r], seq)
  | re_up i => (if i =? 0 then rules else rules_move i (i - 1) rules, seq)
  | re_down i => (if i =? length rules - 1 then rules else rules_move i (i + 1) rules, seq)
  | re_remove i => (rules_remove i rules, seq)
  | re_edit i p => (rules_replace i p rules, seq)
  end.
(** [onChange(rules)] of the page. *)
Definition ed_rules (ev : rules_event) (s : SourceEditor) : SourceEditor :=
  let '(rules, seq) := rules_step (ed_seq s) (f_extract (ed_form s)) ev in
  MkEditor (form_set K_extract rules (ed_form s)) seq (ed_errors s) (ed_conflict s) (ed_confirmDelete s).

(** The preview of the fields of a rule. *)
Inductive FieldChips := chips_hidden | chips_no_groups | chips_produces (names : list jsstr).
Definition field_chips (rule : ExtractRuleForm) : FieldChips :=
  match trim (rf_regex rule), extractFieldNames rule with
  | [], _ => chips_hidden
  | _, [] => chips_no_groups
  | _, names => chips_produces names
  end.

(** A rule in the list. *)
Record RuleCard := MkRuleCard {
  rc_key : jsstr; rc_title : jsstr; rc_up : bool; rc_down : bool; rc_chips : FieldChips; rc_error : option jsstr
}.
Definition rule_title (i : nat) (r : ExtractRuleForm) : jsstr := or_else (trim (rf_name r)) ($"rule-" ++ decn (i + 1)).
Definition rule_cards (rules : list ExtractRuleForm) (e : SourceErrors) : list RuleCard :=
  imap (λ i r, MkRuleCard (rf_key r) (rule_title i r) (negb (i =? 0)) (negb (i =? length rules - 1)) (field_chips r)
                 (assoc_get (e_rules e) i ≫= or_undef)) rules.

(** ** The dry run *)

Record ExtractTestResult := MkTestResult {
  xr_sample : jsstr; xr_rule : option jsstr; xr_order : option (list jsstr); xr_fields : option (list (jsstr * jsstr))
}.
Record ExtractTest := MkExtractTest { xt_samples : jsstr; xt_results : option (list ExtractTestResult); xt_error : jsstr }.
Definition test_init : ExtractTest := MkExtractTest [] None [].
Definition test_lines (t : ExtractTest) : list jsstr := List.filter (λ l, truthy (trim l)) (split_on (λ c, (c =? LF)%N) (xt_samples t)).
Definition test_rules (f : SourceFormState) : list ExtractRule :=
  List.filter (λ r, truthy (er_regex r)) (nullish (sc_extract (formToConfig f).1) []).
Definition too_many (t : ExtractTest) : bool := MAX_SAMPLES <? length (test_lines t).
Definition test_ready (f : SourceFormState) (t : ExtractTest) : bool :=
  (0 <? length (test_rules f)) && (0 <? length (test_lines t)) && negb (too_many t).
Definition test_run (f : SourceFormState) (t : ExtractTest) : ExtractTest * option (list ExtractRule * list jsstr) :=
  if test_ready f t then (MkExtractTest (xt_samples t) (xt_results t) [], Some (test_rules f, test_lines t)) else (t, None).
Definition test_done (r : list ExtractTestResult) (t : ExtractTest) : ExtractTest := MkExtractTest (xt_samples t) (Some r) (xt_error t).
(** [err.problem?.errors?.\[0\]?.message ?? err.message], or the text of what was thrown. *)
Definition test_failed (err : SaveError) (t : ExtractTest) : ExtractTest :=
  MkExtractTest (xt_samples t) None
    (match xe_api err with
     | Some (_, p) => nullish (((p ≫= pb_errors) ≫= hd_error) ≫= pe_message) (xe_message err)
     | None => xe_string err
     end).
Definition test_type (s : jsstr) (t : ExtractTest) : ExtractTest := MkExtractTest s (xt_results t) (xt_error t).
Definition test_hint (t : ExtractTest) : jsstr :=
  if too_many t then decn (length (test_lines t)) ++ $" lines; at most " ++ decn MAX_SAMPLES ++ $" are tested at a time."
  else $"One line per sample, up to " ++ decn MAX_SAMPLES ++ $". Nothing is stored. ⌘/Ctrl+Enter runs.".
(** A result: the rule that matched and the fields in the order of the answer. *)
Inductive TestPane := tp_failed (m : jsstr) | tp_hint (m : jsstr) | tp_results (l : list (option jsstr * jsstr * list (jsstr * option jsstr))).
Definition test_pane (f : SourceFormState) (t : ExtractTest) : TestPane :=
  if truthy (xt_error t) then tp_failed (xt_error t)
  else match xt_results t with
  | None => tp_hint (match test_rules f with
                     | [] => $"Add a rule above, then paste a line to see the fields it produces."
                     | _ => $"Paste a line and run the rules against it — nothing is saved."
                     end)
  | Some l => tp_results (map (λ r, (xr_rule r ≫= or_undef, xr_sample r,
                                     map (λ k, (k, xr_fields r ≫= λ o, assoc_get o k)) (nullish (xr_order r) []))) l)
  end.

(** * The template of a source *)

Definition defaultPartNames (t : SourceTemplate) : jsstr := join $", " (map tp_title (selectedTemplateParts (Some t) [])).

Definition ALL_ANALYSES : list AnalysisId := [an_dns_services; an_directory; an_mssql; an_iis].
Definition known_analysis (a : jsstr) : option AnalysisId := List.find (λ id, bool_decide (analysis_text id = a)) ALL_ANALYSES.

(** Prefixes: a, b and c. *)
Fixpoint listed (l : list jsstr) : jsstr :=
  match l with
  | [] => []
  | [a] => a
  | [a; b] => a ++ $" and " ++ b
  | a :: r => a ++ $", " ++ listed r
  end.
Definition effect_json (t : SourceTemplate) (partJson : list TemplatePart) : list jsstr :=
  match st_json t, partJson with
  | None, [] => []
  | _, _ =>
      [$"The sender emits a JSON record per event, so there is no rule to write: the server turns its keys into fields"
       ++ match (st_json t ≫= id) ≫= or_undef, partJson with
          | Some p, _ => $" behind the " ++ p ++ $" prefix."
          | None, _ :: _ =>
              $" behind " ++ listed (map (λ p, nullish (tp_json p ≫= id) []) partJson)
              ++ $", one prefix per part, so one source can carry several kinds at once."
          | None, [] => $" directly."
          end]
  end.
(** What choosing this template with these parts does, sentence by sentence. *)
Definition TemplateEffect (t : SourceTemplate) (parts : list jsstr) : list jsstr :=
  let analyses := omap known_analysis (templateAnalyses (Some t) parts) in
  let chosen := selectedTemplateParts (Some t) parts in
  let partJson := List.filter (λ p, match tp_json p with Some _ => true | None => false end) chosen in
  let partRules := List.filter (λ p, match tp_extract p with Some (_ :: _) => true | _ => false end) chosen in
  let newParts := List.filter (λ p, negb (bool_decide (tp_id p ∈ nullish (st_parts_in_use t) []))) chosen in
  (match nullish (st_extract t) [] with
   | [] => []
   | [_] => [$"Its parsing rule is listed under Extract fields below, and can be edited there like any others."]
   | _ => [$"Its parsing rules are listed under Extract fields below, and can be edited there like any others."]
   end)
  ++ effect_json t partJson
  ++ (match partRules with
      | [] => []
      | _ => [join $" and " (map tp_title partRules) ++ $" also " ++ (if length partRules =? 1 then $"reads" else $"read")
              ++ $" a value out of the message text, which the server does for you — there is nothing to add under Extract fields."]
      end)
  ++ map (λ a, $"Unlocks the " ++ am_label (ANALYSES a) ++ $" view in Analytics, which shows " ++ am_about (ANALYSES a) ++ $".") analyses
  ++ (match newParts, nullish (st_parts t) [] with
      | _ :: _, _ :: _ =>
          [$"No enabled source carries " ++ join $", " (map tp_title newParts) ++ $" yet, so saving and enabling this source is what makes "
           ++ (if length newParts =? 1 then $"its view" else $"those views") ++ $" appear."]
      | _, _ => []
      end)
  ++ (match nullish (st_sources t) [] with [] => [] | l => [$"Carried by " ++ join $", " l ++ $"."] end).

(** The panel: a template nobody knows any more, the parts, and the effect. *)
Record TemplatePanel := MkTemplatePanel {
  tp_unknown : option jsstr; tp_parts : list (jsstr * bool); tp_default_line : option jsstr; tp_none_warning : bool; tp_effect : list jsstr
}.
Definition TemplateChoicePanel (templates : list SourceTemplate) (value : jsstr) (parts : list jsstr) : TemplatePanel :=
  let chosen := templateById templates value in
  let chosenParts := resolveTemplateParts chosen parts in
  match chosen with
  | None => MkTemplatePanel (or_undef value) [] None false []
  | Some t =>
      match nullish (st_parts t) [] with
      | [] => MkTemplatePanel None [] None false (TemplateEffect t chosenParts)
      | ps =>
          MkTemplatePanel None (map (λ p, (tp_id p, bool_decide (tp_id p ∈ chosenParts))) ps)
            (match parts with
             | [] => Some ($"Nothing is recorded on this source, so it carries the template’s default: "
                           ++ or_else (defaultPartNames t) $"none of them" ++ $". Ticking or unticking a box records the choice explicitly.")
             | _ => None
             end)
            (bool_decide (chosenParts = [])) (TemplateEffect t chosenParts)
      end
  end.

(** ** The setup guide *)

(** Its number, its title and whether it holds the generated file, of every step shown. *)
Record GuideStep := MkGuideStep { gs_number : nat; gs_part : option jsstr; gs_title : jsstr; gs_config : option jsstr; gs_generated : bool }.
Definition group_steps (g : TemplateStepGroup) : list GuideStep :=
  imap (λ i s, MkGuideStep (sg_start g + i + 1) (tp_title <$> sg_part g) (ts_title s) (ts_config s ≫= or_undef)
                 (bool_decide (sg_key g = $"config"))) (sg_steps g).
Definition step_count (groups : list TemplateStepGroup) : nat := fold_left (λ n g, n + length (sg_steps g)) groups 0.
Definition guide_steps (t : SourceTemplate) (parts : list jsstr) : list GuideStep := templateSteps t parts ≫= group_steps.
(** The button, the steps when the guide is open, and whether the file is asked for. *)
Record Guide := MkGuide { gd_button : option jsstr; gd_steps : list GuideStep; gd_asks : bool }.
Definition TemplateSetupPanel (t : SourceTemplate) (parts : list jsstr) (open : bool) : Guide :=
  let groups := templateSteps t parts in
  let count := step_count groups in
  MkGuide (if 0 <? count then Some ((if open then $"Hide" else $"Show") ++ $" " ++ decn count ++ $" steps") else None)
    (if open && (0 <? count) then guide_steps t parts else [])
    (existsb (λ g, bool_decide (sg_key g = $"config")) groups && open).
Inductive Generated := gen_loading | gen_error (m : jsstr) | gen_nothing | gen_block (text kind : jsstr) (filename : option jsstr).
Definition GeneratedConfig (language : option jsstr) (config : Loaded (option jsstr * option jsstr)) : Generated :=
  match config with
  | load_pending => gen_loading
  | load_error m => gen_error m
  | load_data (text, filename) =>
      match text with
      | Some (c :: t) => gen_block (c :: t) (configLanguageLabel language) (filename ≫= or_undef)
      | _ => gen_nothing
      end
  end.

(** * The list of sources *)

Definition state_text (s : SourceState) : jsstr :=
  match s with state_running => $"running" | state_stopped => $"stopped" | state_error => $"error" | state_disabled => $"disabled" end.
Definition protocol_text (p : Protocol) : jsstr := match p with pr_udp => $"udp" | pr_tcp => $"tcp" | pr_tls => $"tls" end.
Definition ACME_LIST_HELP (s : AcmeState) : option jsstr :=
  match s with
  | acme_failed =>
      Some ($"Let’s Encrypt has not issued a certificate: the last attempt failed. This listener accepts connections and then "
            ++ $"rejects the handshake. Open the source to see the error.")
  | acme_pending =>
      Some ($"Let’s Encrypt has not issued a certificate yet. One is asked for when the source starts; until it arrives "
            ++ $"senders cannot complete a handshake.")
  | acme_staging =>
      Some ($"The certificate came from Let’s Encrypt’s staging authority, which is trusted by nothing, so real senders will "
            ++ $"still reject this listener.")
  | _ => None
  end.
Inductive Origin := or_file | or_adopted | or_database.
Record SourceRow := MkSourceRow {
  sr_link : jsstr; sr_name : jsstr; sr_disabled : bool; sr_protocol : jsstr; sr_address : jsstr; sr_state : SourceState;
  sr_tone : Tone; sr_badge : option (jsstr * jsstr); sr_error : option jsstr; sr_origin : Origin; sr_logs : ExplorerSearch
}.
Definition source_row (s : EditedSource) : SourceRow :=
  let m := es_source s in
  let c := ms_config m in
  let state := nullish (es_state s) (if ms_enabled m then state_stopped else state_disabled) in
  let acme := acmeStatus (es_acme s) in
  let http := match sc_type c with ty_http_json => true | _ => false end in
  MkSourceRow (sourceRouteId m) (sc_name c) (negb (ms_enabled m))
    (if http then $"http" else match sc_protocol c with Some p => protocol_text p | None => $"—" end)
    (if http then $"/api/v1/ingest" else orEmpty (sc_address c))
    state (sourceStateTone (Some state)) ((λ h, (as_label acme, h)) <$> ACME_LIST_HELP (as_state acme))
    (es_error s ≫= or_undef) (if es_file s then or_file else if es_adopted s then or_adopted else or_database)
    (sourceExplorerSearch (sc_name c)).
Inductive SourceList := sl_error (m : jsstr) | sl_loading | sl_empty | sl_rows (l : list SourceRow).
Definition SourcesPage (q : Loaded (list EditedSource)) : SourceList :=
  match q with
  | load_error m => sl_error m
  | load_pending => sl_loading
  | load_data [] => sl_empty
  | load_data l => sl_rows (map source_row l)
  end.

(** * The page as a state machine *)

Inductive page_event :=
| v_set (k : SourceFormField) (v : source_ty k) | v_template (id : jsstr) | v_part (id : jsstr) (on : bool) | v_rules (ev : rules_event)
| v_submit | v_save_failed (form : SourceFormState) (err : SaveError) | v_adopt | v_adopt_failed (err : SaveError)
| v_confirm (b : bool) | v_delete | v_delete_failed (err : SaveError).
(** Controls that are not on the page or are disabled do nothing. *)
Definition page_step (templates : list SourceTemplate) (source : option EditedSource) (readOnly may_manage : bool) (s : SourceEditor)
    (ev : page_event) : SourceEditor * option SourceRequest :=
  let editable := ed_editable readOnly may_manage in
  match ev with
  | v_set k v =>
      (if editable && bool_decide (k ∈ map fv_key (page_fields templates (ed_form s))) && negb (bool_decide (k = K_template))
       then ed_set k v s else s, None)
  | v_template id => (if editable && offers_template templates (ed_form s) then ed_template templates id s else s, None)
  | v_part id on => (if editable then ed_part templates id on s else s, None)
  | v_rules ev => (if editable then ed_rules ev s else s, None)
  | v_submit => if editable then ed_submit source s else (s, None)
  | v_save_failed form err => (ed_save_failed form err s, None)
  | v_adopt => match source with Some x => if readOnly && may_manage then ed_adopt x s else (s, None) | None => (s, None) end
  | v_adopt_failed err => (ed_adopt_failed err s, None)
  | v_confirm b => (if editable then set_confirm b s else s, None)
  | v_delete => if editable && ed_confirmDelete s then ed_delete source s else (s, None)
  | v_delete_failed err => (ed_delete_failed err s, None)
  end.
Definition page_run (templates : list SourceTemplate) (source : option EditedSource) (readOnly may_manage : bool) (s : SourceEditor)
    (evs : list page_event) : SourceEditor :=
  fold_left (λ s ev, (page_step templates source readOnly may_manage s ev).1) evs s.
