(* ===== verification/SourceEditorProps.v ===== *)
(** What the source editor promises: its errors are on screen, its rules keep their
    keys, and what is saved is what it shows next. *)
From Stdlib Require Import ZArith Lia.
From stdpp Require Import base list numbers strings.
From S2P Require Import Prelude Unicode JsNumber UrlState SourceTemplates SourceForm SourceFormProps AnalysisViews FormFields.
From S2P Require Import SourceEditor SourcePanels MockLogs MockAdmin MockTargets MockAdminProps.
Open Scope nat_scope.

(** * Errors on screen *)

Section client.
Context (ts : list SourceTemplate) (f : SourceFormState).
Abbreviation on_page k := (shows k (page_fields ts f) = true).

Lemma on_page_in k a b c : page_fields ts f = a ++ b ++ c → shows k b = true → on_page k.
Proof. intros -> H. by rewrite !shows_app, H, !orb_true_r. Qed.
Lemma general_on_page k : shows k (general_fields f) = true → on_page k.
Proof. by eapply on_page_in. Qed.
Lemma parsing_on_page k : shows k (parsing_fields f) = true → on_page k.
Proof. intros H. unfold page_fields. rewrite !shows_app, H. by rewrite !orb_true_r. Qed.
Lemma access_on_page k : shows k access_fields = true → on_page k.
Proof. intros H. unfold page_fields. rewrite !shows_app, H. by rewrite !orb_true_r. Qed.
Lemma udp_on_page k : s_udp (sections_of f) = true → shows k udp_fields = true → on_page k.
Proof. intros Hs H. unfold page_fields. rewrite Hs, !shows_app, H. by rewrite !orb_true_r. Qed.
Lemma stream_on_page k : s_stream (sections_of f) = true → shows k stream_fields = true → on_page k.
Proof. intros Hs H. unfold page_fields. rewrite Hs, !shows_app, H. by rewrite !orb_true_r. Qed.
Lemma tls_on_page k : s_tls (sections_of f) = true → shows k (TlsPanel f) = true → on_page k.
Proof. intros Hs H. unfold page_fields. rewrite Hs, !shows_app, H. by rewrite !orb_true_r. Qed.
Lemma name_on_page : on_page K_name.
Proof. apply general_on_page. unfold general_fields. rewrite shows_app. by vm_compute. Qed.
Lemma address_on_page : s_network (sections_of f) = true → on_page K_address.
Proof. intros Hs. apply general_on_page. unfold general_fields. rewrite Hs, shows_app. by vm_compute. Qed.

(** Errors that all are on the page. *)
Definition visible (e : SourceErrors) : Prop :=
  e_general e = [] ∧ Forall (λ km, on_page km.1 ∧ km.2 ≠ []) (e_fields e)
  ∧ Forall (λ im, im.1 < length (f_extract f) ∧ im.2 ≠ []) (e_rules e) ∧ NoDup (e_fields e).*1 ∧ NoDup (e_rules e).*1.
Lemma visible_empty : visible emptySourceErrors.
Proof. repeat split; constructor. Qed.
Lemma visible_set e k m : visible e → on_page k → m ≠ [] → visible (setField e k m).
Proof.
  intros (Hg & Hf & Hr & Hn & Hn') Hk Hm. repeat split; try done; cbn [e_fields setField].
  - by apply assoc_set_forall.
  - by apply assoc_set_nodup.
Qed.
Lemma visible_rule e i m : visible e → i < length (f_extract f) → m ≠ [] → visible (setRule e i m).
Proof.
  intros (Hg & Hf & Hr & Hn & Hn') Hk Hm. repeat split; try done; cbn [e_rules setRule].
  - by apply assoc_set_forall.
  - by apply assoc_set_nodup.
Qed.
Lemma visible_require e ok k m : visible e → on_page k → m ≠ [] → visible (require ok k m e).
Proof. unfold require. destruct ok; [done|]. apply visible_set. Qed.

Lemma visible_on_screen conflict e : visible e →
  (∀ k m, (k, m) ∈ e_fields e → m ∈ errors_on_screen ts f conflict e) ∧ (∀ i m, (i, m) ∈ e_rules e → m ∈ errors_on_screen ts f conflict e).
Proof.
  intros (Hg & Hf & Hr & Hn & Hn'). unfold errors_on_screen. split; intros k m Hin.
  - apply elem_of_app. left. rewrite Forall_forall in Hf. destruct (Hf _ Hin) as [Hk Hm].
    apply (shows_shown k); [done| |done]. by apply assoc_get_elem.
  - apply elem_of_app. right. apply elem_of_app. left. rewrite Forall_forall in Hr. destruct (Hr _ Hin) as [Hi Hm]. cbn in Hi, Hm.
    unfold rule_errors. apply list_elem_of_bind. exists k. apply assoc_get_elem in Hin; [|done]. rewrite Hin. split.
    + destruct m; [done|]. by apply list_elem_of_singleton.
    + apply elem_of_seq. lia.
Qed.

Lemma visible_labels text e x e' : visible e → parseLabels text e = (x, e') → visible e'.
Proof.
  intros Hv. unfold parseLabels. destruct (labels_loop _ _) as [[|y out]|t]; intros [= _ <-]; [done|done|].
  apply visible_set; [done|by apply access_on_page; vm_compute|by vm_compute].
Qed.
Lemma visible_count value k e x e' : visible e → on_page k → parseCount value k e = (x, e') → visible e'.
Proof.
  intros Hv Hk. unfold parseCount. destruct (negb (truthy (trim value))); [by intros [= _ <-]|].
  destruct (_ || _); intros [= _ <-]; [|done]. apply visible_set; [done|done|by vm_compute].
Qed.
Lemma visible_tls e : s_tls (sections_of f) = true → visible e → visible (tlsConfig f e).2.
Proof.
  intros Hs Hv. unfold tlsConfig.
  destruct (f_tls_mode f) eqn:Em; cbn [snd].
  - repeat apply visible_require; try done; try (by vm_compute);
      apply tls_on_page; try done; unfold TlsPanel; rewrite Em, !shows_app; by vm_compute.
  - destruct (negb (truthy (trim (f_tls_cert f)))); [|destruct (_ && _); [|done]]; (apply visible_set; [done| |by vm_compute]);
      apply tls_on_page; try done; unfold TlsPanel; rewrite Em, !shows_app; destruct (f_tls_key_stored f); by vm_compute.
  - repeat apply visible_require; try done; try (by vm_compute);
      apply tls_on_page; try done; unfold TlsPanel; rewrite Em, !shows_app; by vm_compute.
Qed.
Lemma visible_rules_from i rules e : visible e → i + length rules = length (f_extract f) → visible (extractRules_from i rules e).2.
Proof.
  revert i e. induction rules as [|r rules IH]; intros i e Hv Hl; [done|]. cbn [extractRules_from].
  destruct (extractRule i r e) as [rule e1] eqn:E. assert (visible e1) as Hv1.
  { unfold extractRule in E. injection E as _ <-. cbn [length] in Hl.
    destruct (negb _); [apply visible_rule; [done|lia|by vm_compute]|]. destruct (captureGroupNames _); [|done].
    apply visible_rule; [done|lia|by vm_compute]. }
  specialize (IH (S i) e1 Hv1). destruct (extractRules_from (S i) rules e1) as [rs e2]. apply IH. cbn in Hl. lia.
Qed.

Lemma client_errors_visible : visible (formToConfig f).2.
Proof.
  unfold formToConfig. fold (sections_of f). set (s := sections_of f).
  set (e1 := require _ K_name _ _). assert (visible e1) as H1.
  { apply visible_require; [apply visible_empty|apply name_on_page|by vm_compute]. }
  set (e2 := require _ K_address _ e1). assert (visible e2) as H2.
  { subst e2 s. destruct (s_network (sections_of f)) eqn:E; [|done].
    apply visible_require; [done|by apply address_on_page|by vm_compute]. }
  destruct (parseLabels _ e2) as [labels e3] eqn:E3. apply visible_labels in E3 as H3; [|done].
  destruct (if s_stream s then _ else _) as [mx e4] eqn:E4. assert (visible e4) as H4.
  { destruct (s_stream s) eqn:Es; [|by injection E4 as _ <-]. apply (visible_count _ _ _ _ _ H3) in E4; [done|].
    by apply stream_on_page; [|vm_compute]. }
  destruct (if s_udp s then _ else _) as [so e5] eqn:E5. assert (visible e5) as H5.
  { destruct (s_udp s) eqn:Es; [|by injection E5 as _ <-]. apply (visible_count _ _ _ _ _ H4) in E5; [done|].
    by apply udp_on_page; [|vm_compute]. }
  destruct (if s_tls s then _ else _) as [tls e6] eqn:E6. assert (visible e6) as H6.
  { destruct (s_tls s) eqn:Es; [|by injection E6 as _ <-]. pose proof (visible_tls e5 Es H5) as Ht.
    destruct (tlsConfig f e5) as [t e]. by injection E6 as _ <-. }
  destruct (extractRules (f_extract f) e6) as [ex e7] eqn:E7. cbn [snd].
  pose proof (visible_rules_from 0 (f_extract f) e6 H6 eq_refl) as H7. unfold extractRules in E7. by rewrite E7 in H7.
Qed.
End client.


(** C30: the page does not hold a form back in silence.  A form that is not sent has an
    error, and every error the page finds in it stands at a field or a rule that is on the page as it is; a
    form without errors is sent, for the source the page shows. *)
Theorem unsent_form_explained ts source s s' req :
  ed_submit source s = (s', req) →
  let screen := errors_on_screen ts (ed_form s') (ed_conflict s') (ed_errors s') in
  match req with
  | None =>
      screen ≠ [] ∧ e_general (ed_errors s') = [] ∧ (∀ k m, (k, m) ∈ e_fields (ed_errors s') → m ∈ screen)
      ∧ (∀ i m, (i, m) ∈ e_rules (ed_errors s') → m ∈ screen)
  | Some r =>
      screen = [] ∧ ed_conflict s' = false ∧ formToConfig (ed_form s) = ((formToConfig (ed_form s)).1, emptySourceErrors)
      ∧ r = match source ≫= (λ x, ms_id (es_source x)) with
            | Some ((_ :: _) as id) => req_update id (formToConfig (ed_form s)).1 (f_enabled (ed_form s)) (source ≫= es_version)
            | _ => req_create (formToConfig (ed_form s)).1 (f_enabled (ed_form s))
            end
  end.
Proof.
  unfold ed_submit. pose proof (client_errors_visible ts (ed_form s)) as Hv.
  destruct (formToConfig (ed_form s)) as [c e] eqn:E. cbn [snd] in Hv. cbn [fst].
  destruct (hasErrors e) eqn:He; intros [= <- <-]; cbn zeta; cbn [ed_form ed_errors ed_conflict with_errors].
  - destruct (visible_on_screen ts (ed_form s) (ed_conflict s) e Hv) as [Hf Hr]. split_and!; [|by apply Hv|done|done].
    destruct Hv as (Hg & _ & _ & _). unfold hasErrors in He. rewrite Hg in He.
    destruct (e_fields e) as [|[k m] l] eqn:Ef.
    + destruct (e_rules e) as [|[i m] l] eqn:Er; [done|]. intros Hs. rewrite Hs in Hr. apply (not_elem_of_nil m), (Hr i). left.
    + intros Hs. rewrite Hs in Hf. apply (not_elem_of_nil m), (Hf k). left.
  - apply hasErrors_false in He as ->. split_and!; try done. unfold errors_on_screen. cbn. rewrite app_nil_r.
    rewrite shown_errors_nil. unfold rule_errors. cbn. by induction (seq _ _).
Qed.

(** * The rules *)

#[export] Instance rule_rows : NumberedRow ExtractRuleForm := {| row_key := rf_key; row_prefix := $"rule-" |}.
Lemma ruleForms_keys s l rules :
  keys_ok s rules → let '(fs, s') := ruleForms s l in s ≤ s' ∧ keys_ok s' (fs ++ rules).
Proof.
  revert s rules. induction l as [|r l IH]; intros s rules Hk; [done|]. cbn [ruleForms ruleForm newExtractRule].
  specialize (IH (s + 1) (rules ++ [(newExtractRule s (orEmpty (er_name r)) (orEmpty (er_contains r)) (orEmpty (er_prefix r)) (er_regex r)).1])).
  destruct (ruleForms (s + 1) l) as [fs s']. destruct IH as [Hs IH]; [by apply (keys_snoc s)|]. split; [lia|].
  eapply keys_perm; [|done]. cbn. rewrite (Permutation_app_comm rules), app_assoc, <- Permutation_cons_append. done.
Qed.

Lemma list_filter_sublist {A} (p : A → bool) l : List.filter p l `sublist_of` l.
Proof. induction l as [|x l IH]; cbn; [done|]. destruct (p x); by constructor. Qed.
Lemma keys_template s rules next previous : keys_ok s rules →
  let '(rules', s') := applyTemplateRules s rules next previous in s ≤ s' ∧ keys_ok s' rules'.
Proof.
  intros Hk. unfold applyTemplateRules. set (kept := List.filter _ rules). set (new := List.filter _ (extract_of next)).
  pose proof (ruleForms_keys s new kept) as Hr. destruct (ruleForms s new) as [added s']. apply Hr.
  apply (keys_sub _ _ rules); [apply list_filter_sublist|done].
Qed.
Lemma keys_replace i p rules : map row_key (rules_replace i p rules) = map row_key rules.
Proof. apply (keys_patch i (patch_rule p)). by destruct p. Qed.
(** Moving by one swaps neighbours. *)
Lemma move_cons i to z l : rules_move (S i) (S to) (z :: l) = z :: rules_move i to l.
Proof. done. Qed.
Lemma move_up_swaps a x y b : rules_move (S (length a)) (length a) (a ++ x :: y :: b) = a ++ y :: x :: b.
Proof. induction a as [|z a IH]; [done|]. cbn [length app]. by rewrite move_cons, IH. Qed.
Lemma move_down_swaps a x y b : rules_move (length a) (S (length a)) (a ++ x :: y :: b) = a ++ y :: x :: b.
Proof. induction a as [|z a IH]; [done|]. cbn [length app]. by rewrite move_cons, IH. Qed.
Lemma move_perm i to l : rules_move i to l ≡ₚ l.
Proof.
  unfold rules_move. set (next := take i l ++ drop (S i) l).
  rewrite app_assoc, (Permutation_app_comm (take to next)), <- app_assoc, take_drop. unfold next.
  rewrite app_assoc, (Permutation_app_comm (take 1 _)), <- app_assoc.
  replace (take 1 (drop i l) ++ drop (S i) l) with (drop i l); [by rewrite take_drop|].
  rewrite <- (take_drop 1 (drop i l)) at 1. by rewrite drop_drop, Nat.add_1_r.
Qed.

Lemma keys_step s rules ev : keys_ok s rules →
  let '(rules', s') := rules_step s rules ev in s ≤ s' ∧ keys_ok s' rules'.
Proof.
  intros Hk. destruct ev; cbn [rules_step].
  - split; [lia|]. by apply (keys_snoc s).
  - split; [lia|]. by apply (keys_snoc s).
  - split; [lia|]. destruct (i =? 0); [done|]. eapply keys_perm; [|done]. symmetry. apply move_perm.
  - split; [lia|]. destruct (i =? _); [done|]. eapply keys_perm; [|done]. symmetry. apply move_perm.
  - split; [lia|]. by apply keys_remove.
  - split; [lia|]. eapply keys_same; [|done]. symmetry. apply keys_replace.
Qed.

(** * The page *)

(** Members no field of the page edits. *)
Lemma key_not_edited k ts f : k ∈ [K_extract; K_tls_key_stored; K_template_parts] → k ∉ map fv_key (page_fields ts f).
Proof.
  intros Hk Hin. apply list_elem_of_fmap in Hin as (v & -> & Hv). revert Hv.
  assert (∀ l : list source_view, forallb (λ v, negb (bool_decide (fv_key v ∈ [K_extract; K_tls_key_stored; K_template_parts]))) l = true → v ∉ l) as Hno.
  { intros l Hl Hv. rewrite forallb_forall in Hl. specialize (Hl v (proj1 (list_elem_of_In _ _) Hv)).
    by rewrite bool_decide_true in Hl. }
  apply Hno. unfold page_fields, general_fields. rewrite !forallb_app, !andb_true_iff. split_and!.
  - by destruct (offers_template ts f); vm_compute.
  - by vm_compute.
  - by destruct (s_network _); vm_compute.
  - unfold parsing_fields. by destruct (limited_by_udp f); vm_compute.
  - by vm_compute.
  - by destruct (s_udp _); vm_compute.
  - by destruct (s_stream _); vm_compute.
  - destruct (s_tls _); [|done]. unfold TlsPanel, client_ca_fields. rewrite !forallb_app, !andb_true_iff.
    split_and!; [by vm_compute|by destruct (f_tls_mode f), (f_tls_key_stored f); vm_compute|by vm_compute|].
    by destruct (f_tls_client_auth f), (f_tls_mode f); vm_compute.
Qed.

Definition editor_inv (readOnly may : bool) (s0 s : SourceEditor) : Prop :=
  keys_ok (ed_seq s) (f_extract (ed_form s)) ∧ f_tls_key_stored (ed_form s) = f_tls_key_stored (ed_form s0)
  ∧ (ed_editable readOnly may = false → ed_form s = ed_form s0).

Lemma set_extract rules f : f_extract (form_set K_extract rules f) = rules.
Proof. exact (get_set K_extract rules f). Qed.
Lemma set_keeps_extract k v f : k ≠ K_extract → f_extract (form_set k v f) = f_extract f.
Proof. exact (get_set_ne k K_extract v f). Qed.
Lemma set_keeps_stored k v f : k ≠ K_tls_key_stored → f_tls_key_stored (form_set k v f) = f_tls_key_stored f.
Proof. exact (get_set_ne k K_tls_key_stored v f). Qed.

Lemma editor_init_ok seq source : keys_ok (ed_seq (editor_init seq source)) (f_extract (ed_form (editor_init seq source))).
Proof.
  unfold editor_init. destruct source as [x|]; [|split; constructor]. unfold configToForm.
  pose proof (ruleForms_keys seq (nullish (sc_extract (ms_config (es_source x))) []) []) as Hr.
  destruct (ruleForms _ _) as [fs s']. destruct Hr as [_ Hr]; [split; constructor|]. by rewrite app_nil_r in Hr.
Qed.
Lemma editor_step_inv ts source ro may s0 s ev :
  editor_inv ro may s0 s → editor_inv ro may s0 (page_step ts source ro may s ev).1.
Proof.
  intros (Hk & Hs & Hro). assert (editor_inv ro may s0 s) as Hsame by done.
  destruct ev; cbn [page_step fst]; try done; try (by destruct (ed_editable ro may); [|done]).
  - destruct (ed_editable ro may) eqn:Ee; [|done]. destruct (bool_decide (k ∈ _)) eqn:Ek; [|done]. apply bool_decide_eq_true in Ek.
    destruct (negb _); [|done]. assert (k ≠ K_extract ∧ k ≠ K_tls_key_stored) as [H1 H2].
    { split; intros ->; by apply (key_not_edited _ ts (ed_form s)) in Ek; [|vm_decide]. }
    unfold ed_set, with_form, editor_inv. cbn [ed_form ed_seq andb]. rewrite set_keeps_extract, set_keeps_stored by done. split_and!; [done|done|congruence].
  - destruct (ed_editable ro may) eqn:Ee; [|done]. destruct (offers_template _ _); [|done]. cbn [andb]. unfold ed_template, applyTemplate.
    pose proof (keys_template _ _ (templateById ts id) (templateById ts (f_template (ed_form s))) Hk) as Ht.
    destruct (applyTemplateRules _ _ _ _) as [rules s']. destruct Ht as [_ Ht]. split_and!; [done|done|congruence].
  - destruct (ed_editable ro may) eqn:Ee; [|done]. unfold ed_part, ed_set, with_form, editor_inv. cbn [ed_form ed_seq].
    rewrite set_keeps_extract, set_keeps_stored by done. split_and!; [done|done|congruence].
  - destruct (ed_editable ro may) eqn:Ee; [|done]. unfold ed_rules. pose proof (keys_step _ _ ev Hk) as Ht.
    destruct (rules_step _ _ ev) as [rules s']. destruct Ht as [_ Ht]. unfold editor_inv. cbn [ed_form ed_seq].
    rewrite set_extract, set_keeps_stored by done. split_and!; [done|done|congruence].
  - destruct (ed_editable ro may); [|done]. unfold ed_submit. destruct (formToConfig _) as [c e]. by destruct (hasErrors e).
  - unfold ed_save_failed. by destruct (xe_api err) as [[[|[]|] ?]|]; repeat case_match.
  - destruct source as [x|]; [|done]. by destruct (ro && may).
  - destruct (ed_editable ro may && ed_confirmDelete s); [|done]. done.
Qed.
Lemma editor_run_inv ts source ro may seq evs :
  editor_inv ro may (editor_init seq source) (page_run ts source ro may (editor_init seq source) evs).
Proof.
  set (s0 := editor_init seq source). unfold page_run. assert (editor_inv ro may s0 s0) as H0 by (split; [apply editor_init_ok|done]).
  revert H0. generalize s0 at 2 4 as s. induction evs as [|ev evs IH]; intros s Hs; [done|]. cbn [fold_left]. by apply IH, editor_step_inv.
Qed.

(** C31: the rules of a source keep their identity.  Whatever is done on the page, the
    rules have distinct keys, so that each control stays with its rule; moving a
    rule exchanges it with its neighbour; and without the right to edit, or for a
    source of the configuration file, the form stays as it was loaded. *)
Theorem editor_keeps_rules ts source ro may seq evs :
  let s0 := editor_init seq source in
  let s := page_run ts source ro may s0 evs in
  NoDup (map rf_key (f_extract (ed_form s)))
  ∧ (ed_editable ro may = false → ed_form s = ed_form s0)
  ∧ (∀ a x y b, f_extract (ed_form s) = a ++ x :: y :: b →
       f_extract (ed_form (ed_rules (re_up (S (length a))) s)) = a ++ y :: x :: b
       ∧ f_extract (ed_form (ed_rules (re_down (length a)) s)) = a ++ y :: x :: b).
Proof.
  intros s0 s. destruct (editor_run_inv ts source ro may seq evs) as ([Hn _] & _ & Hro). split_and!; [done|done|].
  intros a x y b E. unfold ed_rules. rewrite E. cbn [rules_step Nat.eqb ed_form]. rewrite Nat.sub_0_r || idtac.
  rewrite !set_extract. split.
  - cbn [Nat.sub]. rewrite Nat.sub_0_r. apply move_up_swaps.
  - destruct (Nat.eqb_spec (length a) (length (a ++ x :: y :: b) - 1)) as [Hl|_]; [rewrite length_app in Hl; cbn in Hl; lia|].
    rewrite Nat.add_1_r. apply move_down_swaps.
Qed.

(** * Saving and opening again *)

(** The source of an answer as the page reads it. *)
Definition edited_of (r : MockSource * option bool) : EditedSource :=
  MkEdited (MkManagedSource (Some (so_id r.1)) (so_config r.1) (so_enabled r.1) r.2) (Some (so_version r.1)) false (so_adopted r.1)
    None None None None.
(** The private key the server has for a source. *)
Definition held_key (s : MockSource) : jsstr := opt_trim (sc_tls (so_config s) ≫= tl_key).

Lemma stored_init seq x : f_tls_key_stored (ed_form (editor_init seq (Some x))) = nullish (ms_key_stored (es_source x)) false.
Proof. unfold editor_init, configToForm. by destruct (ruleForms _ _). Qed.
Lemma response_stored s : nullish (ms_key_stored (es_source (edited_of (sourceResponse s)))) false = truthy (held_key s).
Proof. unfold sourceResponse, held_key. by destruct (sc_tls (so_config s)). Qed.

(** The configuration read back is what was sent without the key. *)
Lemma response_config c old en ad cert acme st v id :
  so_config (sourceResponse (MkMockSource id (kept_key c old) en ad cert acme st v)).1 = stored_config c.
Proof.
  unfold sourceResponse, kept_key, stored_config. cbn [so_config]. destruct c as [? ? ? ? ? ? ? ? ? ? ? ? ? ? ? ? [t|] ? ? ?]; [|done].
  cbn [sc_tls]. by destruct (_ && _).
Qed.
Lemma key_round f labels s :
  accepted f labels → s_tls (sourceSections (f_type f) (f_protocol f)) = true → f_tls_key_stored f = truthy (held_key s) →
  (f_tls_mode f = mode_files → held_key s = []) →
  key_held f (truthy (opt_trim (sc_tls (kept_key (accepted_config f labels) (so_config s)) ≫= tl_key))).
Proof.
  intros Hacc Hs Hst Hfiles. pose proof (acc_tls _ _ Hacc Hs) as Ht. unfold kept_key, accepted_config. cbn [sc_tls]. rewrite Hs.
  unfold key_held, tls_complete, tlsConfig, held_key, opt_trim in *. set (stored := sc_tls (so_config s) ≫= tl_key) in *.
  destruct (f_tls_mode f) eqn:Em; [done| |].
  - destruct Ht as [_ Ht]. cbn [fst tl_key]. destruct (truthy (trim (f_tls_key f))) eqn:Ek.
    + unfold or_undef. rewrite Ek. cbn [nullish]. rewrite trim_idem, Ek. cbn [negb andb mbind option_bind sc_tls tl_key nullish].
      by rewrite trim_idem, Ek.
    + unfold or_undef. rewrite Ek. cbn [nullish]. destruct Ht as [Ht|Ht]; [done|]. rewrite Hst in Ht.
      destruct stored as [k|]; [|done]. cbn [nullish] in *. assert (truthy k = true) as Hk by (by destruct k). rewrite Hk. done.
  - specialize (Hfiles eq_refl). cbn [fst tl_key]. destruct stored as [k|]; [|done]. cbn [nullish] in *. cbn [negb andb].
    change (trim []) with (@nil N). destruct (truthy k); [|done]. cbn [truthy negb andb mbind option_bind sc_tls with_tls with_key tl_key nullish]. by rewrite Hfiles.
Qed.

Lemma config_form_key src ex : configForm (MkManagedSource (ms_id src) (ms_config src) (ms_enabled src) (Some (nullish (ms_key_stored src) false))) ex = configForm src ex.
Proof. by destruct src as [? ? ? [|]]. Qed.
Lemma config_to_form_key seq id c en k : (configToForm seq (MkManagedSource id c en (Some (nullish k false)))).1 = (configToForm seq (MkManagedSource id c en k)).1.
Proof. rewrite !configToForm_form. apply (config_form_key (MkManagedSource id c en k)). Qed.
Lemma init_form seq x : ed_form (editor_init seq (Some x)) = (configToForm seq (es_source x)).1.
Proof. unfold editor_init. by destruct (configToForm seq (es_source x)). Qed.
Lemma submit_clean seq x id c :
  ms_id (es_source x) = Some id → id ≠ [] → formToConfig (configToForm seq (es_source x)).1 = (c, emptySourceErrors) →
  (ed_submit (Some x) (editor_init seq (Some x))).2 = Some (req_update id c (ms_enabled (es_source x)) (es_version x)).
Proof.
  intros Hid Hne E. unfold ed_submit. rewrite init_form, E. cbn [hasErrors snd mbind option_bind]. rewrite Hid. destruct id; [done|].
  rewrite configToForm_form. done.
Qed.

(** C29: what is saved is what the page shows next.  When the server accepts a change of
    a stored source, the version it answers differs from the one on the page, so the
    editor starts afresh, and the form it then shows, sent unchanged, is the very
    configuration that was saved (without the private key, which is never sent
    back and stays stored).  Counts are not zero and below 2^52, and a source that is
    switched to files has no pasted key. *)
Theorem saved_is_shown FILES TEMPLATES ts sources s seq evs now s' sources' ed' c en v seq' :
  let x := edited_of (sourceResponse s) in
  let ed := page_run ts (Some x) false true (editor_init seq (Some x)) evs in
  find_by_id (so_id s) sources = Some s → so_id s ≠ [] →
  ed_submit (Some x) ed = (ed', Some (req_update (so_id s) c en v)) →
  source_put FILES TEMPLATES (so_id s) now (MkSourceBody c (Some en) v) sources = Ok (s', sources') →
  (∀ n, sc_max_connections c = Some n → count_small n) →
  (∀ u n, sc_udp c = Some u → ud_sockets u = Some n → count_small n) →
  (f_tls_mode (ed_form ed) = mode_files → held_key s = []) →
  let x' := edited_of (sourceResponse s') in
  find_by_id (so_id s) sources' = Some s' ∧ es_version x' ≠ es_version x
  ∧ (ed_submit (Some x') (editor_init seq' (Some x'))).2 = Some (req_update (so_id s) (stored_config c) en (es_version x')).
Proof.
  intros x ed Hfind Hne Hsub Hput Hmx Hso Hfiles x'.
  assert (so_id (sourceResponse s).1 = so_id s) as Hid by (unfold sourceResponse; by destruct (sc_tls _)).
  assert (so_version (sourceResponse s).1 = so_version s) as Hver by (unfold sourceResponse; by destruct (sc_tls _)).
  destruct (editor_run_inv ts (Some x) false true seq evs) as (_ & Hst & _). fold ed in Hst. rewrite stored_init in Hst. unfold x in Hst.
  rewrite response_stored in Hst. unfold ed_submit in Hsub. destruct (formToConfig (ed_form ed)) as [c0 e] eqn:E.
  destruct (hasErrors e) eqn:He; [done|]. cbn [x edited_of es_source ms_id mbind option_bind es_version] in Hsub. rewrite Hid, Hver in Hsub.
  destruct (so_id s) as [|i0 ids] eqn:Ei; [done|]. injection Hsub as _ -> <- <-.
  destruct (formToConfig_accepted _ _ _ E He) as (_ & labels & Hacc & -> & _).
  unfold source_put in Hput. rewrite Hfind in Hput. cbn [bd_version bd_config bd_enabled nullish] in Hput. rewrite bool_decide_true in Hput by done.
  cbn [negb] in Hput. destruct (sourceValidationError _ _ _ _ _); [done|]. injection Hput as <- <-.
  set (s' := MkMockSource _ _ _ _ _ _ _ _) in *.
  split_and!.
  - rewrite Ei. apply find_replaced; [done|]. by eexists.
  - unfold x', x. cbn [es_version edited_of]. rewrite Hver. unfold sourceResponse. destruct (sc_tls _); cbn; intros [=]; lia.
  - assert (ms_id (es_source x') = Some (i0 :: ids)) as Hx by (unfold x', sourceResponse, s'; destruct (sc_tls _); cbn; by rewrite Ei).
    rewrite (submit_clean seq' x' (i0 :: ids) (stored_config (accepted_config (ed_form ed) labels))); [|done|done|].
    + f_equal. f_equal. unfold x', sourceResponse, s'. by destruct (sc_tls _).
    + cbn [x' edited_of es_source]. unfold s' at 2. rewrite response_config.
      rewrite <- (config_to_form_key seq' _ _ _ (sourceResponse s').2).
      assert (so_enabled (sourceResponse s').1 = f_enabled (ed_form ed)) as -> by (unfold sourceResponse, s'; by destruct (sc_tls _)).
      apply save_stable; [done|done|done|]. intros Hs. pose proof (key_round (ed_form ed) labels s Hacc Hs Hst Hfiles) as Hk.
      unfold sourceResponse. cbn [so_config s']. destruct (sc_tls (kept_key _ _)); done.
Qed.

(** A stored source with a pasted certificate, and one without TLS. *)
Definition demo_source (tls : option SourceTLSConfig) : MockSource :=
  MkMockSource $"s1"
    (MkSourceConfig $"edge" ty_syslog (Some (match tls with Some _ => pr_tls | None => pr_tcp end)) (Some $":6514") None None None None None None None None None
       None None None tls None None None) true false None None None 3.
Definition demo_pasted : MockSource :=
  demo_source (Some (MkTls None None (Some $"-----BEGIN CERTIFICATE-----") (Some $"secret") None None None None None)).

Lemma saved_is_shown_witness :
  let s := demo_source None in
  let x := edited_of (sourceResponse s) in
  ∃ s' c, source_put [] [] $"s1" 0 (MkSourceBody c (Some true) (Some 3%Z)) [s] = Ok (s', [s'])
  ∧ sc_name c = $"edge2"
  ∧ (ed_submit (Some (edited_of (sourceResponse s'))) (editor_init 7 (Some (edited_of (sourceResponse s'))))).2
    = Some (req_update $"s1" (stored_config c) true (Some 4%Z)).
Proof.
  intros s x.
  set (evs := [v_set K_name $"edge2"; v_rules re_add; v_rules (re_remove 0)]).
  set (ed := page_run [] (Some x) false true (editor_init 0 (Some x)) evs).
  set (c := (formToConfig (ed_form ed)).1).
  destruct (source_put [] [] $"s1" 0 (MkSourceBody c (Some true) (Some 3%Z)) [s]) as [[s' l]|] eqn:E; [|by vm_compute in E].
  assert (l = [s'] ∧ sc_name c = $"edge2" ∧ so_version (sourceResponse s').1 = 4%Z) as (-> & Hn & Hv)
    by (vm_compute in E; injection E as <- <-; vm_compute; done).
  exists s', c. split_and!; [done|done|].
  pose proof (saved_is_shown [] [] [] [s] s 0 evs 0 s' [s'] (with_errors emptySourceErrors false ed) c true (Some 3%Z) 7) as H.
  cbn zeta in H. fold x ed in H. rewrite <- Hv. refine (proj2 (proj2 (H _ _ _ E _ _ _))).
  - vm_compute. reflexivity.
  - vm_compute. discriminate.
  - vm_compute. reflexivity.
  - intros n Hm. vm_compute in Hm. discriminate.
  - intros u n Hm. vm_compute in Hm. discriminate.
  - intros Hm. vm_compute in Hm. discriminate.
Defined.

(** ** What goes wrong *)

(** A source that is switched from a pasted certificate to files keeps its pasted key,
    and a stored key makes the page read it as pasted again: it opens without a
    certificate and cannot be saved. *)
Theorem files_reopen_as_paste :
  let x := edited_of (sourceResponse demo_pasted) in
  let ed := page_run [] (Some x) false true (editor_init 0 (Some x))
              [v_set K_tls_mode mode_files; v_set K_tls_cert_file $"/tls/a.crt"; v_set K_tls_key_file $"/tls/a.key"] in
  let c := (formToConfig (ed_form ed)).1 in
  (ed_submit (Some x) ed).2 = Some (req_update $"s1" c true (Some 3%Z))
  ∧ match source_put [] [] $"s1" 0 (MkSourceBody c (Some true) (Some 3%Z)) [demo_pasted] with
    | Ok (s', _) =>
        let ed2 := editor_init 0 (Some (edited_of (sourceResponse s'))) in
        f_tls_mode (ed_form ed2) = mode_paste ∧ f_tls_cert (ed_form ed2) = [] ∧ (ed_submit (Some (edited_of (sourceResponse s'))) ed2).2 = None
    | Err _ => False
    end.
Proof. cbn zeta. split; [vm_compute; reflexivity|vm_compute; split_and!; reflexivity]. Qed.

(** The error of a path the server cannot read is given to the certificate field,
    which is not on the page while files are chosen: nothing is shown at all. *)
Theorem path_error_hidden m :
  let f := form_set K_protocol pr_tls (form_set K_tls_mode mode_files DEFAULT_SOURCE_FORM) in
  errors_on_screen [] f false
    (sourceProblemErrors (Some (MkSourceProblem None (Some [MkEntry (Some $"/config/tls/cert") (Some m)]))) $"failed" []) = [].
Proof. vm_compute. by destruct m. Qed.

(** The errors of the rules are kept by position: after a rule is moved its error
    stands at the rule that took its place. *)
Theorem rule_error_stays :
  let s := page_run [] None false true (editor_init 0 None)
             [v_rules re_add; v_rules (re_edit 0 (pa_regex $"(?P<a>x)")); v_rules re_add; v_submit; v_rules (re_up 1)] in
  map (λ r, (rc_chips r, rc_error r)) (rule_cards (f_extract (ed_form s)) (ed_errors s))
  = [(chips_hidden, None); (chips_produces [$"a"], Some $"A pattern is required.")].
Proof. vm_compute. reflexivity. Qed.

(** * The guide *)

Lemma number_runs_steps n runs :
  map gs_number (number_runs n runs ≫= group_steps) = seq (S n) (step_count (number_runs n runs))
  ∧ step_count (number_runs n runs) = sum_list (map (λ r, length r.2) runs).
Proof.
  assert (∀ gs a, fold_left (λ n g, n + length (sg_steps g)) gs a = a + step_count gs) as Hc.
  { intros gs. induction gs as [|g gs IH]; intros a; [cbn; lia|]. unfold step_count. cbn [fold_left]. rewrite !IH. lia. }
  revert n. induction runs as [|[[key part] steps] runs IH]; intros n; [done|]. cbn [number_runs]. destruct (IH (n + length steps)) as [IH1 IH2].
  assert (step_count (MkStepGroup key part steps n :: number_runs (n + length steps) runs) = length steps + step_count (number_runs (n + length steps) runs)) as Hl
    by (unfold step_count at 1; cbn [fold_left sg_steps]; by rewrite Hc).
  rewrite Hl. split; [|cbn; lia].
  change (mbind group_steps (MkStepGroup key part steps n :: number_runs (n + length steps) runs))
    with (group_steps (MkStepGroup key part steps n) ++ (number_runs (n + length steps) runs ≫= group_steps)).
  rewrite map_app, IH1, seq_app. f_equal. unfold group_steps. cbn [sg_start sg_part sg_steps sg_key].
  apply list_eq. intros i. rewrite list_lookup_fmap, list_lookup_imap. destruct (steps !! i) as [s|] eqn:E.
  - cbn. apply lookup_lt_Some in E. rewrite lookup_seq_lt by done. f_equal. lia.
  - cbn. apply lookup_ge_None in E. by rewrite lookup_seq_ge.
Qed.

(** The steps of the guide are numbered from one, as many as its button says. *)
Theorem guide_numbered t parts :
  map gs_number (guide_steps t parts) = seq 1 (step_count (templateSteps t parts)).
Proof. apply number_runs_steps. Qed.

Lemma unsent_form_explained_witness :
  let s := page_run [] None false true (editor_init 0 None) [v_set K_address []; v_rules re_add] in
  let s' := (ed_submit None s).1 in
  errors_on_screen [] (ed_form s') (ed_conflict s') (ed_errors s') ≠ [].
Proof.
  intros s s'. assert (ed_submit None s = (s', None)) as E by (vm_compute; reflexivity).
  exact (proj1 (unsent_form_explained [] None s s' None E)).
Defined.
