(* ===== verification/ForwardPage.v ===== *)
(** The forwarding page (src/frontend/src/features/forwarding/ForwardingPage.tsx) and
    its dialog (ForwardTargetDialog.tsx): the fields of the dialog, its handlers and
    requests, the list with the controls of each row, and the state of the page. *)
From Stdlib Require Import ZArith Lia.
From stdpp Require Import base list numbers strings.
From S2P Require Import Prelude Unicode JsNumber Severity TimeRange Format HostHistory SourceForm ForwardForm FormFields SourceEditor MockTargets.
Open Scope nat_scope.

(** * The form by key *)

(** [ForwardFormState\[K\]] *)
Definition forward_ty (k : ForwardFormField) : Type :=
  match k with
  | W_min_severity => option Severity | W_compression => ForwardCompression | W_token_stored | W_remove_token => bool | _ => jsstr
  end.
Definition forward_get (k : ForwardFormField) (f : ForwardFormState) : forward_ty k :=
  match k return forward_ty k with
  | W_name => w_name f | W_url => w_url f | W_sources => w_sources f | W_min_severity => w_min_severity f
  | W_compression => w_compression f | W_token => w_token f | W_token_stored => w_token_stored f
  | W_remove_token => w_remove_token f | W_write_timeout => w_write_timeout f | W_basic_username => w_basic_username f
  | W_basic_password_file => w_basic_password_file f | W_bearer_token_file => w_bearer_token_file f
  | W_queue_max_messages => w_queue_max_messages f | W_queue_max_bytes => w_queue_max_bytes f
  | W_batch_max_rows => w_batch_max_rows f | W_batch_max_bytes => w_batch_max_bytes f | W_batch_max_wait => w_batch_max_wait f
  | W_retry_initial_backoff => w_retry_initial_backoff f | W_retry_max_backoff => w_retry_max_backoff f
  end.
Definition forward_of (g : ∀ k, forward_ty k) : ForwardFormState := {|
  w_name := g W_name; w_url := g W_url; w_sources := g W_sources; w_min_severity := g W_min_severity;
  w_compression := g W_compression; w_token := g W_token; w_token_stored := g W_token_stored;
  w_remove_token := g W_remove_token; w_write_timeout := g W_write_timeout; w_basic_username := g W_basic_username;
  w_basic_password_file := g W_basic_password_file; w_bearer_token_file := g W_bearer_token_file;
  w_queue_max_messages := g W_queue_max_messages; w_queue_max_bytes := g W_queue_max_bytes;
  w_batch_max_rows := g W_batch_max_rows; w_batch_max_bytes := g W_batch_max_bytes; w_batch_max_wait := g W_batch_max_wait;
  w_retry_initial_backoff := g W_retry_initial_backoff; w_retry_max_backoff := g W_retry_max_backoff |}.
#[export] Instance forward_keyed : KeyedForm ForwardFormField ForwardFormState :=
  {| form_ty := forward_ty; form_get := forward_get; form_of := forward_of |}.
#[export] Instance forward_keyed_laws : KeyedFormLaws ForwardFormField ForwardFormState.
Proof.
  constructor; cbn [form_ty form_get form_of forward_keyed].
  - intros g k. by destruct k.
  - by intros [].
  - intros g h E. unfold forward_of. by rewrite !E.
Qed.

(** * The dialog *)

(** What the page reads of a target. *)
Record TargetCounters := MkCounters {
  tc_healthy : bool; tc_sent : Number; tc_queued : Number; tc_dropped : Number; tc_last_success : option jsstr; tc_last_error : option jsstr
}.
Record ListedTarget := MkListed {
  lt_id : option jsstr; lt_config : ForwardTargetConfig; lt_enabled : bool; lt_counters : option TargetCounters;
  lt_token_stored : option bool; lt_file : bool; lt_version : option Z
}.
Definition managed_of (t : ListedTarget) : ManagedForwardTarget :=
  MkForwardTarget (lt_config t) (lt_enabled t)
    (match lt_counters t with Some c => Some (MkForwardStatus (tc_healthy c) (tc_dropped c)) | None => None end) (lt_token_stored t).

Record ForwardDialog := MkDialog { fd_form : ForwardFormState; fd_errors : ForwardErrors; fd_conflict : bool }.
Definition dialog_init (target : option ListedTarget) : ForwardDialog :=
  MkDialog (match target with Some t => configToForwardForm (managed_of t) | None => DEFAULT_FORWARD_FORM end) emptyForwardErrors false.
Definition fd_set (k : ForwardFormField) (v : forward_ty k) (d : ForwardDialog) : ForwardDialog :=
  MkDialog (form_set k v (fd_form d)) (fd_errors d) (fd_conflict d).

(** The names to tick: those of the sources, then those of the target that are
    gone. [known] is empty without the list of sources. *)
Definition selected (f : ForwardFormState) : list jsstr := forwardSourceNames (w_sources f).
Definition source_options (known : list jsstr) (f : ForwardFormState) : list jsstr := dedup (known ++ selected f).
Definition toggleSource (name : jsstr) (on : bool) (d : ForwardDialog) : ForwardDialog :=
  let now := selected (fd_form d) in
  let next := if on then now ++ [name] else List.filter (λ n, negb (bool_decide (n = name))) now in
  fd_set W_sources (join [LF] next) d.
(** Ticking the removal of the stored token empties the field of a new one. *)
Definition remove_token (on : bool) (d : ForwardDialog) : ForwardDialog :=
  let d := fd_set W_remove_token on d in if on then fd_set W_token [] d else d.

Abbreviation forward_view := (FieldView ForwardFormField forward_ty).
Definition wfld (id label hint : jsstr) (k : ForwardFormField) (w : Widget (forward_ty k)) : forward_view :=
  MkFieldView id label hint k [k] w.

Definition SEVERITY_OPTIONS : list (jsstr * option Severity) :=
  ($"every severity", None) :: map (λ s, (severity_name s ++ $" and above", Some s)) SEVERITIES.
Definition COMPRESSION_OPTIONS : list (jsstr * ForwardCompression) := [($"none", cp_none); ($"gzip", cp_gzip); ($"zstd", cp_zstd)].

(** The boxes and the typed list of sources have the same key and their own hints. *)
Definition sources_field (options : list jsstr) : forward_view :=
  match options with
  | [] => wfld $"fwd-sources" $"Sources to forward" $"One name per line. Empty forwards every source." W_sources (w_textarea 2 [])
  | _ => wfld [] $"Sources to forward" $"Tick none to forward every source, including future ones." W_sources (w_boxes options)
  end.
Definition token_field (stored : bool) : forward_view :=
  wfld $"fwd-token" $"Bearer token (optional)"
    (if stored then $"A token is stored for this target. Leave this empty to keep it, or type a new one to replace it."
     else $"Sent as an Authorization header. Stored write-only: it is used but never shown again, not even here.")
    W_token (w_input (if stored then $"Stored — leave empty to keep it" else [])).
Definition main_fields (known : list jsstr) (f : ForwardFormState) : list forward_view :=
  [wfld $"fwd-name" $"Name" $"Identifies the target in metrics and in the list." W_name (w_input []);
   wfld $"fwd-url" $"Address" $"The remote VictoriaLogs instance." W_url (w_input $"http://vlogs-dr.example.com:9428");
   sources_field (source_options known f);
   wfld $"fwd-severity" $"Minimum severity" $"Logs less severe than this are not copied." W_min_severity (w_select SEVERITY_OPTIONS);
   wfld $"fwd-compression" $"Compression" $"Applied to each batch before it is sent." W_compression (w_select COMPRESSION_OPTIONS);
   token_field (w_token_stored f)]
  ++ (if w_token_stored f
      then [MkFieldView [] $"Remove the stored token and send no authorization" [] W_remove_token [] w_checkbox] else []).

(** [FORWARD_DEFAULT_HINTS] *)
Definition FORWARD_DEFAULT_HINTS (k : ForwardFormField) : jsstr :=
  match k with
  | W_write_timeout => $"30s" | W_queue_max_messages => $"200000" | W_queue_max_bytes => $"128MiB" | W_batch_max_rows => $"10000"
  | W_batch_max_bytes => $"8MiB" | W_batch_max_wait => $"1s" | W_retry_initial_backoff => $"1s" | W_retry_max_backoff => $"30s"
  | _ => []
  end.
(** The fields of the disclosure. *)
Definition Advanced : list forward_view :=
  [wfld $"fwd-queue-messages" $"Max messages" $"Copies held while the remote is unreachable; past this they are dropped."
     W_queue_max_messages (w_input (FORWARD_DEFAULT_HINTS W_queue_max_messages));
   wfld $"fwd-queue-bytes" $"Max size" [] W_queue_max_bytes (w_input (FORWARD_DEFAULT_HINTS W_queue_max_bytes));
   wfld $"fwd-batch-rows" $"Max rows" [] W_batch_max_rows (w_input (FORWARD_DEFAULT_HINTS W_batch_max_rows));
   wfld $"fwd-batch-bytes" $"Max size" [] W_batch_max_bytes (w_input (FORWARD_DEFAULT_HINTS W_batch_max_bytes));
   wfld $"fwd-batch-wait" $"Max wait" $"How long a partial batch waits." W_batch_max_wait (w_input (FORWARD_DEFAULT_HINTS W_batch_max_wait));
   wfld $"fwd-retry-first" $"First backoff" [] W_retry_initial_backoff (w_input (FORWARD_DEFAULT_HINTS W_retry_initial_backoff));
   wfld $"fwd-retry-max" $"Max backoff" [] W_retry_max_backoff (w_input (FORWARD_DEFAULT_HINTS W_retry_max_backoff));
   wfld $"fwd-write-timeout" $"Write timeout" [] W_write_timeout (w_input (FORWARD_DEFAULT_HINTS W_write_timeout));
   wfld $"fwd-basic-user" $"Basic username" $"For a remote behind HTTP basic auth." W_basic_username (w_input []);
   wfld $"fwd-basic-pass" $"Password file" $"Path on the Syslogc host." W_basic_password_file (w_input $"/etc/syslogc/forward/dr.pass");
   wfld $"fwd-token-file" $"Bearer token file" $"An alternative to the token above." W_bearer_token_file
     (w_input $"/etc/syslogc/forward/dr.token")].
(** [opened] tells whether the disclosure is open, which the browser keeps. *)
Definition dialog_fields (opened : bool) (known : list jsstr) (f : ForwardFormState) : list forward_view :=
  main_fields known f ++ (if opened then Advanced else []).
Definition dialog_errors (opened : bool) (known : list jsstr) (d : ForwardDialog) : list jsstr :=
  shown_errors (we_fields (fd_errors d)) (dialog_fields opened known (fd_form d))
  ++ (if fd_conflict d then [] else we_general (fd_errors d)).

(** The requests of the page. *)
Inductive ForwardRequest :=
| fr_update (id : jsstr) (body : TargetBody)
| fr_create (body : TargetBody)
| fr_delete (id : jsstr).

Definition fd_submit (target : option ListedTarget) (d : ForwardDialog) : ForwardDialog * option ForwardRequest :=
  let '(input, e) := formToForwardInput (fd_form d) in
  if hasForwardErrors e then (MkDialog (fd_form d) e (fd_conflict d), None)
  else
    (MkDialog (fd_form d) emptyForwardErrors false,
     Some (match target with
           | Some t =>
               match lt_id t with
               | Some ((_ :: _) as id) =>
                   fr_update id (MkTargetBody (in_config input) (in_token input) (Some (lt_enabled t)) (lt_version t))
               | _ => fr_create (MkTargetBody (in_config input) (in_token input) None None)
               end
           | None => fr_create (MkTargetBody (in_config input) (in_token input) None None)
           end)).
Definition fd_failed (err : SaveError) (d : ForwardDialog) : ForwardDialog :=
  match xe_api err with
  | Some (409%Z, _) => MkDialog (fd_form d) (fd_errors d) true
  | Some (_, p) => MkDialog (fd_form d) (forwardProblemErrors p (xe_string err)) (fd_conflict d)
  | None => MkDialog (fd_form d) (forwardProblemErrors None (xe_string err)) (fd_conflict d)
  end.
(** Its title and the sentence under it. *)
Definition dialog_title (target : option ListedTarget) : jsstr * option jsstr :=
  match target with
  | Some t => ($"Edit " ++ fc_name (lt_config t), None)
  | None => ($"Add forward target",
             Some $"A new target is created switched off. Nothing is copied until you turn it on in the list.")
  end.

(** What can be done in the dialog; a disabled control does nothing, and a name typed
    has at most 128 characters. *)
Inductive dialog_event :=
| de_set (k : ForwardFormField) (v : forward_ty k)
| de_toggle (name : jsstr) (on : bool)
| de_remove_token (on : bool).
Definition dialog_step (known : list jsstr) (d : ForwardDialog) (ev : dialog_event) : ForwardDialog :=
  match ev with
  | de_set k v =>
      match k return forward_ty k → ForwardDialog with
      | W_token_stored | W_remove_token => λ _, d
      | W_sources => λ v, match source_options known (fd_form d) with [] => fd_set W_sources v d | _ => d end
      | W_name => λ v, if length v <=? 128 then fd_set W_name v d else d
      | W_token => λ v, if w_remove_token (fd_form d) then d else fd_set W_token v d
      | k => λ v, fd_set k v d
      end v
  | de_toggle name on => if bool_decide (name ∈ source_options known (fd_form d)) then toggleSource name on d else d
  | de_remove_token on => if w_token_stored (fd_form d) then remove_token on d else d
  end.

(** * The list *)

Section rows.
Context `{Locale} `{TimeZones}.

Definition FILE_ORIGIN_HELP : jsstr :=
  $"Defined under forwarding.targets in the configuration file; edit the file and restart to change it.".

(** The controls of a row. *)
Inductive RowAction := act_stop | act_start | act_edit | act_delete.
#[export] Instance RowAction_eq_dec : EqDecision RowAction.
Proof. solve_decision. Defined.
Definition row_editable (manage : bool) (t : ListedTarget) : bool := manage && negb (lt_file t) && truthy_opt (lt_id t).
Definition row_actions (manage : bool) (t : ListedTarget) : list RowAction :=
  if row_editable manage t then [if lt_enabled t then act_stop else act_start; act_edit; act_delete] else [].

(** The second line of a row, for a target that has something to say. *)
Record RowNotes := MkRowNotes { rn_error : option (jsstr * jsstr); rn_notes : list jsstr; rn_last_write : option jsstr }.
Record TargetRowView := MkTargetRow {
  tr_name : jsstr; tr_url : jsstr; tr_origin : jsstr * option jsstr; tr_state : Tone * jsstr; tr_sent : jsstr;
  tr_queued : jsstr * bool; tr_dropped : jsstr * bool; tr_filters : list jsstr; tr_actions : list RowAction; tr_notes : option RowNotes
}.
Definition count (n : option Number) : jsstr := match n with None => $"—" | Some n => formatExact (Some n) end.
Definition last_write (now : Z) (tz : jsstr) (at_ : option jsstr) : jsstr :=
  match secondsSince at_ now with
  | None => $"Nothing has ever been written to this target successfully."
  | Some age =>
      $"Last successful write " ++ formatDuration (Some age) ++ $" ago ("
      ++ formatTimestamp (match at_ with Some s => Some (TsString s) | None => None end) tz $"yyyy-MM-dd HH:mm" ++ $")."
  end.
Definition row_notes (now : Z) (tz : jsstr) (t : ListedTarget) : option RowNotes :=
  let health := forwardHealth (managed_of t) in
  match fh_notes health with
  | [] => None
  | notes =>
      Some (MkRowNotes
        (match lt_counters t ≫= tc_last_error with
         | Some ((_ :: _) as m) => if decide (fh_state health = fwd_failing) then Some (truncateError (Some m) 110, m) else None
         | _ => None
         end) notes
        (if fh_attention health then Some (last_write now tz (lt_counters t ≫= tc_last_success)) else None))
  end.
Definition TargetRow (manage : bool) (tz : jsstr) (now : Z) (t : ListedTarget) : TargetRowView :=
  let c := lt_config t in
  let health := forwardHealth (managed_of t) in
  let s := lt_counters t in
  {| tr_name := fc_name c; tr_url := fc_url c;
     tr_origin := if lt_file t then ($"config file", Some FILE_ORIGIN_HELP) else ($"database", None);
     tr_state := (fh_tone health, fh_label health);
     tr_sent := count (tc_sent <$> s);
     tr_queued := (count (tc_queued <$> s), match s with Some s => negb (tc_healthy s) && nlt (num 0) (tc_queued s) | None => false end);
     tr_dropped := (count (tc_dropped <$> s),
                    match s with Some s => negb (neq (tc_dropped s) (num 0)) && negb (isNaN (tc_dropped s)) | None => false end);
     tr_filters := forwardFilterLabels (nullish (fc_min_severity c) None) (fc_sources c);
     tr_actions := row_actions manage t; tr_notes := row_notes now tz t |}.

Inductive TargetList := tl_error (m : jsstr) | tl_loading | tl_empty | tl_rows (rows : list TargetRowView).
(** The targets stay when a later request for them fails. *)
Definition target_list (manage : bool) (tz : jsstr) (now : Z) (failed : option jsstr) (loading : bool) (targets : list ListedTarget) : TargetList :=
  match failed with
  | Some m => tl_error m
  | None =>
      if loading then tl_loading
      else match targets with [] => tl_empty | l => tl_rows (map (TargetRow manage tz now) l) end
  end.
End rows.

(** * The page *)

Inductive ConfirmAction := confirm_enable | confirm_delete.
#[export] Instance ConfirmAction_eq_dec : EqDecision ConfirmAction.
Proof. solve_decision. Defined.

(** [editing] with the state of the open dialog, and the requests under way: of the
    dialog, and the page's own changes and deletions. *)
Record ForwardPage := MkForwardPage {
  fp_editing : option (option ListedTarget * ForwardDialog); fp_saving : bool;
  fp_confirm : option (ListedTarget * ConfirmAction); fp_updating : bool; fp_removing : bool; fp_banner : option jsstr
}.
Definition page_init : ForwardPage := MkForwardPage None false None false false None.
Definition with_editing (e : option (option ListedTarget * ForwardDialog)) (saving : bool) (p : ForwardPage) : ForwardPage :=
  MkForwardPage e saving (fp_confirm p) (fp_updating p) (fp_removing p) (fp_banner p).
Definition with_confirm (c : option (ListedTarget * ConfirmAction)) (updating removing : bool) (banner : option jsstr) (p : ForwardPage) :
    ForwardPage :=
  MkForwardPage (fp_editing p) (fp_saving p) c updating removing banner.
Definition setConfirm (c : option (ListedTarget * ConfirmAction)) (p : ForwardPage) : ForwardPage :=
  with_confirm c (fp_updating p) (fp_removing p) (fp_banner p) p.

(** The key of the dialog; a dialog with the same key keeps its state. *)
Definition dialog_key (target : option ListedTarget) : option (option jsstr * option Z) :=
  match target with Some t => Some (lt_id t, lt_version t) | None => None end.
Definition setEditing (target : option ListedTarget) (p : ForwardPage) : ForwardPage :=
  match fp_editing p with
  | Some (t, d) =>
      if decide (dialog_key t = dialog_key target) then with_editing (Some (target, d)) (fp_saving p) p
      else with_editing (Some (target, dialog_init target)) false p
  | None => with_editing (Some (target, dialog_init target)) false p
  end.

(** The token is left out, which keeps the stored one. *)
Definition setEnabled (t : ListedTarget) (enabled : bool) (p : ForwardPage) : ForwardPage * option ForwardRequest :=
  match lt_id t with
  | Some ((_ :: _) as id) =>
      (with_confirm (fp_confirm p) true (fp_removing p) None p,
       Some (fr_update id (MkTargetBody (lt_config t) None (Some enabled) (lt_version t))))
  | _ => (p, None)
  end.
(** The button of the question. *)
Definition confirm_button (p : ForwardPage) : ForwardPage * option ForwardRequest :=
  match fp_confirm p with
  | None => (p, None)
  | Some (t, confirm_enable) => setEnabled t true p
  | Some (t, confirm_delete) =>
      match lt_id t with
      | Some ((_ :: _) as id) => (with_confirm (fp_confirm p) (fp_updating p) true None p, Some (fr_delete id))
      | _ => (with_confirm (fp_confirm p) (fp_updating p) (fp_removing p) None p, None)
      end
  end.
(** [onSuccess] and [onError]: the question is closed, an error is shown. *)
Definition answered (err : option SaveError) (p : ForwardPage) : option jsstr :=
  match err with Some e => Some (xe_message e) | None => fp_banner p end.
(** The question: its title, its text and its button. *)
Definition question (c : ListedTarget * ConfirmAction) : jsstr * jsstr * jsstr :=
  match c with
  | (t, confirm_enable) =>
      ($"Start forwarding to " ++ fc_name (lt_config t), forwardEnableConsequence (lt_config t), $"Start forwarding")
  | (t, confirm_delete) =>
      ($"Delete target",
       $"“" ++ fc_name (lt_config t) ++ $"” stops receiving copies immediately. Logs stored here are kept, and copies already sent to the remote stay there.",
       $"Delete")
  end.

Inductive forward_event :=
| fe_add
| fe_row (a : RowAction) (row : nat)
| fe_cancel
| fe_confirm
| fe_updated (err : option SaveError)
| fe_removed (err : option SaveError)
| fe_dialog (ev : dialog_event)
| fe_submit
| fe_saved (err : option SaveError)
| fe_close.

(** The button of a row. *)
Definition row_click (a : RowAction) (t : ListedTarget) (p : ForwardPage) : ForwardPage * option ForwardRequest :=
  match a with
  | act_stop => if fp_updating p then (p, None) else setEnabled t false p
  | act_start => (if fp_updating p then p else setConfirm (Some (t, confirm_enable)) p, None)
  | act_edit => (setEditing (Some t) p, None)
  | act_delete => (setConfirm (Some (t, confirm_delete)) p, None)
  end.
Definition dialog_submit (p : ForwardPage) : ForwardPage * option ForwardRequest :=
  match fp_editing p with
  | Some (t, d) =>
      if fp_saving p then (p, None)
      else let '(d', r) := fd_submit t d in (with_editing (Some (t, d')) (match r with Some _ => true | None => false end) p, r)
  | None => (p, None)
  end.
(** One event, for the rights, the names of the sources and the list on screen; what
    is not offered does nothing.  An answer to a dialog that was closed is not heard. *)
Definition forward_step (manage : bool) (known : list jsstr) (listed : list ListedTarget) (p : ForwardPage) (ev : forward_event) :
    ForwardPage * option ForwardRequest :=
  match ev with
  | fe_add => (if manage then setEditing None p else p, None)
  | fe_row a i =>
      match listed !! i with
      | Some t => if bool_decide (a ∈ row_actions manage t) then row_click a t p else (p, None)
      | None => (p, None)
      end
  | fe_cancel => (setConfirm None p, None)
  | fe_confirm => if fp_updating p || fp_removing p then (p, None) else confirm_button p
  | fe_updated err => (if fp_updating p then with_confirm None false (fp_removing p) (answered err p) p else p, None)
  | fe_removed err => (if fp_removing p then with_confirm None (fp_updating p) false (answered err p) p else p, None)
  | fe_dialog e =>
      (match fp_editing p with Some (t, d) => with_editing (Some (t, dialog_step known d e)) (fp_saving p) p | None => p end, None)
  | fe_submit => dialog_submit p
  | fe_saved err =>
      (if fp_saving p then
         with_editing (match err, fp_editing p with Some e, Some (t, d) => Some (t, fd_failed e d) | _, _ => None end) false p
       else p, None)
  | fe_close => (with_editing None false p, None)
  end.

(** The whole page; the question is asked over it. *)
Record ForwardView := MkForwardView {
  pv_add : bool; pv_attention : option jsstr; pv_banner : option jsstr; pv_list : TargetList; pv_question : option (jsstr * jsstr * jsstr)
}.
Definition ForwardingPage `{Locale} `{TimeZones} (manage : bool) (tz : jsstr) (now : Z) (failed : option jsstr) (loading : bool)
    (targets : list ListedTarget) (p : ForwardPage) : ForwardView :=
  MkForwardView manage (forwardAttentionSummary (map managed_of targets))
    (match fp_banner p with Some ((_ :: _) as m) => Some m | _ => None end)
    (target_list manage tz now failed loading targets) (question <$> fp_confirm p).
