(* ===== verification/ForwardPageProps.v ===== *)
(** What the forwarding page promises: its errors are on screen, the boxes change the
    names they say, and a target is started, stopped or deleted only by the control
    that says so, whatever other people do at the server meanwhile. *)
From Stdlib Require Import ZArith Lia.
From stdpp Require Import base list numbers strings sets.
From S2P Require Import Prelude Unicode JsNumber JsDate Severity SourceForm SourceFormProps ForwardForm ForwardProps FormFields SourceEditor.
From S2P Require Import ForwardPage MockLogs MockAdmin MockTargets MockAdminProps MockTargetProps.
Open Scope nat_scope.

(** * Errors on screen *)

(** The keys that have a field with errors. *)
Definition has_field (k : ForwardFormField) : bool := match k with W_token_stored | W_remove_token => false | _ => true end.
Lemma has_field_shown known f k : has_field k = true → shows k (dialog_fields true known f) = true.
Proof.
  intros Hk. unfold dialog_fields, main_fields. rewrite !shows_app.
  destruct k; try done; cbn [shows existsb]; unfold sources_field, token_field; destruct (source_options known f);
    try destruct (w_token_stored f); vm_compute; reflexivity.
Qed.

Definition placed (e : ForwardErrors) : Prop := NoDup (we_fields e).*1 ∧ Forall (λ km, has_field km.1 = true) (we_fields e).
Lemma placed_empty : placed emptyForwardErrors.
Proof. split; constructor. Qed.
Lemma placed_set e k m : placed e → has_field k = true → placed (setForward e k m).
Proof. intros [Hn Hf] Hk. split; [by apply assoc_set_nodup|by apply assoc_set_forall]. Qed.
Lemma placed_shown known d k m : placed (fd_errors d) → (k, m) ∈ we_fields (fd_errors d) → m ≠ [] → m ∈ dialog_errors true known d.
Proof.
  intros [Hn Hf] Hin Hm. rewrite Forall_forall in Hf. apply elem_of_app. left.
  apply (shows_shown k); [apply has_field_shown, (Hf _ Hin)|by apply assoc_get_elem|done].
Qed.

Lemma forwardField_from_has n parts k : forwardField_from n parts = Some k → has_field k = true.
Proof.
  induction n as [|n IH]; cbn [forwardField_from]; [done|]. destruct (assoc_get _ _) eqn:E; [|done]. intros [= <-].
  assert (Forall (λ x : jsstr * ForwardFormField, has_field x.2 = true) FORWARD_CONFIG_FIELD) as H by repeat constructor.
  rewrite Forall_forall in H. apply (H (join [DOT] (take (S n) parts), f)). revert E. generalize FORWARD_CONFIG_FIELD (join [DOT] (take (S n) parts)). clear.
  intros l key. induction l as [|[k v] l IH]; cbn; [done|]. case_decide as Ek; [intros [= <-]; subst; left|]. intros E. right. by apply IH.
Qed.
Lemma placed_clause e clause : placed e → placed (place_forward_clause e clause).
Proof.
  intros He. unfold place_forward_clause. destruct (negb _); [done|]. destruct (KEY_RE _) as [key|]; [|by destruct He].
  cbn. destruct (forwardConfigField key) as [k|] eqn:E; [|by destruct He]. apply placed_set; [done|by eapply forwardField_from_has].
Qed.
Lemma placed_entry e entry : placed e → placed (place_forward_entry e entry).
Proof.
  intros He. unfold place_forward_entry, forward_direct. destruct (if truthy _ then _ else _) as [k|] eqn:E.
  - apply placed_set; [done|]. destruct (truthy _); [by eapply forwardField_from_has|done].
  - generalize (split_clauses entry.2). intros l. revert e He. induction l as [|c l IH]; intros e He; [done|]. by apply IH, placed_clause.
Qed.
Lemma placed_problem problem fallback : placed (forwardProblemErrors problem fallback).
Proof.
  unfold forwardProblemErrors. assert (placed (fold_left place_forward_entry (problem_entries problem fallback) emptyForwardErrors)) as H.
  { pose proof placed_empty as H0. revert H0. generalize (problem_entries problem fallback) emptyForwardErrors. intros l. induction l as [|x l IH]; intros e He; [done|].
    by apply IH, placed_entry. }
  by destruct (hasForwardErrors _).
Qed.

(** The errors the dialog finds itself all have a text and are at a field. *)
Definition explained (e : ForwardErrors) : Prop := placed e ∧ we_general e = [] ∧ Forall (λ km, km.2 ≠ []) (we_fields e).
Lemma explained_set e k m : explained e → has_field k = true → m ≠ [] → explained (setForward e k m).
Proof. intros (Hp & Hg & Hm) Hk Hne. split_and!; [by apply placed_set|done|by apply assoc_set_forall]. Qed.
Lemma explained_count v min k e x e' : explained e → has_field k = true → parseForwardCount v min k e = (x, e') → explained e'.
Proof.
  intros He Hk. unfold parseForwardCount. case_decide; [by intros [= _ <-]|]. destruct (_ || _); intros [= _ <-]; [|done].
  by apply explained_set.
Qed.
Lemma form_explained f : explained (formToForwardInput f).2.
Proof.
  unfold formToForwardInput.
  set (e1 := if truthy (trim (w_name f)) then _ else _). assert (explained e1) as H1.
  { unfold e1. assert (explained emptyForwardErrors) by (split_and!; [apply placed_empty|done|constructor]).
    destruct (truthy _); [done|]. by apply explained_set. }
  set (e2 := match urlError _ with Some m => _ | None => _ end). assert (explained e2) as H2.
  { unfold e2. unfold urlError. destruct (negb _); [by apply explained_set|]. destruct (negb _); [by apply explained_set|done]. }
  destruct (parseForwardCount (w_queue_max_messages f) _ _ e2) as [x e3] eqn:E3. apply explained_count in E3; [|done|done].
  destruct (parseForwardCount (w_batch_max_rows f) _ _ e3) as [y e4] eqn:E4. by apply explained_count in E4.
Qed.

(** * The boxes *)

Lemma selected_ok f : Forall (λ w, line_ok w = true) (selected f).
Proof. apply lines_ok. Qed.
Lemma selected_set l d : Forall (λ w, line_ok w = true) l → selected (fd_form (fd_set W_sources (join [LF] l) d)) = l.
Proof.
  intros Hl. unfold selected, fd_set. cbn [fd_form]. change w_sources with (form_get (F := ForwardFormState) W_sources). rewrite get_set.
  destruct l as [|w l]; [done|]. exact (lines_some (w :: l) Hl).
Qed.
Lemma filter_line_ok p l : Forall (λ w, line_ok w = true) l → Forall (λ w, line_ok w = true) (List.filter p l).
Proof. induction 1 as [|w l Hw _ IH]; cbn; [constructor|]. destruct (p w); [by constructor|done]. Qed.

(** Every ticked name without a comma is in the list that is sent, and no other
    name comes or goes. *)
Lemma toggle_spec name on d : line_ok name = true → ∀ n,
  n ∈ selected (fd_form (toggleSource name on d)) ↔ if on then n = name ∨ n ∈ selected (fd_form d) else n ≠ name ∧ n ∈ selected (fd_form d).
Proof.
  intros Hn n. unfold toggleSource. destruct on.
  - rewrite selected_set by (apply Forall_app; split; [apply selected_ok|by apply Forall_singleton]).
    rewrite elem_of_app, list_elem_of_singleton. tauto.
  - rewrite selected_set by apply filter_line_ok, selected_ok. rewrite list_elem_of_In, filter_In, <- list_elem_of_In, negb_true_iff, bool_decide_eq_false. tauto.
Qed.

(** Nothing in the dialog is refused in silence while its disclosure is open.  A form
    that is not sent has an error, every error is under a field of the dialog; so is
    every error of an answer, or it is in the list below; and the boxes tick and
    untick the name beside them, for names without a comma. *)
Theorem forward_dialog_explained known target d d' r err :
  fd_submit target d = (d', r) →
  (r = None ↔ dialog_errors true known d' ≠ [])
  ∧ (∀ k m, (k, m) ∈ we_fields (fd_errors d') → m ∈ dialog_errors true known d')
  ∧ (let d2 := fd_failed err d' in fd_conflict d2 = false →
     (∀ k m, (k, m) ∈ we_fields (fd_errors d2) → m ≠ [] → m ∈ dialog_errors true known d2)
     ∧ ∀ m, m ∈ we_general (fd_errors d2) → m ∈ dialog_errors true known d2)
  ∧ ∀ name on n, line_ok name = true →
      n ∈ selected (fd_form (toggleSource name on d)) ↔
      if on then n = name ∨ n ∈ selected (fd_form d) else n ≠ name ∧ n ∈ selected (fd_form d).
Proof.
  unfold fd_submit. pose proof (form_explained (fd_form d)) as He. destruct (formToForwardInput (fd_form d)) as [i e]. cbn [snd] in He.
  intros E. assert (placed (fd_errors d') ∧ Forall (λ km, km.2 ≠ []) (we_fields (fd_errors d'))) as [Hp Hm].
  { destruct (hasForwardErrors e); injection E as <- _; cbn [fd_errors]; [by destruct He as (? & ? & ?)|split; [apply placed_empty|constructor]]. }
  assert (∀ k m, (k, m) ∈ we_fields (fd_errors d') → m ∈ dialog_errors true known d') as Hall.
  { intros k m Hin. apply placed_shown with k; [done|done|]. rewrite Forall_forall in Hm. apply (Hm _ Hin). }
  split_and!; [|done| |intros; by apply toggle_spec].
  - destruct (hasForwardErrors e) eqn:Eh; injection E as <- <-; split; try done.
    + intros _ Hnil. destruct He as (_ & Hg & _). unfold hasForwardErrors in Eh. rewrite Hg in Eh. cbn [fd_errors] in Hall.
      destruct (we_fields e) as [|[k m] l] eqn:Ef; [done|]. specialize (Hall k m (list_elem_of_here _ _)). rewrite Hnil in Hall. by apply elem_of_nil in Hall.
    + intros Hx. exfalso. apply Hx. unfold dialog_errors. cbn [fd_errors fd_form fd_conflict emptyForwardErrors we_fields we_general].
      by rewrite shown_errors_nil.
  - set (d2 := fd_failed err d'). intros Hc. assert (placed (fd_errors d2)) as Hp2.
    { unfold d2, fd_failed. destruct (xe_api err) as [[st p]|]; [|apply placed_problem]. repeat case_match; first [apply placed_problem|exact Hp]. }
    split; [intros k m; by apply placed_shown|]. intros m Hin. unfold dialog_errors. rewrite Hc. apply elem_of_app. by right.
Qed.

Lemma forward_dialog_explained_witness :
  let d := MkDialog DEFAULT_FORWARD_FORM emptyForwardErrors false in
  dialog_errors true [] (fd_submit None d).1 ≠ [].
Proof.
  intros d.
  refine (proj1 (proj1 (forward_dialog_explained [] None d (fd_submit None d).1 (fd_submit None d).2 (MkSaveError None [] []) _)) _);
    vm_compute; reflexivity.
Defined.

(** With the disclosure closed, an error of one of its fields is not seen: the
    dialog stays as it is. *)
Theorem closed_disclosure_hides :
  let f := form_set W_queue_max_messages $"0" (form_set W_url $"http://dr" (form_set W_name $"dr" DEFAULT_FORWARD_FORM)) in
  let '(d', r) := fd_submit None (MkDialog f emptyForwardErrors false) in
  r = None ∧ dialog_errors false [] d' = [] ∧ dialog_errors true [] d' = [$"Must be a whole number of 1 or more."].
Proof. vm_compute. auto. Qed.
(** A source whose name has a comma cannot be ticked: two other names are. *)
Theorem comma_not_ticked :
  let d := toggleSource $"core, backup" true (dialog_init None) in
  source_options [$"core, backup"] (fd_form d) = [$"core, backup"; $"core"; $"backup"] ∧ selected (fd_form d) = [$"core"; $"backup"].
Proof. vm_compute. auto. Qed.

(** * The page and the server *)

(** A stored target as the list has it. *)
Definition listed_of (r : MockTarget * bool) : ListedTarget :=
  let t := r.1 in
  MkListed (Some (mt_id t)) (mt_config t) (mt_enabled t)
    (match mt_status t with
     | Some s => Some (MkCounters (ts_healthy s) (num (ts_sent s)) (num (ts_queued s)) (num (ts_dropped s)) (ts_last_success s) (ts_last_error s))
     | None => None
     end) (Some r.2) false (Some (mt_version t)).

(** What a request does at the server; [id] is for a target it creates. *)
Definition serve (id : jsstr) (r : ForwardRequest) (s : Targets) : Targets :=
  match r with
  | fr_create b => match target_post id b s with Ok (_, s') => s' | Err _ => s end
  | fr_update i b => match target_put i b s with Ok (_, s', _) => s' | Err _ => s end
  | fr_delete i => target_delete i s
  end.

(** What the page holds of a target is the truth as long as the version is: its id was
    once given out, and it is not newer than the stored one. *)
Definition seen (used : list jsstr) (s : Targets) (t : ListedTarget) : Prop :=
  lt_file t = false → ∃ id v, lt_id t = Some id ∧ lt_version t = Some v ∧ id ∈ used
  ∧ ∀ x, find_by_id id (tg_list s) = Some x →
      (v <= mt_version x)%Z ∧ (v = mt_version x → lt_config t = mt_config x ∧ lt_enabled t = mt_enabled x).

(** The stored targets, the list on screen, the page, and the ids given out so far.
    Other people change targets, the list is fetched again, things happen on the
    page and its requests arrive. *)
Record system := MkSystem { y_server : Targets; y_listed : list ListedTarget; y_page : ForwardPage; y_used : list jsstr }.
Inductive sys_step (manage : bool) (known : list jsstr) (files : list ListedTarget) (y : system) : system → Prop :=
| ss_other s' :
    target_op (y_server y) s' → (∀ x, x ∈ map mt_id (tg_list s') → x ∈ map mt_id (tg_list (y_server y)) ∨ x ∉ y_used y) →
    sys_step manage known files y (MkSystem s' (y_listed y) (y_page y) (map mt_id (tg_list s') ++ y_used y))
| ss_list :
    sys_step manage known files y
      (MkSystem (y_server y) (files ++ map listed_of (forward_list (y_server y))) (y_page y) (y_used y))
| ss_event ev p' :
    forward_step manage known (y_listed y) (y_page y) ev = (p', None) →
    sys_step manage known files y (MkSystem (y_server y) (y_listed y) p' (y_used y))
| ss_request ev p' r id :
    forward_step manage known (y_listed y) (y_page y) ev = (p', Some r) → id ∉ y_used y →
    sys_step manage known files y (MkSystem (serve id r (y_server y)) (y_listed y) p' (id :: y_used y)).
Inductive sys_reached (manage : bool) (known : list jsstr) (files : list ListedTarget) (ago : Z → jsstr) : system → Prop :=
| sr_first :
    sys_reached manage known files ago (MkSystem (mock_targets ago) [] page_init (map mt_id (tg_list (mock_targets ago))))
| sr_next y y' : sys_reached manage known files ago y → sys_step manage known files y y' → sys_reached manage known files ago y'.

Lemma find_app {R} `{Resource R} id (a b : list R) x : find_by_id id (a ++ b) = Some x → find_by_id id a = Some x ∨ find_by_id id b = Some x.
Proof. unfold find_by_id. induction a as [|y a IH]; cbn; [by right|]. case_bool_decide; [by left|done]. Qed.
Lemma find_app_some {R} `{Resource R} id (a b : list R) x : find_by_id id a = Some x → find_by_id id (a ++ b) = Some x.
Proof. unfold find_by_id. induction a as [|y a IH]; cbn; [done|]. by case_bool_decide. Qed.
Lemma find_removed {R} `{Resource R} id id' (l : list R) x : find_by_id id (remove_by_id id' l) = Some x → find_by_id id l = Some x.
Proof.
  unfold find_by_id, remove_by_id. induction l as [|y l IH]; cbn; [done|]. destruct (decide (res_id y = id')) as [E|E].
  - rewrite (bool_decide_true (res_id y = id')) by done. cbn. intros Hf. case_bool_decide as E2; [|by apply IH].
    apply List.find_some in Hf as [Hin Hx]. apply filter_In in Hin as [_ Hin]. apply bool_decide_eq_true in Hx.
    apply negb_true_iff, bool_decide_eq_false in Hin. congruence.
  - rewrite (bool_decide_false (res_id y = id')) by done. cbn. case_bool_decide; [done|by apply IH].
Qed.
Lemma find_known id (l : list MockTarget) x : find_by_id id l = Some x → id ∈ map mt_id l.
Proof. intros [<- Hin]%find_id. apply list_elem_of_fmap. by exists x. Qed.
Lemma find_timed id id' previous s x : find_by_id id (tg_list (target_timer id' previous s)) = Some x →
  ∃ y, find_by_id id (tg_list s) = Some y ∧ mt_version x = mt_version y ∧ mt_config x = mt_config y ∧ mt_enabled x = mt_enabled y.
Proof.
  unfold target_timer, find_by_id. cbn [tg_list]. induction (tg_list s) as [|y l IH]; cbn; [done|].
  set (z := if _ && _ then _ else y). assert (mt_id z = mt_id y ∧ mt_version z = mt_version y ∧ mt_config z = mt_config y ∧ mt_enabled z = mt_enabled y) as (E & Hz).
  { unfold z. by destruct (_ && _). }
  rewrite E. case_bool_decide; [|done]. intros [= <-]. by exists y.
Qed.

(** The target that a put changes, and all that it changes. *)
Lemma put_changes id b s u s' timer : target_put id b s = Ok (u, s', timer) →
  ∃ x, find_by_id id (tg_list s) = Some x ∧ tb_version b = Some (mt_version x) ∧ mt_config u = tb_config b
  ∧ mt_enabled u = nullish (tb_enabled b) (mt_enabled x) ∧ mt_version u = (mt_version x + 1)%Z
  ∧ find_by_id id (tg_list s') = Some u ∧ (∀ id', id' ≠ id → find_by_id id' (tg_list s') = find_by_id id' (tg_list s))
  ∧ (tb_token b = None → tg_tokens s' = tg_tokens s) ∧ map mt_id (tg_list s') = map mt_id (tg_list s).
Proof.
  unfold target_put. destruct (find_by_id id (tg_list s)) as [x|] eqn:Ex; [|done]. destruct (find_id _ _ _ Ex) as [Hid _]. cbn in Hid.
  case_bool_decide as Hv; [|done]. cbn [negb]. destruct (forwardValidationError _ _ _); [done|].
  match goal with |- Ok (?w, _, _) = _ → _ => set (w0 := w) end. intros [= <- <- <-]. exists x. rewrite Hid. cbn [tg_list tg_tokens].
  split_and!; try done.
  - apply find_replaced; [done|by eexists].
  - intros id' Hne. by apply find_replaced_ne.
  - by intros ->.
  - unfold replace_by_id. rewrite map_map. apply map_ext_in. intros y _. change (res_id y) with (mt_id y).
    case_bool_decide as E; [|done]. by rewrite E.
Qed.

(** An id that was given out keeps its target, changed only with its version. *)
Definition kept (used : list jsstr) (s s' : Targets) : Prop :=
  ∀ id x', id ∈ used → find_by_id id (tg_list s') = Some x' →
    ∃ x, find_by_id id (tg_list s) = Some x ∧ (mt_version x <= mt_version x')%Z
    ∧ (mt_version x = mt_version x' → mt_config x' = mt_config x ∧ mt_enabled x' = mt_enabled x).
Lemma kept_post used id b s t s' : id ∉ used → target_post id b s = Ok (t, s') → kept used s s'.
Proof.
  intros Hid. unfold target_post. destruct (forwardValidationError _ _ _); [done|]. intros [= <- <-] i x' Hi.
  intros [H|H]%find_app; [exists x'; split_and!; [done|lia|done]|]. apply find_known in H. cbn in H. apply list_elem_of_singleton in H as ->. done.
Qed.
Lemma kept_put used id b s u s' timer : target_put id b s = Ok (u, s', timer) → kept used s s'.
Proof.
  intros (x & Hx & _ & _ & _ & Hv & Hu & Ho & _)%put_changes i x' _ Hi. destruct (decide (i = id)) as [->|Hne].
  - rewrite Hu in Hi. injection Hi as <-. exists x. split_and!; [done|lia|lia].
  - rewrite Ho in Hi by done. exists x'. split_and!; [done|lia|done].
Qed.
Lemma kept_delete used id s : kept used s (target_delete id s).
Proof. intros i x' _ Hi%find_removed. exists x'. split_and!; [done|lia|done]. Qed.
Lemma kept_op used s s' : (∀ x, x ∈ map mt_id (tg_list s') → x ∈ map mt_id (tg_list s) ∨ x ∉ used) → target_op s s' → kept used s s'.
Proof.
  intros Hnew Hop. destruct Hop as [id b t s' Hid Hp|id b u s' timer Hp|id previous|id].
  - apply kept_post with id b t; [|done]. assert (id ∈ map mt_id (tg_list s')) as Hin.
    { revert Hp. unfold target_post. destruct (forwardValidationError _ _ _); [done|]. intros [= _ <-]. cbn [tg_list].
      rewrite map_app. apply elem_of_app. right. by apply list_elem_of_singleton. }
    destruct (Hnew id Hin); done.
  - by eapply kept_put.
  - intros i x' _ (y & Hy & Hv & Hc & He)%find_timed. exists y. split_and!; [done|lia|done].
  - apply kept_delete.
Qed.
Lemma kept_serve used id r s : id ∉ used → kept used s (serve id r s).
Proof.
  assert (kept used s s) as Hs by (intros i x _ Hx; exists x; split_and!; [done|lia|done]).
  intros Hid. destruct r as [i b|b|i]; cbn [serve].
  - destruct (target_put i b s) as [[[u s'] timer]|] eqn:E; [by eapply kept_put|done].
  - destruct (target_post id b s) as [[t s']|] eqn:E; [by eapply kept_post|done].
  - apply kept_delete.
Qed.
Lemma seen_kept used used' s s' t : kept used s s' → used ⊆ used' → seen used s t → seen used' s' t.
Proof.
  intros Hk Hsub Ht Hf. destruct (Ht Hf) as (id & v & Hid & Hv & Hu & Hx). exists id, v. split_and!; [done|done|by apply Hsub|].
  intros x' Hx'. destruct (Hk id x' Hu Hx') as (x & Hfx & Hle & Heq). destruct (Hx x Hfx) as [Hle' Heq'].
  split; [lia|]. intros ->. assert (mt_version x = mt_version x') as E by lia.
  destruct (Heq E) as [-> ->]. apply Heq'. lia.
Qed.

(** All targets the page and the list hold. *)
Record page_seen (used : list jsstr) (s : Targets) (p : ForwardPage) : Prop := {
  ps_editing t d : fp_editing p = Some (Some t, d) → lt_file t = false ∧ seen used s t;
  ps_confirm t a : fp_confirm p = Some (t, a) → lt_file t = false ∧ seen used s t
}.
Record sys_ok (y : system) : Prop := {
  so_ids : map mt_id (tg_list (y_server y)) ⊆ y_used y;
  so_unique : NoDup (map mt_id (tg_list (y_server y)));
  so_listed t : t ∈ y_listed y → seen (y_used y) (y_server y) t;
  so_page : page_seen (y_used y) (y_server y) (y_page y)
}.

Lemma row_actions_in manage a t : a ∈ row_actions manage t →
  row_editable manage t = true ∧ match a with act_stop => lt_enabled t = true | act_start => lt_enabled t = false | _ => True end.
Proof.
  unfold row_actions. destruct (row_editable manage t); [|by rewrite elem_of_nil].
  rewrite !elem_of_cons, elem_of_nil. destruct (lt_enabled t); intros H; (split; [done|]); destruct a; naive_solver.
Qed.
Lemma row_editable_db manage t : row_editable manage t = true → lt_file t = false.
Proof. unfold row_editable. destruct (lt_file t); [by rewrite andb_false_r|done]. Qed.

Lemma setEditing_holds target p : (∃ d, fp_editing (setEditing target p) = Some (target, d)) ∧ fp_confirm (setEditing target p) = fp_confirm p.
Proof. unfold setEditing. destruct (fp_editing p) as [[t d]|]; [|by split; [eexists|]]. case_decide; by split; [eexists|]. Qed.
Lemma setEnabled_holds t on p : fp_editing (setEnabled t on p).1 = fp_editing p ∧ fp_confirm (setEnabled t on p).1 = fp_confirm p.
Proof. unfold setEnabled. by destruct (lt_id t) as [[|c id]|]. Qed.
Lemma confirm_button_holds p : fp_editing (confirm_button p).1 = fp_editing p ∧ fp_confirm (confirm_button p).1 = fp_confirm p.
Proof.
  unfold confirm_button. destruct (fp_confirm p) as [[t []]|] eqn:E; [rewrite <- E; apply setEnabled_holds| |done].
  by destruct (lt_id t) as [[|c id]|].
Qed.

(** The page holds what it held and what it took from the list. *)
Definition from_list (manage : bool) (listed : list ListedTarget) (t : ListedTarget) : Prop := t ∈ listed ∧ row_editable manage t = true.
Lemma step_holds manage known listed p ev :
  let p' := (forward_step manage known listed p ev).1 in
  (∀ t d, fp_editing p' = Some (Some t, d) → (∃ d0, fp_editing p = Some (Some t, d0)) ∨ from_list manage listed t)
  ∧ (∀ t a, fp_confirm p' = Some (t, a) → fp_confirm p = Some (t, a) ∨ from_list manage listed t).
Proof.
  intros p'. subst p'. destruct ev as [|a i| | |err|err|ev| |err|]; cbn [forward_step fst].
  - destruct manage; [|by split; eauto]. destruct (setEditing_holds None p) as [[d0 ->] ->]. split; [done|by left].
  - destruct (listed !! i) as [t0|] eqn:Ei; [|by split; eauto]. apply list_elem_of_lookup_2 in Ei. case_bool_decide as Ha; [|by split; eauto].
    apply row_actions_in in Ha as [He _]. assert (from_list manage listed t0) as Ht by done. destruct a; cbn [row_click].
    + destruct (fp_updating p); [by split; eauto|]. destruct (setEnabled_holds t0 false p) as [-> ->]. split; eauto.
    + destruct (fp_updating p); cbn; split; eauto; intros t a [= <- _]; by right.
    + destruct (setEditing_holds (Some t0) p) as [[d0 Hd] Hc]. cbn [fst]. rewrite Hd, Hc. split; [|by left]. intros t d [= <- _]. by right.
    + cbn. split; eauto. intros t a [= <- _]; by right.
  - cbn. split; eauto. done.
  - destruct (_ || _); [by split; eauto|]. destruct (confirm_button_holds p) as [-> ->]. split; eauto.
  - destruct (fp_updating p); cbn; split; eauto; done.
  - destruct (fp_removing p); cbn; (split; [eauto|]); try done; eauto.
  - destruct (fp_editing p) as [[t0 d0]|] eqn:E; cbn; (split; [|eauto]); intros t d; [intros [= -> _]; by left; eexists|by rewrite E].
  - unfold dialog_submit. destruct (fp_editing p) as [[t0 d0]|] eqn:E; [|by cbn; rewrite E; split; eauto].
    destruct (fp_saving p); [by cbn; rewrite E; split; eauto|]. destruct (fd_submit t0 d0). cbn. split; eauto. intros t d [= -> _]. by left; eexists.
  - destruct (fp_saving p); [|by split; eauto]. cbn. split; eauto. intros t d. destruct err as [e|]; [|done].
    destruct (fp_editing p) as [[t0 d0]|]; [|done]. intros [= -> _]. by left; eexists.
  - cbn. split; eauto. done.
Qed.
Lemma step_seen used s manage known listed p ev : (∀ t, t ∈ listed → seen used s t) → page_seen used s p →
  page_seen used s (forward_step manage known listed p ev).1.
Proof.
  intros Hl [He Hc]. destruct (step_holds manage known listed p ev) as [Se Sc]. constructor.
  - intros t d [[d0 Hd]|[Ht Hr]]%Se; [by eapply He|]. split; [by eapply row_editable_db|by apply Hl].
  - intros t a [Hd|[Ht Hr]]%Sc; [by eapply Hc|]. split; [by eapply row_editable_db|by apply Hl].
Qed.
Lemma page_seen_kept used used' s s' p : kept used s s' → used ⊆ used' → page_seen used s p → page_seen used' s' p.
Proof.
  intros Hk Hsub [He Hc]. constructor.
  - intros t d Ht. destruct (He t d Ht) as [Hf Hs]. split; [done|by eapply seen_kept].
  - intros t a Ht. destruct (Hc t a Ht) as [Hf Hs]. split; [done|by eapply seen_kept].
Qed.

Lemma op_ids s s' : target_op s s' → NoDup (map mt_id (tg_list s)) → NoDup (map mt_id (tg_list s')).
Proof.
  intros Hop Hn. destruct Hop as [id b t s' Hid Hp|id b u s' timer Hp|id previous|id].
  - revert Hp. unfold target_post. destruct (forwardValidationError _ _ _); [done|]. intros [= _ <-]. cbn [tg_list]. rewrite map_app.
    apply NoDup_app. split_and!; [done| |apply NoDup_singleton]. intros x Hx ->%list_elem_of_singleton. done.
  - by apply put_changes in Hp as (x & _ & _ & _ & _ & _ & _ & _ & _ & ->).
  - unfold target_timer. cbn [tg_list]. rewrite map_map. erewrite map_ext; [exact Hn|]. intros x. by destruct (_ && _).
  - unfold target_delete, remove_by_id. cbn [tg_list]. eapply sublist_NoDup; [exact Hn|]. apply fmap_sublist.
    generalize (tg_list s). induction l as [|x l IH]; cbn [List.filter]; [constructor|]. case_match; by constructor.
Qed.
Lemma serve_op id r s : id ∉ map mt_id (tg_list s) → serve id r s = s ∨ target_op s (serve id r s).
Proof.
  intros Hid. destruct r as [i b|b|i]; cbn [serve].
  - destruct (target_put i b s) as [[[u s'] timer]|] eqn:E; [right; by econstructor|by left].
  - destruct (target_post id b s) as [[t s']|] eqn:E; [right; by econstructor|by left].
  - right. constructor.
Qed.
Lemma serve_ids id r s : map mt_id (tg_list (serve id r s)) ⊆ id :: map mt_id (tg_list s).
Proof.
  destruct r as [i b|b|i]; cbn [serve].
  - destruct (target_put i b s) as [[[u s'] timer]|] eqn:E; [|set_solver].
    apply put_changes in E as (x & _ & _ & _ & _ & _ & _ & _ & _ & ->). set_solver.
  - unfold target_post. destruct (forwardValidationError _ _ _); [set_solver|]. cbn [tg_list]. rewrite map_app. cbn. set_solver.
  - unfold target_delete, remove_by_id. cbn [tg_list]. intros x (y & -> & Hy)%list_elem_of_fmap. apply list_elem_of_In, filter_In in Hy as [Hy _].
    right. apply list_elem_of_fmap. exists y. split; [done|by apply list_elem_of_In].
Qed.

Lemma nodup_find (l : list MockTarget) x : NoDup (map mt_id l) → x ∈ l → find_by_id (mt_id x) l = Some x.
Proof.
  unfold find_by_id. induction l as [|y l IH]; cbn; [by rewrite elem_of_nil|]. intros [Hy Hn]%NoDup_cons [->|Hx]%elem_of_cons.
  - by rewrite bool_decide_true.
  - rewrite bool_decide_false; [by apply IH|]. intros E. apply Hy. rewrite E. apply list_elem_of_fmap. by exists x.
Qed.
Lemma listed_seen used s t : NoDup (map mt_id (tg_list s)) → map mt_id (tg_list s) ⊆ used →
  t ∈ map listed_of (forward_list s) → seen used s t.
Proof.
  intros Hn Hsub. unfold forward_list. rewrite map_map. intros (x & -> & Hx)%list_elem_of_fmap _. unfold listed_of, forwardResponse. cbn.
  exists (mt_id x), (mt_version x). split_and!; [done|done|apply Hsub, list_elem_of_fmap; by exists x|].
  intros x' Hx'. rewrite (nodup_find _ _ Hn Hx) in Hx'. injection Hx' as <-. split; [lia|done].
Qed.

Lemma sys_step_ok manage known files y y' : (∀ t, t ∈ files → lt_file t = true) → sys_ok y → sys_step manage known files y y' → sys_ok y'.
Proof.
  intros Hfiles [Hi Hu Hl Hp] Hs. destruct Hs as [s' Hop Hnew| |ev p' E|ev p' r id E Hid].
  - assert (y_used y ⊆ map mt_id (tg_list s') ++ y_used y) as Hsub by set_solver. assert (kept (y_used y) (y_server y) s') as Hk by by apply kept_op.
    constructor; cbn [y_server y_used y_listed y_page]; [set_solver|by eapply op_ids|intros t Ht; by eapply seen_kept, Hl|by eapply page_seen_kept].
  - constructor; cbn [y_server y_used y_listed y_page]; [done|done| |done]. intros t [Ht|Ht]%elem_of_app; [|by apply listed_seen].
    intros Hf. by rewrite (Hfiles t Ht) in Hf.
  - constructor; cbn [y_server y_used y_listed y_page]; [done|done|done|]. change p' with (p', @None ForwardRequest).1. rewrite <- E. by apply step_seen.
  - assert (kept (y_used y) (y_server y) (serve id r (y_server y))) as Hk by by apply kept_serve.
    assert (y_used y ⊆ id :: y_used y) as Hsub by set_solver.
    constructor; cbn [y_server y_used y_listed y_page].
    + pose proof (serve_ids id r (y_server y)). set_solver.
    + destruct (serve_op id r (y_server y)) as [->|Hop]; [set_solver|done|]. by eapply op_ids.
    + intros t Ht. by eapply seen_kept, Hl.
    + eapply page_seen_kept; [done|done|]. change p' with (p', Some r).1. rewrite <- E. by apply step_seen.
Qed.
Lemma sys_reached_ok manage known files ago y : (∀ t, t ∈ files → lt_file t = true) → sys_reached manage known files ago y → sys_ok y.
Proof.
  intros Hf Hr. induction Hr as [|y y' _ IH Hs]; [|by eapply sys_step_ok]. constructor; cbn [y_server y_used y_listed y_page].
  - done.
  - apply mock_targets_ok.
  - intros t Ht. by apply elem_of_nil in Ht.
  - by constructor.
Qed.

(** Where a request comes from. *)
Inductive request_of (manage : bool) (listed : list ListedTarget) (p : ForwardPage) : forward_event → ForwardRequest → Prop :=
| ro_stop k t id : listed !! k = Some t → from_list manage listed t → lt_id t = Some id →
    request_of manage listed p (fe_row act_stop k) (fr_update id (MkTargetBody (lt_config t) None (Some false) (lt_version t)))
| ro_start t id : fp_confirm p = Some (t, confirm_enable) → lt_id t = Some id →
    request_of manage listed p fe_confirm (fr_update id (MkTargetBody (lt_config t) None (Some true) (lt_version t)))
| ro_delete t id : fp_confirm p = Some (t, confirm_delete) → lt_id t = Some id → request_of manage listed p fe_confirm (fr_delete id)
| ro_edit t d id b : fp_editing p = Some (Some t, d) → lt_id t = Some id → tb_enabled b = Some (lt_enabled t) → tb_version b = lt_version t →
    request_of manage listed p fe_submit (fr_update id b)
| ro_create b : request_of manage listed p fe_submit (fr_create b).
Lemma step_request manage known listed p ev p' r : forward_step manage known listed p ev = (p', Some r) → request_of manage listed p ev r.
Proof.
  destruct ev as [|a i| | |err|err|ev| |err|]; cbn [forward_step]; try done.
  - destruct (listed !! i) as [t|] eqn:Ei; [|done]. case_bool_decide as Ha; [|done]. apply row_actions_in in Ha as [He _].
    assert (from_list manage listed t) by (split; [by eapply list_elem_of_lookup_2|done]).
    destruct a; cbn [row_click]; try done. destruct (fp_updating p); [done|]. unfold setEnabled.
    destruct (lt_id t) as [[|c id]|] eqn:Ei'; try done. intros [= _ <-]. by apply ro_stop.
  - destruct (_ || _); [done|]. unfold confirm_button. destruct (fp_confirm p) as [[t []]|] eqn:Ec; [..|done].
    + unfold setEnabled. destruct (lt_id t) as [[|c id]|] eqn:Ei'; try done. intros [= _ <-]. by apply ro_start.
    + destruct (lt_id t) as [[|c id]|] eqn:Ei'; try done. intros [= _ <-]. by eapply ro_delete.
  - unfold dialog_submit. destruct (fp_editing p) as [[t d]|] eqn:Ee; [|done]. destruct (fp_saving p); [done|]. unfold fd_submit.
    destruct (formToForwardInput (fd_form d)) as [i e]. destruct (hasForwardErrors e); [done|].
    destruct t as [t|]; [|intros [= _ <-]; apply ro_create].
    destruct (lt_id t) as [[|c id]|] eqn:Ei'; intros [= _ <-]; [apply ro_create|by eapply ro_edit|apply ro_create].
Qed.

(** What an accepted request changes; a request that is refused changes nothing. *)
Lemma update_served used s t i id b x x' : seen used s t → lt_file t = false → lt_id t = Some id → tb_version b = lt_version t →
  find_by_id i (tg_list s) = Some x → find_by_id i (tg_list (match target_put id b s with Ok (_, s', _) => s' | Err _ => s end)) = Some x' →
  mt_enabled x' ≠ mt_enabled x →
  i = id ∧ lt_config t = mt_config x ∧ lt_enabled t = mt_enabled x ∧ mt_config x' = tb_config b ∧ mt_enabled x' = nullish (tb_enabled b) (mt_enabled x)
  ∧ (tb_token b = None → tg_tokens (match target_put id b s with Ok (_, s', _) => s' | Err _ => s end) = tg_tokens s).
Proof.
  intros Ht Hf Hid Hv Hx. destruct (Ht Hf) as (id0 & v & Hid0 & Hv0 & _ & Hc). rewrite Hid in Hid0. injection Hid0 as <-.
  destruct (target_put id b s) as [[[u s'] timer]|] eqn:E; [|intros Hx' Hne; congruence].
  apply put_changes in E as (y & Hy & Hvy & Hcu & Heu & _ & Hu & Ho & Htok & _). intros Hx' Hne.
  destruct (decide (i = id)) as [->|Hi]; [|rewrite Ho in Hx' by done; congruence].
  rewrite Hu in Hx'. rewrite Hy in Hx. injection Hx as <-. injection Hx' as <-.
  destruct (Hc y Hy) as [_ Heq]. assert (v = mt_version y) as Ev by congruence. destruct (Heq Ev) as [-> ->]. by split_and!.
Qed.
Lemma put_keeps_found id b s i : is_Some (find_by_id i (tg_list s)) →
  is_Some (find_by_id i (tg_list (match target_put id b s with Ok (_, s', _) => s' | Err _ => s end))).
Proof.
  intros Hx. destruct (target_put id b s) as [[[u s'] timer]|] eqn:E; [|done].
  apply put_changes in E as (y & Hy & _ & _ & _ & _ & Hu & Ho & _). destruct (decide (i = id)) as [->|Hi]; [by eexists|by rewrite Ho].
Qed.
Lemma find_kept id i (l : list MockTarget) : i ≠ id → find_by_id i (remove_by_id id l) = find_by_id i l.
Proof.
  intros Hne. unfold find_by_id, remove_by_id. induction l as [|y l IH]; cbn; [done|]. destruct (decide (mt_id y = id)) as [E|E].
  - rewrite (bool_decide_true (mt_id y = id)) by done. cbn. rewrite bool_decide_false by congruence. done.
  - rewrite (bool_decide_false (mt_id y = id)) by done. cbn. by case_bool_decide.
Qed.

(** C28: copies are made as it was told.  Whatever happens on the page and whatever other
    people change meanwhile, a request of the page starts a target only when the
    question about that target was answered, which named the address it has; stops
    one only from its own row; deletes one only when that question was answered.
    Starting and stopping leave the configuration and the token alone, editing
    neither starts nor stops, and a target that is created is off. *)
Theorem copies_as_told manage known files ago y ev p' r id :
  (∀ t, t ∈ files → lt_file t = true) → sys_reached manage known files ago y →
  forward_step manage known (y_listed y) (y_page y) ev = (p', Some r) → id ∉ y_used y →
  let s := y_server y in
  let s' := serve id r s in
  ∀ i, match find_by_id i (tg_list s), find_by_id i (tg_list s') with
  | Some x, Some x' =>
      mt_enabled x' ≠ mt_enabled x →
      mt_config x' = mt_config x ∧ tg_tokens s' = tg_tokens s ∧
      if mt_enabled x' then
        ev = fe_confirm ∧ ∃ t, fp_confirm (y_page y) = Some (t, confirm_enable) ∧ lt_id t = Some i
        ∧ (question (t, confirm_enable)).1 = ($"Start forwarding to " ++ fc_name (mt_config x),
             $"Every stored log matching the filters is copied to " ++ fc_url (mt_config x) ++ $".")
      else ∃ k t, ev = fe_row act_stop k ∧ y_listed y !! k = Some t ∧ lt_id t = Some i
  | Some _, None => ev = fe_confirm ∧ ∃ t, fp_confirm (y_page y) = Some (t, confirm_delete) ∧ lt_id t = Some i
  | None, Some x' => ev = fe_submit ∧ mt_enabled x' = false
  | None, None => True
  end.
Proof.
  intros Hfiles [Hids Hun Hl [He Hc]]%sys_reached_ok Hr%step_request Hid s s' i; [|done]. destruct (find_by_id i (tg_list s)) as [x|] eqn:Hx.
  - destruct (find_by_id i (tg_list s')) as [x'|] eqn:Hx'; subst s'.
    + intros Hne. destruct Hr as [k t j Hk [Ht Hed] Hj|t j Ht Hj|t j Ht Hj|t d j b Ht Hj Hen Hv|b]; cbn [serve] in Hx' |- *.
      * destruct (update_served _ _ t i j (MkTargetBody (lt_config t) None (Some false) (lt_version t)) x x' (Hl t Ht) (row_editable_db _ _ Hed) Hj eq_refl Hx Hx' Hne) as (-> & Ec & _ & -> & E' & Htok).
        rewrite E'. split; [done|split; [by apply Htok|]]. by exists k, t.
      * destruct (Hc t _ Ht) as [Hf Hs].
        destruct (update_served _ _ t i j (MkTargetBody (lt_config t) None (Some true) (lt_version t)) x x' Hs Hf Hj eq_refl Hx Hx' Hne) as (-> & Ec & _ & -> & E' & Htok). rewrite E'.
        split; [done|split; [by apply Htok|split; [done|]]]. exists t. split_and!; [done|done|]. cbn [question fst]. unfold forwardEnableConsequence. by rewrite Ec.
      * apply find_removed in Hx'. rewrite Hx in Hx'. by injection Hx' as <-.
      * destruct (He t d Ht) as [Hf Hs]. destruct (update_served _ _ t i j b x x' Hs Hf Hj Hv Hx Hx' Hne) as (-> & _ & Ee & _ & E' & _).
        rewrite Hen in E'. cbn in E'. congruence.
      * exfalso. apply Hne. revert Hx'. unfold target_post. destruct (forwardValidationError _ _ _); [intros Hx'; congruence|]. cbn [tg_list].
        intros [H|H]%find_app; [congruence|]. apply find_known in H. apply list_elem_of_singleton in H as ->. apply find_known, Hids in Hx. done.
    + destruct Hr as [k t j Hk [Ht Hed] Hj|t j Ht Hj|t j Ht Hj|t d j b Ht Hj Hen Hv|b]; cbn [serve] in Hx'.
      * pose proof (put_keeps_found j (MkTargetBody (lt_config t) None (Some false) (lt_version t)) s i (mk_is_Some _ _ Hx)) as [z Hz]. congruence.
      * pose proof (put_keeps_found j (MkTargetBody (lt_config t) None (Some true) (lt_version t)) s i (mk_is_Some _ _ Hx)) as [z Hz]. congruence.
      * split; [done|]. exists t. split; [done|]. destruct (decide (i = j)) as [->|Hne]; [done|].
        unfold target_delete in Hx'. cbn [tg_list] in Hx'. rewrite find_kept in Hx' by done. congruence.
      * pose proof (put_keeps_found j b s i (mk_is_Some _ _ Hx)) as [z Hz]. congruence.
      * exfalso. revert Hx'. unfold target_post. destruct (forwardValidationError _ _ _); [congruence|]. cbn [tg_list].
        by rewrite (find_app_some _ _ _ x Hx).
  - destruct (find_by_id i (tg_list s')) as [x'|] eqn:Hx'; [|done]. subst s'.
    destruct Hr as [k t j Hk [Ht Hed] Hj|t j Ht Hj|t j Ht Hj|t d j b Ht Hj Hen Hv|b]; cbn [serve] in Hx'.
    1,2,4: exfalso; revert Hx'; destruct (target_put _ _ _) as [[[u s'] timer]|] eqn:E; [|congruence];
      apply put_changes in E as (z & Hz & _ & _ & _ & _ & Hu & Ho & _); destruct (decide (i = j)) as [->|Hne]; [congruence|rewrite Ho by done; congruence].
    + apply find_removed in Hx'. congruence.
    + split; [done|]. revert Hx'. unfold target_post. destruct (forwardValidationError _ _ _); [congruence|]. cbn [tg_list].
      intros [H|H]%find_app; [congruence|]. apply List.find_some in H as [[<-|[]] _]. done.
Qed.

(** The third target of the examples, off until it is confirmed. *)
Definition demo_listed : list ListedTarget := map listed_of (forward_list (mock_targets iso_string)).
Definition demo_asked : system :=
  MkSystem (mock_targets iso_string) demo_listed (forward_step true [] demo_listed page_init (fe_row act_start 2)).1
    (map mt_id (tg_list (mock_targets iso_string))).
Lemma demo_asked_reached : sys_reached true [] [] iso_string demo_asked.
Proof.
  pose (used := map mt_id (tg_list (mock_targets iso_string))).
  apply (sr_next true [] [] iso_string (MkSystem (mock_targets iso_string) demo_listed page_init used)).
  - refine (sr_next true [] [] iso_string _ _ (sr_first true [] [] iso_string) _).
    apply (ss_list true [] [] (MkSystem (mock_targets iso_string) [] page_init used)).
  - apply (ss_event true [] [] (MkSystem (mock_targets iso_string) demo_listed page_init used) (fe_row act_start 2)).
    vm_compute. reflexivity.
Qed.
Definition demo_request : ForwardRequest :=
  match (forward_step true [] demo_listed (y_page demo_asked) fe_confirm).2 with Some r => r | None => fr_delete [] end.
Lemma copies_as_told_witness :
  let i := $"0192f0c4-4444-7000-8000-000000000003" in
  (mt_enabled <$> find_by_id i (tg_list (y_server demo_asked))) = Some false
  ∧ (mt_enabled <$> find_by_id i (tg_list (serve $"new" demo_request (y_server demo_asked)))) = Some true
  ∧ tg_tokens (serve $"new" demo_request (y_server demo_asked)) = tg_tokens (y_server demo_asked).
Proof.
  intros i. split; [vm_compute; reflexivity|]. split; [vm_compute; reflexivity|].
  assert (∀ t : ListedTarget, t ∈ [] → lt_file t = true) as Hf by (intros t Ht; by apply elem_of_nil in Ht).
  pose proof (copies_as_told true [] [] iso_string demo_asked fe_confirm (forward_step true [] demo_listed (y_page demo_asked) fe_confirm).1
    demo_request $"new" Hf demo_asked_reached ltac:(vm_compute; reflexivity)) as T.
  specialize (T ltac:(intros Hin; apply (bool_decide_eq_true_2 _) in Hin; vm_compute in Hin; discriminate) i).
  destruct (find_by_id i (tg_list (y_server demo_asked))) as [x|] eqn:Ex; [|vm_compute in Ex; discriminate].
  destruct (find_by_id i (tg_list (serve $"new" demo_request (y_server demo_asked)))) as [x'|] eqn:Ex'; [|vm_compute in Ex'; discriminate].
  apply T. intros E. vm_compute in Ex, Ex'. injection Ex as <-. injection Ex' as <-. discriminate E.
Defined.
