(* ===== verification/CatalogEditor.v ===== *)
(** The service catalog editor (src/frontend/src/features/analytics/
    ServiceCatalogEditor.tsx): its rows, its handlers, the two requests it waits for,
    and what it shows.  A handler that waits keeps the rows it was started with. *)
From Stdlib Require Import ZArith Lia.
From stdpp Require Import base list numbers strings.
From S2P Require Import Prelude Unicode SourceForm ServiceCatalog SourceEditor.
Open Scope nat_scope.

(** * The state *)

(** [cx_seq] is the counter of row keys, which all editors share; [cx_fetching] are
    the rows a reading of the shipped catalog was started with, [cx_saving] the
    services that are being saved. *)
Record CatalogEditor := MkCatalogEditor {
  cx_rows : list ServiceForm; cx_seq : nat; cx_errors : CatalogErrors; cx_saved : option jsstr; cx_notice : option jsstr; cx_dirty : bool;
  cx_fetching : option (list ServiceForm); cx_saving : option (list TrendService)
}.
Definition catalog_init (seq : nat) (services : list TrendService) : CatalogEditor :=
  let '(rows, seq) := catalogToForm seq services in MkCatalogEditor rows seq emptyCatalogErrors None None false None None.

(** * Handlers *)

Definition change (next : list ServiceForm) (x : CatalogEditor) : CatalogEditor :=
  MkCatalogEditor next (cx_seq x) (cx_errors x) None None true (cx_fetching x) (cx_saving x).
Definition set_notice (m : option jsstr) (x : CatalogEditor) : CatalogEditor :=
  MkCatalogEditor (cx_rows x) (cx_seq x) (cx_errors x) (cx_saved x) m (cx_dirty x) (cx_fetching x) (cx_saving x).
Definition set_cerrors (e : CatalogErrors) (x : CatalogEditor) : CatalogEditor :=
  MkCatalogEditor (cx_rows x) (cx_seq x) e (cx_saved x) (cx_notice x) (cx_dirty x) (cx_fetching x) (cx_saving x).

(** [Partial<ServiceForm>] with one member, and [{ ...r, ...patch }]. *)
Inductive service_patch :=
| sp_name (v : jsstr) | sp_label (v : jsstr) | sp_country (v : jsstr) | sp_domains (v : jsstr) | sp_mainDomains (v : jsstr) | sp_enabled (b : bool).
Definition patch_row (p : service_patch) (r : ServiceForm) : ServiceForm :=
  match p with
  | sp_name v => MkServiceForm (g_key r) v (g_label r) (g_domains r) (g_mainDomains r) (g_country r) (g_enabled r)
  | sp_label v => MkServiceForm (g_key r) (g_name r) v (g_domains r) (g_mainDomains r) (g_country r) (g_enabled r)
  | sp_country v => MkServiceForm (g_key r) (g_name r) (g_label r) (g_domains r) (g_mainDomains r) v (g_enabled r)
  | sp_domains v => MkServiceForm (g_key r) (g_name r) (g_label r) v (g_mainDomains r) (g_country r) (g_enabled r)
  | sp_mainDomains v => MkServiceForm (g_key r) (g_name r) (g_label r) (g_domains r) v (g_country r) (g_enabled r)
  | sp_enabled b => MkServiceForm (g_key r) (g_name r) (g_label r) (g_domains r) (g_mainDomains r) (g_country r) b
  end.
Definition replace (i : nat) (p : service_patch) (x : CatalogEditor) : CatalogEditor :=
  change (imap (λ j r, if j =? i then patch_row p r else r) (cx_rows x)) x.
Definition add_service (x : CatalogEditor) : CatalogEditor :=
  let '(f, seq) := newServiceForm (cx_seq x) [] [] [] [] [] true in
  change (cx_rows x ++ [f]) (MkCatalogEditor (cx_rows x) seq (cx_errors x) (cx_saved x) (cx_notice x) (cx_dirty x) (cx_fetching x) (cx_saving x)).
(** [rows.filter((_, j) => j !== i)] *)
Definition remove_service (i : nat) (x : CatalogEditor) : CatalogEditor := change (take i (cx_rows x) ++ drop (S i) (cx_rows x)) x.

(** Up to the [await], and after it; the answer has the shipped services, or the
    message of an error. *)
Definition fill_start (x : CatalogEditor) : CatalogEditor :=
  MkCatalogEditor (cx_rows x) (cx_seq x) (cx_errors x) None None (cx_dirty x) (Some (cx_rows x)) (cx_saving x).
Definition NOTHING_TO_FILL : jsstr := $"Nothing to fill in: every service this build ships already has a country here.".
Definition filled_notice (filled : list jsstr) : jsstr :=
  $"Filled in " ++ (match filled with [_] => $"one country" | _ => decn (length filled) ++ $" countries" end) ++ $" ("
  ++ join $", " (take 3 filled) ++ (if 3 <? length filled then $", …" else []) ++ $"). Nothing is saved until you save the catalog.".
Definition fill_done (answer : (list (jsstr * option jsstr)) + option jsstr) (x : CatalogEditor) : CatalogEditor :=
  match cx_fetching x with
  | None => x
  | Some rows =>
      let x := MkCatalogEditor (cx_rows x) (cx_seq x) (cx_errors x) (cx_saved x) (cx_notice x) (cx_dirty x) None (cx_saving x) in
      match answer with
      | inr message => set_notice (Some ($"The shipped catalog could not be read: " ++ nullish message $"unknown error")) x
      | inl services =>
          let '(next, filled) := fillCountries rows services in
          match filled with
          | [] => set_notice (Some NOTHING_TO_FILL) x
          | _ => set_notice (Some (filled_notice filled)) (change next x)
          end
      end
  end.

(** [catalog] is what the server last answered. *)
Definition revert (catalog : list TrendService) (x : CatalogEditor) : CatalogEditor :=
  let '(rows, seq) := catalogToForm (cx_seq x) catalog in
  MkCatalogEditor rows seq emptyCatalogErrors None None false (cx_fetching x) (cx_saving x).
Definition save (x : CatalogEditor) : CatalogEditor :=
  let local := validateCatalog (cx_rows x) in
  if hasCatalogErrors local then set_cerrors local x
  else MkCatalogEditor (cx_rows x) (cx_seq x) emptyCatalogErrors None (cx_notice x) (cx_dirty x) (cx_fetching x) (Some (formToServices (cx_rows x))).
Definition save_done (answer : (list TrendService * option jsstr) + SaveError) (x : CatalogEditor) : CatalogEditor :=
  match cx_saving x with
  | None => x
  | Some services =>
      match answer with
      | inl (stored, applies) =>
          let '(rows, seq) := catalogToForm (cx_seq x) stored in
          MkCatalogEditor rows seq (cx_errors x) (Some ($"Saved. The new catalog applies " ++ nullish applies $"from the next rollup" ++ $"."))
            (cx_notice x) false (cx_fetching x) None
      | inr err =>
          MkCatalogEditor (cx_rows x) (cx_seq x)
            (match xe_api err with
             | Some (_, p) => catalogProblemErrors p (xe_message err) (map sv_name services)
             | None => MkCatalogErrors [] [xe_message err]
             end) (cx_saved x) (cx_notice x) (cx_dirty x) (cx_fetching x) None
      end
  end.

(** * What is shown *)

(** The buttons above the rows with whether they can be pressed. *)
Inductive CatalogButton := cb_add | cb_fill | cb_revert | cb_save.
Definition is_some {A} (o : option A) : bool := match o with Some _ => true | None => false end.
Definition catalog_buttons (editable : bool) (x : CatalogEditor) : list (CatalogButton * jsstr * bool) :=
  if editable then
    [(cb_add, $"Add service", true);
     (cb_fill, if is_some (cx_fetching x) then $"Reading…" else $"Fill in countries", negb (is_some (cx_fetching x) || is_some (cx_saving x)));
     (cb_revert, $"Revert", negb (negb (cx_dirty x) || is_some (cx_saving x)));
     (cb_save, if is_some (cx_saving x) then $"Saving…" else $"Save catalog", negb (negb (cx_dirty x) || is_some (cx_saving x)))]
  else [].
(** The countries that can be picked: none, a stored code that has no flag, and
    the ones that have. *)
Definition country_choices (COUNTRIES : list (jsstr * jsstr)) (row : ServiceForm) : list (jsstr * jsstr) :=
  ([], $"Not set")
  :: (if truthy (g_country row) && negb (existsb (λ c, bool_decide (c.1 = g_country row)) COUNTRIES) then [(g_country row, g_country row)] else [])
  ++ COUNTRIES.
Record ServiceRowView := MkServiceRow {
  sr_row : ServiceForm; sr_countries : list (jsstr * jsstr); sr_used : jsstr; sr_counted : jsstr; sr_remove : option jsstr; sr_error : option jsstr
}.
Definition service_row (COUNTRIES : list (jsstr * jsstr)) (editable : bool) (errors : CatalogErrors) (i : nat) (row : ServiceForm) : ServiceRowView :=
  {| sr_row := row; sr_countries := country_choices COUNTRIES row;
     sr_used := $"One per line. " ++ decn (length (parseDomains (g_domains row))) ++ $" of 32 used; subdomains are covered automatically.";
     sr_counted := if g_enabled row then $"Recorded at every window." else $"Kept in the catalog, but not counted.";
     sr_remove := if editable
                  then Some ($"Remove " ++ or_else (or_else (trim (g_label row)) (trim (g_name row))) ($"service " ++ decn (i + 1))) else None;
     sr_error := match assoc_get (ce_rows errors) i with Some ((_ :: _) as m) => Some m | _ => None end |}.
Record CatalogView := MkCatalogView {
  cv_buttons : list (CatalogButton * jsstr * bool); cv_problem : option jsstr; cv_general : list jsstr; cv_saved : option jsstr;
  cv_notice : option jsstr; cv_rows : list ServiceRowView
}.
Definition ServiceCatalogPanel (COUNTRIES : list (jsstr * jsstr)) (editable : bool) (problem : option jsstr) (x : CatalogEditor) : CatalogView :=
  {| cv_buttons := catalog_buttons editable x;
     cv_problem := match problem with
                   | Some ((_ :: _) as p) => Some ($"The stored catalog could not be read, so nothing is being counted: " ++ p)
                   | _ => None
                   end;
     cv_general := ce_general (cx_errors x); cv_saved := cx_saved x; cv_notice := cx_notice x;
     cv_rows := imap (service_row COUNTRIES editable (cx_errors x)) (cx_rows x) |}.

(** * Events *)

Inductive catalog_event :=
| ke_add
| ke_patch (i : nat) (p : service_patch)
| ke_remove (i : nat)
| ke_fill
| ke_filled (answer : (list (jsstr * option jsstr)) + option jsstr)
| ke_revert (catalog : list TrendService)
| ke_save
| ke_saved (answer : (list TrendService * option jsstr) + SaveError).

Definition catalog_step (editable : bool) (x : CatalogEditor) (ev : catalog_event) : CatalogEditor :=
  let settled := negb (is_some (cx_saving x)) in
  match ev with
  | ke_filled answer => fill_done answer x
  | ke_saved answer => save_done answer x
  | _ =>
      if negb editable then x
      else match ev with
           | ke_add => add_service x
           | ke_patch i p => replace i p x
           | ke_remove i => remove_service i x
           | ke_fill => if negb (is_some (cx_fetching x)) && settled then fill_start x else x
           | ke_revert catalog => if cx_dirty x && settled then revert catalog x else x
           | ke_save => if cx_dirty x && settled then save x else x
           | _ => x
           end
  end.
Definition catalog_run (editable : bool) (x : CatalogEditor) (evs : list catalog_event) : CatalogEditor := fold_left (catalog_step editable) evs x.

(** * Properties

    What the catalog editor promises: rows keep their identity, what is not saved is
    never passed off as saved, only a catalog that passes the checks is sent, and
    what the server stores is what the rows show next. *)
From Stdlib Require Import ZArith Lia.
From stdpp Require Import base list numbers strings sets.
From S2P Require Import Prelude Unicode SourceForm SourceFormProps ServiceCatalog CatalogProps FormFields SourceEditor.
From S2P Require Import MockLogs MockAdmin MockTargets MockTargetProps.
Open Scope nat_scope.

#[export] Instance service_rows : NumberedRow ServiceForm := {| row_key := g_key; row_prefix := $"service-" |}.

Lemma catalog_keys seq services rows : keys_ok seq rows →
  let '(fs, seq') := catalogToForm seq services in seq ≤ seq' ∧ keys_ok seq' (rows ++ fs).
Proof.
  revert seq rows. induction services as [|s services IH]; intros seq rows Hk; [cbn; rewrite app_nil_r; auto|].
  cbn [catalogToForm newServiceForm]. set (f := MkServiceForm _ _ _ _ _ _ _).
  specialize (IH (seq + 1) (rows ++ [f]) (keys_snoc seq rows f eq_refl Hk)). destruct (catalogToForm (seq + 1) services) as [fs seq'].
  destruct IH as [Hs IH]. split; [lia|]. by rewrite <- app_assoc in IH.
Qed.
Lemma catalog_rows_keys seq services : let '(fs, seq') := catalogToForm seq services in seq ≤ seq' ∧ keys_ok seq' fs.
Proof. exact (catalog_keys seq services [] (keys_nil seq)). Qed.

Lemma fill_keys rows shipped : map row_key (fillCountries rows shipped).1 = map row_key rows.
Proof.
  unfold fillCountries. set (known := known_countries shipped).
  assert (map row_key (map (λ r, (fillCountry known r).1) rows) = map row_key rows) as E.
  { rewrite map_map. apply map_ext. intros r. unfold fillCountry. destruct (truthy _); [done|]. by destruct (assoc_get _ _) as [[|c l]|]. }
  cbn [fst]. by destruct (rows ≫= _).
Qed.

(** The catalogs the server has answered with. *)
Definition answered_by (ev : catalog_event) : list (list TrendService) :=
  match ev with ke_revert c => [c] | ke_saved (inl (c, _)) => [c] | _ => [] end.
(** The rows are those of a catalog. *)
Definition rows_of (catalogs : list (list TrendService)) (rows : list ServiceForm) : Prop := ∃ n c, c ∈ catalogs ∧ rows = (catalogToForm n c).1.

Record catalog_inv (editable : bool) (catalogs : list (list TrendService)) (x0 x : CatalogEditor) : Prop := {
  ki_keys : keys_ok (cx_seq x) (cx_rows x);
  ki_fetching rows : cx_fetching x = Some rows → keys_ok (cx_seq x) rows;
  ki_clean : cx_dirty x = false → rows_of catalogs (cx_rows x);
  ki_saved : cx_saved x ≠ None → cx_dirty x = false;
  ki_saving s : cx_saving x = Some s → ∃ rows, s = formToServices rows ∧ hasCatalogErrors (validateCatalog rows) = false;
  ki_readonly : editable = false → cx_rows x = cx_rows x0 ∧ cx_fetching x = None ∧ cx_saving x = None
}.
Lemma rows_of_mono a b rows : a ⊆ b → rows_of a rows → rows_of b rows.
Proof. intros Hs (n & c & Hc & E). exists n, c. auto. Qed.

Lemma catalog_step_inv editable catalogs x0 x ev : catalog_inv editable catalogs x0 x →
  catalog_inv editable (answered_by ev ++ catalogs) x0 (catalog_step editable x ev).
Proof.
  intros I. assert (catalog_inv editable (answered_by ev ++ catalogs) x0 x) as Isame.
  { destruct I. constructor; try done. intros Hd. eapply rows_of_mono; [|by apply ki_clean0]. set_solver. }
  destruct editable.
  2: { destruct (ki_readonly _ _ _ _ I eq_refl) as (_ & Hf & Hs).
       destruct ev; try exact Isame; cbn [catalog_step]; unfold fill_done, save_done; rewrite ?Hf, ?Hs; exact Isame. }
  clear I. pose proof Isame as [Hk Hf Hc Hsv Hsg _].
  destruct ev as [|i p|i| |answer|catalog| |answer]; cbn [catalog_step negb].
  - constructor; cbn; try done.
    + by apply keys_snoc.
    + intros rows Hr. eapply keys_mono; [|by apply Hf]. lia.
  - constructor; cbn; try done. eapply keys_same; [|done]. symmetry. apply keys_patch. by destruct p.
  - constructor; cbn; try done. by apply keys_remove.
  - destruct (_ && _); [|done]. constructor; cbn; try done. by intros rows [= <-].
  - unfold fill_done. destruct (cx_fetching x) as [rows|] eqn:Ef; [|done]. destruct answer as [services|m]; [|by constructor].
    pose proof (fill_keys rows services) as Ek. destruct (fillCountries rows services) as [next filled]. cbn [fst] in Ek.
    destruct filled as [|w filled]; [by constructor|]. constructor; cbn; try done. eapply keys_same; [symmetry; exact Ek|by apply Hf].
  - destruct (_ && _); [|done]. unfold revert. pose proof (catalog_rows_keys (cx_seq x) catalog) as Hr.
    destruct (catalogToForm (cx_seq x) catalog) as [rows seq'] eqn:Er. destruct Hr as [Hs Hr]. constructor; cbn; try done.
    + intros rows' Hr'. eapply keys_mono; [exact Hs|by apply Hf].
    + intros _. exists (cx_seq x), catalog. split; [left|by rewrite Er].
  - destruct (_ && _); [|done]. unfold save. destruct (hasCatalogErrors _) eqn:Ee; [by constructor|]. constructor; cbn; try done.
    intros s [= <-]. by exists (cx_rows x).
  - unfold save_done. destruct (cx_saving x) as [services|] eqn:Es; [|done]. destruct answer as [[stored applies]|err]; [|by constructor].
    pose proof (catalog_rows_keys (cx_seq x) stored) as Hr. destruct (catalogToForm (cx_seq x) stored) as [rows seq'] eqn:Er.
    destruct Hr as [Hs Hr]. constructor; cbn; try done.
    + intros rows' Hr'. eapply keys_mono; [exact Hs|by apply Hf].
    + intros _. exists (cx_seq x), stored. split; [left|by rewrite Er].
Qed.
Lemma catalog_run_inv editable x0 evs x catalogs : catalog_inv editable catalogs x0 x →
  ∃ all, all ≡ₚ (evs ≫= answered_by) ++ catalogs ∧ catalog_inv editable all x0 (catalog_run editable x evs).
Proof.
  revert x catalogs. induction evs as [|ev evs IH]; intros x catalogs I; [by exists catalogs|].
  destruct (IH _ _ (catalog_step_inv _ _ _ _ ev I)) as (all & Hp & Hi). exists all. split; [|done].
  rewrite Hp, bind_cons, app_assoc, (Permutation_app_comm (evs ≫= answered_by)). done.
Qed.
Lemma catalog_init_inv editable seq services : catalog_inv editable [services] (catalog_init seq services) (catalog_init seq services).
Proof.
  unfold catalog_init. pose proof (catalog_rows_keys seq services) as Hr. destruct (catalogToForm seq services) as [rows seq'] eqn:Er.
  destruct Hr as [_ Hr]. constructor; try done. intros _. exists seq, services. split; [left|by rewrite Er].
Qed.

(** C34: the rows of the catalog are sound, whatever is done and in whatever order answers
    come.  Rows have distinct keys; while the editor says that nothing is changed,
    or that the catalog is saved, the rows are those of a catalog the server has
    answered with; what is being saved has passed the checks; and who may not edit
    the catalog changes nothing. *)
Theorem catalog_editor_sound editable seq services evs :
  let x0 := catalog_init seq services in
  let x := catalog_run editable x0 evs in
  NoDup (map g_key (cx_rows x))
  ∧ (cx_dirty x = false ∨ cx_saved x ≠ None → rows_of ((evs ≫= answered_by) ++ [services]) (cx_rows x))
  ∧ (∀ s, cx_saving x = Some s → ∃ rows, s = formToServices rows ∧ hasCatalogErrors (validateCatalog rows) = false)
  ∧ (editable = false → cx_rows x = cx_rows x0 ∧ cx_saving x = None).
Proof.
  intros x0 x. destruct (catalog_run_inv editable x0 evs x0 [services] (catalog_init_inv editable seq services)) as (all & Hp & [Hk _ Hc Hs Hg Hr]).
  assert (all ⊆ (evs ≫= answered_by) ++ [services]) as Hsub by (intros c Hin; by rewrite <- Hp). fold x in Hk, Hc, Hs, Hg, Hr.
  split_and!; [apply Hk| |done|naive_solver]. intros Hd. apply (rows_of_mono all); [done|]. apply Hc. destruct Hd as [?|?]; [done|by apply Hs].
Qed.

(** * Saved and read back *)

Lemma run_offset_comma c : (c + run_offset lower_runs c = 44)%Z → c = 44%Z.
Proof.
  assert (forallb (λ r, let '(lo, hi, step, d) := r in negb ((lo <=? 44 - d) && (44 - d <=? hi))%Z) lower_runs = true) as H
    by (vm_compute; reflexivity).
  revert H. generalize lower_runs. induction l as [|[[[lo hi] step] d] l IH]; cbn [run_offset forallb]; [lia|].
  intros [Hr Hl]%andb_prop. destruct (_ && (_ =? 0)%Z) eqn:E; [|by apply IH]. intros Hc. exfalso.
  apply andb_prop in E as [[H1 H2]%andb_prop _]. replace (44 - d)%Z with c in Hr by lia. by rewrite H1, H2 in Hr.
Qed.
Lemma lower_comma c : (44 ∈ map_case lower_runs lower_special c → c = 44)%N.
Proof.
  unfold map_case. destruct (special_case lower_special c) as [v|] eqn:E.
  - assert (forallb (λ p : N * list N, forallb (λ u, negb (u =? 44)%N) p.2) lower_special = true) as H by (vm_compute; reflexivity).
    revert H E. generalize lower_special. induction l as [|[k w] l IH]; cbn; [done|]. intros [Hw Hl]%andb_prop.
    destruct (k =? c)%N; [|by apply IH]. intros [= <-] Hin. rewrite forallb_forall in Hw. by specialize (Hw 44%N (proj1 (list_elem_of_In _ _) Hin)).
  - intros Hin%list_elem_of_singleton. assert (Z.of_N c + run_offset lower_runs (Z.of_N c) = 44)%Z as Hz by lia.
    apply run_offset_comma in Hz. lia.
Qed.
Lemma points_comma s : (44 ∈ code_points s → 44 ∈ s)%N.
Proof.
  remember (length s) as n eqn:En. revert s En. induction (lt_wf n) as [n _ IH]. intros [|u [|v r]] ->; [done|done|].
  cbn [code_points]. destruct (is_high u && is_low v).
  - intros [?|Hin]%elem_of_cons; [lia|]. do 2 right. eapply (IH (length r)); [cbn; lia|done|done].
  - intros [<-|Hin]%elem_of_cons; [left|]. right. eapply (IH (length (v :: r))); [cbn; lia|done|done].
Qed.
Lemma to_lower_comma s : (44 ∈ to_lower s → 44 ∈ s)%N.
Proof.
  unfold to_lower, code_units. intros (c & Hu & Hc)%list_elem_of_bind. apply points_comma.
  assert (c = 44%N) as ->.
  { unfold unit_of_cp in Hu. destruct (c <? 65536)%N; [by apply list_elem_of_singleton in Hu|].
    apply elem_of_cons in Hu as [Hu|Hu%list_elem_of_singleton]; revert Hu; [generalize ((c - 65536) / 1024)%N|generalize ((c - 65536) mod 1024)%N]; intros; lia. }
  apply elem_of_lower_points in Hc as [?|(d & Hin & Hd)]; [done|]. by apply lower_comma in Hd as ->.
Qed.

(** A domain that is read back as it is. *)
Definition domain_stays (d : jsstr) : Prop := truthy d = true ∧ trim d = d ∧ to_lower d = d ∧ forallb (λ c, negb (is_line_sep c)) d = true.
Lemma parseDomains_join l : NoDup l → Forall domain_stays l → parseDomains (join [LF] l) = l.
Proof.
  intros Hn Hl. destruct l as [|d l]; [by vm_compute|]. unfold parseDomains. rewrite split_on_join; [|done|done|].
  2: { eapply Forall_impl; [exact Hl|]. by intros x (_ & _ & _ & ?). }
  replace (map _ (d :: l)) with (d :: l).
  2: { symmetry. rewrite <- (map_id (d :: l)) at 2. apply map_ext_in. intros x Hx%list_elem_of_In. rewrite Forall_forall in Hl.
       destruct (Hl x Hx) as (_ & Ht & Hlo & _). by rewrite Ht, Hlo. }
  rewrite filter_truthy by (eapply Forall_impl; [exact Hl|]; by intros x (? & _)). by apply dedup_from_id; [|intros x _ ?%elem_of_nil].
Qed.
Lemma plain_no_space d c : plain_domain d → c ∈ d → is_space c = false.
Proof.
  intros [Hp _] Hc. rewrite forallb_forall in Hp. specialize (Hp c (proj1 (list_elem_of_In _ _) Hc)). apply negb_true_iff in Hp.
  by apply orb_false_iff in Hp as [_ ?].
Qed.
Lemma parsed_stays text d : d ∈ parseDomains text → plain_domain d → to_lower d = d → domain_stays d.
Proof.
  intros Hin Hp Hl. apply dedup_from_nodup in Hin as [Hin _]. apply list_elem_of_In, filter_In in Hin as [Hin Ht].
  apply in_map_iff in Hin as (w & E & Hw%list_elem_of_In). pose proof (split_on_units is_line_sep text) as Hu. rewrite Forall_forall in Hu.
  specialize (Hu w Hw). split_and!; [done| |done|].
  - destruct d as [|c r]; [done|]. destruct (rev (c :: r)) as [|c' r'] eqn:Er; [by apply (f_equal length) in Er; rewrite length_rev in Er|].
    apply (trim_id _ c r c' r'); [done| |exact Er|].
    + apply (plain_no_space (c :: r)); [done|left].
    + apply (plain_no_space (c :: r)); [done|]. apply list_elem_of_In, in_rev. rewrite Er. by left.
  - apply forallb_forall. intros c Hc%list_elem_of_In. unfold is_line_sep. apply negb_true_iff, orb_false_iff. split; apply N.eqb_neq; intros ->.
    + pose proof (plain_no_space d _ Hp Hc) as Hs. by vm_compute in Hs.
    + rewrite <- E in Hc. apply to_lower_comma in Hc. apply (trim_units (λ c, negb (is_line_sep c))) in Hu. rewrite forallb_forall in Hu.
      specialize (Hu 44%N (proj1 (list_elem_of_In _ _) Hc)). by vm_compute in Hu.
Qed.

Lemma nullish_some_list {A} (l : list A) : nullish (some_list l) [] = l.
Proof. by destruct l. Qed.
Lemma service_round n f : service_ok (formToService f) →
  Forall (λ d, to_lower d = d) (parseDomains (g_domains f)) → Forall (λ d, to_lower d = d) (parseDomains (g_mainDomains f)) →
  map formToService (catalogToForm n [formToService f]).1 = [formToService f].
Proof.
  intros [_ _ _ Hp Hm] Hd Hmd. cbn [catalogToForm newServiceForm fst map]. f_equal. unfold formToService. cbn [sv_name sv_label sv_domains
    sv_main_domains sv_country sv_enabled g_name g_label g_domains g_mainDomains g_country g_enabled] in *. unfold formToService in Hp, Hm.
  cbn [sv_domains sv_main_domains] in Hp, Hm. rewrite nullish_some_list in Hm |- *.
  rewrite !trim_idem, !parseDomains_join; [|apply dedup_from_nodup| |apply dedup_from_nodup|].
  - f_equal. set (c := normalCountry (Some (g_country f))). replace (nullish (or_undef c) []) with c by (by destruct c).
    unfold c. by rewrite normalCountry_idem.
  - apply Forall_forall. intros d Hin. rewrite Forall_forall in Hm, Hmd. by apply (parsed_stays (g_mainDomains f)); [|apply Hm|apply Hmd].
  - apply Forall_forall. intros d Hin. rewrite Forall_forall in Hp, Hd. by apply (parsed_stays (g_domains f)); [|apply Hp|apply Hd].
Qed.
Lemma catalogToForm_cons n s l : (catalogToForm n (s :: l)).1 = (catalogToForm n [s]).1 ++ (catalogToForm (n + 1) l).1.
Proof. cbn [catalogToForm newServiceForm]. by destruct (catalogToForm (n + 1) l). Qed.
Definition lower_domains (s : TrendService) : Prop := Forall short_lower (sv_domains s) ∧ Forall short_lower (nullish (sv_main_domains s) []).
Lemma services_round n forms : Forall service_ok (formToServices forms) → Forall lower_domains (formToServices forms) →
  formToServices (catalogToForm n (formToServices forms)).1 = formToServices forms.
Proof.
  revert n. unfold formToServices. induction forms as [|f forms IH]; intros n; [done|]. cbn [map].
  intros [Hf Ho]%Forall_cons [[Hd Hm] Hl]%Forall_cons. rewrite catalogToForm_cons, map_app, (service_round n f), IH; [done|done|done|done| |].
  - eapply Forall_impl; [exact Hd|]. by intros d [_ ?].
  - unfold formToService in Hm. cbn [sv_main_domains] in Hm. rewrite nullish_some_list in Hm. eapply Forall_impl; [exact Hm|]. by intros d [_ ?].
Qed.
Lemma valid_services rows : hasCatalogErrors (validateCatalog rows) = false → Forall service_ok (formToServices rows).
Proof.
  unfold validateCatalog. cbv zeta. rewrite validateRows_clean. intros (Hr & _). unfold formToServices. apply Forall_fmap.
  eapply Forall_impl; [exact Hr|]. by intros f [? _].
Qed.

(** Errors at rows that are there, each with a text. *)
Definition at_rows (n : nat) (e : CatalogErrors) : Prop := NoDup (ce_rows e).*1 ∧ Forall (λ im, im.1 < n ∧ im.2 ≠ []) (ce_rows e).
Lemma at_rows_add n e i m : i < n → m ≠ [] → at_rows n e → at_rows n (addRowError e i m).
Proof.
  intros Hi Hm [Hn Hf]. split; [by apply assoc_set_nodup|]. apply assoc_set_forall; [done|]. split; [done|]. cbn [snd].
  destruct (assoc_get _ _) as [[|c l]|]; done.
Qed.
Lemma at_rows_if n (b : bool) e i m : i < n → m ≠ [] → at_rows n e → at_rows n (if b then addRowError e i m else e).
Proof. destruct b; [by apply at_rows_add|done]. Qed.
Lemma at_rows_fold {A} n i (f : A → option jsstr) l e : i < n → (∀ d m, f d = Some m → m ≠ []) → at_rows n e →
  at_rows n (fold_left (λ e d, row_error i (f d) e) l e).
Proof.
  intros Hi Hf. revert e. induction l as [|d l IH]; intros e He; [done|]. apply IH. unfold row_error.
  destruct (f d) as [m|] eqn:E; [|done]. apply at_rows_add; [done|by apply (Hf d)|done].
Qed.
Lemma domainError_text d m : domainError d = Some m → m ≠ [].
Proof. unfold domainError. repeat case_match; intros [= <-]; done. Qed.
Lemma validateRow_at n i f seen e : i < n → at_rows n e → at_rows n (validateRow i f seen e).
Proof.
  intros Hi He. unfold validateRow. cbv zeta. repeat (apply at_rows_fold; [done| |]).
  - intros d m. unfold mainDomainError. destruct (domainError d) as [m'|] eqn:E; [intros [= <-]; by eapply domainError_text|].
    case_bool_decide; [done|]. by intros [= <-].
  - apply domainError_text.
  - set (e1 := match serviceNameError _ with Some _ => _ | None => _ end). assert (at_rows n e1) as H1.
    { unfold e1, serviceNameError. repeat case_match; simplify_eq; try done; by apply at_rows_add. }
    clearbody e1. set (e2 := if MAX_LABEL_CHARS <? _ then _ else _). assert (at_rows n e2) as H2 by (by apply at_rows_if).
    clearbody e2. set (e3 := if existsb _ _ then _ else _). assert (at_rows n e3) as H3 by (by apply at_rows_if). clearbody e3.
    destruct (parseDomains (g_domains f)); [by apply at_rows_add|by apply at_rows_if].
Qed.
Lemma validateRows_at n i seen forms e : i + length forms ≤ n → at_rows n e → at_rows n (validateRows i seen forms e).
Proof.
  revert i seen e. induction forms as [|f forms IH]; intros i seen e Hl He; [done|]. cbn [length] in Hl. cbn [validateRows].
  apply IH; [lia|]. apply validateRow_at; [lia|done].
Qed.
Lemma validateCatalog_at forms : at_rows (length forms) (validateCatalog forms).
Proof. unfold validateCatalog. apply validateRows_at; [done|]. destruct (_ <? _); by repeat constructor. Qed.

(** C35: what is saved is what the rows show next.  A changed catalog without errors whose
    domains are lower case and of at most 253 characters is sent, stored as it was
    sent, and read back into rows that give the same services again; the editor
    then says that it is saved and has nothing left to save.  A catalog with errors
    is not sent: every error is at a row or in the list above. *)
Theorem saved_catalog_returns x stored :
  cx_dirty x = true → cx_saving x = None →
  let services := formToServices (cx_rows x) in
  let x1 := catalog_step true x ke_save in
  let view := ServiceCatalogPanel [] true None x1 in
  if hasCatalogErrors (validateCatalog (cx_rows x)) then
    cx_saving x1 = None ∧ cx_rows x1 = cx_rows x ∧ cv_general view = ce_general (validateCatalog (cx_rows x))
    ∧ ∀ i m, (i, m) ∈ ce_rows (validateCatalog (cx_rows x)) → ∃ row, cv_rows view !! i = Some row ∧ sr_error row = Some m
  else
    cx_saving x1 = Some services ∧ (Forall lower_domains services →
      catalog_put true (Some services) stored = (services, Ok services)
      ∧ let x2 := catalog_step true x1 (ke_saved (inl (services, None))) in
        formToServices (cx_rows x2) = services ∧ cx_dirty x2 = false ∧ is_Some (cx_saved x2)).
Proof.
  intros Hd Hs services x1 view. assert (x1 = save x) as Ex by (unfold x1; cbn [catalog_step negb]; by rewrite Hd, Hs).
  destruct (hasCatalogErrors (validateCatalog (cx_rows x))) eqn:Ee.
  - assert (x1 = set_cerrors (validateCatalog (cx_rows x)) x) as E1 by (rewrite Ex; unfold save; by rewrite Ee). clear Ex. clearbody x1. subst x1.
    split_and!; [exact Hs|done|done|]. intros i m Hin. destruct (validateCatalog_at (cx_rows x)) as [Hn Hf].
    rewrite Forall_forall in Hf. destruct (Hf _ Hin) as [Hi Hne]. cbn [fst snd] in Hi, Hne. apply assoc_get_elem in Hin as Hm; [|done]. apply lookup_lt_is_Some in Hi as [r Hr].
    exists (service_row [] true (validateCatalog (cx_rows x)) i r). split.
    + unfold view, ServiceCatalogPanel. cbn [cv_rows cx_errors set_cerrors cx_rows]. by rewrite list_lookup_imap, Hr.
    + unfold service_row. cbn [sr_error]. rewrite Hm. by destruct m.
  - assert (cx_saving x1 = Some services) as Es by (rewrite Ex; unfold save; by rewrite Ee). split; [done|]. intros Hl. split.
    + unfold catalog_put. cbn [negb nullish]. assert (catalogValidationError services = None) as ->; [|done]. by apply form_accepted.
    + cbn [catalog_step]. unfold save_done. rewrite Es. pose proof (services_round (cx_seq x1) (cx_rows x) (valid_services _ Ee) Hl) as Hr.
      fold services in Hr. destruct (catalogToForm (cx_seq x1) services) as [rows seq']. split_and!; [exact Hr|done|by eexists].
Qed.

Definition demo_catalog : CatalogEditor :=
  MkCatalogEditor (catalog_form $"tiktok.com, .TikTokV.com" $"tiktok.com") 1 emptyCatalogErrors None None true None None.
Lemma saved_catalog_returns_witness :
  cx_saving (catalog_step true demo_catalog ke_save) = Some (formToServices (cx_rows demo_catalog)).
Proof.
  pose proof (saved_catalog_returns demo_catalog [] eq_refl eq_refl) as T. cbv zeta in T.
  destruct (hasCatalogErrors (validateCatalog (cx_rows demo_catalog))) eqn:E; [vm_compute in E; discriminate|]. exact (proj1 T).
Defined.

(** * What gets lost *)

(** Names typed while the shipped catalog is being read are gone when it has been. *)
Theorem fill_loses_typing :
  let s := MkTrendService $"tiktok" $"TikTok" [$"tiktok.com"] None None true in
  let x := catalog_run true (catalog_init 0 [s]) [ke_fill; ke_patch 0 (sp_label $"Tik Tok"); ke_filled (inl [($"tiktok", Some $"CN")])] in
  map g_label (cx_rows x) = [$"TikTok"] ∧ map g_country (cx_rows x) = [$"CN"].
Proof. vm_compute. auto. Qed.
(** What is typed while the catalog is being saved is gone when it is, and the editor
    says that nothing is left to save. *)
Theorem save_loses_typing :
  let s := MkTrendService $"tiktok" $"TikTok" [$"tiktok.com"] None None true in
  let sent := MkTrendService $"tiktok" $"TikTok" [$"tiktok.com"] None None false in
  let x := catalog_run true (catalog_init 0 [s])
    [ke_patch 0 (sp_enabled false); ke_save; ke_patch 0 (sp_label $"Tik Tok"); ke_saved (inl ([sent], None))] in
  map g_label (cx_rows x) = [$"TikTok"] ∧ cx_dirty x = false.
Proof. vm_compute. auto. Qed.
(** The error of a row that is removed is shown at the one that takes its place. *)
Theorem row_error_stays :
  let s := λ name, MkTrendService name name [$"tiktok.com"] None None true in
  let x := catalog_run true (catalog_init 0 [s $"a"; s $"b"]) [ke_patch 0 (sp_name []); ke_save; ke_remove 0] in
  map (λ r, (g_name (sr_row r), sr_error r)) (cv_rows (ServiceCatalogPanel [] true None x)) = [($"b", Some $"A name is required.")].
Proof. vm_compute. auto. Qed.
