(* ===== verification/AnalyticsPage.v ===== *)
(** The analytics page (src/frontend/src/features/analytics): the search parameters all
    its views share, the header with its tabs (AnalyticsHeader.tsx), the breakdown
    (AnalyticsPage.tsx) with its field picker (FieldPicker.tsx), the service trends
    (ServiceTrendsView.tsx), what the three analyses ask for (DirectoryView.tsx,
    MSSQLView.tsx, IISView.tsx) and their lists (CountList.tsx). *)
From Stdlib Require Import ZArith Lia SpecFloat.
From stdpp Require Import base list numbers strings.
From S2P Require Import Prelude Unicode FilterAst Fields FilterSem JsNumber JsDate TimeRange UrlState Severity Format Analytics ServiceCatalog.
From S2P Require Import ServiceTrends ApiClient QueryCache ApiHooks AnalysisViews ServerViews FormFields SourceEditor ExplorerPage.
Open Scope nat_scope.

(** * The search parameters *)

Inductive AnalyticsViewName := view_explore | view_trends | view_directory | view_mssql | view_iis.
#[export] Instance AnalyticsViewName_eq_dec : EqDecision AnalyticsViewName.
Proof. solve_decision. Defined.

Record AnalyticsSearch := MkAnalyticsSearch {
  n_from : jsstr; n_to : jsstr; n_tz : option jsstr; n_q : option jsstr; n_native : option jsstr; n_mode : QueryMode;
  n_group : option jsstr; n_metric : SearchMetric; n_mfield : option jsstr; n_top : option jsstr; n_view : AnalyticsViewName;
  n_win : option jsstr; n_count : option jsstr; n_scope : option jsstr; n_svc : option jsstr; n_catalog : option jsstr;
  n_acct : option jsstr; n_inst : option jsstr; n_uri : option jsstr; n_slow : option jsstr; n_rows : option jsstr
}.
Inductive AnalyticsKey :=
| N_from | N_to | N_tz | N_q | N_native | N_mode | N_group | N_metric | N_mfield | N_top | N_view
| N_win | N_count | N_scope | N_svc | N_catalog | N_acct | N_inst | N_uri | N_slow | N_rows.
#[export] Instance AnalyticsKey_eq_dec : EqDecision AnalyticsKey.
Proof. solve_decision. Defined.
Definition analytics_ty (k : AnalyticsKey) : Type :=
  match k with
  | N_from | N_to => jsstr | N_mode => QueryMode | N_metric => SearchMetric | N_view => AnalyticsViewName | _ => option jsstr
  end.
Definition analytics_get (k : AnalyticsKey) (s : AnalyticsSearch) : analytics_ty k :=
  match k return analytics_ty k with
  | N_from => n_from s | N_to => n_to s | N_tz => n_tz s | N_q => n_q s | N_native => n_native s | N_mode => n_mode s
  | N_group => n_group s | N_metric => n_metric s | N_mfield => n_mfield s | N_top => n_top s | N_view => n_view s
  | N_win => n_win s | N_count => n_count s | N_scope => n_scope s | N_svc => n_svc s | N_catalog => n_catalog s
  | N_acct => n_acct s | N_inst => n_inst s | N_uri => n_uri s | N_slow => n_slow s | N_rows => n_rows s
  end.
Definition analytics_of (g : ∀ k, analytics_ty k) : AnalyticsSearch := {|
  n_from := g N_from; n_to := g N_to; n_tz := g N_tz; n_q := g N_q; n_native := g N_native; n_mode := g N_mode; n_group := g N_group;
  n_metric := g N_metric; n_mfield := g N_mfield; n_top := g N_top; n_view := g N_view; n_win := g N_win; n_count := g N_count;
  n_scope := g N_scope; n_svc := g N_svc; n_catalog := g N_catalog; n_acct := g N_acct; n_inst := g N_inst; n_uri := g N_uri;
  n_slow := g N_slow; n_rows := g N_rows |}.
#[export] Instance analytics_keyed : KeyedForm AnalyticsKey AnalyticsSearch :=
  {| form_ty := analytics_ty; form_get := analytics_get; form_of := analytics_of |}.
#[export] Instance analytics_keyed_laws : KeyedFormLaws AnalyticsKey AnalyticsSearch.
Proof.
  constructor; cbn [form_ty form_get form_of analytics_keyed].
  - intros g k. by destruct k.
  - by intros [].
  - intros g h E. unfold analytics_of. by rewrite !E.
Qed.
(** One member of a patch. *)
Abbreviation nset := (form_set (K := AnalyticsKey) (F := AnalyticsSearch)).

Section page.
Context `{Locale} `{TimeZones} (displayTz : jsstr).

Definition an_tz (s : AnalyticsSearch) : jsstr := nullish (n_tz s) displayTz.
Definition an_range (s : AnalyticsSearch) (now : Z) : result TimeError Resolved := resolveRange (n_from s) (n_to s) now (an_tz s).
(** The message of a range that does not resolve. *)
Definition range_error (r : result TimeError Resolved) : option jsstr :=
  match r with
  | Ok _ => None
  | Err (TimeRangeError m) => Some m
  | Err InvalidTimeValue => Some $"RangeError: Invalid time value"
  end.
(** The absolute range an analysis is asked for; an invalid date throws. *)
Definition apiRange (s : AnalyticsSearch) (now : Z) : result TimeError (option Range) :=
  match an_range s now with
  | Ok r => f ← toISOString (r_start r); t ← toISOString (r_end r); Ok (Some (MkRange f t (n_tz s)))
  | Err _ => Ok None
  end.

(** * The header *)

Definition view_of (id : AnalysisId) : AnalyticsViewName :=
  match id with an_dns_services => view_trends | an_directory => view_directory | an_mssql => view_mssql | an_iis => view_iis end.
(** A tab is shown for what a template feeds, and for the view that is open. *)
Definition offered (templates : option TemplatesResponse) (s : AnalyticsSearch) (id : AnalysisId) : bool :=
  analysisShown (analysisAvailability id templates) || bool_decide (n_view s = view_of id).
Definition rangePatch (id : AnalysisId) (s : AnalyticsSearch) : option (jsstr * jsstr) :=
  match id with
  | an_dns_services => trendsRangePatch (n_from s) (n_to s)
  | an_directory => directoryRangePatch (n_from s) (n_to s)
  | an_mssql => mssqlRangePatch (n_from s) (n_to s)
  | an_iis => iisRangePatch (n_from s) (n_to s)
  end.
Definition select_explore (s : AnalyticsSearch) : AnalyticsSearch := nset N_view view_explore s.
Definition select_view (id : AnalysisId) (s : AnalyticsSearch) : AnalyticsSearch :=
  let s' := nset N_view (view_of id) s in
  match rangePatch id s with Some (f, t) => nset N_to t (nset N_from f s') | None => s' end.
Record ViewTab := MkViewTab { vt_view : AnalyticsViewName; vt_label : jsstr; vt_active : bool }.
Definition view_tab (s : AnalyticsSearch) (v : AnalyticsViewName) (label : jsstr) : ViewTab := MkViewTab v label (bool_decide (n_view s = v)).
Definition header_tabs (templates : option TemplatesResponse) (s : AnalyticsSearch) : list ViewTab :=
  view_tab s view_explore $"Explore"
  :: ([an_dns_services; an_directory; an_mssql; an_iis] ≫= λ id,
        if offered templates s id then [view_tab s (view_of id) (am_label (ANALYSES id))] else []).
Definition an_time (from to : jsstr) (tz : option jsstr) (s : AnalyticsSearch) : AnalyticsSearch :=
  nset N_tz (match tz with Some z => if truthy z && negb (bool_decide (z = displayTz)) then Some z else None | None => None end)
    (nset N_to to (nset N_from from s)).
Definition an_zoom (now : Z) (s : AnalyticsSearch) : AnalyticsSearch :=
  match zoomOut (n_from s) (n_to s) now (an_tz s) with Ok (f, t) => nset N_to t (nset N_from f s) | Err _ => s end.

(** ** Which view *)

Inductive AnalyticsBody := body_explore | body_view (id : AnalysisId) | body_gate (id : AnalysisId) (title hint : jsstr) (add_source : bool).
Definition AnalysisGate (templates : option TemplatesResponse) (may_manage : bool) (id : AnalysisId) : AnalyticsBody :=
  match analysisAvailability id templates with
  | av_unavailable => let '(title, hint) := analysisGateMessage id templates in body_gate id title hint may_manage
  | _ => body_view id
  end.
Definition AnalyticsPage (templates : option TemplatesResponse) (may_manage : bool) (s : AnalyticsSearch) : AnalyticsBody :=
  match n_view s with
  | view_trends => AnalysisGate templates may_manage an_dns_services
  | view_directory => AnalysisGate templates may_manage an_directory
  | view_mssql => AnalysisGate templates may_manage an_mssql
  | view_iis => AnalysisGate templates may_manage an_iis
  | view_explore => body_explore
  end.

(** * The breakdown *)

Definition an_query (s : AnalyticsSearch) : DecodedQuery := decodeQuery (n_q s) (n_native s).
Definition an_analytics (s : AnalyticsSearch) : AnalyticsQuery :=
  decodeAnalytics (MkAnalyticsParams (n_group s) (n_metric s) (n_mfield s) (n_top s)).
Definition selection_over (start end_ : option Z) (s : AnalyticsSearch) : result TimeError (option Selection) :=
  withoutPipes ∘ Some <$> buildSelection start end_ (dq_filter (an_query s)) (dq_native (an_query s)) (n_tz s).
Definition an_selection (s : AnalyticsSearch) (now : Z) : result TimeError (option Selection) :=
  match an_range s now, dq_error (an_query s) with
  | Ok r, None => selection_over (r_start r) (r_end r) s
  | _, _ => Ok None
  end.
(** The window of the same length before it. *)
Definition an_previous (s : AnalyticsSearch) (now : Z) : result TimeError (option Selection) :=
  match an_range s now, dq_error (an_query s) with
  | Ok r, None =>
      match r_start r, r_end r with
      | Some a, Some b => let '(p, q) := previousRange a b in selection_over p q s
      | _, _ => Err InvalidTimeValue
      end
  | _, _ => Ok None
  end.
Definition an_series (s : AnalyticsSearch) (sel : option Selection) (runId : Z) : UseQuery :=
  let q := an_analytics s in useSeries sel (aq_groupBy q) (aq_metric q) (aq_limit q) (num runId) (num SERIES_BUCKETS).
Definition an_breakdown (s : AnalyticsSearch) (sel : option Selection) (runId : Z) : UseQuery :=
  let q := an_analytics s in useBreakdown sel (aq_groupBy q) (aq_metric q) (aq_limit q) (num runId).

(** [setQuery({ ... })] of the controls. *)
Definition put_analytics (q : AnalyticsQuery) (s : AnalyticsSearch) : AnalyticsSearch :=
  let p := encodeAnalytics q in
  nset N_top (ap_top p) (nset N_mfield (ap_mfield p) (nset N_metric (ap_metric p) (nset N_group (ap_group p) s))).
Definition an_groupBy (f : jsstr) (s : AnalyticsSearch) : AnalyticsSearch :=
  let q := an_analytics s in put_analytics (MkAnalyticsQuery f (aq_metric q) (aq_limit q)) s.
Definition an_metric (unique : bool) (s : AnalyticsSearch) : AnalyticsSearch :=
  let q := an_analytics s in
  put_analytics (MkAnalyticsQuery (aq_groupBy q)
    (if unique then MkMetric mt_count_distinct (Some (nullish (m_field (aq_metric q)) $"source_ip")) else MkMetric mt_count None) (aq_limit q)) s.
Definition an_field (f : jsstr) (s : AnalyticsSearch) : AnalyticsSearch :=
  let q := an_analytics s in put_analytics (MkAnalyticsQuery (aq_groupBy q) (MkMetric mt_count_distinct (Some f)) (aq_limit q)) s.
Definition an_limit (n : Z) (s : AnalyticsSearch) : AnalyticsSearch :=
  let q := an_analytics s in put_analytics (MkAnalyticsQuery (aq_groupBy q) (aq_metric q) (num n)) s.

Definition an_setFilter (next : option FilterExpr) (s : AnalyticsSearch) : AnalyticsSearch := nset N_q (encodeFilter next) s.
Definition an_native (t : jsstr) (s : AnalyticsSearch) : AnalyticsSearch := nset N_native (if truthy (trim t) then Some t else None) s.
Definition an_mode (m : QueryMode) (s : AnalyticsSearch) : AnalyticsSearch := nset N_mode m s.
(** A click on a value of the breakdown, and the link beside it. *)
Definition an_pick (value : jsstr) (s : AnalyticsSearch) : AnalyticsSearch :=
  an_setFilter (addValueFilter (dq_filter (an_query s)) (aq_groupBy (an_analytics s)) value false) s.
Definition explorerSearch (s : AnalyticsSearch) (value : jsstr) : ExplorerSearch :=
  MkExplorerSearch (n_from s) (n_to s) (n_tz s)
    (encodeFilter (addValueFilter (dq_filter (an_query s)) (aq_groupBy (an_analytics s)) value false)) (n_native s) (n_mode s) None None None.

(** What stands below the controls. *)
Inductive ExploreBody := eb_choose_field | eb_invalid (m : jsstr) | eb_panels.
Definition explore_body (s : AnalyticsSearch) (now : Z) : ExploreBody :=
  if negb (metricComplete (aq_metric (an_analytics s))) then eb_choose_field
  else match dq_error (an_query s), range_error (an_range s now) with
       | Some m, _ => eb_invalid m
       | None, Some m => eb_invalid m
       | None, None => eb_panels
       end.
(** The cell of the change: three dots while it loads, a dash when nothing is known,
    and how it is coloured otherwise. *)
Inductive DeltaTone := dt_subtle | dt_success | dt_warning.
Inductive DeltaView := dv_loading | dv_dash | dv_text (tone : DeltaTone) (text : jsstr).
Definition DeltaCell (delta : option Delta) (loading : bool) : DeltaView :=
  match delta with
  | None => if loading then dv_loading else dv_dash
  | Some d =>
      if decide (dl_kind d = d_unknown) then dv_dash
      else dv_text (if negb (dl_significant d) || bool_decide (dl_kind d = d_flat) then dt_subtle
                    else if decide (dl_kind d = d_down) then dt_success else dt_warning)
             (if decide (dl_kind d = d_new) then $"new" else dl_label d)
  end.
(** Durations of whole milliseconds, of which the quotients are rounded half up. *)
Definition describePrevious (range : option (Z * Z)) : jsstr :=
  match range with
  | None => $"previous period"
  | Some (a, b) =>
      let minutes := (((b - a) + 30000) / 60000)%Z in
      if (minutes <? 60)%Z then $"previous " ++ decz minutes ++ $" minutes"
      else if (minutes mod 1440 =? 0)%Z then
        let days := (minutes / 1440)%Z in if (days =? 1)%Z then $"previous day" else $"previous " ++ decz days ++ $" days"
      else
        let hours := ((minutes + 30) / 60)%Z in if (hours =? 1)%Z then $"previous hour" else $"previous " ++ decz hours ++ $" hours"
  end.
End page.

(** * The field picker *)

Section picker.
Context (localeCompare : jsstr → jsstr → Z).

Record ListedField := MkListedField { lf_name : jsstr; lf_count : option Number }.
Record FieldPicker := MkPicker { fk_open : bool; fk_text : jsstr; fk_active : Z }.
Definition picker_init : FieldPicker := MkPicker false [] 0.
(** [(b.count ?? 0) - (a.count ?? 0) || a.name.localeCompare(b.name)] *)
Definition by_field_count (a b : ListedField) : Z :=
  let d := nsub (nullish (lf_count b) (num 0)) (nullish (lf_count a) (num 0)) in
  if ngt d (num 0) then 1%Z else if nlt d (num 0) then (-1)%Z else localeCompare (lf_name a) (lf_name b).
Definition picker_matches (fields : list ListedField) (text : jsstr) : list ListedField :=
  let q := to_lower (trim text) in
  take 50 (array_sort by_field_count
    (List.filter (λ f, includes q (to_lower (lf_name f)))
      (map (λ f, MkListedField (apiFieldName (lf_name f)) (lf_count f))
        (List.filter (λ f, negb (bool_decide (lf_name f ∈ HIDDEN_FIELDS))) fields)))).
(** What was typed, when no match has that name. *)
Definition picker_custom (fields : list ListedField) (text : jsstr) : option jsstr :=
  let typed := trim text in
  if truthy typed && negb (existsb (λ f, bool_decide (lf_name f = typed)) (picker_matches fields text)) then Some typed else None.
Definition picker_options (fields : list ListedField) (text : jsstr) : list jsstr :=
  (match picker_custom fields text with Some c => [c] | None => [] end) ++ map lf_name (picker_matches fields text).

Inductive picker_event :=
| pk_open (o : bool) | pk_type (text : jsstr) | pk_down | pk_up | pk_enter | pk_click (i : nat).
Definition picker_commit : FieldPicker := MkPicker false [] 0.
(** The picker after an event, and the field it has chosen. *)
Definition picker_step (fields : list ListedField) (p : FieldPicker) (ev : picker_event) : FieldPicker * option jsstr :=
  let options := picker_options fields (fk_text p) in
  match ev with
  | pk_open true => (MkPicker true [] 0, None)
  | pk_open false => (MkPicker false (fk_text p) (fk_active p), None)
  | pk_type text => (MkPicker (fk_open p) text 0, None)
  | pk_down => (MkPicker (fk_open p) (fk_text p) (Z.min (Z.of_nat (length options) - 1) (fk_active p + 1)), None)
  | pk_up => (MkPicker (fk_open p) (fk_text p) (Z.max 0 (fk_active p - 1)), None)
  | pk_enter =>
      let chosen := nullish (at_index options (fk_active p)) (trim (fk_text p)) in
      if truthy chosen then (picker_commit, Some chosen) else (p, None)
  | pk_click i => match options !! i with Some f => (picker_commit, Some f) | None => (p, None) end
  end.
(** The options with whether one is current and whether it is highlighted. *)
Definition picker_list (fields : list ListedField) (value : jsstr) (p : FieldPicker) : list (jsstr * bool * bool) :=
  imap (λ i f, (f, bool_decide (f = value), (Z.of_nat i =? fk_active p)%Z)) (picker_options fields (fk_text p)).
End picker.

(** * Service trends *)

Section trends.
Context `{Locale} `{TimeZones} (displayTz : jsstr).

Definition tr_query (s : AnalyticsSearch) : ServiceTrendQuery := decodeServiceTrends (MkTrendParams (n_win s) (n_count s) (n_scope s) (n_svc s)).
(** What is wrong with the range for its window. *)
Definition tooLong (s : AnalyticsSearch) (now : Z) : option jsstr :=
  match an_range displayTz s now with
  | Ok (MkResolved (Some a) (Some b)) => rangeTooLong a b (tq_window (tr_query s))
  | _ => None
  end.
Definition tooShort (s : AnalyticsSearch) (now : Z) : option jsstr :=
  match an_range displayTz s now, tooLong s now with
  | Ok (MkResolved (Some a) (Some b)), None => rangeTooShort a b (tq_window (tr_query s))
  | _, _ => None
  end.
Definition trendsRange (s : AnalyticsSearch) (now : Z) : result TimeError (option Range) :=
  match tooLong s now, tooShort s now with
  | None, None => apiRange displayTz s now
  | _, _ => Ok None
  end.
Definition api_metric_name (m : TrendMetric) : jsstr := match m with tm_unique_clients => $"unique_clients" | tm_queries => $"queries" end.
Definition scope_name (sc : TrendScope) : jsstr := match sc with ts_all => $"all" | ts_main => $"main" end.
Definition trends_request (s : AnalyticsSearch) (r : option Range) : UseQuery :=
  let q := tr_query s in
  useServiceTrends r (window_name (tq_window q)) (api_metric_name (trendApiMetric (tq_metric q))) (scope_name (tq_scope q)) (tq_services q) true.

Definition put_trends (q : ServiceTrendQuery) (s : AnalyticsSearch) : AnalyticsSearch :=
  let p := encodeServiceTrends q in
  nset N_svc (tp_svc p) (nset N_scope (tp_scope p) (nset N_count (tp_count p) (nset N_win (tp_win p) s))).
Definition tr_window (w : TrendWindow) (s : AnalyticsSearch) : AnalyticsSearch :=
  let q := tr_query s in put_trends (MkTrendQuery w (tq_metric q) (tq_scope q) (tq_services q)) s.
Definition tr_metric (m : TrendView) (s : AnalyticsSearch) : AnalyticsSearch :=
  let q := tr_query s in put_trends (MkTrendQuery (tq_window q) m (tq_scope q) (tq_services q)) s.
Definition tr_scope (sc : TrendScope) (s : AnalyticsSearch) : AnalyticsSearch :=
  let q := tr_query s in put_trends (MkTrendQuery (tq_window q) (tq_metric q) sc (tq_services q)) s.
Definition tr_services (l : list jsstr) (s : AnalyticsSearch) : AnalyticsSearch :=
  let q := tr_query s in put_trends (MkTrendQuery (tq_window q) (tq_metric q) (tq_scope q) l) s.
Definition tr_toggle (name : jsstr) (on : bool) (s : AnalyticsSearch) : AnalyticsSearch :=
  let l := tq_services (tr_query s) in
  tr_services (if on then l ++ [name] else List.filter (λ n, negb (bool_decide (n = name))) l) s.
Definition catalogOpen (s : AnalyticsSearch) : bool := bool_decide (n_catalog s = Some $"1").
Definition tr_catalog (s : AnalyticsSearch) : AnalyticsSearch := nset N_catalog (if catalogOpen s then None else Some $"1") s.
Definition tr_last_day (s : AnalyticsSearch) : AnalyticsSearch := nset N_to DEFAULT_TREND_RANGE.2 (nset N_from DEFAULT_TREND_RANGE.1 s).

(** What the view has of its answer: the data of the last one stays when a request fails. *)
Record TrendsState := MkTrendsState {
  tn_error : option thrown; tn_loading : bool; tn_data : option ServiceTrendResponse; tn_peak : option ServiceTrendPeak; tn_hint : option jsstr
}.
Definition notConfigured (q : TrendsState) : bool :=
  match tn_error q with Some (ThrownApi e) => bool_decide (ae_code e = Some $"not_configured") | _ => false end.
Inductive TrendsBody :=
| tb_too_long (m : jsstr) | tb_too_short (m : jsstr) | tb_not_configured | tb_error | tb_loading | tb_empty (title hint : jsstr)
| tb_chart (chart : TrendChartData).
Definition trends_body (s : AnalyticsSearch) (now : Z) (services : list TrendService) (q : TrendsState) : TrendsBody :=
  match tooLong s now, tooShort s now with
  | Some ((_ :: _) as m), _ => tb_too_long m
  | _, Some ((_ :: _) as m) => tb_too_short m
  | _, _ =>
      if notConfigured q then tb_not_configured
      else if given (tn_error q) then tb_error
      else if tn_loading q then tb_loading
      else
        let chart := trendChartData (tn_data q) TREND_SERIES_SHOWN (tq_metric (tr_query s)) in
        match tc_series chart with
        | [] =>
            let scopeEmpty := match tq_scope (tr_query s) with ts_main => mainScopeEmptyHint services (tq_services (tr_query s)) | ts_all => None end in
            tb_empty (if given scopeEmpty then $"No main domains to count" else $"Nothing recorded in this window")
              (nullish scopeEmpty (nullish (tn_hint q)
                 $"Widen the time range, choose another window, or check that the services you expect are enabled in the catalog."))
        | _ => tb_chart chart
        end
  end.
(** The callout goes quiet whenever the chart does. *)
Definition trends_peak (s : AnalyticsSearch) (now : Z) (q : TrendsState) : option ServiceTrendPeak :=
  match tooLong s now, tooShort s now with
  | None, None => if notConfigured q then None else tn_peak q
  | _, _ => None
  end.
Inductive CatalogSlot := slot_closed | slot_no_database | slot_error | slot_editor (editable : bool) | slot_loading.
Definition catalog_slot (s : AnalyticsSearch) (may_manage : bool) (error : option thrown) (loaded : bool) : CatalogSlot :=
  if negb (catalogOpen s) then slot_closed
  else match error with
       | Some (ThrownApi e) => if bool_decide (ae_code e = Some $"not_configured") then slot_no_database else slot_error
       | Some _ => slot_error
       | None => if loaded then slot_editor may_manage else slot_loading
       end.
End trends.

(** * The analyses *)

Definition dir_query (s : AnalyticsSearch) : DirectoryQuery := decodeDirectory (n_acct s) (n_rows s).
Definition dir_request (s : AnalyticsSearch) (r : option Range) : UseQuery :=
  useDirectory r (directoryFilter (dq_account (dir_query s))) (dq_rows (dir_query s)) true.
Definition put_directory (q : DirectoryQuery) (s : AnalyticsSearch) : AnalyticsSearch :=
  let '(acct, rows) := encodeDirectory q in nset N_rows rows (nset N_acct acct s).
Definition dir_account (account : jsstr) (s : AnalyticsSearch) : AnalyticsSearch := put_directory (MkDirectoryQuery account (dq_rows (dir_query s))) s.
Definition dir_rows (n : Z) (s : AnalyticsSearch) : AnalyticsSearch := put_directory (MkDirectoryQuery (dq_account (dir_query s)) (num n)) s.

Definition sql_query (s : AnalyticsSearch) : MSSQLQuery := decodeMSSQL (n_inst s) (n_rows s).
Definition sql_request (s : AnalyticsSearch) (r : option Range) : UseQuery :=
  useMSSQL r (mssqlFilter (mq_instance (sql_query s))) (mq_rows (sql_query s)) true.
Definition put_mssql (q : MSSQLQuery) (s : AnalyticsSearch) : AnalyticsSearch :=
  let '(inst, rows) := encodeMSSQL q in nset N_rows rows (nset N_inst inst s).
Definition sql_instance (instance : jsstr) (s : AnalyticsSearch) : AnalyticsSearch := put_mssql (MkMSSQLQuery instance (mq_rows (sql_query s))) s.
Definition sql_rows (n : Z) (s : AnalyticsSearch) : AnalyticsSearch := put_mssql (MkMSSQLQuery (mq_instance (sql_query s)) (num n)) s.

Definition iis_query (s : AnalyticsSearch) : IISQuery := decodeIIS (n_uri s) (n_rows s) (n_slow s).
Definition iis_request (s : AnalyticsSearch) (r : option Range) : UseQuery :=
  useIIS r (iisFilter (iq_url (iis_query s))) (iq_rows (iis_query s)) (iq_slowMillis (iis_query s)) true.
Definition put_iis (q : IISQuery) (s : AnalyticsSearch) : AnalyticsSearch :=
  let '(uri, rows, slow) := encodeIIS q in nset N_slow slow (nset N_rows rows (nset N_uri uri s)).
Definition iis_url (url : jsstr) (s : AnalyticsSearch) : AnalyticsSearch :=
  let q := iis_query s in put_iis (MkIISQuery url (iq_rows q) (iq_slowMillis q)) s.
Definition iis_rows (n : Z) (s : AnalyticsSearch) : AnalyticsSearch :=
  let q := iis_query s in put_iis (MkIISQuery (iq_url q) (num n) (iq_slowMillis q)) s.
Definition iis_slow (n : Z) (s : AnalyticsSearch) : AnalyticsSearch :=
  let q := iis_query s in put_iis (MkIISQuery (iq_url q) (iq_rows q) (num n)) s.

(** ** Lists *)

(** The rows show labels; a click is told the label and passes on a value. *)
Inductive CountView := ct_loading | ct_empty (hint : jsstr) | ct_rows (rows : list (jsstr * Number)).
Definition CountList (label : AnalysisCount → jsstr) (counts : list AnalysisCount) (loading : bool) (empty : jsstr) : CountView :=
  if loading then ct_loading
  else match counts with [] => ct_empty empty | _ => ct_rows (map (λ c, (label c, ac_count c)) counts) end.
Definition count_select (label : AnalysisCount → jsstr) (counts : list AnalysisCount) (shown : jsstr) : jsstr :=
  nullish (assoc_get (map_of (map (λ c, (label c, ac_value c)) counts)) shown) shown.

(** * Properties

    What the analytics page promises: a control changes its own setting and nothing
    else, the views keep out of each other's way, a row of the breakdown opens the
    logs behind it, and the change is against the window before. *)
From Stdlib Require Import ZArith Lia SpecFloat.
From stdpp Require Import base list numbers strings.
From S2P Require Import Prelude Unicode FilterAst FilterText FilterTextFacts FilterRoundTrip Fields FilterSem JsNumber JsNumberFacts JsDate TimeRange UrlState Severity Format.
From S2P Require Import Analytics ServiceTrends AnalyticsProps ApiClient QueryCache ApiHooks AnalysisViews ServerViews FormFields ExplorerPage ExplorerProps.
Open Scope nat_scope.

(** * Settings *)

(** Only these parameters may differ. *)
Definition only (keys : list AnalyticsKey) (s s' : AnalyticsSearch) : Prop := ∀ k, k ∉ keys → analytics_get k s' = analytics_get k s.
Lemma only_set k v s : only [k] s (nset k v s).
Proof. intros k' Hk. apply (get_set_ne k k' v s). intros ->. apply Hk. left. Qed.
Lemma only_trans a b s s' s'' : only a s s' → only b s' s'' → only (a ++ b) s s''.
Proof. intros H1 H2 k Hk. rewrite H2, H1; [done|..]; intros Hin; apply Hk, elem_of_app; auto. Qed.
Lemma only_mono a b s s' : a ⊆ b → only a s s' → only b s s'.
Proof. intros Hs H k Hk. apply H. intros Hin. by apply Hk, Hs. Qed.

Definition EXPLORE_KEYS := [N_group; N_metric; N_mfield; N_top].
Definition TRENDS_KEYS := [N_win; N_count; N_scope; N_svc].
Definition DIRECTORY_KEYS := [N_acct; N_rows].
Definition MSSQL_KEYS := [N_inst; N_rows].
Definition IIS_KEYS := [N_uri; N_rows; N_slow].

Lemma put_analytics_only q s : only EXPLORE_KEYS s (put_analytics q s).
Proof.
  unfold put_analytics. eapply only_mono; [|do 3 (eapply only_trans; [|apply only_set]); apply only_set].
  by intros k Hk.
Qed.
Lemma put_trends_only q s : only TRENDS_KEYS s (put_trends q s).
Proof.
  unfold put_trends. eapply only_mono; [|do 3 (eapply only_trans; [|apply only_set]); apply only_set].
  by intros k Hk.
Qed.
Lemma put_directory_only q s : only DIRECTORY_KEYS s (put_directory q s).
Proof.
  unfold put_directory. destruct (encodeDirectory q). eapply only_mono; [|eapply only_trans; [|apply only_set]; apply only_set]. by intros k Hk.
Qed.
Lemma put_mssql_only q s : only MSSQL_KEYS s (put_mssql q s).
Proof. unfold put_mssql. destruct (encodeMSSQL q). eapply only_mono; [|eapply only_trans; [|apply only_set]; apply only_set]. by intros k Hk. Qed.
Lemma put_iis_only q s : only IIS_KEYS s (put_iis q s).
Proof.
  unfold put_iis. destruct (encodeIIS q) as [[? ?] ?].
  eapply only_mono; [|do 2 (eapply only_trans; [|apply only_set]); apply only_set]. by intros k Hk.
Qed.

Lemma put_analytics_get q s : analytics_ok q → an_analytics (put_analytics q s) = q.
Proof. intros Hq. rewrite <- (analytics_round q Hq) at 2. by destruct q. Qed.
Lemma put_trends_get q s : trends_ok q → tr_query (put_trends q s) = q.
Proof. intros Hq. rewrite <- (trends_round q Hq) at 2. by destruct q. Qed.

(** The rows and the threshold a search decodes to are choices that are offered. *)
Lemma option_or_ok options x d : Forall (λ o, 0 < o < 2 ^ 52)%Z options → d ∈ options → ∃ o, o ∈ options ∧ option_or options x d = num o.
Proof.
  intros Hall Hd. unfold option_or. destruct (existsb _ _) eqn:E; [|by exists d].
  apply existsb_exists in E as (o & Ho%list_elem_of_In & E). exists o. split; [done|]. rewrite Forall_forall in Hall.
  by apply neq_num_eq; [apply Hall|].
Qed.
Lemma rows_ok x : ∃ o, o ∈ row_options ∧ option_or row_options x default_rows = num o.
Proof. apply option_or_ok; [repeat constructor; lia|]. right. left. Qed.
Lemma slow_ok x : ∃ o, o ∈ IIS_SLOW_OPTIONS ∧ option_or IIS_SLOW_OPTIONS x DEFAULT_IIS_SLOW_MILLIS = num o.
Proof. apply option_or_ok; [repeat constructor; lia|]. right. right. left. Qed.

Lemma text_trimmed (o : option jsstr) : trim (nullish (trim <$> o) []) = nullish (trim <$> o) [].
Proof. destruct o; [apply trim_idem|by vm_compute]. Qed.
Lemma put_directory_get text o s : trim text = text → o ∈ row_options → dir_query (put_directory (MkDirectoryQuery text (num o)) s) = MkDirectoryQuery text (num o).
Proof. intros Ht Ho. destruct (views_round_trip text o 250 Ht Ho ltac:(left)) as (H & _ & _). exact H. Qed.
Lemma put_mssql_get text o s : trim text = text → o ∈ row_options → sql_query (put_mssql (MkMSSQLQuery text (num o)) s) = MkMSSQLQuery text (num o).
Proof. intros Ht Ho. destruct (views_round_trip text o 250 Ht Ho ltac:(left)) as (_ & H & _). exact H. Qed.
Lemma put_iis_get text o sl s : trim text = text → o ∈ row_options → sl ∈ IIS_SLOW_OPTIONS →
  iis_query (put_iis (MkIISQuery text (num o) (num sl)) s) = MkIISQuery text (num o) (num sl).
Proof. intros Ht Ho Hs. destruct (views_round_trip text o sl Ht Ho Hs) as (_ & _ & H). exact H. Qed.

Lemma an_analytics_ok s : analytics_ok (an_analytics s).
Proof. apply decodeAnalytics_ok. Qed.
Lemma tr_query_ok s : trends_ok (tr_query s).
Proof. apply decodeServiceTrends_ok. Qed.
(** A query of the breakdown or of the trends with a member exchanged. *)
Lemma set_analytics s q : analytics_ok q → an_analytics (put_analytics q s) = q ∧ only EXPLORE_KEYS s (put_analytics q s).
Proof. intros Hq. split; [by apply put_analytics_get|apply put_analytics_only]. Qed.
Lemma set_trends s q : trends_ok q → tr_query (put_trends q s) = q ∧ only TRENDS_KEYS s (put_trends q s).
Proof. intros Hq. split; [by apply put_trends_get|apply put_trends_only]. Qed.

(** The breakdown's controls. *)
Definition explore_controls (s : AnalyticsSearch) : Prop :=
  let q := an_analytics s in
  (∀ f, text_ok f = true →
     (an_analytics (an_groupBy f s) = MkAnalyticsQuery f (aq_metric q) (aq_limit q) ∧ only EXPLORE_KEYS s (an_groupBy f s))
     ∧ an_analytics (an_field f s) = MkAnalyticsQuery (aq_groupBy q) (MkMetric mt_count_distinct (Some f)) (aq_limit q)
     ∧ only EXPLORE_KEYS s (an_field f s))
  ∧ (∀ n, n ∈ TOP_OPTIONS → an_analytics (an_limit n s) = MkAnalyticsQuery (aq_groupBy q) (aq_metric q) (num n) ∧ only EXPLORE_KEYS s (an_limit n s))
  ∧ (∀ unique, aq_groupBy (an_analytics (an_metric unique s)) = aq_groupBy q ∧ aq_limit (an_analytics (an_metric unique s)) = aq_limit q
     ∧ metricComplete (aq_metric (an_analytics (an_metric unique s))) = true
     ∧ metricIsAdditive (aq_metric (an_analytics (an_metric unique s))) = negb unique ∧ only EXPLORE_KEYS s (an_metric unique s)).
Lemma explore_controls_ok s : explore_controls s.
Proof.
  destruct (an_analytics_ok s) as [Hg Hm Hl]. split_and!.
  - intros f Hf. split; [apply set_analytics; by constructor|]. apply set_analytics. by constructor.
  - intros n Hn. apply set_analytics. constructor; [done|done|by exists n].
  - intros unique. unfold an_metric. match goal with |- context [put_analytics ?w s] => set (q' := w) end.
    assert (analytics_ok q') as Hq'.
    { constructor; [done| |done]. unfold q'. cbn [aq_metric]. destruct unique; [|done].
      destruct (aq_metric (an_analytics s)) as [ty [f|]]; cbn [m_field nullish]; [by destruct ty|vm_compute; reflexivity]. }
    destruct (set_analytics s q' Hq') as [-> Ho]. split_and!; [done|done| |by destruct unique|done].
    unfold q'. cbn [aq_metric]. destruct unique; [|done]. destruct Hq' as [_ Hm' _]. cbn in Hm' |- *. by apply text_ok_inv in Hm' as [? ?].
Qed.

(** The controls of the trends; a box turns its service on or off. *)
Definition trends_controls (s : AnalyticsSearch) : Prop :=
  let q := tr_query s in
  (∀ w, tr_query (tr_window w s) = MkTrendQuery w (tq_metric q) (tq_scope q) (tq_services q) ∧ only TRENDS_KEYS s (tr_window w s))
  ∧ (∀ m, tr_query (tr_metric m s) = MkTrendQuery (tq_window q) m (tq_scope q) (tq_services q) ∧ only TRENDS_KEYS s (tr_metric m s))
  ∧ (∀ sc, tr_query (tr_scope sc s) = MkTrendQuery (tq_window q) (tq_metric q) sc (tq_services q) ∧ only TRENDS_KEYS s (tr_scope sc s))
  ∧ (∀ name, text_ok name && forallb (λ c, negb (c =? COMMA)%N) name = true →
       let s' := tr_toggle name (negb (bool_decide (name ∈ tq_services q))) s in
       (∀ n, n ∈ tq_services (tr_query s') ↔ if decide (n = name) then name ∉ tq_services q else n ∈ tq_services q) ∧ only TRENDS_KEYS s s').
Lemma trends_controls_ok s : trends_controls s.
Proof.
  destruct (tr_query_ok s) as [Hn Hd]. split_and!; [intros; apply set_trends; by constructor..|].
  intros name Hname s'. unfold s', tr_toggle, tr_services. case_bool_decide as Hin; cbn [negb].
  - match goal with |- context [put_trends ?w s] => set (q' := w) end. destruct (set_trends s q') as [-> Ho].
    { constructor; cbn [tq_services q'].
      - rewrite Forall_forall in Hn |- *. intros n Hx. apply Hn. apply list_elem_of_In, filter_In in Hx as [Hx _]. by apply list_elem_of_In.
      - apply NoDup_ListNoDup, List.NoDup_filter. by apply NoDup_ListNoDup. }
    split; [|done]. intros n. cbn [tq_services q']. rewrite list_elem_of_In, filter_In, <- list_elem_of_In, negb_true_iff, bool_decide_eq_false.
    case_decide; naive_solver.
  - match goal with |- context [put_trends ?w s] => set (q' := w) end. destruct (set_trends s q') as [-> Ho].
    { constructor; cbn [tq_services q']; [apply Forall_app; split; [done|by apply Forall_singleton]|].
      apply NoDup_app. split_and!; [done| |apply NoDup_singleton]. intros x Hx ->%list_elem_of_singleton. done. }
    split; [|done]. intros n. cbn [tq_services q']. rewrite elem_of_app, list_elem_of_singleton. case_decide; naive_solver.
Qed.

(** The controls of the analyses; what is picked is trimmed already. *)
Definition analysis_controls (s : AnalyticsSearch) : Prop :=
  (∀ t, trim t = t →
     (dir_query (dir_account t s) = MkDirectoryQuery t (dq_rows (dir_query s)) ∧ only DIRECTORY_KEYS s (dir_account t s))
     ∧ (sql_query (sql_instance t s) = MkMSSQLQuery t (mq_rows (sql_query s)) ∧ only MSSQL_KEYS s (sql_instance t s))
     ∧ (iis_query (iis_url t s) = MkIISQuery t (iq_rows (iis_query s)) (iq_slowMillis (iis_query s)) ∧ only IIS_KEYS s (iis_url t s)))
  ∧ (∀ n, n ∈ row_options →
     (dir_query (dir_rows n s) = MkDirectoryQuery (dq_account (dir_query s)) (num n) ∧ only DIRECTORY_KEYS s (dir_rows n s))
     ∧ (sql_query (sql_rows n s) = MkMSSQLQuery (mq_instance (sql_query s)) (num n) ∧ only MSSQL_KEYS s (sql_rows n s))
     ∧ (iis_query (iis_rows n s) = MkIISQuery (iq_url (iis_query s)) (num n) (iq_slowMillis (iis_query s)) ∧ only IIS_KEYS s (iis_rows n s)))
  ∧ (∀ n, n ∈ IIS_SLOW_OPTIONS →
     iis_query (iis_slow n s) = MkIISQuery (iq_url (iis_query s)) (iq_rows (iis_query s)) (num n) ∧ only IIS_KEYS s (iis_slow n s)).
Lemma analysis_controls_ok s : analysis_controls s.
Proof.
  destruct (rows_ok (number_of (n_rows s))) as (o & Ho & Eo). destruct (slow_ok (number_of (n_slow s))) as (sl & Hsl & Esl).
  assert (dq_rows (dir_query s) = num o) as Ed by exact Eo. assert (mq_rows (sql_query s) = num o) as Em by exact Eo.
  assert (iq_rows (iis_query s) = num o) as Ei by exact Eo. assert (iq_slowMillis (iis_query s) = num sl) as Es by exact Esl.
  pose proof (text_trimmed (n_acct s)) as Ta. pose proof (text_trimmed (n_inst s)) as Ti. pose proof (text_trimmed (n_uri s)) as Tu.
  unfold analysis_controls, dir_account, dir_rows, sql_instance, sql_rows, iis_url, iis_rows, iis_slow. rewrite Ed, Em, Ei, Es. split_and!.
  - intros t Ht. split_and!; [by apply put_directory_get|apply put_directory_only|by apply put_mssql_get|apply put_mssql_only|by apply put_iis_get|apply put_iis_only].
  - intros n Hn. split_and!; [by apply put_directory_get|apply put_directory_only|by apply put_mssql_get|apply put_mssql_only|by apply put_iis_get|apply put_iis_only].
  - intros n Hn. split; [by apply put_iis_get|apply put_iis_only].
Qed.

(** A tab opens its view; the range changes only when it is the default hour. *)
Definition tabs_open (s : AnalyticsSearch) : Prop :=
  (∀ id, n_view (select_view id s) = view_of id ∧ only [N_view; N_from; N_to] s (select_view id s)
     ∧ (n_from s ≠ $"now-1h" ∨ n_to s ≠ $"now" → only [N_view] s (select_view id s)))
  ∧ n_view (select_explore s) = view_explore ∧ only [N_view] s (select_explore s).
Lemma tabs_open_ok s : tabs_open s.
Proof.
  split_and!; [|done|apply only_set]. intros id. unfold select_view. destruct (rangePatch id s) as [[f t]|] eqn:Er.
  - split_and!; [done| |].
    + eapply only_mono; [|do 2 (eapply only_trans; [|apply only_set]); apply only_set]. by intros k Hk.
    + intros Hne. exfalso. destruct id; cbn [rangePatch] in Er; revert Er;
        unfold trendsRangePatch, directoryRangePatch, mssqlRangePatch, iisRangePatch, range_patch;
        (case_bool_decide; [|done]); (case_bool_decide; [|done]); naive_solver.
  - split_and!; [done| |by intros _; apply only_set]. eapply only_mono; [|apply only_set]. intros k ->%list_elem_of_singleton. left.
Qed.

(** C8: a control changes its own setting.  Whatever the address says, each control of the
    breakdown, of the service trends and of the three analyses leaves a query that
    has the new value and the rest as it was, a tab opens its view, and no
    parameter of another view, of the query or of the time range is touched (but the
    number of rows, which the analyses share, and the default hour, which a tab
    widens). *)
Theorem controls_change_themselves s : explore_controls s ∧ trends_controls s ∧ analysis_controls s ∧ tabs_open s.
Proof. split_and!; [apply explore_controls_ok|apply trends_controls_ok|apply analysis_controls_ok|apply tabs_open_ok]. Qed.

(** * The rows of the breakdown *)

Lemma an_filter_ok s : query_ok (dq_filter (an_query s)) = true.
Proof. exact (ex_filter_ok (explorer_init (MkExplorerSearch (n_from s) (n_to s) (n_tz s) (n_q s) (n_native s) (n_mode s) None None None) None)). Qed.
Lemma groupBy_truthy s : truthy (aq_groupBy (an_analytics s)) = true.
Proof. destruct (an_analytics_ok s) as [Hg _ _]. by apply text_ok_inv in Hg as [? _]. Qed.

(** The filter of a selection without its pipes, and its range. *)
Lemma withoutPipes_range sel : match withoutPipes (Some sel) with Some s => sel_from s = sel_from sel ∧ sel_to s = sel_to sel ∧ sel_tz s = sel_tz sel ∧ sel_filter s = sel_filter sel | None => False end.
Proof.
  unfold withoutPipes. destruct (sel_native sel) as [n|]; [|done]. destruct (splitNativePipes (n_text n)) as [f p]. by destruct (negb (truthy p)).
Qed.
Lemma withoutPipes_native a b : sel_native a = sel_native b → (sel_native <$> withoutPipes (Some a)) = (sel_native <$> withoutPipes (Some b)).
Proof.
  intros E. unfold withoutPipes. rewrite E. destruct (sel_native b) as [n|] eqn:Eb; [|cbn; congruence]. destruct (splitNativePipes (n_text n)) as [f p].
  destruct (negb (truthy p)); cbn; congruence.
Qed.
Lemma selection_over_spec s a b sel : selection_over a b s = Ok (Some sel) → ∃ x y, a = Some x ∧ b = Some y
  ∧ sel_from sel = iso_string x ∧ sel_to sel = iso_string y ∧ sel_filter sel = dq_filter (an_query s) ∧ sel_tz sel = n_tz s
  ∧ Some (sel_native sel) = (sel_native <$> withoutPipes (Some (MkSelection [] [] None None (dq_native (an_query s))))).
Proof.
  unfold selection_over, buildSelection, toISOString. destruct a as [x|]; [|done]. destruct b as [y|]; [|done]. cbn -[withoutPipes iso_string].
  match goal with |- context [withoutPipes (Some ?w)] => set (sel0 := w) end. intros E0. assert (withoutPipes (Some sel0) = Some sel) as E by congruence. clear E0. exists x, y.
  pose proof (withoutPipes_range sel0) as Hr. rewrite E in Hr. destruct Hr as (-> & -> & -> & ->). split_and!; try done.
  rewrite (withoutPipes_native _ sel0) by done. by rewrite E.
Qed.

(** C7: a row of the breakdown leads to the logs it counts, and its change is measured
    against the window just before.  A click on a value of a breakdown leaves a query
    that selects, of the logs selected before, exactly those with that value; the
    link opens the explorer with that very query over the same range; and the
    comparison is asked for the same query over a window that ends where this one
    starts and is as long. *)
Theorem breakdown_leads_back `{RegExpEngine} `{TimeZones} displayTz s value now id sel prev :
  an_selection displayTz s now = Ok (Some sel) → an_previous displayTz s now = Ok (Some prev) →
  let picked := an_pick value s in
  let linked := explorer_init (explorerSearch s value) id in
  (∀ row, selects (sel_filter sel) row = true →
     selects (dq_filter (an_query picked)) row = bool_decide (nullish (getField row (aq_groupBy (an_analytics s))) [] = value))
  ∧ ex_query linked = an_query picked ∧ dq_error (an_query picked) = None ∧ ex_range displayTz linked now = an_range displayTz s now
  ∧ only [N_q] s picked
  ∧ sel_filter prev = sel_filter sel ∧ sel_native prev = sel_native sel ∧ sel_tz prev = sel_tz sel
  ∧ ∃ a b, sel_from sel = iso_string a ∧ sel_to sel = iso_string b ∧ sel_to prev = sel_from sel ∧ sel_from prev = iso_string (a - (b - a)).
Proof.
  unfold an_selection, an_previous. destruct (an_range displayTz s now) as [[ra rb]|] eqn:Er; [|by destruct (dq_error (an_query s))].
  destruct (dq_error (an_query s)) eqn:Ee; [done|]. cbn [r_start r_end]. intros Hs Hp. apply selection_over_spec in Hs as (a & b & -> & -> & Hf & Ht & Hfi & Htz & Hn).
  unfold previousRange in Hp. apply selection_over_spec in Hp as (a' & b' & Ea & Eb & Hf' & Ht' & Hfi' & Htz' & Hn').
  assert (a' = (a - (b - a))%Z) as -> by (unfold time_clip in Ea; destruct (_ <=? _)%Z; congruence).
  assert (b' = a) as -> by (unfold time_clip in Eb; destruct (_ <=? _)%Z; congruence).
  set (picked := an_pick value s). set (linked := explorer_init (explorerSearch s value) id). set (f' := addValueFilter (dq_filter (an_query s)) (aq_groupBy (an_analytics s)) value false).
  assert (query_ok f' = true) as Hok by (apply addValueFilter_ok; [apply groupBy_truthy|apply an_filter_ok]).
  assert (an_query picked = MkDecodedQuery f' (dq_native (an_query s)) None) as Eq.
  { destruct (ex_query_setFilter f' (explorer_init (MkExplorerSearch (n_from s) (n_to s) (n_tz s) (n_q s) (n_native s) (n_mode s) None None None) id) Hok)
      as (E1 & E2 & E3). change (ex_query (setFilter f' _)) with (an_query picked) in E2, E3. change (ex_filter (setFilter f' _)) with (dq_filter (an_query picked)) in E1.
    destruct (an_query picked) as [x y z]. cbn in *. subst. f_equal. }
  split_and!; try (by rewrite Eq); try done.
  - intros row Hrow. rewrite Eq. cbn [dq_filter]. unfold f'. rewrite Hfi in Hrow. rewrite selects_value by (done || apply an_filter_ok). done.
  - apply only_set.
  - congruence.
  - congruence.
  - congruence.
  - exists a, b. split_and!; congruence.
Qed.

(** A click of the hour from ten to eleven, and of the hour before. *)
Definition demo_hour : AnalyticsSearch :=
  MkAnalyticsSearch $"2026-09-14T10:00:00Z" $"2026-09-14T11:00:00Z" None (Some $"failed") None visual None sm_count None None view_explore
    None None None None None None None None None None.
Definition demo_selection (from to : jsstr) : Selection := MkSelection from to None (dq_filter (an_query demo_hour)) None.
Lemma breakdown_leads_back_witness :
  let _ := no_regexp in
  let _ := utc_zones in
  let picked := an_pick $"sshd" demo_hour in
  dq_error (an_query picked) = None
  ∧ selects (dq_filter (an_query picked)) demo_row = bool_decide (nullish (getField demo_row $"app_name") [] = $"sshd").
Proof.
  intros E Z picked.
  pose proof (@breakdown_leads_back E Z $"UTC" demo_hour $"sshd" 1789380000000 None
    (demo_selection $"2026-09-14T10:00:00.000Z" $"2026-09-14T11:00:00.000Z") (demo_selection $"2026-09-14T09:00:00.000Z" $"2026-09-14T10:00:00.000Z")
    ltac:(vm_compute; reflexivity) ltac:(vm_compute; reflexivity)) as (H1 & _ & H3 & _).
  split; [exact H3|]. apply H1. vm_compute. reflexivity.
Defined.

(** * The field picker and the lists *)

(** The highlight is an option or what was typed is taken. *)
Lemma picker_choice localeCompare fields p f : (picker_step localeCompare fields p pk_enter).2 = Some f →
  f ∈ picker_options localeCompare fields (fk_text p) ∨ f = trim (fk_text p).
Proof.
  unfold picker_step. unfold at_index. destruct (fk_active p <? 0)%Z; cbn [nullish].
  - destruct (truthy _); [|done]. intros [= <-]. by right.
  - destruct (picker_options _ _ _ !! _) as [g|] eqn:E; cbn [nullish]; (destruct (truthy _); [|done]); intros [= <-]; [left; by eapply list_elem_of_lookup_2|by right].
Qed.
(** Typing the exact name of a field and pressing Enter may choose another one. *)
Theorem exact_name_not_chosen :
  let fields := [MkListedField $"hostname" (Some (num 90)); MkListedField $"host" (Some (num 3))] in
  (picker_step (λ _ _, 0%Z) fields (MkPicker true $"host" 0) pk_enter).2 = Some $"hostname".
Proof. vm_compute. reflexivity. Qed.

Lemma map_of_keep {K A} `{EqDecision K} (pairs o : list (K * A)) k : k ∉ pairs.*1 →
  assoc_get (fold_left (λ m kv, assoc_set m kv.1 kv.2) pairs o) k = assoc_get o k.
Proof.
  revert o. induction pairs as [|[k' v'] pairs IH]; intros o Hk; [done|]. cbn in Hk |- *. apply not_elem_of_cons in Hk as [Hne Hk].
  by rewrite IH, assoc_get_set_ne.
Qed.
Lemma map_of_get {K A} `{EqDecision K} (pairs : list (K * A)) k v : NoDup pairs.*1 → (k, v) ∈ pairs → assoc_get (map_of pairs) k = Some v.
Proof.
  unfold map_of. generalize (@nil (K * A)) as o. induction pairs as [|[k' v'] pairs IH]; intros o; [by rewrite elem_of_nil|].
  cbn. intros [Hk Hn]%NoDup_cons [[= -> ->]|Hin]%elem_of_cons; [|by apply IH]. by rewrite map_of_keep, assoc_get_set_eq.
Qed.
(** A click on a row of a list with distinct labels picks its value. *)
Lemma count_select_own label counts c : NoDup (map label counts) → c ∈ counts → count_select label counts (label c) = ac_value c.
Proof.
  intros Hn Hc. unfold count_select. rewrite (map_of_get _ (label c) (ac_value c)); [done| |].
  - rewrite map_map. exact Hn.
  - apply list_elem_of_fmap. by exists c.
Qed.
(** Of two values that are shown by the same label, a click on the first picks the second. *)
Theorem same_label_picks_last :
  let counts := [MkAnalysisCount $"S-1-5-18" (Some $"SYSTEM") (num 9); MkAnalysisCount $"S-1-5-19" (Some $"SYSTEM") (num 4)] in
  CountList countLabel counts false [] = ct_rows [($"SYSTEM", num 9); ($"SYSTEM", num 4)] ∧ count_select countLabel counts $"SYSTEM" = $"S-1-5-19".
Proof. vm_compute. auto. Qed.
