(* ===== verification/Charts.v ===== *)
(** The shared widgets: the charts (src/frontend/src/components/charts/index.tsx)
    with the ticks, the tooltips and the drag over the histogram, and the small
    pieces of src/frontend/src/components/data/common.tsx with the clipboard
    (lib/clipboard.ts). *)
From Stdlib Require Import ZArith Lia SpecFloat.
From stdpp Require Import base list numbers strings.
From S2P Require Import Prelude Unicode JsNumber Fields JsDate TimeRange Severity Format SourceForm ServiceCatalog ApiClient.
From S2P Require Import FilterSem UrlState Analytics HostHistory AnalysisViews MockLogs.
Open Scope nat_scope.

(** * Ticks *)

Section ticks.
Context `{Locale} `{TimeZones}.

Definition tick_pattern (stepSeconds : Number) : jsstr :=
  if nge stepSeconds (num 86400) then $"MMM d" else if nge stepSeconds (num 3600) then $"MMM d HH:mm" else $"HH:mm".
Definition tickFormatterFor (stepSeconds : Number) (tz : jsstr) (t : option Z) : jsstr :=
  formatTimestamp (Some (TsDate t)) tz (tick_pattern stepSeconds).
(** Chosen from the window rather than the bucket. *)
Definition window_pattern (spanSeconds : Number) : jsstr :=
  if ngt spanSeconds (num (10 * 86400)) then $"MMM d" else if ngt spanSeconds (num (2 * 86400)) then $"MMM d HH:mm" else $"HH:mm".
Definition windowTickFormatter (spanSeconds : Number) (tz : jsstr) (t : option Z) : jsstr :=
  formatTimestamp (Some (TsDate t)) tz (window_pattern spanSeconds).

(** [(data\[data.length - 1\].t - data\[0\].t) / 1000], for two points or more. *)
Definition span_seconds (times : list (option Z)) (otherwise : Number) : Number :=
  match times, List.rev times with
  | a :: _ :: _, b :: _ => match a, b with Some a, Some b => ndiv (num (b - a)) (num 1000) | _, _ => NaN end
  | _, _ => otherwise
  end.
Definition rate_step (times : list (option Z)) : Number := if ngt (span_seconds times (num 0)) (num (2 * 86400)) then num 86400 else num 60.
(** Quarters of the ceiling. *)
Definition gap_ticks (max : option Number) : option (list Number) :=
  match max with
  | Some m =>
      if neq m (num 0) || isNaN m then None
      else Some [num 0; ndiv m (num 4); ndiv m (num 2); ndiv (nmul (num 3) m) (num 4); m]
  | None => None
  end.

(** * Tooltips *)

Record TipLine := MkTipLine { tl_name : jsstr; tl_value : option Number; tl_color : option jsstr }.
Record ChartTip := MkChartTip { ct_time : jsstr; ct_total : option jsstr; ct_lines : list (jsstr * jsstr) }.
(** The lines from the top of the stack down, and their sum when there are two or more. *)
Definition tip_total (payload : list TipLine) : Number := fold_left (λ n p, nadd n (nullish (tl_value p) (num 0))) payload (num 0).
Definition ChartTooltip (active : bool) (payload : list TipLine) (label : option (option Z)) (tz unit : jsstr) (showTotal : bool)
    (formatValue : option Number → jsstr) : option ChartTip :=
  if negb active then None
  else match payload with
       | [] => None
       | _ => Some (MkChartTip
                (match label with Some t => formatTimestamp (Some (TsDate t)) tz $"yyyy-MM-dd HH:mm:ss" | None => [] end)
                (if showTotal && (1 <? length payload) then Some (formatValue (Some (tip_total payload))) else None)
                (map (λ p, (tl_name p, formatValue (tl_value p) ++ unit)) (List.rev payload)))
       end.
(** Nothing is shown over a gap. *)
Definition GapTooltip (active : bool) (payload : list (option Number)) (label : option (option Z)) (tz name : jsstr)
    (formatValue : Number → jsstr) (note : jsstr) : option (jsstr * jsstr * jsstr * jsstr) :=
  match active, payload with
  | true, Some v :: _ =>
      Some (match label with Some t => formatTimestamp (Some (TsDate t)) tz $"yyyy-MM-dd HH:mm" | None => [] end, name, formatValue v, note)
  | _, _ => None
  end.
End ticks.

(** * The volume histogram *)

Section histogram.
Context `{TimeZones}.

(** [severityRank(y) - severityRank(x)]; NaN counts as zero. *)
Definition by_rank_down (x y : jsstr) : Z :=
  match severityRank y, severityRank x with Some b, Some a => (Z.of_nat b - Z.of_nat a)%Z | _, _ => 0%Z end.
Definition volume_series (data : Histogram) : list jsstr :=
  match hg_split_by data ≫= or_undef with
  | None => [$"total"]
  | Some f =>
      (if decide (f = $"severity") then array_sort by_rank_down (hg_split_values data) else hg_split_values data)
      ++ (if hg_split_other data then [$"other"] else [])
  end.
(** A row is an object: the time is its member [t], each series the member of its name. *)
Abbreviation VolumeRow := (list (jsstr * option Z)).
Definition volume_row (data : Histogram) (b : Bucket) : VolumeRow :=
  let row := [($"t", date_parse (bk_t b))] in
  match hg_split_by data ≫= or_undef with
  | Some _ =>
      fold_left (λ row s, assoc_set row s (Some (Z.of_nat (nullish (bk_split b ≫= λ sp, assoc_get sp s) 0)))) (volume_series data) row
  | None => assoc_set row $"total" (Some (Z.of_nat (bk_total b)))
  end.
Definition volume_rows (data : Histogram) : list VolumeRow := map (volume_row data) (hg_buckets data).
Definition bar_colors (data : Histogram) : list jsstr := imap (λ i s, seriesColor (hg_split_by data) s i) (volume_series data).
End histogram.

(** ** Dragging *)

Record Drag := MkDrag { drag_a : Z; drag_b : Z }.
(** The label under the pointer; [None] outside the bars. *)
Inductive drag_event := mouse_down (l : option Z) | mouse_move (l : option Z) | mouse_up | mouse_leave.
Inductive DragOut := drag_zoom (lo hi : Z) | drag_click (lo hi : Z).
Definition finishDrag (stepMs : Z) (onZoom onBucketClick : bool) (drag : option Drag) : option DragOut :=
  match drag with
  | Some d =>
      if onZoom then
        let lo := Z.min (drag_a d) (drag_b d) in
        let hi := (Z.max (drag_a d) (drag_b d) + stepMs)%Z in
        if negb (drag_a d =? drag_b d)%Z then Some (drag_zoom lo hi) else if onBucketClick then Some (drag_click lo hi) else None
      else None
  | None => None
  end.
Definition drag_step (stepMs : Z) (onZoom onBucketClick : bool) (drag : option Drag) (ev : drag_event) : option Drag * option DragOut :=
  match ev with
  | mouse_down (Some l) => (Some (MkDrag l l), None)
  | mouse_move (Some l) => (match drag with Some d => Some (MkDrag (drag_a d) l) | None => None end, None)
  | mouse_up => (None, finishDrag stepMs onZoom onBucketClick drag)
  | mouse_leave => (None, None)
  | _ => (drag, None)
  end.
(** What a series of events asks for. *)
Fixpoint drag_run (stepMs : Z) (onZoom onBucketClick : bool) (drag : option Drag) (evs : list drag_event) : list DragOut :=
  match evs with
  | [] => []
  | ev :: evs =>
      let '(d, out) := drag_step stepMs onZoom onBucketClick drag ev in
      option_list out ++ drag_run stepMs onZoom onBucketClick d evs
  end.
(** The shaded area. *)
Definition drag_area (drag : option Drag) : option (Z * Z) :=
  match drag with
  | Some d => if (drag_a d =? drag_b d)%Z then None else Some (Z.min (drag_a d) (drag_b d), Z.max (drag_a d) (drag_b d))
  | None => None
  end.

(** * Shares and bars *)

Section shares.
Context `{Locale}.
Definition donut_total (data : list (jsstr * Number)) : Number := fold_left (λ n d, nadd n d.2) data (num 0).
Record DonutLine := MkDonutLine { dl_name : jsstr; dl_color : jsstr; dl_count : jsstr; dl_share : jsstr }.
Definition Donut (data : list (jsstr * Number)) (colorOf : jsstr → nat → jsstr) : list DonutLine :=
  let total := donut_total data in
  imap (λ i d, MkDonutLine d.1 (colorOf d.1 i) (formatCount (Some d.2))
          (if neq total (num 0) || isNaN total then $"—" else to_fixed (nmul (ndiv d.2 total) (num 100)) 1 ++ $"%")) data.
Record TopLine := MkTopLine { tp_value : jsstr; tp_width : Number; tp_color : jsstr; tp_count : jsstr }.
Definition top_max (values : list (jsstr * Number)) : Number := fold_left nmax (map snd values) (nmax (S754_infinity true) (num 1)).
Definition TopList (values : list (jsstr * Number)) (colorOf : option (jsstr → jsstr)) : list TopLine :=
  let max := top_max values in
  map (λ v, MkTopLine v.1 (nmul (ndiv v.2 max) (num 100)) (match colorOf with Some f => f v.1 | None => $"var(--accent)" end)
              (formatCount (Some v.2))) values.

(** * Small pieces *)

Definition SeverityBadge (severity : option jsstr) : option (option jsstr * jsstr) :=
  match severity with
  | None | Some [] => None
  | Some s => Some (severityLabel (Some s), severityColor (Some s))
  end.
(** The flags that are shipped and the names the browser has are parameters. *)
Inductive FlagView := flag_none | flag_code (code name : jsstr) | flag_image (url name : jsstr).
Definition CountryFlag (flags names : jsstr → option jsstr) (code : option jsstr) : FlagView :=
  let country := normalCountry code in
  if negb (truthy country) then flag_none
  else
    let name := nullish (names country) country in
    match flags country with Some url => if truthy url then flag_image url name else flag_code country name | None => flag_code country name end.
Record ErrorView := MkErrorView { ev_title : jsstr; ev_message : jsstr; ev_request : option jsstr; ev_retry : bool }.
Definition thrown_message (error : thrown) : jsstr :=
  match error with ThrownApi e => ae_message e | ThrownError m => m | ThrownOther => $"Something went wrong" end.
Definition ErrorPanel (error : thrown) (onRetry : bool) : ErrorView :=
  MkErrorView
    (match error with ThrownApi e => nullish (ae_problem e ≫= pd_title) $"Request failed" | _ => $"Request failed" end)
    (thrown_message error)
    (match error with ThrownApi e => ae_requestId e ≫= or_undef | _ => None end) onRetry.
(** The figure of a tile: what is shown and what the title says. *)
Inductive TileFigure := tf_loading | tf_missing | tf_value (shown exact : jsstr).
Definition StatTile (tile : Tile) (ms loading : bool) : TileFigure :=
  if loading then tf_loading
  else if ti_missing tile then tf_missing
  else if ms then tf_value (formatDuration (Some (ndiv (ti_value tile) (num 1000)))) (formatExact (Some (ti_value tile)) ++ $" ms")
  else tf_value (formatCount (Some (ti_value tile))) (formatExact (Some (ti_value tile))).
End shares.
Definition StatusDot (status : Tone) : jsstr :=
  match status with
  | tone_ok => $"var(--success)" | tone_warn => $"var(--warning)" | tone_fail => $"var(--danger)" | tone_idle => $"var(--fg-subtle)"
  end.

(** ** Copying *)

(** [navigator.clipboard.writeText] may be refused, and then [execCommand] says
    whether it copied. *)
Definition copyText (written copied : bool) : bool := if written then true else copied.
(** The label that says so, and the timers that take it away. *)
Record CopyState := MkCopyState { cp_label : option jsstr; cp_timers : list Z }.
Definition copy_init : CopyState := MkCopyState None [].
Definition copy_click (ok : bool) (label : jsstr) (now : Z) (s : CopyState) : CopyState :=
  if ok then MkCopyState (Some label) (cp_timers s ++ [(now + 1200)%Z]) else s.
Definition copy_tick (now : Z) (s : CopyState) : CopyState :=
  if existsb (λ t, (t <=? now)%Z) (cp_timers s) then MkCopyState None (List.filter (λ t, negb (t <=? now)%Z) (cp_timers s)) else s.

(** ** Highlighting *)

Inductive TextPart := tx_plain (s : jsstr) | tx_mark (s : jsstr).
Definition part_text (p : TextPart) : jsstr := match p with tx_plain s | tx_mark s => s end.
(** [s.slice(a, b)] for [0 <= a <= b]. *)
Definition slice (a b : nat) (s : jsstr) : jsstr := take (b - a) (drop a s).
(** [s.indexOf(n, i)] for an [n] that is not empty. *)
Definition index_from (n s : jsstr) (i : nat) : option nat := (λ k, i + k) <$> index_of_str n (drop i s).
Fixpoint highlight_loop (fuel : nat) (text lower n : jsstr) (i : nat) : list TextPart :=
  match fuel with
  | O => [tx_plain (drop i text)]
  | S fuel =>
      match index_from n lower i with
      | None => [tx_plain (drop i text)]
      | Some j =>
          (if i <? j then [tx_plain (slice i j text)] else [])
          ++ tx_mark (slice j (j + length n) text) :: highlight_loop fuel text lower n (j + length n)
      end
  end.
(** Every round moves on by the length of the needle, so one round per unit is enough. *)
Definition HighlightText (text needle : jsstr) : list TextPart :=
  match needle with
  | [] => [tx_plain text]
  | _ => let lower := to_lower text in highlight_loop (S (length lower)) text lower (to_lower needle) 0
  end.

Example highlight_ex : HighlightText $"Error: no error" $"error" = [tx_mark $"Error"; tx_plain $": no "; tx_mark $"error"; tx_plain []].
Proof. vm_compute. reflexivity. Qed.
Example drag_ex : drag_run 60000 true true None [mouse_down (Some 300000%Z); mouse_move (Some 120000%Z); mouse_up; mouse_down (Some 0%Z); mouse_up]
  = [drag_zoom 120000 360000; drag_click 0 60000].
Proof. reflexivity. Qed.

(** * Properties

    What the shared widgets promise: a highlighted text is the text, the bars of a
    histogram add up to what the server counted, and a click on a bar leads to the
    logs it stands for. *)
From Stdlib Require Import ZArith Lia SpecFloat.
From stdpp Require Import base list numbers strings.
From S2P Require Import Prelude Unicode FilterAst JsNumber Fields FilterSem JsDate TimeRange TimeRangeProps UrlState Severity SourceFormProps.
From S2P Require Import MockLogs MockLogsProps ExplorerPage ExplorerProps AnalyticsPage.
Open Scope nat_scope.

(** * Highlighting *)

Lemma slice_drop i j (s : jsstr) : i ≤ j → slice i j s ++ drop j s = drop i s.
Proof. intros Hij. unfold slice. replace (drop j s) with (drop (j - i) (drop i s)) by (rewrite drop_drop; f_equal; lia). apply take_drop. Qed.

Lemma index_of_str_spec n s k : index_of_str n s = Some k →
  ∃ r, drop k s = n ++ r ∧ k + length n ≤ length s ∧ ∀ m, m < k → starts_with n (drop m s) = false.
Proof.
  revert k. induction s as [|c s IH]; intros k; cbn [index_of_str].
  - destruct (starts_with n []) eqn:E; [|done]. intros [= <-]. apply starts_with_split in E as [r Hr]. exists r. rewrite drop_0, Hr.
    split_and!; [done| |lia]. apply (f_equal length) in Hr. rewrite length_app in Hr. cbn in *. lia.
  - destruct (starts_with n (c :: s)) eqn:E.
    + intros [= <-]. apply starts_with_split in E as [r Hr]. exists r. rewrite drop_0, Hr. split_and!; [done| |lia]. rewrite length_app. lia.
    + destruct (index_of_str n s) as [k'|]; [|done]. intros [= <-]. destruct (IH k' eq_refl) as (r & Hr & Hl & Hm). exists r.
      split_and!; [done|cbn; lia|]. intros [|m] Hlt; [done|]. apply Hm. lia.
Qed.
Lemma index_of_str_none n s : index_of_str n s = None → includes n s = false.
Proof.
  induction s as [|c s IH]; cbn [index_of_str includes]; (destruct (starts_with n _); [done|]); [done|]. destruct (index_of_str n s); [done|]. auto.
Qed.
(** Nothing before the first occurrence contains the needle. *)
Lemma before_first n s k : n ≠ [] → index_of_str n s = Some k → includes n (take k s) = false.
Proof.
  intros Hn Hk. destruct (index_of_str_spec n s k Hk) as (r & _ & _ & Hm). apply not_true_iff_false. intros Hin.
  apply includes_split in Hin as (l & r' & E). assert (length l < k) as Hl.
  { apply (f_equal length) in E. rewrite length_take, !length_app in E. destruct n; [done|]. cbn in E. lia. }
  pose proof (Hm _ Hl) as Hf. enough (starts_with n (drop (length l) s) = true) by congruence. apply starts_with_split.
  exists (r' ++ drop k s). rewrite <- (take_drop k s) at 1. rewrite E, <- !app_assoc, drop_app_length. done.
Qed.

Section highlight.
Context (text lower n : jsstr) (Hn : n ≠ []).

Lemma loop_text fuel i : concat (map part_text (highlight_loop fuel text lower n i)) = drop i text.
Proof.
  revert i. induction fuel as [|fuel IH]; intros i; cbn [highlight_loop]; [cbn; by rewrite app_nil_r|].
  unfold index_from. destruct (index_of_str n (drop i lower)) as [k|]; cbn [fmap option_fmap option_map]; [|cbn; by rewrite app_nil_r].
  rewrite map_app, concat_app. cbn [map concat]. rewrite IH. cbn [part_text]. rewrite slice_drop by lia.
  destruct (Nat.ltb_spec i (i + k)); cbn; [rewrite app_nil_r; apply slice_drop; lia|]. f_equal. lia.
Qed.
(** More rounds change nothing: the loop ends. *)
Lemma loop_fuel fuel fuel' i : length lower - i < fuel → length lower - i < fuel' →
  highlight_loop fuel text lower n i = highlight_loop fuel' text lower n i.
Proof.
  revert fuel' i. induction fuel as [|fuel IH]; intros [|fuel'] i Hf Hf'; [lia..|]. cbn [highlight_loop].
  unfold index_from. destruct (index_of_str n (drop i lower)) as [k|] eqn:E; cbn; [|done]. do 2 f_equal. apply IH.
  all: destruct (index_of_str_spec _ _ _ E) as (_ & _ & Hl & _); rewrite length_drop in Hl; destruct n; [done|cbn in *; lia].
Qed.

(** For a text that is lowered unit by unit a mark is an occurrence and nothing else is. *)
Definition part_ok (p : TextPart) : Prop :=
  match p with tx_mark m => to_lower m = n | tx_plain s => includes n (to_lower s) = false end.
Lemma loop_marks (Hlow : ∀ i j, to_lower (slice i j text) = slice i j lower) fuel i : length lower - i < fuel → length lower = length text →
  Forall part_ok (highlight_loop fuel text lower n i).
Proof.
  intros Hf Hlen. assert (∀ i, to_lower (drop i text) = drop i lower) as Hdrop.
  { intros k. specialize (Hlow k (k + length text)). unfold slice in Hlow. replace (k + length text - k) with (length text) in Hlow by lia.
    rewrite (take_ge (drop k text)), (take_ge (drop k lower)) in Hlow; [done|rewrite length_drop; lia..]. }
  revert i Hf. induction fuel as [|fuel IH]; intros i Hf; [lia|]. cbn [highlight_loop]. unfold index_from.
  destruct (index_of_str n (drop i lower)) as [k|] eqn:E; cbn [fmap option_fmap option_map].
  - destruct (index_of_str_spec _ _ _ E) as (r & Hr & Hl & _). rewrite length_drop in Hl. apply Forall_app. split.
    + destruct (Nat.ltb_spec i (i + k)); [|done]. apply Forall_singleton. cbn [part_ok]. rewrite Hlow. unfold slice.
      replace (i + k - i) with k by lia. by apply before_first.
    + constructor.
      * cbn [part_ok]. rewrite Hlow. unfold slice. rewrite <- drop_drop, Hr. replace (i + k + length n - (i + k)) with (length n) by lia.
        apply take_app_length.
      * apply IH. destruct n; [done|]. cbn in *. lia.
  - apply Forall_singleton. cbn [part_ok]. rewrite Hdrop. by apply index_of_str_none.
Qed.
End highlight.

Lemma map_case_nonempty c : map_case lower_runs lower_special c ≠ [].
Proof. unfold map_case, lower_special. cbn [special_case]. by destruct (304 =? c)%N. Qed.
Lemma to_lower_nonempty s : s ≠ [] → to_lower s ≠ [].
Proof.
  destruct s as [|u s]; [done|]. intros _. unfold to_lower, code_units. assert (∃ c r, code_points (u :: s) = c :: r) as (c & r & ->).
  { cbn [code_points]. destruct s as [|v s]; [by eexists _, _|]. destruct (is_high u && is_low v); by eexists _, _. }
  cbn [lower_points]. pose proof (map_case_nonempty c) as Hc. destruct (_ && _); [done|].
  destruct (map_case _ _ c) as [|d l]; [done|]. cbn [app]. rewrite bind_cons. unfold unit_of_cp. by destruct (d <? 65536)%N.
Qed.

(** C10: highlighting shows the text.  Whatever is searched for, the parts one after
    another are the text, and no further round of the loop would change them.  In a text
    whose units are lowered one by one, wherever they stand (without half a surrogate
    pair, a capital i with a dot or a capital sigma), a part is marked exactly where the
    needle occurs: every mark is the needle but for its case, and no part between them
    contains it. *)
Theorem highlight_faithful text needle :
  concat (map part_text (HighlightText text needle)) = text
  ∧ (∀ more, needle ≠ [] → HighlightText text needle = highlight_loop (S (length (to_lower text)) + more) text (to_lower text) (to_lower needle) 0)
  ∧ (forallb lowers_alone text = true → needle ≠ [] →
       Forall (λ p, match p with tx_mark m => to_lower m = to_lower needle | tx_plain s => includes (to_lower needle) (to_lower s) = false end)
         (HighlightText text needle)).
Proof.
  unfold HighlightText. destruct needle as [|c n]; [split; [exact (app_nil_r text)|by split]|].
  pose proof (to_lower_nonempty (c :: n) ltac:(done)) as Hn. split_and!.
  - by rewrite loop_text, drop_0.
  - intros more _. apply loop_fuel; [done|rewrite Nat.sub_0_r; lia..].
  - intros Ht _. rewrite (to_lower_alone text) by done. apply (loop_marks _ _ _ Hn); [|lia|by rewrite length_map].
    intros i j. rewrite to_lower_alone.
    + unfold slice. by rewrite skipn_map, firstn_map.
    + apply forallb_forall. intros u Hu. rewrite forallb_forall in Ht. apply Ht. unfold slice in Hu. apply list_elem_of_In in Hu. apply list_elem_of_In.
      apply subseteq_take in Hu. rewrite <- (take_drop i text). apply elem_of_app. by right.
Qed.
(** A dotted capital before it moves the mark. *)
Theorem highlight_shifts : HighlightText $"İ error" $"error" = [tx_plain $"İ e"; tx_mark $"rror"; tx_plain []].
Proof. vm_compute. reflexivity. Qed.
(** A needle that ends in a sigma is not found inside a word. *)
Theorem highlight_final_sigma : HighlightText $"ΟΔΟΣΑ" $"ΟΔΟΣ" = [tx_plain $"ΟΔΟΣΑ"].
Proof. vm_compute. reflexivity. Qed.

(** * The bars of a histogram *)

Lemma sum_perm (l l' : list nat) : l ≡ₚ l' → sum_list l = sum_list l'.
Proof. induction 1; cbn in *; lia. Qed.
(** Reading a map at keys that include its own adds up to all of it. *)
Lemma sum_at_keys (sp : list (jsstr * nat)) keys : NoDup keys → NoDup sp.*1 → sp.*1 ⊆ keys →
  sum_list (map (λ k, nullish (assoc_get sp k) 0) keys) = sum_list (map snd sp).
Proof.
  revert keys. induction sp as [|[k n] sp IH]; intros keys Hk Hs Hsub; cbn [map fmap list_fmap fst] in Hs, Hsub.
  - clear. induction keys; [done|]. cbn in *. done.
  - apply NoDup_cons in Hs as [Hkn Hs]. destruct (elem_of_Permutation keys k) as [(keys' & Hp) _]; [apply Hsub; left|].
    rewrite Hp in Hk. apply NoDup_cons in Hk as [Hkk Hk].
    rewrite (sum_perm _ (map (λ k0, nullish (assoc_get ((k, n) :: sp) k0) 0) (k :: keys'))) by (by rewrite Hp).
    cbn [map assoc_get snd]. rewrite decide_True by done. cbn [nullish]. change (sum_list (n :: ?l)) with (n + sum_list l).
    rewrite <- (IH keys'); [|done|done|].
    + change (sum_list (n :: ?l)) with (n + sum_list l). do 2 f_equal. apply map_ext_in. intros k' Hin%list_elem_of_In.
      rewrite decide_False; [done|]. by intros <-.
    + intros k' Hin. assert (k' ∈ k :: keys') as [->|?]%elem_of_cons; [|done|done]. rewrite <- Hp. apply Hsub. by right.
Qed.

(** The parts of a bucket are split values, or the rest when some row has another. *)
Definition split_keys (vs : list jsstr) (rest : Prop) (b : Bucket) : Prop :=
  match bk_split b with Some sp => NoDup sp.*1 ∧ Forall (λ k, k ∈ vs ∨ (k = $"other" ∧ rest)) sp.*1 | None => True end.
Lemma keys_of_set {A} (o : list (jsstr * A)) k v k' : k' ∈ (assoc_set o k v).*1 → k' = k ∨ k' ∈ o.*1.
Proof.
  induction o as [|[k0 v0] o IH]; cbn [assoc_set].
  - intros ?%list_elem_of_singleton. by left.
  - case_decide; cbn; intros [E|Hin]%elem_of_cons; rewrite elem_of_cons; [auto..|]. destruct (IH Hin); auto.
Qed.
Lemma split_keys_fill f vs (rest : Prop) r b : (nullish (getField r f) [] ∉ vs → rest) → split_keys vs rest b → split_keys vs rest (fill_bucket (Some f) vs r b).
Proof.
  intros Hr. unfold split_keys, fill_bucket. cbn [bk_split]. destruct (bk_split b) as [sp|]; [|done]. intros [Hn Hk]. split.
  - by apply assoc_set_nodup.
  - apply Forall_forall. intros k [->|Hin]%keys_of_set; [|rewrite Forall_forall in Hk; by apply Hk].
    unfold split_key. case_bool_decide as Hd; [by left|right; split; [done|by apply Hr]].
Qed.
Lemma split_keys_fold first step f vs (rest : Prop) rows bs : (∀ r, r ∈ rows → nullish (getField r f) [] ∉ vs → rest) →
  Forall (split_keys vs rest) bs → Forall (split_keys vs rest) (fold_left (add_row first step (Some f) vs) rows bs).
Proof.
  revert bs. induction rows as [|r rows IH]; intros bs Hr Hb; [done|]. cbn [fold_left]. apply IH; [intros r' Hr'; apply Hr; by right|].
  unfold add_row. case_match; [done|]. apply Forall_alter; [done|]. intros b _. apply split_keys_fill. apply Hr. left.
Qed.

Lemma dedup_from_elem l seen x : x ∈ l → x ∉ seen → x ∈ dedup_from seen l.
Proof.
  revert seen. induction l as [|y l IH]; intros seen; [by intros ?%elem_of_nil|]. cbn [dedup_from]. intros [->|Hin]%elem_of_cons Hs.
  - rewrite bool_decide_false by done. left.
  - case_bool_decide; [by apply IH|]. destruct (decide (x = y)) as [->|]; [left|]. right. apply IH; [done|]. by intros [?|?]%elem_of_cons.
Qed.
(** When a value is left out of the split values, the server says that there is a rest. *)
Lemma rest_reported lc rows f limit r : r ∈ rows → nullish (getField r f) [] ∉ map fst (topValues lc rows f limit []) →
  length (map fst (topValues lc rows f limit [])) < length (dedup (map (λ r, nullish (getField r f) []) rows)).
Proof.
  intros Hr Hout. destruct (top_values_spec lc rows f limit []) as (Hn & _ & Hocc & _). set (top := topValues lc rows f limit []) in *.
  set (w := nullish (getField r f) []) in *. set (all := dedup _).
  assert (w :: map fst top ⊆+ all) as Hsub.
  { apply NoDup_submseteq; [by apply NoDup_cons|]. intros v [->|Hv]%elem_of_cons; apply dedup_from_elem; try apply not_elem_of_nil.
    - apply list_elem_of_fmap. by exists r.
    - apply list_elem_of_fmap in Hv as ([v' n] & -> & Hv). destruct (Hocc _ _ Hv) as [-> Hpos]. unfold occurrences in Hpos. cbn [fst].
      destruct (List.filter _ rows) as [|r' l] eqn:E; [cbn in Hpos; lia|]. assert (r' ∈ r' :: l) as Hin by left. rewrite <- E in Hin.
      apply elem_of_List_filter in Hin as [Hin Hc]. apply bool_decide_eq_true in Hc. apply list_elem_of_fmap. exists r'. split; [|done].
      unfold counted in Hc. destruct (getField r' f) as [[|c u]|]; [done| |done]. cbn in Hc. by injection Hc as <-. }
  apply submseteq_length in Hsub. cbn in Hsub. lia.
Qed.

(** The names of the series do not clash with each other or with the time. *)
Definition series_ok (h : Histogram) : Prop := $"t" ∉ hg_split_values h ∧ $"other" ∉ hg_split_values h.
Lemma series_perm h f : hg_split_by h ≫= or_undef = Some f → volume_series h ≡ₚ hg_split_values h ++ (if hg_split_other h then [$"other"] else []).
Proof. intros E. unfold volume_series. rewrite E. destruct (decide (f = _)); [by rewrite array_sort_perm|done]. Qed.
Lemma series_nodup h f : hg_split_by h ≫= or_undef = Some f → NoDup (hg_split_values h) → series_ok h →
  NoDup (volume_series h) ∧ $"t" ∉ volume_series h.
Proof.
  intros E Hn [Ht Ho]. rewrite (series_perm h f E). split.
  - apply NoDup_app. split_and!; [done| |destruct (hg_split_other h); [apply NoDup_singleton|constructor]].
    intros v Hv. destruct (hg_split_other h); [|apply not_elem_of_nil]. intros ->%list_elem_of_singleton. done.
  - rewrite elem_of_app. intros [?|Hin]; [done|]. destruct (hg_split_other h); [|by apply elem_of_nil in Hin]. by apply list_elem_of_singleton in Hin.
Qed.
(** The members of a drawn row. *)
Definition drawn (row : list (jsstr * option Z)) (s : jsstr) : option Z := mjoin (assoc_get row s).
Lemma drawn_series `{TimeZones} series (val : jsstr → nat) row s : NoDup series → s ∈ series →
  drawn (fold_left (λ row s, assoc_set row s (Some (Z.of_nat (val s)))) series row) s = Some (Z.of_nat (val s)).
Proof.
  intros Hn Hs. unfold drawn. rewrite (assoc_get_fold (λ s, s) (λ s, Some (Z.of_nat (val s)))).
  destruct (List.find _ (rev series)) as [s'|] eqn:E.
  - apply List.find_some in E as [_ E]. apply bool_decide_eq_true in E as ->. done.
  - exfalso. apply list_elem_of_In, in_rev in Hs. pose proof (List.find_none _ _ E s Hs) as Hf. cbn in Hf. by rewrite bool_decide_true in Hf.
Qed.
Lemma drawn_other `{TimeZones} series (val : jsstr → nat) row s : s ∉ series →
  drawn (fold_left (λ row s, assoc_set row s (Some (Z.of_nat (val s)))) series row) s = drawn row s.
Proof.
  intros Hs. unfold drawn. rewrite (assoc_get_fold (λ s, s) (λ s, Some (Z.of_nat (val s)))).
  destruct (List.find _ (rev series)) as [s'|] eqn:E; [|done]. exfalso. apply List.find_some in E as [Hin E]. apply bool_decide_eq_true in E as <-.
  apply Hs. by apply list_elem_of_In, in_rev.
Qed.

(** The bars of a bucket stand at its time and add up to its total. *)
Definition bars_ok `{TimeZones} (h : Histogram) (b : Bucket) : Prop :=
  drawn (volume_row h b) $"t" = date_parse (bk_t b)
  ∧ ∃ ns, map (drawn (volume_row h b)) (volume_series h) = map (λ n, Some (Z.of_nat n)) ns ∧ sum_list ns = bk_total b.
Lemma histogram_bars `{TimeZones} lc rows start end_ splitBy target limit :
  (0 <= target)%Z → Forall (λ r, in_window (Some start) (Some end_) r = true) rows →
  let h := histogram lc rows start end_ splitBy target limit in
  series_ok h → Forall (bars_ok h) (hg_buckets h).
Proof.
  intros Htarget Hrows h Hok. destruct (histogram_conserves lc rows start end_ splitBy target limit Htarget Hrows) as (_ & Hsplit & _ & _). fold h in Hsplit.
  apply Forall_forall. intros b Hb. rewrite Forall_forall in Hsplit. pose proof (Hsplit b Hb) as Hbk.
  assert (hg_split_by h = splitBy) as Eby by done. unfold bars_ok, volume_row. rewrite Eby. destruct (splitBy ≫= or_undef) as [f|] eqn:Ef.
  - assert (NoDup (hg_split_values h)) as Hn.
    { unfold h, histogram. cbn [hg_split_values]. rewrite Ef. by destruct (top_values_spec lc rows f limit []) as (? & _). }
    destruct (series_nodup h f) as [Hsn Hst]; [by rewrite Eby|done|done|].
    set (val := λ s, nullish (bk_split b ≫= λ sp, assoc_get sp s) 0). split; [by rewrite drawn_other|].
    exists (map val (volume_series h)). split.
    + rewrite map_map. apply map_ext_in. intros s Hs%list_elem_of_In. by apply (drawn_series _ val).
    + unfold bucket_ok in Hbk. destruct (bk_split b) as [sp|] eqn:Esp; [|done]. rewrite <- Hbk.
      assert (split_keys (hg_split_values h) (hg_split_other h = true) b) as Hkeys.
      { assert (Forall (split_keys (hg_split_values h) (hg_split_other h = true)) (hg_buckets h)) as HF; [|rewrite Forall_forall in HF; by apply HF].
        unfold h, histogram in *. cbn [hg_split_values hg_buckets hg_split_other] in *. rewrite Ef. apply split_keys_fold.
        - intros r Hr Hout. apply Nat.ltb_lt. by eapply rest_reported.
        - apply Forall_fmap, Forall_true. intros i. unfold split_keys. cbn. split; constructor. }
      unfold split_keys in Hkeys. rewrite Esp in Hkeys. destruct Hkeys as [Hd Hk]. apply sum_at_keys; [done|done|].
      intros k Hin. rewrite (series_perm h f) by (by rewrite Eby). rewrite Forall_forall in Hk. apply elem_of_app.
      destruct (Hk k Hin) as [?|[-> ->]]; [by left|right; left].
  - split; [done|]. exists [bk_total b]. split; [|cbn; lia]. unfold volume_series. rewrite Eby, Ef. cbn [map]. unfold drawn. by rewrite assoc_get_set_eq.
Qed.

(** * From a bar to its logs *)

(** A drag ends where the pointer is, whichever way it went and wherever it was between. *)
Lemma drag_extent step a b moves : drag_run step true true None (mouse_down (Some a) :: map mouse_move moves ++ [mouse_move (Some b); mouse_up])
  = [if (a =? b)%Z then drag_click a (a + step) else drag_zoom (Z.min a b) (Z.max a b + step)].
Proof.
  cbn [drag_run drag_step option_list app]. generalize a at 2 as c. induction moves as [|m moves IH]; intros c.
  - cbn. destruct (Z.eqb_spec a b) as [->|]; [|done]. cbn. by rewrite Z.min_id, Z.max_id.
  - cbn [map app drag_run drag_step]. destruct m as [l|]; cbn [option_list app drag_a]; apply IH.
Qed.

Section zoom.
Context `{RegExpEngine} `{TimeZones} (displayTz : jsstr).

Lemma zoom_opens x now t t' sel : ex_selection displayTz x now = Ok (Some sel) → (0 <= year_of t <= 9999)%Z → (0 <= year_of t' <= 9999)%Z → (t < t')%Z →
  ∃ x', onZoom (Some t) (Some t') x = Ok x'
  ∧ ∀ now', ex_selection displayTz x' now' = Ok (Some (MkSelection (iso_string t) (iso_string t') (sel_tz sel) (sel_filter sel) (sel_native sel))).
Proof.
  intros Hs Ht Ht' Hlt. eexists. split; [done|]. intros now'. unfold ex_selection in *. destruct (ex_range displayTz x now) as [r|]; [|done].
  destruct (dq_error (ex_query x)) eqn:Ee; [done|]. unfold ex_range.
  change (resolveRange _ _ now' _) with (resolveRange (iso_string t) (iso_string t') now' (ex_tz displayTz x)).
  rewrite (proj2 (resolveRange_ok _ _ _ _ (MkResolved (Some t) (Some t')))).
  - change (dq_error (ex_query _)) with (dq_error (ex_query x)). rewrite Ee. unfold buildSelection, toISOString in *.
    destruct (r_start r) as [a|]; [|done]. destruct (r_end r) as [c|]; [|done]. cbn -[iso_string] in Hs |- *. by injection Hs as <-.
  - rewrite !resolve_iso by done. split_and!; [done|done|]. by intros ?? [= <-] [= <-].
Qed.

(** The rows of a window, of those the query selects. *)
Definition window_rows (logs : list LogRow) (sel : Selection) (t step : Z) : list LogRow :=
  List.filter (λ r, in_bucket t step r && selects (sel_filter sel) r && native_matches (native_text sel) r) logs.
Lemma zoom_rows logs sel sel0 sel' t step now : withoutPipes (Some sel0) = Some sel → (0 <= year_of t <= 9999)%Z → (0 <= year_of (t + step * 1000) <= 9999)%Z →
  (0 < step)%Z → withoutPipes (Some (MkSelection (iso_string t) (iso_string (t + step * 1000)) (sel_tz sel0) (sel_filter sel0) (sel_native sel0))) = Some sel' →
  selectRows logs sel' now = Ok (window_rows logs sel t step, MkResolved (Some t) (Some (t + step * 1000)%Z)).
Proof.
  intros E Ht Ht' Hstep E'. set (z := MkSelection _ _ _ _ _) in E'.
  pose proof (withoutPipes_range sel0) as H1. pose proof (withoutPipes_range z) as H2. pose proof (withoutPipes_native sel0 z eq_refl) as H3.
  rewrite E in H1, H3. rewrite E' in H2, H3. destruct H1 as (_ & _ & _ & Hf). destruct H2 as (Hfrom & Hto & _ & Hf'). injection H3 as Hn.
  unfold selectRows, mock_resolve. rewrite Hfrom, Hto. cbn [sel_from sel_to z].
  rewrite (proj2 (resolveRange_ok _ _ _ _ (MkResolved (Some t) (Some (t + step * 1000)%Z)))).
  - cbn [mbind result_bind]. do 2 f_equal. unfold window_rows. apply List.filter_ext. intros r. unfold row_selected, in_window, in_bucket, native_text.
    cbn [r_start r_end]. rewrite Hf', Hf, <- Hn. done.
  - rewrite !resolve_iso by done. split_and!; [done|done|]. intros ?? [= <-] [= <-]. lia.
Qed.
End zoom.

Lemma filter_twice {A} (p q : A → bool) l : List.filter p (List.filter q l) = List.filter (λ x, q x && p x) l.
Proof. induction l as [|x l IH]; [done|]. cbn. destruct (q x); cbn; [by rewrite IH|done]. Qed.
(** The histogram the endpoint answers with. *)
Lemma handler_histogram `{RegExpEngine} `{TimeZones} lc logs now sel split_by buckets split_limit range h :
  histogram_handler lc true logs now sel split_by (Some buckets) split_limit = Ok (range, h) →
  ∃ s e, mock_resolve (sel_from sel) (sel_to sel) (sel_tz sel) now = Ok (MkResolved (Some s) (Some e))
    ∧ let rows := List.filter (row_selected sel (MkResolved (Some s) (Some e))) logs in
      h = histogram lc rows s e split_by buckets (nullish split_limit 8) ∧ Forall (λ r, in_window (Some s) (Some e) r = true) rows.
Proof.
  unfold histogram_handler, over_selection, selectRows. cbn [requireAuth mbind result_bind]. destruct (native_guard (native_text sel)); [|done].
  cbn [mbind result_bind]. destruct (mock_resolve _ _ _ now) as [[ws we]|]; [|done]. cbn [mbind result_bind may_throw].
  unfold histogram_of. destruct (resolved _) as [rg|]; [|done]. cbn [mbind result_bind may_throw r_start r_end].
  destruct ws as [s|]; [|done]. destruct we as [e|]; [|done]. cbn [mbind result_bind nullish]. intros [= <- <-]. exists s, e. split_and!; [done|done|].
  apply Forall_forall. intros r [_ Hsel]%elem_of_List_filter. unfold row_selected in Hsel. by apply andb_prop in Hsel as [[Hsel _]%andb_prop _].
Qed.

(** C24: the histogram shows the logs that are there, and a bar leads to them.  For the
    histogram the server answers with for the query on the page, the bars of every bucket
    stand at its time and add up to the number of its logs (unless a split value has the
    name of the time or of the rest); a click on a bucket changes the range of the
    page to the bucket and keeps the query; and the query then selects exactly
    the logs of that interval, as many as the bar says when the bucket lies inside the
    former range.  A drag spans its buckets whichever way it goes. *)
Theorem bar_shows_its_logs `{RegExpEngine} `{TimeZones} lc displayTz x now sel0 sel logs now0 split_by buckets split_limit range h :
  ex_selection displayTz x now = Ok (Some sel0) → withoutPipes (Some sel0) = Some sel → (0 <= buckets)%Z →
  histogram_handler lc true logs now0 sel split_by (Some buckets) split_limit = Ok (range, h) → series_ok h →
  Forall (bars_ok h) (hg_buckets h)
  ∧ (∀ a b moves, drag_run (hg_step h * 1000) true true None (mouse_down (Some a) :: map mouse_move moves ++ [mouse_move (Some b); mouse_up])
       = [if (a =? b)%Z then drag_click a (a + hg_step h * 1000) else drag_zoom (Z.min a b) (Z.max a b + hg_step h * 1000)])
  ∧ ∃ s e, mock_resolve (sel_from sel) (sel_to sel) (sel_tz sel) now0 = Ok (MkResolved (Some s) (Some e))
    ∧ ∀ i b, hg_buckets h !! i = Some b →
      let t := ((s / (1000 * hg_step h) * hg_step h + Z.of_nat i * hg_step h) * 1000)%Z in
      let t' := (t + hg_step h * 1000)%Z in
      (0 <= year_of t <= 9999)%Z → (0 <= year_of t' <= 9999)%Z →
      drawn (volume_row h b) $"t" = Some t
      ∧ drag_run (hg_step h * 1000) true true None [mouse_down (Some t); mouse_up] = [drag_click t t']
      ∧ ∃ x' z sel', onZoom (Some t) (Some t') x = Ok x'
        ∧ (∀ now', ex_selection displayTz x' now' = Ok (Some z)) ∧ withoutPipes (Some z) = Some sel'
        ∧ (∀ now', selectRows logs sel' now' = Ok (window_rows logs sel t (hg_step h), MkResolved (Some t) (Some t')))
        ∧ ((s <= t)%Z → (t' <= e)%Z → length (window_rows logs sel t (hg_step h)) = bk_total b).
Proof.
  intros Hx Hw Hb Hh Hok. destruct (handler_histogram _ _ _ _ _ _ _ _ _ Hh) as (s & e & Hr & Eh & Hin).
  destruct (histogram_conserves lc _ s e split_by buckets (nullish split_limit 8) Hb Hin) as (_ & _ & Hbk & _). rewrite <- Eh in Hbk.
  assert (Forall (bars_ok h) (hg_buckets h)) as Hbars by (rewrite Eh in Hok |- *; by apply histogram_bars).
  assert (0 < hg_step h)%Z as Hstep by (rewrite Eh; apply step_for_pos).
  split; [done|]. split; [intros; apply drag_extent|]. exists s, e. split; [done|].
  intros i b Hib t t' Hy Hy'. destruct (Hbk i b Hib) as [Ht Hn]. split_and!.
  - rewrite Forall_forall in Hbars. destruct (Hbars b) as [-> _]; [by eapply list_elem_of_lookup_2|]. rewrite Ht. unfold date_parse. by rewrite iso_parse_string.
  - cbn. rewrite Z.eqb_refl. cbn. by rewrite Z.min_id, Z.max_id.
  - destruct (zoom_opens displayTz x now t t' sel0 Hx Hy Hy' ltac:(lia)) as (x' & Hx' & Hz). set (z := MkSelection _ _ _ _ _) in Hz.
    destruct (withoutPipes (Some z)) as [sel'|] eqn:Ez; [|pose proof (withoutPipes_range z) as Hzr; by rewrite Ez in Hzr].
    exists x', z, sel'. split_and!; [done|done|done|intros now'; by eapply zoom_rows|].
    intros Hst Hen. rewrite Hn. fold t. f_equal. unfold window_rows. rewrite filter_twice. apply List.filter_ext. intros r.
    unfold row_selected, in_window, in_bucket. cbn [r_start r_end].
    destruct (Z.leb_spec t (rowTimeMs r)), (Z.ltb_spec (rowTimeMs r) (t + hg_step h * 1000)); cbn [andb]; rewrite ?andb_false_r; try done.
    replace (s <=? rowTimeMs r)%Z with true by lia. replace (rowTimeMs r <? e)%Z with true by lia. cbn [andb]. rewrite ?andb_true_r. done.
Qed.

(** The two minutes from ten, in steps of thirty seconds. *)
Definition demo_minutes : ExplorerSearch :=
  MkExplorerSearch $"2026-09-14T10:00:00.000Z" $"2026-09-14T10:02:00.000Z" None None None visual None None None.
Lemma bar_shows_its_logs_witness :
  let _ := no_regexp in
  let _ := utc_zones in
  ∃ range h, histogram_handler no_order true mock_logs 0 mock_window (Some $"hostname") (Some 4%Z) None = Ok (range, h)
  ∧ Forall (bars_ok h) (hg_buckets h)
  ∧ ∃ b x', hg_buckets h !! 1 = Some b ∧ onZoom (Some 1789380030000%Z) (Some 1789380060000%Z) (explorer_init demo_minutes None) = Ok x'
    ∧ length (window_rows mock_logs mock_window 1789380030000%Z 30%Z) = bk_total b.
Proof.
  intros E Z. destruct (histogram_handler no_order true mock_logs 0 mock_window (Some $"hostname") (Some 4%Z) None) as [[range h]|] eqn:Eh; [|by vm_compute in Eh].
  exists range, h. split; [done|].
  pose proof (@bar_shows_its_logs E Z no_order $"UTC" (explorer_init demo_minutes None) 0 mock_window mock_window mock_logs 0 (Some $"hostname") 4 None range h
    ltac:(vm_compute; reflexivity) ltac:(vm_compute; reflexivity) ltac:(lia) Eh) as Hbar.
  vm_compute in Eh. injection Eh as <- <-. destruct Hbar as (Hbars & _ & s & e & Hr & Hb).
  { split; apply (bool_decide_eq_true_1 _); vm_compute; reflexivity. }
  split; [exact Hbars|]. vm_compute in Hr. injection Hr as <- <-.
  eexists. destruct (Hb 1 _ eq_refl) as (_ & _ & x' & z & sel' & Hx & _ & _ & _ & Hn); [vm_compute; by split..|].
  exists x'. split; [reflexivity|]. split; [exact Hx|]. apply Hn; vm_compute; done.
Defined.

(** ** What goes wrong *)

(** A host called t: its count takes the place of the time of the bucket. *)
Theorem split_value_hides_time :
  let _ := utc_zones in
  let h := MkHistogram 60 5 (Some $"hostname") [$"t"; $"web-1"] false
    [MkBucket $"2026-09-14T10:00:00.000Z" 5 (Some [($"t", 2); ($"web-1", 3)])] in
  map (λ row, drawn row $"t") (volume_rows h) = [Some 2%Z].
Proof. vm_compute. reflexivity. Qed.
(** The first timer takes the second label away after a fifth of a second. *)
Theorem copied_label_cut_short :
  let s := copy_click true $"raw" 1000 (copy_click true $"json" 0 copy_init) in
  cp_label s = Some $"raw" ∧ cp_label (copy_tick 1200 s) = None.
Proof. vm_compute. auto. Qed.
(** Alone it is shown for its time. *)
Lemma copy_shown label now t : (now <= t < now + 1200)%Z → cp_label (copy_tick t (copy_click true label now copy_init)) = Some label.
Proof. intros Ht. unfold copy_tick, copy_click. cbn. replace (now + 1200 <=? t)%Z with false by lia. done. Qed.
