(* ===== verification/LogTable.v ===== *)
(** The rows of the explorer and the live tail
    (src/frontend/src/features/explorer/ResultsTable.tsx), the drawer of one row
    (DetailDrawer.tsx) and a filter shown as chips (FilterChips.tsx). *)
From Stdlib Require Import ZArith Lia SpecFloat.
From stdpp Require Import base list numbers strings.
From S2P Require Import Prelude Unicode FilterAst FilterText JsNumber Fields FilterSem JsDate TimeRange UrlState Severity Format ExplorerPage Charts.
Open Scope nat_scope.

(** * The table *)

Definition WIDTHS : list (jsstr * nat) :=
  [($"timestamp", 190); ($"received_at", 190); ($"hostname", 140); ($"severity", 76); ($"app_name", 110); ($"facility", 80);
   ($"source_ip", 120); ($"source", 100); ($"protocol", 70); ($"format", 80); ($"process_id", 80)].
(** [WIDTHS\[c\] ?? 140], for a name that is no member of [Object.prototype]. *)
Definition column_size (c : jsstr) : nat := if decide (c = $"message") then 600 else nullish (assoc_get WIDTHS c) 140.
(** The last row that is rendered, -1 when there is none; near the end more are asked for. *)
Definition end_reached (lastIndex : Z) (rows : list LogRow) : bool :=
  (Z.of_nat (length rows) - 40 <=? lastIndex)%Z && (0 <? length rows).

Section table.
Context `{Locale} `{TimeZones}.

Inductive CellView :=
| cell_time (text : jsstr) (note : option jsstr)
| cell_severity (badge : option (option jsstr * jsstr))
| cell_message (parts : list TextPart) (parse_error : option jsstr) (truncated : bool)
| cell_text (text title : jsstr).
Definition time_note (row : LogRow) : option jsstr :=
  match r_time_source row ≫= or_undef with
  | None => None
  | Some s =>
      Some (if decide (s = $"adjusted")
            then $"Device timestamp " ++ nullish (r_timestamp_raw row) [] ++ $" was outside the accepted window; receive time used"
            else $"No usable device timestamp; receive time used")
  end.
Definition Cell (row : LogRow) (column tz highlight : jsstr) : CellView :=
  if bool_decide (column ∈ [$"timestamp"; $"received_at"]) then
    cell_time (formatTimestamp (TsString <$> getField row column) tz $"yyyy-MM-dd HH:mm:ss.SSS")
      (if decide (column = $"timestamp") then time_note row else None)
  else if decide (column = $"severity") then cell_severity (SeverityBadge (r_severity row))
  else
    let value := nullish (getField row column) [] in
    if decide (column = $"message") then
      cell_message (HighlightText value highlight) (r_parse_error row ≫= or_undef) (nullish (r_truncated row) false)
    else cell_text (or_else value $"—") value.
(** A cell's focus is outlined in the selected row only. *)
Record RowView := MkRowView { rw_key : jsstr; rw_selected : bool; rw_edge : option jsstr; rw_cells : list (CellView * bool) }.
Definition log_row (columns : list jsstr) (tz highlight : jsstr) (selectedIndex : option Z) (focusedColumn : Z) (i : nat) (row : LogRow) : RowView :=
  let selected := bool_decide (selectedIndex = Some (Z.of_nat i)) in
  MkRowView (rowKey row i) selected
    (if isErrorOrWorse (r_severity row) then Some (severityColor (r_severity row)) else None)
    (imap (λ ci c, (Cell row c tz highlight, selected && (Z.of_nat ci =? focusedColumn)%Z)) columns).
(** The rows the virtualizer asks for. *)
Definition ResultsTable (rows : list LogRow) (columns : list jsstr) (tz highlight : jsstr) (selectedIndex : option Z) (focusedColumn : Z)
    (items : list nat) : list RowView :=
  omap (λ i, log_row columns tz highlight selectedIndex focusedColumn i <$> rows !! i) items.
Definition TabularResults (columns : list jsstr) (rows : list (list (jsstr * jsstr))) : list (list jsstr) :=
  map (λ r, map (λ c, nullish (assoc_get r c) []) columns) rows.

(** * The drawer *)

Section detail.
Context (localeCompare : jsstr → jsstr → Z).

(** A field's line: its value, with the time in the display's zone below. *)
Record FieldLine := MkFieldLine { fl_name : jsstr; fl_value : jsstr; fl_local : option jsstr; fl_actions : bool }.
Definition field_line (tz : jsstr) (actions : bool) (kv : jsstr * jsstr) : FieldLine :=
  MkFieldLine kv.1 kv.2
    (if bool_decide (kv.1 ∈ [$"timestamp"; $"received_at"])
     then Some (formatTimestamp (Some (TsString kv.2)) tz $"yyyy-MM-dd HH:mm:ss.SSS" ++ [SPACE] ++ tz) else None) actions.
Record FieldTable := MkFieldTable { ft_title : jsstr; ft_lines : list FieldLine; ft_empty : jsstr }.
Definition field_table (title : jsstr) (entries : list (jsstr * jsstr)) (tz : jsstr) (actions : bool) (empty : jsstr) : FieldTable :=
  MkFieldTable title (map (field_line tz actions) entries) empty.
Definition core_no_message (row : LogRow) : list (jsstr * jsstr) :=
  List.filter (λ kv, negb (bool_decide (kv.1 = $"message")) && negb (bool_decide (kv.1 = $"raw_message"))) (e_core (rowEntries localeCompare row)).
Definition detail_tables (row : LogRow) (tz : jsstr) (actions : bool) : list FieldTable :=
  let e := rowEntries localeCompare row in
  [field_table $"Core fields" (core_no_message row) tz actions []]
  ++ (match e_labels e with [] => [] | l => [field_table ($"Labels (" ++ decn (length l) ++ $")") l tz actions []] end)
  ++ [field_table ($"Additional fields (" ++ decn (length (e_dynamic e)) ++ $")") (e_dynamic e) tz actions $"No dynamic fields."].
Inductive DetailCopy := copy_json | copy_raw | copy_message.
(** What a button copies; [json] is the row as JSON. *)
Definition copy_of (row : LogRow) (json : jsstr) (b : DetailCopy) : option jsstr :=
  match b with
  | copy_json => Some json
  | copy_raw => r_raw_message row ≫= or_undef
  | copy_message => Some (nullish (r_message row) [])
  end.
Record DetailView := MkDetailView {
  dv_message : jsstr; dv_heading : jsstr; dv_tables : list FieldTable; dv_raw : option jsstr
}.
Definition LogDetail (row : LogRow) (tz : jsstr) (actions : bool) : DetailView :=
  MkDetailView (or_else (nullish (r_message row) []) $"(empty message)")
    (nullish (r_hostname row) $"—" ++ $" · " ++ nullish (r_app_name row) $"—" ++ $" · "
     ++ formatTimestamp (Some (TsString (r_timestamp row))) tz $"yyyy-MM-dd HH:mm:ss.SSS")
    (detail_tables row tz actions) (r_raw_message row ≫= or_undef).
(** The drawer is open only with a row. *)
Definition DetailDrawer (row : option LogRow) (tz : jsstr) (open actions : bool) : option DetailView :=
  match row with Some r => if open then Some (LogDetail r tz actions) else None | None => None end.
End detail.
End table.

(** * Chips *)

Inductive ChipsView := chips_none (text : jsstr) | chips (terms : list (jsstr * bool)).
Definition FilterChips (filter : option FilterExpr) : ChipsView :=
  match andTerms filter with
  | [] => chips_none $"No filter — this would match every log in the window."
  | terms => chips (map (λ t, (formatFilter (Some t), filterExcludes t)) terms)
  end.

(** * Properties

    The drawer shows every field of a row, and its buttons filter by what it shows. *)
From Stdlib Require Import ZArith Lia.
From stdpp Require Import base list numbers strings.
From S2P Require Import Prelude FilterAst FilterText Fields FilterSem JsDate TimeRange UrlState Format SourceFormProps ExplorerPage ExplorerProps Charts.
Open Scope nat_scope.

(** The names and values the tables of a row show. *)
Definition shown_fields `{Locale} `{TimeZones} lc (row : LogRow) (tz : jsstr) : list (jsstr * jsstr) :=
  detail_tables lc row tz true ≫= λ t, map (λ l, (fl_name l, fl_value l)) (ft_lines t).
(** A row as the server sends it: no name twice, and no additional field that has
    the name of a core field or of a label. *)
Definition row_ok (row : LogRow) : Prop :=
  NoDup (nullish (r_labels row) []).*1 ∧ NoDup (nullish (r_fields row) []).*1
  ∧ Forall (λ k, truthy k && negb (isCoreField k) && negb (starts_with $"labels." k) = true) (nullish (r_fields row) []).*1.

Lemma table_entries `{Locale} `{TimeZones} title entries tz actions empty :
  map (λ l, (fl_name l, fl_value l)) (ft_lines (field_table title entries tz actions empty)) = entries.
Proof. unfold field_table. cbn [ft_lines]. rewrite map_map. rewrite <- map_id. apply map_ext. by intros []. Qed.
Lemma shown_entries `{Locale} `{TimeZones} lc row tz :
  shown_fields lc row tz = core_no_message lc row ++ e_labels (rowEntries lc row) ++ e_dynamic (rowEntries lc row).
Proof.
  unfold shown_fields, detail_tables. rewrite !bind_app. cbn [mbind list_bind]. rewrite !table_entries, !app_nil_r. f_equal. f_equal.
  destruct (e_labels (rowEntries lc row)) as [|l ls]; [done|]. cbn [mbind list_bind]. by rewrite table_entries, app_nil_r.
Qed.

Lemma core_entry lc row k v : (k, v) ∈ e_core (rowEntries lc row) ↔ k ∈ CORE_FIELDS ∧ getField row k = Some v ∧ truthy v = true.
Proof.
  unfold rowEntries. cbn [e_core]. rewrite list_elem_of_omap. split.
  - intros (f & Hf & E). destruct (getField row f) as [w|] eqn:Eg; [|done]. destruct (truthy w) eqn:Et; [|done]. injection E as <- <-. done.
  - intros (Hk & Hg & Ht). exists k. by rewrite Hg, Ht.
Qed.
Lemma core_name k : k ∈ CORE_FIELDS → apiFieldName k = k ∧ truthy k = true ∧ starts_with $"labels." k = false.
Proof.
  assert (Forall (λ k, apiFieldName k = k ∧ truthy k = true ∧ starts_with $"labels." k = false) CORE_FIELDS) as Hall
    by (unfold CORE_FIELDS; repeat constructor).
  rewrite Forall_forall in Hall. apply Hall.
Qed.
Lemma label_name k : apiFieldName ($"labels." ++ k) = $"labels." ++ k ∧ $"labels." ++ k ∉ CORE_FIELDS.
Proof.
  split; [done|]. intros Hin. destruct (core_name _ Hin) as (_ & _ & Hs). enough (starts_with $"labels." ($"labels." ++ k) = true) by congruence.
  apply starts_with_split. by eexists.
Qed.

(** What a name means in a row, for the three kinds of names. *)
Lemma getField_label row k : getField row ($"labels." ++ k) = prop_get (nullish (r_labels row) []) k.
Proof.
  unfold getField. destruct (label_name k) as [-> Hn]. rewrite bool_decide_false by done. replace (starts_with _ _) with true; [|symmetry; apply starts_with_split; by eexists].
  change (drop 7 ($"labels." ++ k)) with k. by destruct (r_labels row).
Qed.
Lemma getField_dynamic row k : apiFieldName k = k → k ∉ CORE_FIELDS → starts_with $"labels." k = false →
  getField row k = prop_get (nullish (r_fields row) []) k.
Proof. intros E Hn Hs. unfold getField. rewrite E, bool_decide_false, Hs by done. by destruct (r_fields row). Qed.

(** An additional field is named by a name that is nothing else. *)
Lemma dynamic_name row k v : row_ok row → (k, v) ∈ nullish (r_fields row) [] →
  truthy k = true ∧ apiFieldName k = k ∧ k ∉ CORE_FIELDS ∧ starts_with $"labels." k = false.
Proof.
  intros (_ & _ & Hf) Hin. rewrite Forall_forall in Hf. specialize (Hf k). rewrite !andb_true_iff, !negb_true_iff in Hf.
  destruct Hf as [[Ht Hc] Hs]; [apply list_elem_of_fmap; by exists (k, v)|]. unfold isCoreField in Hc. apply bool_decide_eq_false in Hc.
  unfold apiFieldName in *. destruct (decide (k = $"_time")); [exfalso; by apply Hc; left|].
  destruct (decide (k = $"_msg")); [|done]. exfalso. apply Hc. unfold CORE_FIELDS. do 18 right. left.
Qed.

(** Exactly the fields the row has, but for the message, and for core fields without
    a value. *)
Lemma shown_iff `{Locale} `{TimeZones} lc row tz k v : row_ok row →
  (k, v) ∈ shown_fields lc row tz ↔
  apiFieldName k = k ∧ k ≠ $"message" ∧ k ≠ $"raw_message" ∧ getField row k = Some v ∧ (truthy v = true ∨ k ∉ CORE_FIELDS).
Proof.
  intros Hok. pose proof Hok as (Hl & Hf & _). rewrite shown_entries, !elem_of_app. unfold core_no_message.
  rewrite elem_of_List_filter, core_entry. unfold rowEntries. cbn [e_labels e_dynamic fst]. rewrite !array_sort_perm.
  rewrite andb_true_iff, !negb_true_iff, !bool_decide_eq_false. split.
  - intros [((Hc & Hg & Ht) & Hm & Hr)|[Hin|Hin]].
    + destruct (core_name k Hc) as (? & _ & _). split_and!; auto.
    + apply list_elem_of_fmap in Hin as ([k' v'] & [= -> ->] & Hin). destruct (label_name k') as [Ha Hn].
      split_and!; [done|done|done| |by right]. change (getField row ($"labels." ++ k') = Some v'). rewrite getField_label. by apply prop_get_nodup.
    + destruct (dynamic_name row k v Hok Hin) as (_ & Ha & Hn & Hs). split_and!; [done|intros ->; by apply Hn; do 18 right; left| | |by right].
      * intros ->. apply Hn. do 19 right. left.
      * rewrite getField_dynamic by done. by apply prop_get_nodup.
  - intros (Ha & Hm & Hr & Hg & Hv). destruct (decide (k ∈ CORE_FIELDS)) as [Hc|Hc]; [left; naive_solver|right].
    destruct (starts_with $"labels." k) eqn:Hs.
    + left. apply starts_with_split in Hs as [k' ->]. rewrite getField_label in Hg. apply prop_get_in in Hg.
      apply list_elem_of_fmap. by exists (k', v).
    + right. rewrite getField_dynamic in Hg by done. by apply prop_get_in.
Qed.
Lemma shown_named `{Locale} `{TimeZones} lc row tz k v : row_ok row → (k, v) ∈ shown_fields lc row tz → truthy k = true.
Proof.
  intros Hok. rewrite shown_entries, !elem_of_app. unfold core_no_message. rewrite elem_of_List_filter, core_entry. unfold rowEntries.
  cbn [e_labels e_dynamic]. rewrite !array_sort_perm. intros [((Hc & _) & _)|[Hin|Hin]].
  - by destruct (core_name k Hc) as (_ & ? & _).
  - by apply list_elem_of_fmap in Hin as ([k' v'] & [= -> ->] & Hin).
  - by destruct (dynamic_name row k v Hok Hin) as (? & _).
Qed.

(** C9: the drawer tells everything about a row and its buttons filter by it.  For a row
    without names that occur twice or in two kinds of fields, the tables show a name with a value exactly when the row has that value under that name (the
    message stands above them, and a core field without a value is left out).  When the
    query selects the row, the plus beside a line leaves, of the logs it selected, exactly
    those with that value, the row among them; the minus leaves exactly the others; the native
    query stays and the new query is without an error. *)
Theorem drawer_tells_and_filters `{RegExpEngine} `{Locale} `{TimeZones} lc row tz x k v :
  row_ok row →
  ((k, v) ∈ shown_fields lc row tz ↔
     apiFieldName k = k ∧ k ≠ $"message" ∧ k ≠ $"raw_message" ∧ getField row k = Some v ∧ (truthy v = true ∨ k ∉ CORE_FIELDS))
  ∧ ((k, v) ∈ shown_fields lc row tz → selects (ex_filter x) row = true →
     let kept := drawer_filter k v x in
     let dropped := drawer_exclude k v x in
     dq_error (ex_query kept) = None ∧ dq_error (ex_query dropped) = None
     ∧ dq_native (ex_query kept) = dq_native (ex_query x) ∧ dq_native (ex_query dropped) = dq_native (ex_query x)
     ∧ selects (ex_filter kept) row = true ∧ selects (ex_filter dropped) row = false
     ∧ (∀ r, selects (ex_filter x) r = true →
          selects (ex_filter kept) r = bool_decide (nullish (getField r k) [] = v)
          ∧ selects (ex_filter dropped) r = negb (selects (ex_filter kept) r))).
Proof.
  intros Hok. split; [by apply shown_iff|]. intros Hin Hs kept dropped. pose proof (shown_named _ _ _ _ _ Hok Hin) as Hk.
  apply shown_iff in Hin as (_ & _ & _ & Hg & _); [|done]. subst kept dropped. unfold drawer_filter, drawer_exclude, onFilter, onExclude.
  assert (∀ r, getField r (drawer_field k) = getField r k) as Hd by (intros r; unfold drawer_field; case_decide; by subst).
  assert (truthy (drawer_field k) = true) as Hdk by (unfold drawer_field; by case_decide). pose proof (ex_filter_ok x) as Hq.
  destruct (ex_query_setFilter (addValueFilter (ex_filter x) (drawer_field k) v false) x) as (-> & -> & ->); [by apply addValueFilter_ok|].
  destruct (ex_query_setFilter (addValueFilter (ex_filter x) (drawer_field k) v true) x) as (-> & -> & ->); [by apply addValueFilter_ok|].
  split_and!; try done.
  - rewrite selects_value, Hd, Hg by done. cbn. by rewrite bool_decide_true.
  - rewrite selects_value, Hd, Hg by done. cbn. by rewrite bool_decide_true.
  - intros r Hsr. rewrite !selects_value, !Hd by done. cbn. split; [done|]. by destruct (bool_decide _).
Qed.

Lemma drawer_tells_and_filters_witness :
  let _ := no_regexp in
  let _ := plain_locale in
  let _ := utc_zones in
  let x := explorer_init (demo_search (Some $"failed") None) None in
  ($"app_name", $"sshd") ∈ shown_fields (λ _ _, 0%Z) demo_row $"UTC"
  ∧ selects (ex_filter (drawer_filter $"app_name" $"sshd" x)) demo_row = true.
Proof.
  intros E L Z x. assert (row_ok demo_row) as Hok by (split_and!; constructor).
  destruct (@drawer_tells_and_filters E L Z (λ _ _, 0%Z) demo_row $"UTC" x $"app_name" $"sshd" Hok) as [_ Hf].
  assert (($"app_name", $"sshd") ∈ shown_fields (λ _ _, 0%Z) demo_row $"UTC") as Hin by (apply (bool_decide_eq_true_1 _); vm_compute; reflexivity).
  split; [exact Hin|]. assert (selects (ex_filter x) demo_row = true) as Hs by (vm_compute; reflexivity).
  destruct (Hf Hin Hs) as (_ & _ & _ & _ & Hk & _). exact Hk.
Defined.
