(* ===== verification/AssistantPanels.v ===== *)
(** The two panels of the log assistant (src/frontend/src/features/assistant): the
    question box of the explorer (AskPanel.tsx) and the description of figures
    (ExplainFigures.tsx), with the frame both use (ModelProse.tsx).

    A mutation of the query library is the last call of [mutate]: its variables and
    whether it waits, has failed or has an answer.  What becomes of an earlier
    call is not seen. *)
From Stdlib Require Import ZArith Lia SpecFloat.
From stdpp Require Import base list numbers strings.
From S2P Require Import Prelude Unicode FilterAst FilterText FilterSem JsNumber JsDate TimeRange UrlState Format ApiClient ApiHooks Assistant ExplorerPage LogTable.
Open Scope nat_scope.

(** * Mutations *)

Inductive MutationState (A : Type) := mu_idle | mu_pending | mu_error (e : thrown) | mu_success (a : A).
Arguments mu_idle {A}.
Arguments mu_pending {A}.
Arguments mu_error {A} e.
Arguments mu_success {A} a.
(** [mu_calls] counts the calls; the number of the last one names it. *)
Record Mutation (V A : Type) := MkMutation { mu_calls : nat; mu_variables : option V; mu_state : MutationState A }.
Arguments MkMutation {V A}.
Arguments mu_calls {V A}.
Arguments mu_variables {V A}.
Arguments mu_state {V A}.
Definition mutation_idle {V A} : Mutation V A := MkMutation 0 None mu_idle.
Definition mutate {V A} (v : V) (m : Mutation V A) : Mutation V A := MkMutation (S (mu_calls m)) (Some v) mu_pending.
(** Whether the answer of a call is still waited for. *)
Definition awaited {V A} (call : nat) (m : Mutation V A) : bool :=
  (call =? mu_calls m) && match mu_state m with mu_pending => true | _ => false end.
Definition mutation_settle {V A} (call : nat) (r : result thrown A) (m : Mutation V A) : Mutation V A :=
  if awaited call m then MkMutation (mu_calls m) (mu_variables m) (match r with Ok a => mu_success a | Err e => mu_error e end) else m.
Definition isPending {V A} (m : Mutation V A) : bool := match mu_state m with mu_pending => true | _ => false end.

(** * The frame *)

Record Prose := MkProse { po_heading : jsstr; po_model : jsstr; po_text : jsstr; po_caveat : jsstr }.
Definition ModelProse (heading : jsstr) (model : option jsstr) (text caveat : jsstr) : Prose := MkProse heading (modelName model) text caveat.

(** * The question box *)

Record AskInput := MkAskInput { ai_question : jsstr; ai_range : option Range }.
Record AskPanel := MkAskPanel { ap_question : jsstr; ap_answer : option AssistantAnswer; ap_ask : Mutation AskInput AssistantAnswer }.
Definition ask_init : AskPanel := MkAskPanel [] None mutation_idle.

Inductive ask_event :=
| ask_type (text : jsstr) | ask_submit | ask_key (key : jsstr) | ask_run | ask_dismiss | ask_close
| ask_settled (call : nat) (r : result thrown AssistantAnswer).
Inductive ask_out := out_asked (call : nat) (input : AskInput) | out_run (patch : ProposalPatch) | out_close.

Definition submit (timeRange : option Range) (x : AskPanel) : AskPanel * list ask_out :=
  if negb (questionIsAskable (ap_question x)) || isPending (ap_ask x) then (x, [])
  else
    let input := MkAskInput (trim (ap_question x)) timeRange in
    let m := mutate input (ap_ask x) in
    (MkAskPanel (ap_question x) None m, [out_asked (mu_calls m) input]).

(** What stands below the box: each part, when it is there. *)
Record ProposalView := MkProposalView {
  pv_model : jsstr; pv_took : jsstr; pv_chips : ChipsView; pv_over : jsstr; pv_bounds : option jsstr * option jsstr; pv_fields : list jsstr;
  pv_reasoning : jsstr; pv_caveat : jsstr; pv_replaces : option jsstr
}.
Inductive AnswerView := aw_none | aw_proposal (p : AssistantProposal) (v : ProposalView) | aw_declined (p : Prose) (note : jsstr).
Record AskView := MkAskView { av_can_submit : bool; av_pending : bool; av_error : option (jsstr * bool); av_answer : AnswerView }.

Section ask.
Context `{Locale} `{TimeZones}.

Definition proposal_view (tz : jsstr) (filter : option FilterExpr) (native : jsstr) (p : AssistantProposal) : ProposalView :=
  MkProposalView (modelName (Some (pr_model p))) ($"not run yet · " ++ tookLabel (pr_took_ms p) ++ $" to propose it") (FilterChips (pr_filter p))
    (proposalRangeLabel (pr_time_range p) (λ d, formatTimestamp (Some (TsDate d)) tz $"MMM d, HH:mm"))
    (ar_from <$> pr_time_range p, ar_to <$> pr_time_range p)
    (match pr_fields p with [] => [$"none named"] | l => l end)
    (pr_reasoning p) (reasoningCaveat (Some (pr_model p))) (proposalReplaces filter native).
Definition DECLINED_CAVEAT : jsstr :=
  $"The model’s reading of the fields these logs carry — not proof the answer is impossible. "
  ++ $"If you know the field, type the filter into the query bar yourself.".
Definition ask_view (status : option AssistantStatus) (tz : jsstr) (filter : option FilterExpr) (native : jsstr) (x : AskPanel) : AskView :=
  let pending := isPending (ap_ask x) in
  MkAskView (questionIsAskable (ap_question x) && negb pending) pending
    (match mu_state (ap_ask x) with mu_error e => Some (assistantErrorText e, assistantRetryable e) | _ => None end)
    (match ap_answer x with
     | Some a =>
         if pending then aw_none
         else match a with
              | Proposal p => aw_proposal p (proposal_view tz filter native p)
              | Decline reason seen =>
                  aw_declined (ModelProse $"Declined by" (status ≫= as_model) (declineSentence reason) DECLINED_CAVEAT) (fieldsSeenNote seen)
              end
     | None => aw_none
     end).
End ask.

Definition ask_step (timeRange : option Range) (x : AskPanel) (ev : ask_event) : AskPanel * list ask_out :=
  match ev with
  | ask_type text => (MkAskPanel text (ap_answer x) (ap_ask x), [])
  | ask_submit => submit timeRange x
  | ask_key k => if decide (k = $"Enter") then submit timeRange x else if decide (k = $"Escape") then (x, [out_close]) else (x, [])
  | ask_run =>
      match ap_answer x with
      | Some (Proposal p) => if isPending (ap_ask x) then (x, []) else (x, [out_run (proposalPatch p)])
      | _ => (x, [])
      end
  | ask_dismiss => (MkAskPanel (ap_question x) None (ap_ask x), [])
  | ask_close => (x, [out_close])
  | ask_settled call r =>
      (MkAskPanel (ap_question x) (if awaited call (ap_ask x) then match r with Ok a => Some a | Err _ => ap_answer x end else ap_answer x)
         (mutation_settle call r (ap_ask x)), [])
  end.
(** The time range on the page may change between events. *)
Fixpoint ask_steps (x : AskPanel) (evs : list (option Range * ask_event)) : AskPanel * list ask_out :=
  match evs with
  | [] => (x, [])
  | (r, ev) :: evs => let '(x, out) := ask_step r x ev in let '(x, outs) := ask_steps x evs in (x, out ++ outs)
  end.
(** What the explorer does with a proposal. *)
Definition run_proposal (d : ProposalPatch) (x : Explorer) : Explorer := ex_run (with_search (λ s, apply_patch s d) x).

(** * The description of figures *)

(** The answer a page draws is an object: two answers are told apart by identity. *)
Record Figures := MkFigures { fg_id : nat; fg_body : jsstr }.
#[export] Instance Figures_eq_dec : EqDecision Figures.
Proof. solve_decision. Defined.
Record ExplainInput := MkExplainInput { xi_subject : jsstr; xi_figures : Figures }.
Record Explanation := MkExplanation { xp_text : jsstr; xp_model : jsstr; xp_took_ms : Number }.
Record ExplainFigures := MkExplainFigures { xf_asked : option Figures; xf_explain : Mutation ExplainInput Explanation }.
Definition explain_init : ExplainFigures := MkExplainFigures None mutation_idle.

Inductive ExplainView :=
| xv_none | xv_button (note : jsstr) | xv_pending (note : jsstr) | xv_error (text : jsstr) (retry : bool) | xv_prose (p : Prose) (took : jsstr).
Definition explain_view (status : option AssistantStatus) (figures : option Figures) (x : ExplainFigures) : ExplainView :=
  match figures with
  | None => xv_none
  | Some f =>
      if negb (assistantUsable status) then xv_none
      else if decide (xf_asked x = Some f) then
        match mu_state (xf_explain x) with
        | mu_pending => xv_pending ($"Asking " ++ nullish (status ≫= as_model) $"the model" ++ $" to describe these figures…")
        | mu_error e => xv_error (assistantErrorText e) (assistantRetryable e)
        | mu_success d =>
            let model := Some (xp_model d) in
            xv_prose (ModelProse $"Described by" model (xp_text d) (explainCaveat model)) (tookLabel (xp_took_ms d))
        | mu_idle => xv_none
        end
      else xv_button (nullish (status ≫= as_model) $"A local model"
                      ++ $" is sent the numbers on this page and describes them. It takes a second or two, and what it writes is a description, not a measurement.")
  end.
(** [shown] are the figures of the page when the button is pressed, with what they are of. *)
Inductive explain_event := explain_ask (subject : jsstr) (shown : Figures) | explain_hide | explain_settled (call : nat) (r : result thrown Explanation).
Definition explain_step (x : ExplainFigures) (ev : explain_event) : ExplainFigures :=
  match ev with
  | explain_ask subject f => MkExplainFigures (Some f) (mutate (MkExplainInput subject f) (xf_explain x))
  | explain_hide => MkExplainFigures None (xf_explain x)
  | explain_settled call r => MkExplainFigures (xf_asked x) (mutation_settle call r (xf_explain x))
  end.

(** * Properties

    The assistant proposes and describes: what is run is what was shown, on the button
    only, and a description belongs to the figures beside it. *)
From Stdlib Require Import ZArith Lia SpecFloat.
From stdpp Require Import base list numbers strings.
From S2P Require Import Prelude FilterAst FilterText FilterSem JsNumber JsDate TimeRange UrlState UrlStateProps Format ApiClient ApiHooks Assistant.
From S2P Require Import FilterTextFacts FilterRoundTrip ExplorerPage ExplorerProps LogTable.
Open Scope nat_scope.

(** * The question box *)

Definition is_run (ev : option Range * ask_event) : bool := match ev.2 with ask_run => true | _ => false end.
Definition runs_of (outs : list ask_out) : list ProposalPatch := omap (λ o, match o with out_run d => Some d | _ => None end) outs.

(** The panel after some events: the answer is the answer of the last question. *)
Record ask_inv (evs : list (option Range * ask_event)) (x : AskPanel) (outs : list ask_out) : Prop := {
  ask_shown : ∀ a, ap_answer x = Some a → mu_state (ap_ask x) = mu_success a;
  ask_answered : ∀ a, mu_state (ap_ask x) = mu_success a →
    (∃ r, (r, ask_settled (mu_calls (ap_ask x)) (Ok a)) ∈ evs)
    ∧ ∃ input, mu_variables (ap_ask x) = Some input ∧ out_asked (mu_calls (ap_ask x)) input ∈ outs;
  ask_waiting : mu_state (ap_ask x) = mu_pending →
    ∃ input, mu_variables (ap_ask x) = Some input ∧ out_asked (mu_calls (ap_ask x)) input ∈ outs;
  ask_latest : ∀ call input, out_asked call input ∈ outs → call ≤ mu_calls (ap_ask x)
}.

Lemma submit_inv r0 ev evs x outs : ask_inv evs x outs → ask_inv (evs ++ [ev]) (submit r0 x).1 (outs ++ (submit r0 x).2).
Proof.
  intros [H1 H2 H3 H4]. unfold submit. destruct (_ || _).
  - cbn. rewrite app_nil_r. constructor; [done| |done|done]. intros a Ha. destruct (H2 a Ha) as [[r Hr] ?]. split; [|done]. exists r. apply elem_of_app. by left.
  - cbn. constructor; cbn; [done|done| |].
    + intros _. eexists. split; [done|]. apply elem_of_app. right. left.
    + intros call input [Hin|[= -> ->]%list_elem_of_singleton]%elem_of_app; [apply H4 in Hin; lia|lia].
Qed.
Lemma ask_step_inv evs x outs r0 ev : ask_inv evs x outs → ask_inv (evs ++ [(r0, ev)]) (ask_step r0 x ev).1 (outs ++ (ask_step r0 x ev).2).
Proof.
  intros HI. assert (∀ x' out, ap_ask x' = ap_ask x → (ap_answer x' = ap_answer x ∨ ap_answer x' = None) → (∀ c i, out_asked c i ∉ out) →
    ask_inv (evs ++ [(r0, ev)]) x' (outs ++ out)) as Hsame.
  { intros x' out Em Ea Ho. destruct HI as [H1 H2 H3 H4]. constructor; rewrite ?Em.
    - intros a Ha. destruct Ea as [Ea|Ea]; [apply H1|]; congruence.
    - intros a Ha. destruct (H2 a Ha) as [[r Hr] (i & Hi & Hin)]. split; [exists r|exists i; split; [done|]]; apply elem_of_app; by left.
    - intros Hp. destruct (H3 Hp) as (i & Hi & Hin). exists i. split; [done|]. apply elem_of_app. by left.
    - intros c i [Hin|Hin]%elem_of_app; [by eapply H4|by apply Ho in Hin]. }
  destruct ev as [text| |k| | | |call r]; cbn [ask_step].
  - apply Hsame; [done|by left|intros; apply not_elem_of_nil].
  - by apply submit_inv.
  - destruct (decide (k = $"Enter")); [by apply submit_inv|]. destruct (decide (k = $"Escape")); (apply Hsame; [done|by left|]);
      intros c i Hin; [by apply list_elem_of_singleton in Hin|by apply elem_of_nil in Hin].
  - destruct (ap_answer x) as [[p|]|] eqn:Eans; [destruct (isPending (ap_ask x))| |]; (apply Hsame; [done|by left|]);
      intros c i Hin; try (by apply elem_of_nil in Hin). by apply list_elem_of_singleton in Hin.
  - apply Hsame; [done|by right|intros; apply not_elem_of_nil].
  - apply Hsame; [done|by left|]. intros c i Hin. by apply list_elem_of_singleton in Hin.
  - cbn [fst snd]. unfold mutation_settle. destruct (awaited call (ap_ask x)) eqn:Ea; [|apply Hsame; [done|by left|intros; apply not_elem_of_nil]].
    unfold awaited in Ea. apply andb_prop in Ea as [Ec Ep]. apply Nat.eqb_eq in Ec as ->. destruct HI as [H1 H2 H3 H4]. rewrite app_nil_r.
    destruct (mu_state (ap_ask x)) eqn:Es; try done. destruct (H3 eq_refl) as (i & Hi & Hin). constructor; cbn.
    + destruct r as [a|e]; [by intros a' [= <-]|]. intros a Ha. by apply H1 in Ha.
    + destruct r as [a|e]; [|done]. intros a' [= <-]. split; [exists r0; apply elem_of_app; right; left|by exists i].
    + by destruct r.
    + done.
Qed.
Lemma ask_steps_inv evs0 x0 outs0 evs : ask_inv evs0 x0 outs0 → ask_inv (evs0 ++ evs) (ask_steps x0 evs).1 (outs0 ++ (ask_steps x0 evs).2).
Proof.
  revert evs0 x0 outs0. induction evs as [|[r ev] evs IH]; intros evs0 x0 outs0 HI; cbn [ask_steps]; [by rewrite !app_nil_r|].
  pose proof (ask_step_inv _ _ _ r ev HI) as HI'. destruct (ask_step r x0 ev) as [x1 out]. cbn [fst snd] in HI'. apply IH in HI'. rewrite <- !app_assoc in HI'.
  destruct (ask_steps x1 evs) as [x2 outs]. exact HI'.
Qed.
Lemma ask_init_inv : ask_inv [] ask_init [].
Proof. constructor; try done. intros c i Hin. by apply elem_of_nil in Hin. Qed.

(** Only the button runs anything. *)
Lemma runs_counted x evs : length (runs_of (ask_steps x evs).2) ≤ length (List.filter is_run evs).
Proof.
  revert x. induction evs as [|[r ev] evs IH]; intros x; cbn [ask_steps List.filter]; [done|]. destruct (ask_step r x ev) as [x1 out] eqn:E.
  specialize (IH x1). destruct (ask_steps x1 evs) as [x2 outs]. cbn [snd] in *. unfold runs_of in *. rewrite omap_app, length_app.
  assert (length (omap (λ o, match o with out_run d => Some d | _ => None end) out) ≤ if is_run (r, ev) then 1 else 0) as Hout.
  { destruct ev; cbn in E |- *; unfold submit in E; repeat case_match; simplify_eq; cbn; lia. }
  destruct (is_run (r, ev)); cbn [length]; lia.
Qed.

(** C11: asking never runs anything, and what is run is what was shown.  Whatever is typed,
    asked and answered, in whatever order the answers arrive, a query is run only
    by the run button, at most once per press; it is that of the proposal on the screen,
    which is the answer to the last question asked.  The explorer then starts its search
    anew, without a native query, and over the bounds that were shown if the proposal has
    any.  If the filter language can express the proposed filter (no connective without
    arguments, no list without values, no field without a name) the new query is without
    an error and selects exactly the rows the proposal does; if the filter is moreover
    canonical (no connective directly inside one of its kind or with one argument) the
    query is the proposed filter itself, with the chips that were shown. *)
Theorem runs_what_was_shown `{Locale} `{TimeZones} `{RegExpEngine} evs r0 status tz filter native d :
  let x := (ask_steps ask_init evs).1 in
  let outs := (ask_steps ask_init evs).2 in
  length (runs_of outs) ≤ length (List.filter is_run evs)
  ∧ (out_run d ∈ (ask_step r0 x ask_run).2 →
     ∃ p v, av_answer (ask_view status tz filter native x) = aw_proposal p v ∧ d = proposalPatch p
       ∧ (∃ r call, (r, ask_settled call (Ok (Proposal p))) ∈ evs
          ∧ (∃ input, out_asked call input ∈ outs) ∧ ∀ call' input', out_asked call' input' ∈ outs → call' ≤ call)
       ∧ ∀ ex,
          let ex' := run_proposal d ex in
          dq_native (ex_query ex') = None ∧ ex_runId ex' = (ex_runId ex + 1)%Z ∧ ex_selectedIndex ex' = None
          ∧ (∀ f t, pv_bounds v = (Some f, Some t) → x_from (ex_search ex') = f ∧ x_to (ex_search ex') = t)
          ∧ (from_option printable true (pr_filter p) = true →
             dq_error (ex_query ex') = None ∧ ∀ row, selects (ex_filter ex') row = selects (pr_filter p) row)
          ∧ (query_ok (pr_filter p) = true → ex_filter ex' = pr_filter p ∧ pv_chips v = FilterChips (ex_filter ex'))).
Proof.
  intros x outs. split; [apply runs_counted|]. pose proof (ask_steps_inv [] ask_init [] evs ask_init_inv) as [G1 G2 _ G4]. cbn [app] in G1, G2, G4.
  fold x in G1, G2, G4. fold outs in G2, G4. cbn [ask_step]. destruct (ap_answer x) as [[p|re se]|] eqn:Ea; [|by intros ?%elem_of_nil..].
  destruct (isPending (ap_ask x)) eqn:Ep; [by intros ?%elem_of_nil|]. cbn [snd]. intros [= ->]%list_elem_of_singleton.
  exists p, (proposal_view tz filter native p). split_and!; [unfold ask_view; by rewrite Ep, Ea|done| |].
  - destruct (G2 _ (G1 _ eq_refl)) as [[r Hr] (i & _ & Hi)]. exists r, (mu_calls (ap_ask x)). split_and!; [done|by exists i|done].
  - intros ex. set (ex' := run_proposal _ ex). assert (ex_query ex' = decodeQuery (Some (formatFilter (pr_filter p))) None) as Eq.
    { unfold ex', run_proposal, ex_query, decodeQuery. cbn. unfold proposalFilterText. by rewrite nullish_or_undef. }
    unfold ex_filter. rewrite Eq. unfold decodeQuery. cbn [nullish]. split_and!; [by repeat case_match|done|done| | |].
    + cbn. intros f t. destruct (pr_time_range p) as [[a b]|]; [|done]. by intros [= <- <-].
    + intros Hp. destruct (pr_filter p) as [e|]; [|done]. rewrite (parse_format e) by done. cbn. split; [done|]. intros row. apply match_canon.
    + intros Hq. by rewrite formatFilter_query.
Qed.

(** A question, its answer, and the press of the button. *)
Definition demo_filter : FilterExpr := FieldValueExpr op_eq $"app_name" $"sshd".
Definition demo_proposal : AssistantProposal := MkProposal (Some demo_filter) (Some (MkAssistantRange $"now-24h" $"now")) $"sshd logs" [$"app_name"] $"m" (num 900).
Definition demo_question : list (option Range * ask_event) :=
  [(None, ask_type $"who failed"); (None, ask_submit); (None, ask_settled 1 (Ok (Proposal demo_proposal)))].
Lemma runs_what_was_shown_witness :
  let _ := plain_locale in
  let _ := utc_zones in
  let _ := no_regexp in
  ∃ p v, av_answer (ask_view None $"UTC" None [] (ask_steps ask_init demo_question).1) = aw_proposal p v ∧ proposalPatch demo_proposal = proposalPatch p
    ∧ ∀ ex, x_from (ex_search (run_proposal (proposalPatch demo_proposal) ex)) = $"now-24h"
        ∧ ex_filter (run_proposal (proposalPatch demo_proposal) ex) = Some demo_filter.
Proof.
  intros L Z E. destruct (@runs_what_was_shown L Z E demo_question None None $"UTC" None [] (proposalPatch demo_proposal)) as [_ Hr].
  destruct Hr as (p & v & Hv & Hp & _ & Hx); [vm_compute; left|]. exists p, v. split; [exact Hv|]. split; [exact Hp|].
  assert (p = demo_proposal ∧ pv_bounds v = (Some $"now-24h", Some $"now")) as [-> Hb] by (vm_compute in Hv; injection Hv as <- <-; split; reflexivity).
  intros ex. destruct (Hx ex) as (_ & _ & _ & Hbounds & _ & Hq). split; [exact (proj1 (Hbounds _ _ Hb))|]. apply Hq. vm_compute. reflexivity.
Defined.

(** * Descriptions *)

Definition explain_run (evs : list explain_event) : ExplainFigures := fold_left explain_step evs explain_init.
Definition asks (evs : list explain_event) : nat := length (List.filter (λ ev, match ev with explain_ask _ _ => true | _ => false end) evs).

(** The last question of some events, and the events after it. *)
Definition last_ask (evs : list explain_event) (v : ExplainInput) (pre post : list explain_event) : Prop :=
  evs = pre ++ explain_ask (xi_subject v) (xi_figures v) :: post ∧ asks post = 0.
Record explain_inv (evs : list explain_event) (x : ExplainFigures) : Prop := {
  xi_calls : mu_calls (xf_explain x) = asks evs;
  xi_last : ∀ v, mu_variables (xf_explain x) = Some v → ∃ pre post, last_ask evs v pre post
    ∧ ∀ d, mu_state (xf_explain x) = mu_success d → explain_settled (S (asks pre)) (Ok d) ∈ post;
  xi_asked : ∀ f, xf_asked x = Some f → ∃ v, mu_variables (xf_explain x) = Some v ∧ xi_figures v = f
}.
Lemma asks_app a b : asks (a ++ b) = asks a + asks b.
Proof. unfold asks. by rewrite List.filter_app, length_app. Qed.
Lemma explain_run_inv evs : explain_inv evs (explain_run evs).
Proof.
  unfold explain_run. induction evs as [|ev evs IH] using rev_ind; [by constructor|]. rewrite fold_left_app. cbn [fold_left].
  set (x := fold_left explain_step evs explain_init) in *. destruct IH as [Hc Hl Ha].
  assert (∀ v, mu_variables (xf_explain x) = Some v → asks [ev] = 0 → ∃ pre post, last_ask (evs ++ [ev]) v pre (post ++ [ev])
    ∧ ∀ d, mu_state (xf_explain x) = mu_success d → explain_settled (S (asks pre)) (Ok d) ∈ post ++ [ev]) as Hkeep.
  { intros v Hv Hn. destruct (Hl v Hv) as (pre & post & [-> Hp] & Hd). exists pre, post. split; [split; [by rewrite <- app_assoc|by rewrite asks_app, Hp, Hn]|].
    intros d Hs. apply elem_of_app. left. by apply Hd. }
  destruct ev as [s f| |call r]; cbn [explain_step].
  - constructor; cbn; [rewrite asks_app, Hc; cbn; lia| |].
    + intros v [= <-]. exists evs, []. by split.
    + intros f' [= <-]. by eexists.
  - constructor; cbn [xf_explain xf_asked]; [by rewrite asks_app, Hc, Nat.add_0_r| |done].
    intros v Hv. destruct (Hkeep v Hv eq_refl) as (pre & post & ? & ?). by exists pre, (post ++ [explain_hide]).
  - unfold mutation_settle. destruct (awaited call (xf_explain x)) eqn:Ew.
    + unfold awaited in Ew. apply andb_prop in Ew as [Ec _]. apply Nat.eqb_eq in Ec as ->. constructor; cbn; [by rewrite asks_app, Hc, Nat.add_0_r| |done].
      intros v Hv. destruct (Hl v Hv) as (pre & post & [E Hp] & _). eexists pre, (post ++ [_]). split.
      * split; [rewrite E at 1; by rewrite <- app_assoc|by rewrite asks_app, Hp].
      * intros d Hd. destruct r as [a|]; [|done]. injection Hd as ->. apply elem_of_app. right.
        rewrite Hc, E, asks_app. replace (asks (_ :: post)) with (S (asks post)) by done. rewrite Hp, Nat.add_1_r. left.
    + constructor; cbn [xf_explain xf_asked]; [by rewrite asks_app, Hc, Nat.add_0_r| |done].
      intros v Hv. destruct (Hkeep v Hv eq_refl) as (pre & post & ? & ?). by exists pre, (post ++ [explain_settled call r]).
Qed.

(** C12: a description stands beside the figures it was written from.  Whatever is asked,
    hidden and answered, in whatever order, and however the figures of the page change:
    prose is shown only while the figures on the page are the ones that were sent with
    the last question, and it is the answer to that very question; new figures
    get the button instead. *)
Theorem description_belongs evs status figures p took :
  explain_view status (Some figures) (explain_run evs) = xv_prose p took →
  (∃ subject pre post d, evs = pre ++ explain_ask subject figures :: post ∧ asks post = 0
     ∧ explain_settled (S (asks pre)) (Ok d) ∈ post ∧ p = ModelProse $"Described by" (Some (xp_model d)) (xp_text d) (explainCaveat (Some (xp_model d))))
  ∧ ∀ other, other ≠ figures → ∃ note, explain_view status (Some other) (explain_run evs) = xv_button note.
Proof.
  destruct (explain_run_inv evs) as [_ Hl Ha]. set (x := explain_run evs) in *. unfold explain_view.
  destruct (assistantUsable status); [|done]. cbn [negb]. destruct (decide (xf_asked x = Some figures)) as [Ef|]; [|done]. intros Hv. split.
  - destruct (mu_state (xf_explain x)) as [| | |d] eqn:Es; try done. injection Hv as <- _. destruct (Ha _ Ef) as (v & Hvar & Hfig).
    destruct (Hl v Hvar) as (pre & post & [E Hp] & Hd). exists (xi_subject v), pre, post, d. rewrite Hfig in E. split_and!; auto.
  - intros other Hne. rewrite Ef. rewrite decide_False by congruence. by eexists.
Qed.
Lemma description_belongs_witness :
  let usable := Some (MkAssistantStatus true true None None None []) in
  let d := MkExplanation $"Quiet." $"m" (num 800) in
  let f := MkFigures 7 $"{}" in
  ∃ p took, explain_view usable (Some f) (explain_run [explain_ask $"IIS" f; explain_settled 1 (Ok d)]) = xv_prose p took
  ∧ ∃ note, explain_view usable (Some (MkFigures 8 $"{}")) (explain_run [explain_ask $"IIS" f; explain_settled 1 (Ok d)]) = xv_button note.
Proof.
  intros usable d f. eexists _, _. split; [reflexivity|].
  destruct (description_belongs [explain_ask $"IIS" f; explain_settled 1 (Ok d)] usable f _ _ eq_refl) as [_ H]. apply H. done.
Defined.
