(* ===== verification/DashboardPage.v ===== *)
(** The dashboard (src/frontend/src/features/dashboard/DashboardPage.tsx): its range and
    refresh interval, its tiles and panels, and the explorer searches they lead to;
    with the endpoint that counts for the tiles (src/frontend/src/mocks/handlers.ts). *)
From Stdlib Require Import ZArith Lia SpecFloat.
From stdpp Require Import base list numbers strings.
From S2P Require Import Prelude Unicode FilterAst FilterText FilterSem JsNumber Fields JsDate TimeRange UrlState Severity Format ApiClient QueryCache ApiHooks.
From S2P Require Import MockLogs ExplorerPage Charts.
Open Scope nat_scope.

(** * Range and refresh *)

Record TimeSearch := MkTimeSearch { ts_from : jsstr; ts_to : jsstr; ts_refresh : option jsstr }.
Record Refresh := MkRefresh { rf_label : jsstr; rf_value : jsstr; rf_ms : option Z }.
Definition REFRESH : list Refresh :=
  [MkRefresh $"Off" $"off" None; MkRefresh $"10s" $"10s" (Some 10000%Z); MkRefresh $"30s" $"30s" (Some 30000%Z);
   MkRefresh $"1m" $"1m" (Some 60000%Z); MkRefresh $"5m" $"5m" (Some 300000%Z)].
Definition refresh_of (s : TimeSearch) : Refresh :=
  nullish (List.find (λ r, bool_decide (Some (rf_value r) = ts_refresh s)) REFRESH) (nullish (REFRESH !! 2) (MkRefresh [] [] None)).
Definition dash_range (tz : jsstr) (s : TimeSearch) : Range := MkRange (ts_from s) (ts_to s) (Some tz).
Definition dash_time (from to : jsstr) (s : TimeSearch) : TimeSearch := MkTimeSearch from to (ts_refresh s).
Definition dash_refresh (value : jsstr) (s : TimeSearch) : TimeSearch := MkTimeSearch (ts_from s) (ts_to s) (Some value).
(** The requests of the page. *)
Definition dash_requests (tz : jsstr) (s : TimeSearch) : list UseQuery :=
  let r := dash_range tz s in
  let ms := rf_ms (refresh_of s) in
  [useDashboardOverview r ms; useDashboardVolume r ms; useIngestionRate r ms]
  ++ map (λ f, useDashboardTop r f ms (num 8)) [$"severity"; $"hostname"; $"app_name"; $"source_ip"; $"facility"; $"format"].

(** * Links *)

(** The explorer's search, as it is read back from the URL. *)
Definition goExplore (filter : option FilterExpr) (from to : jsstr) : ExplorerSearch :=
  MkExplorerSearch from to None (match filter with Some _ => or_undef (formatFilter filter) | None => None end) None visual None None None.
Inductive DashLink := link_explore (s : ExplorerSearch) | link_system (tab : jsstr) | link_scroll (id : jsstr).
Inductive DashTile := tile_logs | tile_rate | tile_today | tile_errors | tile_sources | tile_storage.
Definition ERRORS_FILTER : FilterExpr := FieldValueExpr op_lte $"severity_code" $"3".
Definition tile_click (s : TimeSearch) (t : DashTile) : DashLink :=
  match t with
  | tile_logs => link_explore (goExplore None (ts_from s) (ts_to s))
  | tile_rate => link_system $"ingestion"
  | tile_today => link_explore (goExplore None $"now/d" $"now")
  | tile_errors => link_explore (goExplore (Some ERRORS_FILTER) (ts_from s) (ts_to s))
  | tile_sources => link_scroll $"top-hostname"
  | tile_storage => link_system $"storage"
  end.
(** A click on a value of the panel of a field. *)
Definition panel_click (s : TimeSearch) (field value : jsstr) : ExplorerSearch :=
  goExplore (Some (FieldValueExpr op_eq field value)) (ts_from s) (ts_to s).
(** In a donut the name is read from the markup, and nothing happens without one. *)
Definition donut_click (s : TimeSearch) (field : jsstr) (name : option jsstr) : option ExplorerSearch :=
  panel_click s field <$> (name ≫= or_undef).
(** The histogram of volume: a drag changes the page's range, a click opens the explorer. *)
Definition volume_zoom (start end_ : option Z) (s : TimeSearch) : result TimeError TimeSearch :=
  f ← toISOString start; t ← toISOString end_; Ok (dash_time f t s).
Definition volume_click (start end_ : option Z) : result TimeError ExplorerSearch :=
  f ← toISOString start; t ← toISOString end_; Ok (goExplore None f t).

(** * Tiles *)

Record DashStorage := MkDashStorage { ds_compressed : option Number; ds_total : option Number; ds_free : option Number }.
Record DashOverview := MkDashOverview {
  ov_logs : Number; ov_today : Number; ov_errors : Number; ov_sources : Number; ov_rate : option (option Number * option Number);
  ov_storage : option DashStorage
}.
Inductive TileBody := tl_loading | tl_unavailable | tl_figure (value : jsstr) (sub : option jsstr).
Section tiles.
Context `{Locale} `{TimeZones}.

Definition tile_value (d : option DashOverview) (t : DashTile) : jsstr :=
  match t with
  | tile_logs => formatCount (ov_logs <$> d)
  | tile_rate => formatRate ((d ≫= ov_rate) ≫= fst)
  | tile_today => formatCount (ov_today <$> d)
  | tile_errors => formatCount (ov_errors <$> d)
  | tile_sources => formatExact (ov_sources <$> d)
  | tile_storage => formatBytes ((d ≫= ov_storage) ≫= ds_compressed)
  end.
Definition falsy_number (x : Number) : bool := neq x (num 0) || isNaN x.
Definition tile_sub (d : option DashOverview) (t : DashTile) : option jsstr :=
  match t, d with
  | tile_rate, Some v => Some (match ov_rate v with Some r => formatBytes r.2 ++ $"/s" | None => $"measuring…" end)
  | tile_errors, Some v => if falsy_number (ov_logs v) then None else Some (formatPercent (ndiv (ov_errors v) (ov_logs v)) ++ $" of logs")
  | tile_sources, _ => Some $"distinct hostnames"
  | tile_storage, Some v =>
      match ov_storage v ≫= ds_total with
      | Some total =>
          if falsy_number total then None
          else Some (formatPercent (nsub (num 1) (ndiv (nullish (ov_storage v ≫= ds_free) (num 0)) total)) ++ $" of disk")
      | None => None
      end
  | _, _ => None
  end.
Definition DashboardTile (loading : bool) (error : option thrown) (d : option DashOverview) (t : DashTile) : TileBody :=
  if loading then tl_loading else if given error then tl_unavailable else tl_figure (tile_value d t) (tile_sub d t).

(** * Panels *)

Record RatePoint := MkRatePoint { rp_t : option Z; rp_received : Number; rp_stored : Number; rp_dropped : Number }.
Definition rate_point (p : jsstr * (option Number * option Number * option Number)) : RatePoint :=
  let '(t, (received, stored, dropped)) := p in
  MkRatePoint (date_parse t) (nullish received (num 0)) (nullish stored (num 0)) (nullish dropped (num 0)).
Inductive TopBody := tp_error | tp_loading | tp_empty | tp_list (lines : list TopLine).
Definition TopPanel (error : option thrown) (values : option (list (jsstr * Number))) : TopBody :=
  if given error then tp_error
  else match values with None => tp_loading | Some [] => tp_empty | Some l => tp_list (TopList l None) end.
(** [severityRank(a.name) - severityRank(b.name)] *)
Definition by_rank_up (a b : jsstr * Number) : Z := by_rank_down b.1 a.1.
Inductive DonutBody := dn_error | dn_loading | dn_lines (lines : list DonutLine).
Definition SeverityPanel (error : option thrown) (values : option (list (jsstr * Number))) : DonutBody :=
  if given error then dn_error
  else match values with None => dn_loading | Some l => dn_lines (Donut (array_sort by_rank_up l) (λ n _, severityColor (Some n))) end.
Definition format_color (n : jsstr) (i : nat) : jsstr :=
  if decide (n = $"unknown") then $"var(--danger)" else nullish (CHART_COLORS !! (i mod length CHART_COLORS)) [].
Definition FormatPanel (error : option thrown) (values : option (list (jsstr * Number))) : DonutBody :=
  if given error then dn_error else match values with None => dn_loading | Some l => dn_lines (Donut l format_color) end.
End tiles.

(** * The endpoint of the tiles *)

Section mock.
Context `{RegExpEngine} `{TimeZones}.
(** How many logs each row of the mock stands for. *)
Definition MOCK_FACTOR : nat := 1873.
Definition is_mock_error (r : LogRow) : bool := (nullish (r_severity_code r) 6 <=? 3)%Z.
Record OverviewCounts := MkOverviewCounts { oc_logs : nat; oc_today : nat; oc_errors : nat; oc_sources : nat }.
(** [midnight] is the start of the server's day. *)
Definition overview_handler (loggedIn : bool) (logs : list LogRow) (now midnight : Z) (r : Range) :=
  over_selection false loggedIn logs now (time_only (rg_from r) (rg_to r) (rg_tz r)) (λ rows _,
    Ok (MkOverviewCounts (length rows * MOCK_FACTOR) (length (List.filter (λ r, midnight <=? rowTimeMs r)%Z logs) * MOCK_FACTOR)
          (length (List.filter is_mock_error rows) * MOCK_FACTOR) (length (remove_dups (map r_hostname rows))))).
End mock.

(** * Properties

    The figures of the dashboard lead to the logs they count. *)
From Stdlib Require Import ZArith Lia SpecFloat.
From stdpp Require Import base list numbers strings.
From S2P Require Import Prelude FilterAst FilterText FilterSem JsNumber Fields JsDate TimeRange TimeRangeProps UrlState UrlStateProps ApiHooks.
From S2P Require Import MockLogs MockLogsProps ExplorerPage ExplorerProps Charts.
Open Scope nat_scope.

Section links.
Context `{RegExpEngine} `{TimeZones} (tz : jsstr) (Htz : truthy tz = true).

Lemma goExplore_query f from to id : query_ok f = true → ex_query (explorer_init (goExplore f from to) id) = MkDecodedQuery f None None.
Proof.
  intros Hq. unfold ex_query, goExplore. cbn [explorer_init ex_search x_q x_native]. unfold decodeQuery.
  destruct f as [e|]; [|done]. rewrite nullish_or_undef, formatFilter_query by done. done.
Qed.

(** The explorer a link opens selects [rows] of the window from [a] to [b]. *)
Definition opens (search : ExplorerSearch) (logs : list LogRow) (now a b : Z) (rows : list LogRow) : Prop :=
  ∃ sel, ex_selection tz (explorer_init search None) now = Ok (Some sel)
  ∧ ∀ now', selectRows logs sel now' = Ok (rows, MkResolved (Some a) (Some b)).
Lemma goExplore_opens f from to logs now a b :
  query_ok f = true → mock_resolve from to (Some tz) now = Ok (MkResolved (Some a) (Some b)) →
  (0 <= year_of a <= 9999)%Z → (0 <= year_of b <= 9999)%Z →
  opens (goExplore f from to) logs now a b (List.filter (λ r, in_window (Some a) (Some b) r && selects f r) logs).
Proof.
  intros Hq Hr Ha Hb. assert (resolveRange from to now tz = Ok (MkResolved (Some a) (Some b))) as Hr'.
  { unfold mock_resolve in Hr. cbn [nullish] in Hr. destruct tz; [done|exact Hr]. }
  exists (MkSelection (iso_string a) (iso_string b) None f None). split.
  - unfold ex_selection. rewrite (goExplore_query f from to None Hq). unfold ex_range, ex_tz. cbn [explorer_init ex_search goExplore x_from x_to x_tz nullish].
    rewrite Hr'. cbn [dq_error r_start r_end]. unfold ex_filter. by rewrite (goExplore_query f from to None Hq).
  - intros now'. unfold selectRows, mock_resolve. cbn [sel_from sel_to sel_tz].
    rewrite (proj2 (resolveRange_ok _ _ _ _ (MkResolved (Some a) (Some b)))).
    + cbn [mbind result_bind]. do 2 f_equal. apply List.filter_ext. intros r. unfold row_selected. cbn [r_start r_end sel_filter]. by rewrite andb_true_r.
    + rewrite !resolve_iso by done. split_and!; [done|done|]. intros ?? [= <-] [= <-]. apply resolveRange_ok in Hr' as (_ & _ & Hlt). by apply Hlt.
Qed.

Lemma counted_value field r v : v ≠ [] → bool_decide (counted field [] r = Some v) = bool_decide (nullish (getField r field) [] = v).
Proof.
  intros Hv. apply bool_decide_ext. unfold counted. destruct (getField r field) as [[|c u]|]; cbn; split; try congruence; by intros [= ->].
Qed.
Lemma time_only_rows logs a b from to z : List.filter (row_selected (time_only from to z) (MkResolved (Some a) (Some b))) logs
  = List.filter (in_window (Some a) (Some b)) logs.
Proof. apply List.filter_ext. intros r. unfold row_selected. cbn [r_start r_end time_only sel_filter selects]. by rewrite !andb_true_r. Qed.
End links.

(** A severity code as syslog has it. *)
Definition coded (r : LogRow) : Prop := ∃ c, r_severity_code r = Some c ∧ (0 <= c <= 7)%Z.
Lemma error_selected `{RegExpEngine} r : coded r → selects (Some ERRORS_FILTER) r = is_mock_error r.
Proof.
  intros (c & Hc & Hr). unfold ERRORS_FILTER, is_mock_error. cbn [selects matchFilter].
  assert (getField r $"severity_code" = Some (decz c)) as ->.
  { change (getField r $"severity_code") with (decz <$> r_severity_code r). by rewrite Hc. }
  rewrite Hc. cbn [nullish]. assert (c ∈ seqZ 0 8) as Hin by (apply elem_of_seqZ; lia).
  change (seqZ 0 8) with [0; 1; 2; 3; 4; 5; 6; 7]%Z in Hin.
  clear -Hin. repeat (apply elem_of_cons in Hin as [->|Hin]; [vm_compute; reflexivity|]). by apply elem_of_nil in Hin.
Qed.

Definition PANEL_FIELDS : list jsstr := [$"severity"; $"hostname"; $"app_name"; $"source_ip"; $"facility"; $"format"].

(** C25: a figure of the dashboard leads to the logs it counts.  For every panel of the
    dashboard, a click on a value opens the explorer with a query that selects, over the
    very range of the dashboard, as many logs as the panel counts for that value; the
    tile of all logs and the tile of errors open the explorer with as many logs as
    they say, when every log has a severity code.  (The endpoints multiply what
    they count, each by the same factor.) *)
Theorem figures_lead_to_logs `{RegExpEngine} `{TimeZones} lc tz s logs now midnight a b :
  truthy tz = true → mock_resolve (ts_from s) (ts_to s) (Some tz) now = Ok (MkResolved (Some a) (Some b)) →
  (0 <= year_of a <= 9999)%Z → (0 <= year_of b <= 9999)%Z → Forall coded logs →
  (∀ field limit range values v n, field ∈ PANEL_FIELDS →
     top_handler lc true logs now (ts_from s) (ts_to s) (Some tz) field limit = Ok (range, values) → (v, n) ∈ values →
     ∃ rows, opens tz (panel_click s field v) logs now a b rows ∧ n = length rows * MOCK_FACTOR
       ∧ ∀ r, r ∈ rows ↔ r ∈ logs ∧ in_window (Some a) (Some b) r = true ∧ nullish (getField r field) [] = v)
  ∧ (∀ range c, overview_handler true logs now midnight (dash_range tz s) = Ok (range, c) →
     (∃ search rows, tile_click s tile_logs = link_explore search ∧ opens tz search logs now a b rows ∧ oc_logs c = length rows * MOCK_FACTOR)
     ∧ ∃ search rows, tile_click s tile_errors = link_explore search ∧ opens tz search logs now a b rows ∧ oc_errors c = length rows * MOCK_FACTOR).
Proof.
  intros Htz Hr Ha Hb Hcoded. split.
  - intros field limit range values v n Hf. unfold top_handler, over_selection, selectRows. cbn [requireAuth mbind result_bind time_only sel_from sel_to sel_tz].
    rewrite Hr. cbn [mbind result_bind may_throw]. destruct (resolved _) as [rg|]; [|done]. cbn [mbind result_bind may_throw]. intros [= <- <-] Hin.
    rewrite time_only_rows in Hin. apply list_elem_of_fmap in Hin as ([v' m] & [= -> ->] & Hin).
    match type of Hin with (_, _) ∈ topValues lc ?l field ?k [] => set (rows := l) in *; destruct (top_values_spec lc rows field k []) as (_ & _ & Hocc & _) end.
    destruct (Hocc _ _ Hin) as [-> Hpos]. assert (v' ≠ []) as Hv.
    { intros ->. unfold occurrences in Hpos. destruct (List.filter _ rows) as [|r l] eqn:E; [cbn in Hpos; lia|]. assert (r ∈ r :: l) as Hrl by left.
      rewrite <- E in Hrl. apply elem_of_List_filter in Hrl as [_ Hc]. apply bool_decide_eq_true in Hc. unfold counted in Hc.
      destruct (getField r field) as [[|]|]; [done| |done]. by cbn in Hc. }
    assert (truthy field = true) as Hft by (repeat (apply elem_of_cons in Hf as [->|Hf]; [done|]); by apply elem_of_nil in Hf).
    pose proof (addValueFilter_ok None field v' false Hft eq_refl) as Hq. cbn in Hq.
    eexists. split; [by apply goExplore_opens|]. cbn [selects matchFilter]. split.
    + f_equal. unfold occurrences, rows. rewrite filter_twice. f_equal. apply List.filter_ext. intros r. by rewrite counted_value.
    + intros r. rewrite elem_of_List_filter, andb_true_iff, bool_decide_eq_true. naive_solver.
  - intros range c. unfold overview_handler, over_selection, selectRows. cbn [requireAuth mbind result_bind time_only dash_range rg_from rg_to rg_tz sel_from sel_to sel_tz].
    rewrite Hr. cbn [mbind result_bind may_throw]. destruct (resolved _) as [rg|]; [|done]. cbn [mbind result_bind may_throw]. intros [= <- <-].
    rewrite time_only_rows. cbn [oc_logs oc_errors]. split; eexists _, _; (split; [done|split; [by apply goExplore_opens|]]).
    + do 2 f_equal. apply List.filter_ext. intros r. cbn [selects]. by rewrite andb_true_r.
    + do 2 f_equal. rewrite filter_twice. apply filter_ext_in. intros r Hin%list_elem_of_In. rewrite Forall_forall in Hcoded.
      by rewrite error_selected by (by apply Hcoded).
Qed.

(** Three logs of the two minutes from ten: two errors and a notice. *)
Definition coded_row (ns host : jsstr) (code : option Z) : LogRow :=
  MkLogRow $"t" None (Some $"m") (Some host) None None None None None None code None None None None None None None None None None
    None None None None None None None (MkRowRef [] ns).
Definition coded_logs : list LogRow :=
  [coded_row $"1789380065000000000" $"web-1" (Some 3%Z); coded_row $"1789380030500000000" $"web-1" (Some 5%Z);
   coded_row $"1789380000000000000" $"web-2" (Some 0%Z)].
Definition dash_minutes : TimeSearch := MkTimeSearch $"2026-09-14T10:00:00.000Z" $"2026-09-14T10:02:00.000Z" None.
Lemma figures_lead_to_logs_witness :
  let _ := no_regexp in
  let _ := utc_zones in
  ∃ range c search rows, overview_handler true coded_logs 0 0 (dash_range $"UTC" dash_minutes) = Ok (range, c)
  ∧ tile_click dash_minutes tile_errors = link_explore search
  ∧ opens $"UTC" search coded_logs 0 1789380000000 1789380120000 rows ∧ oc_errors c = length rows * MOCK_FACTOR.
Proof.
  intros E Z. destruct (@figures_lead_to_logs E Z no_order $"UTC" dash_minutes coded_logs 0 0 1789380000000 1789380120000) as [_ Ho];
    [reflexivity|vm_compute; reflexivity|vm_compute; split; discriminate|vm_compute; split; discriminate| |].
  { repeat constructor; eexists; (split; [reflexivity|lia]). }
  destruct (overview_handler true coded_logs 0 0 (dash_range $"UTC" dash_minutes)) as [[range c]|] eqn:Eo; [|by vm_compute in Eo].
  destruct (Ho range c eq_refl) as (_ & search & rows & H1 & H2 & H3). exists range, c, search, rows. split; [reflexivity|]. split; [exact H1|]. by split.
Defined.

(** A log without a severity code is no error for the tile, and the link lists it. *)
Theorem errors_link_lists_more :
  let _ := no_regexp in
  let r := coded_row $"1789380000000000000" $"web-1" None in
  is_mock_error r = false ∧ selects (Some ERRORS_FILTER) r = true.
Proof. vm_compute. auto. Qed.
