(* ===== verification/SystemPage.v ===== *)
(** The system page (src/frontend/src/features/system/SystemPage.tsx) with the history of
    the host (HostHistoryPanel.tsx): its tabs, and what each shows of the health,
    the ingestion and the storage the server reports.  Cells that only repeat a member
    (a name, an address) are left out of the rows. *)
From Stdlib Require Import ZArith Lia SpecFloat.
From stdpp Require Import base list numbers strings.
From S2P Require Import AdminPages.
From S2P Require Import Prelude Unicode JsNumber JsDate TimeRange Severity Format SourceForm ApiClient Assistant Analytics AnalysisViews HostHistory QueryCache ApiHooks Charts DashboardPage.
Open Scope nat_scope.

(** * Tabs *)

Inductive SystemTab := tab_health | tab_ingestion | tab_storage.
Record SystemSearch := MkSystemSearch { sy_tab : SystemTab; sy_hrange : option jsstr }.
(** The tabs replace the whole search, the windows keep the rest of it. *)
Definition open_tab (t : SystemTab) (s : SystemSearch) : SystemSearch := MkSystemSearch t None.
Definition set_range (next : jsstr) (s : SystemSearch) : SystemSearch := MkSystemSearch (sy_tab s) (encodeHostRange next).
Definition host_range (s : SystemSearch) : jsstr := decodeHostRange (sy_hrange s).

(** A request of a tab: an error, nothing yet, or what is shown of the data. *)
Inductive TabBody (A : Type) := tab_error (e : thrown) | tab_loading | tab_data (a : A).
Arguments tab_error {A} e.
Arguments tab_loading {A}.
Arguments tab_data {A} a.
Definition tab_body {A B} (error : option thrown) (data : option A) (f : A → B) : TabBody B :=
  match error with Some e => tab_error e | None => match data with None => tab_loading | Some d => tab_data (f d) end end.

(** Why the assistant is not offered, for whoever can change it. *)
Record AssistantNote := MkAssistantNote { an_problem : jsstr; an_where : option (jsstr * jsstr * option jsstr) }.
Definition AssistantProblem (may_manage : bool) (status : option AssistantStatus) : option AssistantNote :=
  match assistantProblem status with
  | Some ((_ :: _) as p) =>
      if may_manage then
        Some (MkAssistantNote p
          (match status ≫= as_url with
           | Some ((_ :: _) as url) =>
               Some (or_else (nullish (status ≫= as_model) []) $"none", url,
                     match as_available <$> status with
                     | Some ((_ :: _) as l) => Some ($" · that host offers: " ++ join $", " l)
                     | _ => None
                     end)
           | _ => None
           end))
      else None
  | _ => None
  end.

(** * Health *)

Section health.
Context `{Locale} `{TimeZones}.

(** A figure with a ceiling: the bar is coloured by the status. *)
Record Meter := MkMeter { mt_label : jsstr; mt_value : jsstr; mt_dot : jsstr; mt_bar : option (Number * jsstr); mt_sub : jsstr }.
Definition meter_pct (fraction : Number) : Number := nround (nmul (nmin (num 1) (nmax (num 0) fraction)) (num 100)).
Definition meter_color (status : Tone) : jsstr :=
  match status with tone_fail => $"var(--danger)" | tone_warn => $"var(--warning)" | _ => $"var(--success)" end.
Definition MeterStat (label value : jsstr) (fraction : option Number) (status : Tone) (sub : jsstr) : Meter :=
  MkMeter label value (StatusDot status) ((λ f, (meter_pct f, meter_color status)) <$> fraction) sub.

Record HostCpu := MkHostCpu { hp_usage : option Number; hp_cores : Number; hp_source : LimitSource }.
Record HostMemory := MkHostMemory { hm_used : Number; hm_limit : Number; hm_source : LimitSource }.
Record HostDisk := MkHostDisk { hd_path : jsstr; hd_used_fraction : Number; hd_available : Number; hd_total : Number }.
Record HostHealth := MkHostHealth { ho_cpu : HostCpu; ho_memory : HostMemory; ho_disks : list HostDisk }.
Definition dash : jsstr := $"—".
Definition HostPanel (h : HostHealth) : list Meter :=
  let cpu := ho_cpu h in
  let mem := ho_memory h in
  let memFraction := usedFraction (hm_used mem) (Some (hm_limit mem)) in
  [MeterStat $"CPU" (match hp_usage cpu with Some u => formatPercent u | None => dash end) (hp_usage cpu) (cpuStatus (hp_usage cpu))
     (coresLabel (hp_cores cpu) ++ $" · " ++ limitSourceLabel (hp_source cpu) $"limit");
   MeterStat $"Memory" (match memFraction with Some f => formatPercent f | None => dash end) memFraction (memoryStatus (hm_used mem) (Some (hm_limit mem)))
     (formatBytes (Some (hm_used mem)) ++ $" of " ++ formatBytes (Some (hm_limit mem)) ++ [SPACE] ++ limitSourceLabel (hm_source mem) $"limit")]
  ++ map (λ d, MeterStat ($"Disk " ++ hd_path d) (formatPercent (hd_used_fraction d)) (Some (hd_used_fraction d)) (diskStatus (hd_used_fraction d))
       (formatBytes (Some (hd_available d)) ++ $" free of " ++ formatBytes (Some (hd_total d)))) (ho_disks h).

(** [s.replace('_', ' ')]: the first one. *)
Fixpoint replace_underscore (s : jsstr) : jsstr :=
  match s with [] => [] | c :: r => if (c =? UNDERSCORE)%N then SPACE :: r else c :: replace_underscore r end.
Record ListenerStatus := MkListenerStatus {
  ss_name : jsstr; ss_state : jsstr; ss_error : option jsstr; ss_problem : option jsstr; ss_problem_count : option Z; ss_since : option jsstr
}.
(** A listener that runs and refuses every connection is not fine. *)
Definition source_dot (s : ListenerStatus) : Tone :=
  if decide (ss_state s = $"error") then tone_fail
  else if decide (ss_state s = $"running") then (if truthy (nullish (ss_problem s) []) then tone_warn else tone_ok)
  else tone_idle.
Definition source_problem (s : ListenerStatus) : option jsstr :=
  match ss_problem s ≫= or_undef with
  | None => None
  | Some p =>
      Some (p ++ match ss_problem_count s with
                 | Some 0%Z | None => []
                 | Some n => $" (" ++ decz n ++ [SPACE] ++ (if (n =? 1)%Z then $"attempt" else $"attempts") ++ $")"
                 end)
  end.
Definition source_since (tz : jsstr) (s : ListenerStatus) : jsstr :=
  match ss_since s ≫= or_undef with Some t => formatTimestamp (Some (TsString t)) tz $"yyyy-MM-dd HH:mm" | None => [] end.
Definition component_dot (status : jsstr) : Tone := if decide (status = $"ok") then tone_ok else tone_fail.
Record SystemHealth := MkSystemHealth {
  sh_status : jsstr; sh_node : jsstr; sh_roles : option (list jsstr); sh_version : jsstr; sh_uptime : Number; sh_host : option HostHealth;
  sh_components : list (jsstr * jsstr * option jsstr); sh_sources : option (list ListenerStatus)
}.
Record SourceLine := MkSourceLine { sl_name : jsstr; sl_dot : jsstr; sl_error : option jsstr; sl_problem : option jsstr; sl_since : jsstr }.
Definition source_line (tz : jsstr) (s : ListenerStatus) : SourceLine :=
  MkSourceLine (ss_name s) (StatusDot (source_dot s)) (ss_error s ≫= or_undef) (source_problem s) (source_since tz s).
Record HealthView := MkHealthView {
  hv_ok : bool; hv_status : jsstr; hv_roles : option jsstr; hv_uptime : jsstr; hv_meters : list Meter; hv_history : bool;
  hv_components : list (jsstr * jsstr * option jsstr); hv_sources : list SourceLine
}.
Definition health_view (tz : jsstr) (h : SystemHealth) : HealthView :=
  MkHealthView (bool_decide (sh_status h = $"ready")) (replace_underscore (sh_status h)) (join $", " <$> sh_roles h)
    (formatDuration (Some (sh_uptime h))) (match sh_host h with Some x => HostPanel x | None => [] end) (given (sh_host h))
    (map (λ c, (c.1.1, StatusDot (component_dot c.1.2), c.2)) (sh_components h))
    (map (source_line tz) (nullish (sh_sources h) [])).
Definition HealthTab (error : option thrown) (data : option SystemHealth) (tz : jsstr) : TabBody HealthView := tab_body error data (health_view tz).

(** * Ingestion *)

Record SourceCounters := MkSourceCounters {
  sc_name : jsstr; sc_state : option jsstr; sc_received : option Number; sc_stored : option Number; sc_parse_errors : option Number;
  sc_dropped : option (list (jsstr * Number)); sc_received_rate : option Number; sc_stored_rate : option Number; sc_connections : option Number
}.
Definition sum_numbers (l : list Number) : Number := fold_left nadd l (num 0).
Definition droppedTotal (s : SourceCounters) : Number := sum_numbers (map snd (nullish (sc_dropped s) [])).
Definition counter_dot (s : SourceCounters) : Tone :=
  if decide (sc_state s = Some $"running") then (if falsy_number (droppedTotal s) then tone_ok else tone_warn) else tone_idle.
Definition dropped_detail (s : SourceCounters) : option jsstr :=
  if ngt (droppedTotal s) (num 0)
  then Some (join $" · " (map (λ kv, kv.1 ++ $": " ++ formatCount (Some kv.2)) (List.filter (λ kv, ngt kv.2 (num 0)) (nullish (sc_dropped s) []))))
  else None.
Definition parse_error_share (s : SourceCounters) : option jsstr :=
  match sc_received s with
  | Some n => if falsy_number n then None else Some ($"(" ++ formatPercent (ndiv (nullish (sc_parse_errors s) (num 0)) n) ++ $")")
  | None => None
  end.
Record CounterLine := MkCounterLine {
  cl_name : jsstr; cl_dot : jsstr; cl_rate : jsstr; cl_received : jsstr; cl_stored : jsstr; cl_parse_errors : jsstr * option jsstr;
  cl_dropped : jsstr * bool * option jsstr; cl_connections : jsstr
}.
Definition counter_line (s : SourceCounters) : CounterLine :=
  MkCounterLine (sc_name s) (StatusDot (counter_dot s)) (formatRate (sc_received_rate s)) (formatExact (sc_received s)) (formatExact (sc_stored s))
    (formatExact (sc_parse_errors s), parse_error_share s)
    (formatExact (Some (droppedTotal s)), negb (falsy_number (droppedTotal s)), dropped_detail s) (formatExact (sc_connections s)).
Record ForwardCounters := MkForwardCounters {
  tg_name : jsstr; tg_healthy : bool; tg_sent : Number; tg_dropped : Number; tg_queued : Number; tg_last_success : option jsstr;
  tg_last_error : option jsstr; tg_min_severity : option Severity; tg_sources : option (list jsstr)
}.
Record TargetLine := MkTargetLine {
  tr_name : jsstr; tr_state : jsstr * jsstr; tr_sent : jsstr; tr_dropped : jsstr * bool; tr_queued : jsstr * bool; tr_last : option (jsstr * jsstr); tr_labels : list jsstr;
  tr_reason : option jsstr
}.
Definition target_line (tz : jsstr) (now : Z) (t : ForwardCounters) : TargetLine :=
  MkTargetLine (tg_name t)
    (if tg_healthy t then (StatusDot tone_ok, $"healthy") else (StatusDot tone_fail, $"unhealthy"))
    (formatExact (Some (tg_sent t))) (formatExact (Some (tg_dropped t)), negb (falsy_number (tg_dropped t)))
    (formatExact (Some (tg_queued t)), negb (tg_healthy t) && ngt (tg_queued t) (num 0))
    ((λ age, (formatDuration (Some age) ++ $" ago", formatTimestamp (TsString <$> tg_last_success t) tz $"yyyy-MM-dd HH:mm"))
       <$> secondsSince (tg_last_success t) now)
    (forwardFilterLabels (tg_min_severity t) (tg_sources t))
    (if tg_healthy t then None else Some (or_else (truncateError (tg_last_error t) 110) $"Writes to this target are failing.")).
Record SystemIngestion := MkSystemIngestion {
  si_node : jsstr; si_sources : list SourceCounters; si_storage_healthy : option bool; si_p50 : option Number; si_p99 : option Number;
  si_capacity : option Number; si_bytes : option Number; si_forwarding : option (list ForwardCounters)
}.
Definition queue_fill (d : SystemIngestion) : Number :=
  match si_capacity d with
  | Some c => if falsy_number c then num 0 else ndiv (nullish (si_bytes d) (num 0)) c
  | None => num 0
  end.
Definition fill_color (fill : Number) : jsstr :=
  if ngt fill (num_of_decimal 8 (-1)) then $"var(--danger)" else if ngt fill (num_of_decimal 5 (-1)) then $"var(--warning)" else $"var(--success)".
Record IngestionView := MkIngestionView {
  iv_received : jsstr; iv_stored : jsstr; iv_writes : jsstr; iv_latency : jsstr * jsstr; iv_fill : jsstr * Number * jsstr;
  iv_sources : list CounterLine; iv_targets : list TargetLine
}.
Definition ingestion_view (tz : jsstr) (now : Z) (d : SystemIngestion) : IngestionView :=
  let fill := queue_fill d in
  MkIngestionView
    (formatRate (Some (sum_numbers (map (λ s, nullish (sc_received_rate s) (num 0)) (si_sources d)))) ++ $"/s")
    (formatRate (Some (sum_numbers (map (λ s, nullish (sc_stored_rate s) (num 0)) (si_sources d)))) ++ $"/s")
    (if bool_decide (si_storage_healthy d = Some false) then $"Failing" else $"Healthy")
    (match si_p50 d with Some x => formatDuration (Some x) | None => dash end, match si_p99 d with Some x => $"p99 " ++ formatDuration (Some x) | None => $"p50" end)
    (formatPercent fill, nmin (num 100) (nmul fill (num 100)), fill_color fill)
    (map counter_line (si_sources d))
    (map (target_line tz now) (nullish (si_forwarding d) [])).
Definition IngestionTab (error : option thrown) (data : option SystemIngestion) (tz : jsstr) (now : Z) : TabBody IngestionView :=
  tab_body error data (ingestion_view tz now).

(** * Storage *)

Record RetentionLine := MkRetentionLine { re_configured : option jsstr; re_backend : option jsstr; re_status : jsstr }.
Record SystemStorage := MkSystemStorage {
  st_backend : jsstr; st_reachable : bool; st_usage : option StorageUsage; st_compressed : option Number; st_uncompressed : option Number;
  st_retention : option RetentionLine; st_dialects : option (list jsstr); st_native_tail : bool; st_tenant_retention : bool
}.
(** [st_compressed] and [st_uncompressed] are members of the usage too. *)
Definition compression_note (s : SystemStorage) : option jsstr :=
  match st_usage s, st_uncompressed s, st_compressed s with
  | Some _, Some u, Some c =>
      if falsy_number u || falsy_number c then None
      else let ratio := ndiv u c in if falsy_number ratio then None else Some (to_fixed ratio 1 ++ $"× compression")
  | _, _, _ => None
  end.
Definition drift (s : SystemStorage) : bool := match st_retention s with Some r => bool_decide (re_status r = $"drift") | None => false end.
Record StorageView := MkStorageView {
  sv_drift : bool; sv_reachable : jsstr * jsstr; sv_stored : jsstr; sv_ratio : option jsstr; sv_disk : jsstr * jsstr * option jsstr;
  sv_retention : jsstr * option jsstr; sv_dialects : jsstr; sv_flags : jsstr * jsstr
}.
Definition yes_no (b : bool) : jsstr := if b then $"yes" else $"no".
Definition storage_view (s : SystemStorage) : StorageView :=
  let disk := storeDisk (st_usage s) in
  MkStorageView (drift s)
    (if st_reachable s then (StatusDot tone_ok, $"reachable") else (StatusDot tone_fail, $"unreachable"))
    (formatBytes (st_usage s ≫= λ _, st_compressed s)) (compression_note s)
    (if sd_limited disk then $"Disk used of limit" else $"Disk used",
     match sd_used disk with Some u => formatPercent u | None => dash end, (λ _, storeDiskNote disk formatBytes) <$> st_usage s)
    (nullish (st_retention s ≫= re_configured) dash, (λ r, $"backend " ++ nullish (re_backend r) $"unknown" ++ $" · " ++ re_status r) <$> st_retention s)
    (or_else (nullish (join $", " <$> st_dialects s) []) dash) (yes_no (st_native_tail s), yes_no (st_tenant_retention s)).
Definition StorageTab (error : option thrown) (data : option SystemStorage) : TabBody StorageView := tab_body error data storage_view.

(** * The history of the host *)

Inductive HistoryBody :=
| hb_notice (n : HostHistoryNotice) | hb_error (e : thrown) | hb_loading | hb_empty (hint : jsstr) (notes : list jsstr)
| hb_charts (charts : list HostHistoryChart) (notes : list jsstr).
(** The windows are the ones the server offers; the step is a minute until it answers. *)
Record HostHistoryPanel := MkHostHistoryPanel { hx_body : HistoryBody; hx_windows : list (jsstr * bool); hx_bucket : jsstr }.
Definition history_step (step : option Number) : Number := nullish step (num 60).
Definition host_history_panel (s : SystemSearch) (error : option thrown) (data : option HostHistoryResponse) (step : option Number) (windows : option (list jsstr)) :
    HostHistoryPanel :=
  let range := host_range s in
  let coverage := hostHistoryCoverage data in
  let notes := hostHistoryNotes coverage (history_step step) in
  MkHostHistoryPanel
    (match error with
     | Some e => match hostHistoryNotice e with Some n => hb_notice n | None => hb_error e end
     | None =>
         match data with
         | None => hb_loading
         | Some _ => if cv_samples coverage =? 0 then hb_empty (hostHistoryEmptyHint range) notes else hb_charts (hostHistoryCharts data) notes
         end
     end)
    (map (λ w, (w, bool_decide (w = range))) (match data with Some _ => nullish windows [] | None => [] end))
    (Analytics.stepLabel (history_step step)).
End health.

(** * The window of the history *)

(** The window that is chosen is the one the page then asks for. *)
Lemma chosen_window w s : w ∈ KNOWN_RANGES → host_range (set_range w s) = w.
Proof. intros Hw. unfold KNOWN_RANGES in Hw. repeat (apply elem_of_cons in Hw as [->|Hw]; [vm_compute; reflexivity|]). by apply elem_of_nil in Hw. Qed.
(** Another tab and back, and the window that was chosen is forgotten. *)
Theorem tab_forgets_window :
  let s := set_range $"7d" (MkSystemSearch tab_health None) in
  host_range s = $"7d" ∧ host_range (open_tab tab_health (open_tab tab_storage s)) = $"24h".
Proof. vm_compute. auto. Qed.
